(* ===== verification/_CoqProject ===== *)
-Q . S2P
Prelude.v
JsString.v
Sanitizers.v
Validator.v
ScriptTags.v
Chains.v
ObjectId.v
Store.v
Program.v
ProgEquiv.v
Routes.v
Posts.v
Comments.v
Api.v
Responses.v
Interleave.v
Express.v
Progress.v
Sequential.v
Serializable.v
Consistency.v
Guarantee.v
Refinement.v
Frame.v
Idempotence.v
Quiescence.v
Fairness.v
Router.v
JsHeap.v
Interop.v
Authors.v
App.v
