(* ===== verification/Prelude.v ===== *)
(** * A verification development for the blog content API

    The program is a REST back end for a blog: posts, comments and authors
    kept in a document store (MongoDB through Mongoose) and served by
    Express route handlers.  Its sources are

    - the two controllers, [comments_controller] and [posts_controller]
      (both in [src/src/controllers/comments_controller.ts], the second
      from line 169 on): eleven route handlers, four of them preceded by
      validation chains, and [convertToArrayOfParagraphs];
    - the entry point of the application ([src/unnamed/part_000]);
    - the Author schema ([src/unnamed/part_001]);
    - the compiled posts router of an earlier revision
      ([src/dist/routes/posts.js]).

    A request reaches a handler through a router; the chains of the route
    sanitize and validate the body; the handler checks identifiers, reads
    and writes the store one awaited operation after the other, and sends a
    response.  Handlers of different requests interleave at their awaits.
    The one invariant that ties documents together is the comment counter
    of a post, which [postNewComment] and [deleteComment] maintain with a
    second write.

    ** Files

    - [Prelude] (this file): tactics, the hint databases, characters, the
      error monad on sums, lemmas on strings shared by the other files.
    - [JsString]: strings of 8-bit code units with the String methods the
      sources call ([replaceAll], the collapse of newline runs, [split],
      [includes]) and [convertToArrayOfParagraphs] (lines 390-393).
    - [Sanitizers]: [trim], [toLowerCase], [escape], [isEmpty], [isIn] of
      validator.js, with the bounds on the length of what they return.
    - [Validator]: chains of express-validator as data and [runChain],
      [runChains], their interpreter; [lowerCased], the library's
      [toLowerCase()], which leaves a value that is no string as it is.
    - [ScriptTags]: the interface [ScriptTagRemover] for
      [removeDangerousScriptTags], and an implementation with fuel.
    - [Chains]: the chains of [postNewPost] (lines 226-243), [editPost]
      (273-298), [postNewComment] (55-60) and [editComment] (102-106), item
      by item.
    - [ObjectId]: the interface [ObjectIdLib] for bson identifiers and the
      implementation [hex24].
    - [Store]: the state [DB] (three finite maps) and one function per
      Mongoose call of the handlers.
    - [Program]: [Prog], the free monad of awaited operations ([Await],
      [AwaitAll] for [Promise.all], [Throw], [Ret]); [run] executes a
      handler alone, [steps] counts its operations, [expressAsyncHandler]
      turns an exception into the outcome [Failed].
    - [ProgEquiv]: [progEquiv], programs up to the way their
      continuations are written, as an equivalence that the operations on
      programs respect, and the laws of a monad for it.
    - [Routes]: [FormPOSTHandler] ([src/unnamed/part_000], line 17), a
      route as the array of its chains and its handler, and [runRoute],
      the array run in order as Express runs it.
    - [Posts]: [getAllPosts], [getSpecificPost], [postNewPost], [editPost],
      [publishPost], [deletePost] (lines 196-388), guards in source order.
      The two routes with chains are arrays ([postNewPost_route],
      [editPost_route]); [postNewPost] and [editPost] are their handlers
      on what the chains leave.
    - [Comments]: [getAllComments], [getSpecificComment], [postNewComment],
      [editComment], [deleteComment] (lines 19-168), the two routes with
      chains as arrays in the same way.
    - [Api]: [Request], one constructor per route; [serve] and [serveAll];
      the GET requests are read-only.
    - [Responses]: [bounded], the bound on the operations of a handler on
      every branch, and [wellFormedResponse].
    - [Interleave]: requests in flight: [Thread], [stepThread], [stepPool],
      [runSchedule]; the two operations of a [Promise.all] are taken in
      either order and other requests may come between them; a request
      without a result can always step.  Threads of equivalent programs
      ([threadEquiv]) step alike, also among other requests
      ([runAmong]).
    - [Express]: the response object [Res] with [res.status] and
      [res.json]; [Async], the body of an [async] function with its calls
      on [res] and its [return;]; the eleven handlers written again
      statement by statement ([getAllPosts_body], ..., the lines of the
      handlers in the controllers); [asyncHandler], the wrapper
      [expressAsyncHandler] around a body; [Error_status]
      ([src/unnamed/part_000], lines 12-16) and [answerOf], what the
      client receives from the handler or from Express's default error
      handler.
    - [Progress]: termination of a pool of requests, whatever the
      schedule, and [turns], the operations a request has taken in a
      schedule.
    - [Sequential]: [serveAll] is the schedule [oneByOne].
    - [Serializable]: [isAtomic], the requests whose handler issues one
      operation at most, and [servedBy], the order in which a schedule
      takes the requests of a pool.
    - [Consistency]: the abstract transition system of the data model
      ([transition]) and its invariants [keysOk], [countersOk], [postsOk].
    - [Guarantee]: [guarded], what every write of a handler guarantees,
      and the invariants [keysOk] and [postsOk] under interleaving.
    - [Refinement]: every request is one transition, and one it
      [allows]: the change of its route to the document it names; the
      invariants after any sequence of requests and in every reachable
      state.
    - [Frame]: [commentTarget] and [postTarget], the documents a request
      names, and [howMany], the requests of a route in a sequence.
    - [Idempotence]: [isIdempotent], the requests of the methods HTTP
      takes to be idempotent, served a second time.
    - [Quiescence]: the counters under interleaving: [balanced], what the
      requests in flight owe, and [countersOk] at quiescence.
    - [Fairness]: [soloOk], what a handler served alone asks of the
      environment, and the schedule [oneByOne] of a fresh trace as a fair
      execution.
    - [Router]: [postsRouter], the registrations of
      [dist/routes/posts.js] (lines 29-42), with Express path matching and
      dispatch, and the names imported from the posts controller.
    - [JsHeap]: JavaScript objects as the import helpers of the compiled
      router see them: values, property descriptors, objects in a heap,
      [Object.getOwnPropertyDescriptor], [Object.defineProperty], member
      reads through getters, strict-mode assignment, [for-in]; the
      invariant [heapOk] and its test [heapOkb].
    - [Interop]: [__createBinding], [__setModuleDefault] and
      [__importStar] ([dist/routes/posts.js], lines 2-24), in the variant
      for engines with [Object.create] and in the one without; and
      [postsModule], the body of the module (lines 25-42) from the mark on
      [exports] through the import of the controller to the
      registrations of [Router].
    - [Authors]: the Author schema of [src/unnamed/part_001] as data
      ([authorSchema], lines 5-7), validation and the unique index of its
      path, [Author_create], and [authorModule], the body of the compiled
      module (lines 2-8).
    - [App]: [startup], the statements of the entry point (lines 20-62) as
      steps on the state [Process], the delivery of [SIGINT] and [exit],
      [afterRejections], what Node does with an unhandled rejection in
      either of its modes, and [main], the file run in a process whose
      variables [configDotenv] (line 21) completes from [.env].

    ** What the theorems show

    - Functional behaviour of every handler on each of its branches, the
      error branches included: malformed identifier, validation errors,
      missing document, exceptions of the identifier constructor
      ([Posts], [Comments]).  What the chains report, with the value each
      error carries (none for a missing category), and what the sanitized
      body holds when the request was a body of strings ([Chains]); the
      paragraph conversion against a
      reference definition ([JsString]).  [escape] is injective and fixes
      only the texts without a character it replaces ([Sanitizers]), so
      that a stored title submitted again is escaped a second time
      ([title_resubmitted]).
    - Invariants: counter consistency, keys and validation of stored posts
      are preserved by every request and hold in every reachable state
      ([Refinement]), as a consequence of the refinement of [transition]
      by [serve].  Immutable fields stay as they are.  A request changes
      the documents it names and no other ([request_frame]).  A GET, PUT, PATCH
      or DELETE request served again leaves the store it left, and all
      but DELETE answer again as they did; a POST sent again stores the
      post twice ([Idempotence]).  Without fresh
      identifiers the counters go wrong: a post created under an
      identifier a comment references ([orphan_breaks_counter]), a
      comment whose save is rejected after its counter was incremented
      ([duplicate_breaks_counter]).
    - Concurrency: keys and validation of stored posts hold at every
      moment of every interleaving ([Guarantee]); the counters are right
      up to what is owed at every moment and right at quiescence, when
      identifiers are fresh ([Quiescence]); every pool of requests
      terminates, a request has its answer after three operations of its
      own at most and can take its next one until then, whatever the
      others do ([Progress], [Interleave]); serving the
      requests one after the other, as the theorems on [serveAll] have
      it, is one of the schedules ([Sequential]), and a fair one when the
      trace is fresh, so that the theorem on sequences of requests is a
      case of the one on interleavings ([Fairness]); a pool of requests
      of one operation each (the four that read, [postNewPost],
      [publishPost], [deletePost]) is served, however it is interleaved,
      as [serveAll] serves the requests in the order of the schedule
      ([Serializable]), while two concurrent edits of a post lose an
      update ([Interleave]).
    - Authors: a creation that succeeds keeps the names distinct and not
      empty, and fails on each branch as the schema says; no request
      writes the authors, however requests interleave; the compiled
      Author module is imported as it is ([Authors]).
    - Responses: status and body go together in every response
      ([Responses]).  Read statement by statement, every handler calls
      [res.json] exactly once when it is not rejected, with the response
      the handler of [Posts] or [Comments] returns, and has not touched
      the response object when it is rejected; every request is answered,
      by its handler or by the default error handler with status 500; the
      statement-level bodies issue the operations of the handlers, also
      among other requests ([Express]).
    - Bounds: a sequence of requests adds one document at most for each
      creation it holds and removes one at most for each deletion
      ([store_growth]); the stored title and text are at most six times
      as long as what was sent ([Chains]); a handler issues at most three
      operations ([Responses]).
    - Round trips and equivalences: creating and deleting a comment gives
      back the store; the two writes of [Promise.all] commute; the arrays
      of the four routes with chains, run by Express, are the handlers on
      what the chains leave ([Comments]).
    - Module interop: [__importStar] never throws and keeps the heap
      well formed; for a CommonJS module it builds an object with the
      enumerable names of the module but [default], each reading what the
      module reads, and the module as [default]; the getters follow later
      assignments to the module where the copies of the other variant do
      not ([Interop]).
    - Start-up and routing: the stale router cannot load, whichever way
      the controller is imported, and loads against a controller that
      exports a function as [postNewArticle] ([Interop]); what it would
      serve ([Router]); a failed connection is never reported and, on a
      Node that throws on unhandled rejections, ends the process; the
      order of the middleware, [SIGINT] does not end the process, the
      variables of the process come before those of [.env] ([App]).

    ** Bounds, fuel and assumptions

    - Strings are [string] of the Standard Library, a JavaScript string
      whose code units are below 256; the whitespace class and
      [toLowerCase] are those of that range.  [trim] removes more
      characters of a JavaScript string, and [toLowerCase] can make one
      longer: the theorems on the chains and the handlers use nothing
      that holds in that range only ([toLowerCase_length] serves for
      hexadecimal digits).
    - [stripScriptTags] recurses with fuel, the length of its input: every
      round consumes a character, and [stripScriptTags_fuel_enough] shows
      that more fuel changes nothing.  [readFuel] follows getters with
      fuel; [read] gives it one more than the location read, which is
      enough in a heap whose getters read older objects
      ([readFuel_enough], [read_total]).  Nothing else uses fuel:
      [runThread] takes a number of operations, and three are enough for
      every handler ([handlers_terminate], [runThread_enough]).
    - A heap is a list of objects and a location an index; objects are
      never freed.  The controller is an object of the heap before the
      router's module runs.
    - Timestamps and counters are [Z]: JavaScript numbers in the range
      where integers are exact.
    - The fields of a request body, the route parameters and the query
      parameters are strings, as the specification has them and as a form
      sends them.  A field that is an array or a boolean is read through
      [toString]; the element-wise treatment express-validator gives an
      array that arrives in a JSON body or from a repeated key, and what
      the casts of the Post and Comment schemas make of it, are not
      modelled, nor are fields that are numbers, [null] or objects.
    - One conversion from strings ([parseObjectId]) stands for the test
      [isValid], the constructor and the cast of Mongoose: the three
      accept the same strings, as bson from version 5 and Mongoose are
      written ([ObjectId]).
    - What the code leaves to the Post and Comment schemas is taken from
      the data model of the specification: [commentCount] starts at zero
      and a replacement document that does not mention it keeps it;
      [post] and [commenter] of a comment are identifiers; [commenter]
      refers to an author.  The code itself selects a field [username] of
      the commenter, which the Author schema does not have.
    - The compiled router finds no helper on [this], which is the empty
      [exports] object when a CommonJS module is loaded ([helperOr]).
    - The identifier and the clock of a request are inputs ([Env]).
      Freshness of generated identifiers is a hypothesis where a theorem
      needs it ([freshRequest], [admissible]) and the theorems of
      [Refinement] show what happens without it.
    - Concrete runs are instances of the general theorems, their
      hypotheses checked by conversion.

    ** Not modelled

    - The code of the libraries: validator.js, express-validator,
      Mongoose, bson, Express, Node.  What the sources use of them is
      modelled from their documented behaviour and marked as such where
      it is defined.  Of Express's default error handler only the status
      of its page is modelled; the entry point installs no error
      middleware of its own.
    - The Post and Comment schemas, the category list and
      [removeDangerousScriptTags], which the controllers import and the
      sources do not contain: the first as the fields the controllers
      write, the others as parameters.  The options of the Author schema
      are read as Mongoose and MongoDB document them; the unique index is
      taken to be built.
    - The parsing of [.env]: [configDotenv] takes the variables the file
      defines.
    - [resource_router] and [auth_router], imported by the entry point
      and absent from the sources; the routes of [Api] are those of the
      exported handlers.  Authentication is not implemented by the
      program.
    - Prototypes, symbols and integer-like property names of JavaScript
      objects, setters, and getters other than the one [__createBinding]
      creates: module objects have none that the helpers or the router
      read.  [.eslintrc] in [src/unnamed/part_001].
    - The middleware the entry point installs (morgan, the body parsers,
      cookie-parser, helmet), which appear by name; decoding of
      percent-escapes in route parameters; the error middleware of
      Express, of which only the outcome [Failed] is recorded; the version
      of Node, on which the fate of an unhandled rejection depends: both
      behaviours are given ([afterRejections]). *)

From stdpp Require Export base tactics option list strings.
From Stdlib Require Export Ascii.
From Stdlib Require String.


Declare Scope blog_scope.
Delimit Scope blog_scope with blog.

(** ** Hint database *)

Create HintDb blog discriminated.
Create Rewrite HintDb blog.

(** ** Tactics *)

(** [case_char c] splits on a test [Ascii.eqb c _] of the goal. *)
Ltac case_char :=
  match goal with
  | |- context [Ascii.eqb ?a ?b] => destruct (Ascii.eqb_spec a b); simplify_eq/=
  end.

(** [all_chars c] replaces the character [c] by each of its 256 values. *)
Ltac all_chars c := destruct c as [[] [] [] [] [] [] [] []].

(** ** Characters *)

Definition LF : ascii := "010"%char.
Definition CR : ascii := "013"%char.

(** Tests on characters stay folded under [simpl]: they are split by
    [case_char] or by [Ascii.eqb_spec]. *)
#[global] Arguments Ascii.eqb : simpl never.

(** Concatenation unfolds under [simpl] when its first argument starts with
    a constructor, as the functions on strings of this development do. *)
#[global] Arguments String.append !_ _ / : simpl nomatch.

(** ** Results

    A computation that fails with an error of type [E] is a value of
    [E + A]; [x ← m; k] stops at the first error. *)

#[export] Instance sum_ret {E} : MRet (sum E) := λ A, inr.
#[export] Instance sum_bind {E} : MBind (sum E) :=
  λ A B f m, match m with inl e => inl e | inr a => f a end.

(** ** Lists *)

(** Replacing the element that follows [l1]. *)
Lemma list_insert_middle {A} (l1 l2 : list A) (x y : A) :
  <[length l1 := y]> (l1 ++ x :: l2) = l1 ++ y :: l2.
Proof. by rewrite <-(Nat.add_0_r (length l1)), insert_app_r. Qed.

(** A filter keeps a list whose elements all pass. *)
Lemma list_filter_all {A} (P : A → Prop) `{∀ x, Decision (P x)} (l : list A) :
  Forall P l → filter P l = l.
Proof.
  induction 1 as [|x l Hx _ IH]; [done|]. by rewrite filter_cons_True, IH.
Qed.

(** ** Strings as lists of characters *)

Section strings.
Implicit Types (s t u : string) (c : ascii).

Lemma string_app_nil_r s : s +:+ "" = s.
Proof. induction s; simpl; congruence. Qed.

Lemma string_app_assoc s t u : (s +:+ t) +:+ u = s +:+ (t +:+ u).
Proof. induction s; simpl; congruence. Qed.

Lemma string_app_eq_nil s t : s +:+ t = "" → s = "" ∧ t = "".
Proof. by destruct s. Qed.

Lemma string_length_app s t :
  String.length (s +:+ t) = String.length s + String.length t.
Proof. induction s; simpl; congruence. Qed.

End strings.

#[export] Hint Rewrite string_app_nil_r string_app_assoc : blog.
