(* ===== verification/JsString.v ===== *)
(** * JsString: the string primitives of the controllers

    [convertToArrayOfParagraphs] of [posts_controller] and the JavaScript
    string methods it is written with: [replaceAll] with a one-character
    pattern, [replaceAll(/\n+/g, '\n')] ([collapseNewlines]) and
    [split('\n')].  The theorems give the shape of the paragraphs the
    conversion stores and relate it to a plain split that drops the empty
    lines. *)

From S2P Require Import Prelude.

(** ** Definitions *)

(** [s.includes(c)] for a one-character [c]. *)
Fixpoint includes (c : ascii) (s : string) : bool :=
  match s with
  | "" => false
  | String a s' => Ascii.eqb a c || includes c s'
  end.

(** [s.replaceAll(c, r)] for a one-character pattern [c]. *)
Fixpoint replaceAll (c : ascii) (r : string) (s : string) : string :=
  match s with
  | "" => ""
  | String a s' =>
      if Ascii.eqb a c then r +:+ replaceAll c r s'
      else String a (replaceAll c r s')
  end.

Definition startsWith (c : ascii) (s : string) : bool :=
  match s with
  | "" => false
  | String a _ => Ascii.eqb a c
  end.

Fixpoint endsWith (c : ascii) (s : string) : bool :=
  match s with
  | "" => false
  | String a "" => Ascii.eqb a c
  | String _ s' => endsWith c s'
  end.

(** [s.replaceAll(/\n+/g, '\n')]: every maximal run of line feeds becomes
    one line feed. *)
Fixpoint collapseNewlines (s : string) : string :=
  match s with
  | "" => ""
  | String a s' =>
      if Ascii.eqb a LF && startsWith LF s' then collapseNewlines s'
      else String a (collapseNewlines s')
  end.

(** [s.split(sep)] for a one-character separator: never the empty list,
    [""] splits to [[""]]. *)
Fixpoint split (sep : ascii) (s : string) : list string :=
  match s with
  | "" => [""]
  | String a s' =>
      if Ascii.eqb a sep then "" :: split sep s'
      else match split sep s' with
           | [] => [String a ""]
           | p :: ps => String a p :: ps
           end
  end.

(** [l.join(sep)], the inverse of [split]. *)
Fixpoint join (sep : ascii) (l : list string) : string :=
  match l with
  | [] => ""
  | [p] => p
  | p :: ps => p +:+ String sep (join sep ps)
  end.

(** [posts_controller.convertToArrayOfParagraphs]. *)
Definition convertToArrayOfParagraphs (text : string) : list string :=
  split LF (collapseNewlines (replaceAll CR "" text)).

(** The custom sanitizer of [editPost]'s [text] chain, written inline in the
    source with the same three calls. *)
Definition editPost_textToParagraphs (text : string) : list string :=
  split LF (collapseNewlines (replaceAll CR "" text)).

(** A paragraph is well formed when it holds no line break. *)
Definition paragraph_ok (p : string) : bool :=
  negb (includes LF p) && negb (includes CR p).

Definition nonEmpty (s : string) : bool :=
  match s with "" => false | _ => true end.

(** First and last character. *)
Definition headChar (s : string) : option ascii :=
  match s with "" => None | String a _ => Some a end.

Fixpoint lastChar (s : string) : option ascii :=
  match s with
  | "" => None
  | String a "" => Some a
  | String _ s' => lastChar s'
  end.

(** [s] has two line feeds in a row. *)
Fixpoint hasDoubleLF (s : string) : bool :=
  match s with
  | "" => false
  | String a s' => (Ascii.eqb a LF && startsWith LF s') || hasDoubleLF s'
  end.

(** [edges P s]: [s] is not empty and its first and last characters
    satisfy [P]. *)
Definition edges (P : ascii → bool) (s : string) : bool :=
  match headChar s, lastChar s with
  | Some a, Some b => P a && P b
  | _, _ => false
  end.

Definition isLineBreak (c : ascii) : bool := Ascii.eqb c LF || Ascii.eqb c CR.

(** The lines of a text, empty ones dropped: the reference the paragraph
    conversion is compared with. *)
Definition nonEmptyLines (text : string) : list string :=
  List.filter nonEmpty (split LF (replaceAll CR "" text)).

(** ** Examples *)

Example convert_spec_example :
  convertToArrayOfParagraphs ("a" +:+ String CR (String LF (String LF (String LF
    ("b" +:+ String LF "c"))))) = ["a"; "b"; "c"].
Proof. reflexivity. Qed.

Example convert_empty : convertToArrayOfParagraphs "" = [""].
Proof. reflexivity. Qed.

(** ** Occurrences of a character *)

Section occurrences.
Implicit Types (s t r : string) (c d sep : ascii) (l : list string).

Lemma includes_app c s t : includes c (s +:+ t) = includes c s || includes c t.
Proof. induction s as [|a s IH]; simpl; [done|]. by rewrite IH, orb_assoc. Qed.

Lemma startsWith_includes c s : startsWith c s = true → includes c s = true.
Proof. destruct s; simpl; [done|]. by intros ->. Qed.

Lemma includes_replaceAll c d r s :
  includes d (replaceAll c r s) =
  (includes c s && includes d r) || includes d (replaceAll c "" s).
Proof.
  induction s as [|a s IH]; simpl; [done|].
  case_char; simpl; rewrite ?includes_app, IH; [|destruct (Ascii.eqb a d)]; simpl;
    repeat (destruct (includes _ _)); done.
Qed.

Lemma includes_replaceAll_nil_eq c s : includes c (replaceAll c "" s) = false.
Proof. induction s as [|a s IH]; simpl; [done|]. case_char; [done|]. by case_char. Qed.

Lemma includes_replaceAll_nil_ne c d s :
  c ≠ d → includes d (replaceAll c "" s) = includes d s.
Proof.
  intros Hcd. induction s as [|a s IH]; simpl; [done|].
  case_char; simpl; rewrite IH; [|done].
  by destruct (Ascii.eqb_spec c d).
Qed.

Lemma includes_collapseNewlines c s :
  includes c (collapseNewlines s) = includes c s.
Proof.
  induction s as [|a s IH]; simpl; [done|].
  destruct (Ascii.eqb_spec a LF) as [->|]; simpl; [|by rewrite IH].
  destruct (startsWith LF s) eqn:Hs; simpl; rewrite IH; [|done].
  destruct (Ascii.eqb_spec LF c) as [<-|]; [|done].
  by rewrite (startsWith_includes _ _ Hs).
Qed.

Lemma split_not_nil sep s : split sep s ≠ [].
Proof. destruct s as [|a s]; simpl; [done|]. case_char; [done|]. by destruct (split _ _). Qed.

(** The two equations of [split], with the impossible empty result gone. *)
Lemma split_cons_eq sep s : split sep (String sep s) = "" :: split sep s.
Proof. simpl. by rewrite Ascii.eqb_refl. Qed.

Lemma split_cons_ne sep a s :
  a ≠ sep →
  ∃ p ps, split sep s = p :: ps ∧ split sep (String a s) = String a p :: ps.
Proof.
  intros Hne. simpl. destruct (Ascii.eqb_spec a sep); [done|].
  pose proof (split_not_nil sep s). destruct (split sep s) as [|p ps]; [done|]. eauto.
Qed.

Lemma split_Forall_excludes d sep s :
  includes d s = false → Forall (λ p, includes d p = false) (split sep s).
Proof.
  induction s as [|a s IH]; [by repeat constructor|].
  intros H. simpl in H. apply orb_false_elim in H as [Ha Hs]. specialize (IH Hs).
  destruct (decide (a = sep)) as [->|Hne]; [rewrite split_cons_eq; by constructor|].
  destruct (split_cons_ne sep a s Hne) as (p & ps & Hp & ->).
  rewrite Hp in IH. inv IH. constructor; simpl; [by rewrite Ha|done].
Qed.

Lemma split_Forall_sep sep s : Forall (λ p, includes sep p = false) (split sep s).
Proof.
  induction s as [|a s IH]; [by repeat constructor|].
  destruct (decide (a = sep)) as [->|Hne]; [rewrite split_cons_eq; by constructor|].
  destruct (split_cons_ne sep a s Hne) as (p & ps & Hp & ->).
  rewrite Hp in IH. inv IH. constructor; simpl; [|done].
  by destruct (Ascii.eqb_spec a sep).
Qed.

End occurrences.

(** ** [split] and [join] are inverse *)

Section split_join.
Implicit Types (s t : string) (sep : ascii) (l : list string).

Lemma join_cons_String sep a p l :
  join sep (String a p :: l) = String a (join sep (p :: l)).
Proof. by destruct l. Qed.

Lemma join_split sep s : join sep (split sep s) = s.
Proof.
  induction s as [|a s IH]; [done|].
  destruct (decide (a = sep)) as [->|Hne].
  - rewrite split_cons_eq. pose proof (split_not_nil sep s).
    destruct (split sep s); [done|]. by rewrite <-IH.
  - destruct (split_cons_ne sep a s Hne) as (p & ps & Hp & ->).
    by rewrite join_cons_String, <-Hp, IH.
Qed.

Lemma split_app_sep sep p s :
  includes sep p = false → split sep (p +:+ String sep s) = p :: split sep s.
Proof.
  induction p as [|a p IH]; simpl.
  - intros _. by rewrite Ascii.eqb_refl.
  - intros [Ha Hp]%orb_false_elim. by rewrite Ha, IH.
Qed.

Lemma split_excludes sep p : includes sep p = false → split sep p = [p].
Proof.
  induction p as [|a p IH]; simpl; [done|].
  intros [Ha Hp]%orb_false_elim. by rewrite Ha, IH.
Qed.

Lemma split_join sep l :
  l ≠ [] → Forall (λ p, includes sep p = false) l → split sep (join sep l) = l.
Proof.
  induction l as [|p l IH]; [done|]. intros _ Hl. inv Hl.
  destruct l as [|q l]; [by apply split_excludes|].
  change (join sep (p :: q :: l)) with (p +:+ String sep (join sep (q :: l))).
  rewrite split_app_sep by done. f_equal. by apply IH.
Qed.

End split_join.

(** ** Paragraphs *)

Section paragraphs.
Implicit Types (s t text : string) (c : ascii) (l : list string).

Lemma lastChar_is_Some a s : is_Some (lastChar (String a s)).
Proof. revert a. induction s as [|b s IH]; intros a; [by eexists|]. apply (IH b). Qed.

Lemma lastChar_cons a s :
  lastChar (String a s) = match lastChar s with Some b => Some b | None => Some a end.
Proof.
  destruct s as [|b s]; [done|]. destruct (lastChar_is_Some b s) as [c Hc].
  change (lastChar (String a (String b s))) with (lastChar (String b s)). by rewrite Hc.
Qed.

Lemma lastChar_None s : lastChar s = None ↔ s = "".
Proof.
  destruct s as [|a s]; [done|]. split; [|done].
  destruct (lastChar_is_Some a s) as [c Hc]. by rewrite Hc.
Qed.

Lemma endsWith_lastChar c s : endsWith c s = true ↔ lastChar s = Some c.
Proof.
  induction s as [|a s IH]; [done|]. rewrite lastChar_cons.
  destruct s as [|b s]; [simpl; destruct (Ascii.eqb_spec a c); split; congruence|].
  change (endsWith c (String a (String b s))) with (endsWith c (String b s)).
  rewrite IH. by destruct (lastChar_is_Some b s) as [d ->].
Qed.

Lemma startsWith_headChar c s : startsWith c s = true ↔ headChar s = Some c.
Proof. destruct s as [|a s]; simpl; [done|]. destruct (Ascii.eqb_spec a c); naive_solver. Qed.

Lemma collapseNewlines_headChar s : headChar (collapseNewlines s) = headChar s.
Proof.
  induction s as [|a s IH]; simpl; [done|].
  destruct (Ascii.eqb_spec a LF) as [->|]; simpl; [|done].
  destruct (startsWith LF s) eqn:Hs; simpl; [|done].
  apply startsWith_headChar in Hs. by rewrite IH.
Qed.

Lemma collapseNewlines_startsWith c s :
  startsWith c (collapseNewlines s) = startsWith c s.
Proof.
  pose proof (collapseNewlines_headChar s) as H.
  destruct (collapseNewlines s), s; simplify_eq/=; done.
Qed.

Lemma collapseNewlines_noDouble s : hasDoubleLF (collapseNewlines s) = false.
Proof.
  induction s as [|a s IH]; simpl; [done|].
  destruct (Ascii.eqb a LF && startsWith LF s) eqn:E; simpl; [done|].
  by rewrite collapseNewlines_startsWith, E, IH.
Qed.

Lemma collapseNewlines_lastChar s : lastChar (collapseNewlines s) = lastChar s.
Proof.
  induction s as [|a s IH]; simpl collapseNewlines; [done|].
  destruct (Ascii.eqb_spec a LF) as [->|]; simpl andb.
  - destruct (startsWith LF s) eqn:Hs.
    + rewrite IH, lastChar_cons. destruct s as [|b s]; [done|].
      by destruct (lastChar_is_Some b s) as [d ->].
    + by rewrite !lastChar_cons, IH.
  - by rewrite !lastChar_cons, IH.
Qed.

(** Every part of a split after the first one is non-empty when no two
    separators are adjacent and the string does not end in one; so is the
    first part when the string is not empty and does not start with one. *)
Lemma split_nonEmpty_parts s :
  hasDoubleLF s = false → endsWith LF s = false →
  Forall (λ p, nonEmpty p = true) (tail (split LF s)) ∧
  (s ≠ "" → startsWith LF s = false → nonEmpty (hd "" (split LF s)) = true).
Proof.
  induction s as [|a s IH]; [by split|]. intros Hd He.
  simpl in Hd. apply orb_false_elim in Hd as [Ha Hd].
  assert (endsWith LF s = false) as He'.
  { destruct s; [done|]. exact He. }
  destruct (IH Hd He') as [IHt IHh]. destruct (decide (a = LF)) as [->|Hne].
  - rewrite split_cons_eq. rewrite Ascii.eqb_refl in Ha. simpl in Ha.
    split; [|intros _ H; simpl in H; by rewrite Ascii.eqb_refl in H]. simpl.
    assert (s ≠ "") as Hs by (by intros ->).
    pose proof (split_not_nil LF s). destruct (split LF s) as [|p ps]; [done|].
    constructor; [by apply IHh|done].
  - destruct (split_cons_ne LF a s Hne) as (p & ps & Hp & ->).
    rewrite Hp in IHt. by split.
Qed.

Lemma split_nonEmpty s :
  s ≠ "" → hasDoubleLF s = false → startsWith LF s = false → endsWith LF s = false →
  Forall (λ p, nonEmpty p = true) (split LF s).
Proof.
  intros Hs Hd Hh He. destruct (split_nonEmpty_parts s Hd He) as [Ht Hhd].
  pose proof (split_not_nil LF s). destruct (split LF s) as [|p ps]; [done|].
  constructor; [by apply Hhd|done].
Qed.

Lemma replaceAll_nil_headChar c a s :
  a ≠ c → headChar (replaceAll c "" (String a s)) = Some a.
Proof. intros Hne. simpl. by destruct (Ascii.eqb_spec a c). Qed.

Lemma replaceAll_nil_lastChar c b s :
  b ≠ c → lastChar s = Some b → lastChar (replaceAll c "" s) = Some b.
Proof.
  intros Hne. induction s as [|a s IH]; [done|]. rewrite lastChar_cons. simpl.
  destruct (lastChar s) as [b'|] eqn:Hl.
  - intros [= ->]. destruct (Ascii.eqb a c); [by apply IH|].
    by rewrite lastChar_cons, IH.
  - intros [= ->]. apply lastChar_None in Hl as ->.
    by destruct (Ascii.eqb_spec b c).
Qed.

Lemma edges_inv P s :
  edges P s = true →
  ∃ a b, headChar s = Some a ∧ lastChar s = Some b ∧ P a = true ∧ P b = true.
Proof.
  unfold edges. destruct (headChar s) as [a|], (lastChar s) as [b|]; try done.
  intros [??]%andb_true_iff. eauto 10.
Qed.

Lemma edges_intro P s a b :
  headChar s = Some a → lastChar s = Some b → P a = true → P b = true →
  edges P s = true.
Proof. unfold edges. by intros -> -> -> ->. Qed.

Lemma edges_weaken (P Q : ascii → bool) s :
  (∀ c, P c = true → Q c = true) → edges P s = true → edges Q s = true.
Proof. intros HPQ (a & b & ? & ? & ? & ?)%edges_inv. eauto using edges_intro. Qed.

Lemma isLineBreak_false c : isLineBreak c = false ↔ c ≠ LF ∧ c ≠ CR.
Proof.
  unfold isLineBreak.
  destruct (Ascii.eqb_spec c LF), (Ascii.eqb_spec c CR); simpl; intuition congruence.
Qed.

(** After the carriage returns are removed and the newline runs collapsed,
    a text whose first and last characters are no line breaks is not empty
    and neither starts nor ends with a line feed. *)
Lemma normalised_edges text :
  edges (λ c, negb (isLineBreak c)) text = true →
  let t := collapseNewlines (replaceAll CR "" text) in
  t ≠ "" ∧ startsWith LF t = false ∧ endsWith LF t = false.
Proof.
  intros (a & b & Hh & Hl & [Ha1 Ha2]%negb_true_iff%isLineBreak_false
                         & [Hb1 Hb2]%negb_true_iff%isLineBreak_false)%edges_inv.
  destruct text as [|a' text]; [done|]. injection Hh as ->. intros t.
  assert (headChar t = Some a) as Hh'.
  { unfold t. by rewrite collapseNewlines_headChar, replaceAll_nil_headChar. }
  assert (lastChar t = Some b) as Hl'.
  { unfold t. rewrite collapseNewlines_lastChar. by apply replaceAll_nil_lastChar. }
  clearbody t. split_and!.
  - intros E. by rewrite E in Hh'.
  - apply not_true_is_false. rewrite startsWith_headChar. congruence.
  - apply not_true_is_false. rewrite endsWith_lastChar. congruence.
Qed.

Lemma collapseNewlines_LF s :
  collapseNewlines (String LF s)
  = if startsWith LF s then collapseNewlines s else String LF (collapseNewlines s).
Proof. done. Qed.

Lemma collapseNewlines_ne a s :
  a ≠ LF → collapseNewlines (String a s) = String a (collapseNewlines s).
Proof. intros Hne. simpl. by destruct (Ascii.eqb_spec a LF). Qed.

Lemma split_hd_tl sep s : split sep s = hd "" (split sep s) :: tail (split sep s).
Proof. pose proof (split_not_nil sep s). by destruct (split sep s). Qed.

(** Collapsing the runs of line feeds keeps the first line and, up to empty
    lines, the others. *)
Lemma collapseNewlines_split s :
  hd "" (split LF (collapseNewlines s)) = hd "" (split LF s) ∧
  List.filter nonEmpty (tail (split LF (collapseNewlines s)))
  = List.filter nonEmpty (tail (split LF s)).
Proof.
  induction s as [|a s [IHh IHt]]; [done|].
  destruct (decide (a = LF)) as [->|Hne].
  - rewrite split_cons_eq, collapseNewlines_LF.
    destruct (startsWith LF s) eqn:Hs.
    + destruct s as [|b s]; [done|]. apply startsWith_headChar in Hs as [= ->].
      rewrite IHh, IHt, split_cons_eq. done.
    + rewrite split_cons_eq. split; [done|]. simpl tail.
      rewrite (split_hd_tl LF s), (split_hd_tl LF (collapseNewlines s)).
      simpl. by rewrite IHh, IHt.
  - rewrite collapseNewlines_ne by done.
    destruct (split_cons_ne LF a s Hne) as (p & ps & Hp & ->).
    destruct (split_cons_ne LF a (collapseNewlines s) Hne) as (q & qs & Hq & ->).
    rewrite Hp, Hq in *. simpl in *. by subst.
Qed.

End paragraphs.

(** ** The paragraph conversion *)

Lemma paragraphs_no_lineBreak text :
  Forall (λ p, paragraph_ok p = true) (convertToArrayOfParagraphs text).
Proof.
  unfold convertToArrayOfParagraphs, paragraph_ok.
  pose proof (split_Forall_sep LF (collapseNewlines (replaceAll CR "" text))) as H1.
  pose proof (split_Forall_excludes CR LF (collapseNewlines (replaceAll CR "" text))) as H2.
  rewrite includes_collapseNewlines, includes_replaceAll_nil_eq in H2.
  specialize (H2 eq_refl). rewrite Forall_forall in *.
  intros p Hp. by rewrite H1, H2.
Qed.

Lemma paragraphs_nonEmpty text :
  edges (λ c, negb (isLineBreak c)) text = true →
  Forall (λ p, nonEmpty p = true) (convertToArrayOfParagraphs text).
Proof.
  intros (Hne & Hh & Hl)%normalised_edges.
  apply split_nonEmpty; auto using collapseNewlines_noDouble.
Qed.

(** *** Lengths *)

(** The number of characters of the strings of a list. *)
Fixpoint totalLength (l : list string) : nat :=
  match l with
  | [] => 0
  | s :: l' => String.length s + totalLength l'
  end.

Lemma replaceAll_nil_length c s :
  String.length (replaceAll c "" s) ≤ String.length s.
Proof.
  induction s as [|a s IH]; simpl; [done|].
  destruct (Ascii.eqb_spec a c); simpl; lia.
Qed.

Lemma collapseNewlines_length s :
  String.length (collapseNewlines s) ≤ String.length s.
Proof.
  induction s as [|a s IH]; [done|].
  destruct (Ascii.eqb_spec a LF) as [->|Hne].
  - rewrite collapseNewlines_LF. destruct (startsWith LF s); simpl in *; lia.
  - rewrite collapseNewlines_ne by done. simpl. lia.
Qed.

Lemma split_totalLength sep s : totalLength (split sep s) ≤ String.length s.
Proof.
  induction s as [|a s IH]; [done|].
  destruct (Ascii.eqb_spec a sep) as [->|Hne].
  - rewrite split_cons_eq. simpl. lia.
  - destruct (split_cons_ne sep a s Hne) as (p & ps & Hs & ->).
    rewrite Hs in IH. simpl in *. lia.
Qed.

Lemma convert_totalLength text :
  totalLength (convertToArrayOfParagraphs text) ≤ String.length text.
Proof.
  unfold convertToArrayOfParagraphs. etrans; [apply split_totalLength|].
  etrans; [apply collapseNewlines_length|]. apply replaceAll_nil_length.
Qed.

(** Every paragraph [convertToArrayOfParagraphs] returns is free of line
    feeds and carriage returns, whatever the text. *)
Theorem convert_paragraphs_ok text :
  Forall (λ p, paragraph_ok p = true) (convertToArrayOfParagraphs text).
Proof. apply paragraphs_no_lineBreak. Qed.

(** Joining the paragraphs with line feeds gives back the text with its
    carriage returns removed and its runs of line feeds collapsed: the
    conversion loses nothing else. *)
Theorem convert_join text :
  join LF (convertToArrayOfParagraphs text)
  = collapseNewlines (replaceAll CR "" text).
Proof. apply join_split. Qed.

(** When the first and the last character of the text are no line
    breaks (as after [trim] on a text that is not blank), no paragraph is
    empty. *)
Theorem convert_nonEmpty text :
  edges (λ c, negb (isLineBreak c)) text = true →
  Forall (λ p, nonEmpty p = true) (convertToArrayOfParagraphs text).
Proof. apply paragraphs_nonEmpty. Qed.

Lemma convert_nonEmpty_witness :
  Forall (λ p, nonEmpty p = true)
    (convertToArrayOfParagraphs ("a" +:+ String CR (String LF (String LF "b")))).
Proof. apply convert_nonEmpty. reflexivity. Defined.

(** Up to empty entries, the paragraphs are the non-empty lines of the
    text: collapsing the newline runs before the split does what dropping
    the empty lines after it does. *)
Theorem convert_nonEmptyLines text :
  List.filter nonEmpty (convertToArrayOfParagraphs text) = nonEmptyLines text.
Proof.
  unfold convertToArrayOfParagraphs, nonEmptyLines.
  destruct (collapseNewlines_split (replaceAll CR "" text)) as [Hh Ht].
  rewrite (split_hd_tl LF (collapseNewlines _)), (split_hd_tl LF (replaceAll _ _ _)).
  simpl. by rewrite Hh, Ht.
Qed.

(** The inline sanitizer of [editPost] and the exported
    [convertToArrayOfParagraphs] of [postNewPost] agree on every text. *)
Remark editPost_textToParagraphs_eq text :
  editPost_textToParagraphs text = convertToArrayOfParagraphs text.
Proof. reflexivity. Qed.
