(* ===== verification/Sanitizers.v ===== *)
(** * Sanitizers: the validator.js functions the chains call

    [trim], [toLowerCase], [escape], [isEmpty] and [isIn] of validator.js,
    which express-validator applies to a field when a chain of the
    controllers names them.  Their code is not part of the repository: they
    are modelled from the library's documented behaviour ([escape] as the
    eight successive replacements the library performs, [trim] as [rtrim]
    after [ltrim] over the characters JavaScript's [\s] matches below 256).
    The lemmas are the facts about them that the theorems on the chains and
    the handlers use. *)

From S2P Require Import Prelude JsString.

(** ** Definitions *)

(** The characters [\s] matches among the code units below 256: tab, line
    feed, vertical tab, form feed, carriage return, space, no-break space. *)
Definition isWhitespace (c : ascii) : bool :=
  match c with
  | "009" | "010" | "011" | "012" | "013" | " " | "160" => true
  | _ => false
  end%char.

Fixpoint ltrim (s : string) : string :=
  match s with
  | "" => ""
  | String a s' => if isWhitespace a then ltrim s' else s
  end.

Fixpoint rtrim (s : string) : string :=
  match s with
  | "" => ""
  | String a s' =>
      match rtrim s' with
      | "" => if isWhitespace a then "" else String a ""
      | r => String a r
      end
  end.

Definition trim (s : string) : string := rtrim (ltrim s).

(** [String.prototype.toLowerCase] on one code unit below 256: the letters
    A-Z and the Latin-1 capitals (all of 192-222 but the multiplication
    sign 215) move up by 32. *)
Definition lowerChar (c : ascii) : ascii :=
  let n := N_of_ascii c in
  if ((65 <=? n) && (n <=? 90) || (192 <=? n) && (n <=? 222) && negb (n =? 215))%N
  then ascii_of_N (n + 32) else c.

Fixpoint toLowerCase (s : string) : string :=
  match s with
  | "" => ""
  | String a s' => String (lowerChar a) (toLowerCase s')
  end.

(** [escape] of validator.js: eight replacements, the ampersand first. *)
Definition escape (s : string) : string :=
  replaceAll "096" "&#96;"
    (replaceAll "092" "&#x5C;"
      (replaceAll "/" "&#x2F;"
        (replaceAll ">" "&gt;"
          (replaceAll "<" "&lt;"
            (replaceAll "039" "&#x27;"
              (replaceAll "034" "&quot;"
                (replaceAll "&" "&amp;" s))))))).

(** What [escape] does to one character. *)
Definition escapeChar (c : ascii) : string :=
  match c with
  | "&" => "&amp;"%string
  | "034" => "&quot;"%string
  | "039" => "&#x27;"%string
  | "<" => "&lt;"%string
  | ">" => "&gt;"%string
  | "/" => "&#x2F;"%string
  | "092" => "&#x5C;"%string
  | "096" => "&#96;"%string
  | _ => String c ""
  end%char.

(** [substChars f s]: every character [c] of [s] replaced by [f c]. *)
Fixpoint substChars (f : ascii → string) (s : string) : string :=
  match s with
  | "" => ""
  | String a s' => f a +:+ substChars f s'
  end.

(** The characters [escape] removes from a string. *)
Definition isHtmlSpecial (c : ascii) : bool :=
  match c with
  | "034" | "039" | "<" | ">" | "/" | "092" | "096" => true
  | _ => false
  end%char.

(** [isEmpty] of validator.js (with no option): the length is zero. *)
Definition isEmpty (s : string) : bool :=
  match s with "" => true | _ => false end.

(** [isIn(str, options)] for an array of options. *)
Definition isIn (s : string) (options : list string) : bool :=
  bool_decide (s ∈ options).

(** Every character of [s] satisfies [P]. *)
Fixpoint allChars (P : ascii → bool) (s : string) : bool :=
  match s with
  | "" => true
  | String a s' => P a && allChars P s'
  end.

(** No character of [s] is one that [escape] removes. *)
Definition htmlSafe (s : string) : bool :=
  allChars (λ c, negb (isHtmlSpecial c)) s.

(** ** Examples *)

Example trim_example : trim (String "009" "  a b " +:+ String LF "") = "a b".
Proof. reflexivity. Qed.

Example escape_example : escape "<b>Tom & Jerry</b>" = "&lt;b&gt;Tom &amp; Jerry&lt;&#x2F;b&gt;".
Proof. reflexivity. Qed.

Example toLowerCase_example : toLowerCase "FicTion" = "fiction".
Proof. reflexivity. Qed.

(** ** Substitution of characters *)

Section substitution.
Implicit Types (s t r : string) (c a b : ascii) (f g : ascii → string).

Lemma substChars_app f s t :
  substChars f (s +:+ t) = substChars f s +:+ substChars f t.
Proof. induction s as [|a s IH]; simpl; [done|]. by rewrite IH, string_app_assoc. Qed.

Lemma substChars_ext f g s : (∀ a, f a = g a) → substChars f s = substChars g s.
Proof. intros Hfg. induction s as [|a s IH]; simpl; [done|]. by rewrite Hfg, IH. Qed.

Lemma substChars_substChars f g s :
  substChars g (substChars f s) = substChars (λ a, substChars g (f a)) s.
Proof. induction s as [|a s IH]; simpl; [done|]. by rewrite substChars_app, IH. Qed.

Lemma replaceAll_substChars c r s :
  replaceAll c r s = substChars (λ a, if Ascii.eqb a c then r else String a "") s.
Proof. induction s as [|a s IH]; simpl; [done|]. rewrite IH. by destruct (Ascii.eqb a c). Qed.

Lemma substChars_nil f s : (∀ a, f a ≠ "") → substChars f s = "" → s = "".
Proof.
  intros Hf. destruct s as [|a s]; [done|]. simpl.
  intros [? _]%string_app_eq_nil. by destruct (Hf a).
Qed.

Lemma allChars_app P s t : allChars P (s +:+ t) = allChars P s && allChars P t.
Proof. induction s as [|a s IH]; simpl; [done|]. by rewrite IH, andb_assoc. Qed.

Lemma allChars_substChars P f s :
  allChars P (substChars f s) = allChars (λ a, allChars P (f a)) s.
Proof. induction s as [|a s IH]; simpl; [done|]. by rewrite allChars_app, IH. Qed.

Lemma allChars_impl (P Q : ascii → bool) s :
  (∀ a, P a = true → Q a = true) → allChars P s = true → allChars Q s = true.
Proof.
  intros HPQ. induction s as [|a s IH]; simpl; [done|].
  intros [??]%andb_true_iff. apply andb_true_iff. auto.
Qed.

Lemma allChars_true P s : (∀ a, P a = true) → allChars P s = true.
Proof. intros HP. induction s as [|a s IH]; simpl; [done|]. by rewrite HP, IH. Qed.

Lemma includes_allChars c s :
  includes c s = negb (allChars (λ a, negb (Ascii.eqb a c)) s).
Proof.
  induction s as [|a s IH]; simpl; [done|].
  rewrite IH, negb_andb. by rewrite negb_involutive.
Qed.

Lemma excludes_allChars c s :
  includes c s = false ↔ allChars (λ a, negb (Ascii.eqb a c)) s = true.
Proof. rewrite includes_allChars. by destruct (allChars _ _). Qed.

Lemma headChar_app s t :
  headChar (s +:+ t) = match headChar s with Some a => Some a | None => headChar t end.
Proof. by destruct s. Qed.

Lemma lastChar_app s t :
  lastChar (s +:+ t) = match lastChar t with Some b => Some b | None => lastChar s end.
Proof.
  induction s as [|a s IH]; [simpl; by destruct (lastChar t)|].
  change (String a s +:+ t) with (String a (s +:+ t)).
  rewrite !lastChar_cons, IH. by destruct (lastChar t), (lastChar s).
Qed.

Lemma substChars_headChar f a s :
  f a ≠ "" → headChar (substChars f (String a s)) = headChar (f a).
Proof. intros Hf. simpl. rewrite headChar_app. by destruct (f a). Qed.

Lemma substChars_lastChar f b s :
  (∀ a, f a ≠ "") → lastChar s = Some b →
  lastChar (substChars f s) = lastChar (f b).
Proof.
  intros Hf. induction s as [|a s IH]; [done|]. rewrite lastChar_cons. simpl.
  rewrite lastChar_app. destruct (lastChar s) as [b'|] eqn:Hl.
  - intros [= ->]. rewrite IH by done.
    destruct (lastChar (f b)) eqn:E; [done|]. apply lastChar_None in E. by destruct (Hf b).
  - intros [= ->]. apply lastChar_None in Hl as ->. done.
Qed.

End substitution.

(** ** [escape] *)

Section escape.
Implicit Types (s t : string) (c a b : ascii).

(** The eight replacements of [escape] amount to one pass that replaces
    each character by its entity. *)
Lemma escape_substChars s : escape s = substChars escapeChar s.
Proof.
  unfold escape. rewrite !replaceAll_substChars, !substChars_substChars.
  apply substChars_ext. intros a. all_chars a; reflexivity.
Qed.

Lemma escapeChar_not_nil a : escapeChar a ≠ "".
Proof. all_chars a; done. Qed.

Lemma escapeChar_excludes c a :
  isHtmlSpecial c = true → includes c (escapeChar a) = false.
Proof.
  intros Hc. apply excludes_allChars. revert Hc.
  all_chars c; try done; intros _; all_chars a; reflexivity.
Qed.

Lemma escape_excludes c s : isHtmlSpecial c = true → includes c (escape s) = false.
Proof.
  intros Hc. rewrite escape_substChars. apply excludes_allChars.
  rewrite allChars_substChars. apply allChars_true. intros a.
  apply excludes_allChars. by apply escapeChar_excludes.
Qed.

Lemma escape_htmlSafe s : htmlSafe (escape s) = true.
Proof.
  unfold htmlSafe. rewrite escape_substChars, allChars_substChars.
  apply allChars_true. intros a. by all_chars a.
Qed.

Lemma htmlSafe_excludes c s :
  htmlSafe s = true → isHtmlSpecial c = true → includes c s = false.
Proof.
  intros Hs Hc. apply excludes_allChars. revert Hs. apply allChars_impl.
  intros a Ha. destruct (Ascii.eqb_spec a c) as [->|]; [|done]. by rewrite Hc in Ha.
Qed.

Lemma htmlSafe_iff s :
  htmlSafe s = true ↔ ∀ c, isHtmlSpecial c = true → includes c s = false.
Proof.
  split; [intros ???; by eapply htmlSafe_excludes|].
  induction s as [|a s IH]; [done|]. intros Hs. simpl. apply andb_true_iff. split.
  - destruct (isHtmlSpecial a) eqn:Ha; [|done]. specialize (Hs a Ha).
    simpl in Hs. by rewrite Ascii.eqb_refl in Hs.
  - apply IH. intros c Hc. specialize (Hs c Hc). simpl in Hs.
    by apply orb_false_elim in Hs as [_ ?].
Qed.

(** On a string that is already safe and holds no ampersand, [escape]
    changes nothing; and only such a string escapes to itself. *)
Lemma escapeChar_plain a :
  isHtmlSpecial a = false → a ≠ "&"%char → escapeChar a = String a "".
Proof. all_chars a; done. Qed.

Lemma escapeChar_entity a :
  isHtmlSpecial a = true ∨ a = "&"%char → headChar (escapeChar a) = Some "&"%char.
Proof. all_chars a; intros [?| ?]; done. Qed.

Lemma escape_eq_plain s t :
  htmlSafe t = true → includes "&" t = false → escape s = t → s = t.
Proof.
  rewrite escape_substChars. revert t. induction s as [|a s IH]; intros t Ht Hamp; [done|].
  simpl. destruct (isHtmlSpecial a) eqn:Ha; [|destruct (decide (a = "&"%char)) as [->|Hne]].
  - intros <-. pose proof (escapeChar_entity a (or_introl Ha)) as Hh.
    by destruct (escapeChar a) as [|b r]; simplify_eq/=.
  - intros <-. by simpl in Hamp.
  - rewrite escapeChar_plain by done. simpl. intros <-. simpl in Ht, Hamp.
    apply andb_true_iff in Ht as [_ Ht]. apply orb_false_elim in Hamp as [_ Hamp].
    f_equal. by apply IH.
Qed.

Lemma escape_nil s : escape s = "" ↔ s = "".
Proof.
  split; [|by intros ->]. rewrite escape_substChars.
  apply substChars_nil, escapeChar_not_nil.
Qed.

(** [escape] keeps the line breaks of a text where they are and makes no
    new one. *)
Lemma escape_isLineBreak c s :
  isLineBreak c = true → includes c (escape s) = includes c s.
Proof.
  intros Hc. rewrite escape_substChars, !includes_allChars. f_equal.
  rewrite allChars_substChars. induction s as [|a s IH]; simpl; [done|].
  rewrite IH. f_equal. revert Hc. unfold isLineBreak.
  destruct (Ascii.eqb_spec c LF) as [->|]; [intros _; by all_chars a|].
  destruct (Ascii.eqb_spec c CR) as [->|]; [intros _; by all_chars a|done].
Qed.

Lemma escapeChar_edges a :
  isWhitespace a = false →
  edges (λ c, negb (isWhitespace c)) (escapeChar a) = true.
Proof. all_chars a; done. Qed.

(** A string whose first and last characters are no whitespace keeps that
    property under [escape]. *)
Lemma escape_edges s :
  edges (λ c, negb (isWhitespace c)) s = true →
  edges (λ c, negb (isWhitespace c)) (escape s) = true.
Proof.
  intros (a & b & Hh & Hl & Ha%negb_true_iff & Hb%negb_true_iff)%edges_inv.
  rewrite escape_substChars. destruct s as [|a' s]; [done|]. injection Hh as ->.
  destruct (edges_inv _ _ (escapeChar_edges a Ha)) as (a1 & _ & Ha1 & _ & Hwa & _).
  destruct (edges_inv _ _ (escapeChar_edges b Hb)) as (_ & b1 & _ & Hb1 & _ & Hwb).
  eapply edges_intro; [| |exact Hwa|exact Hwb].
  - by rewrite substChars_headChar by apply escapeChar_not_nil.
  - by rewrite (substChars_lastChar _ b) by auto using escapeChar_not_nil.
Qed.

(** [escape] loses nothing: the entities and the characters left as they
    are form a prefix code, so that a text is determined by its escaped
    form. *)
Lemma escapeChar_entities a :
  isHtmlSpecial a = true ∨ a = "&"%char →
  a ∈ ["&"; "034"; "039"; "<"; ">"; "/"; "092"; "096"]%char.
Proof.
  intros [Ha| ->]; [revert Ha; all_chars a; try done; intros _|];
    rewrite !elem_of_cons; auto 10.
Qed.

Lemma escapeChar_entity_plain a b u v :
  isHtmlSpecial a = true ∨ a = "&"%char → isHtmlSpecial b = false → b ≠ "&"%char →
  escapeChar a +:+ u ≠ escapeChar b +:+ v.
Proof.
  intros Ha Hb Hne. rewrite (escapeChar_plain b) by done.
  pose proof (escapeChar_entity a Ha). intros Heq.
  by destruct (escapeChar a); simplify_eq/=.
Qed.

Lemma escapeChar_not_entity a :
  ¬ (isHtmlSpecial a = true ∨ a = "&"%char) → escapeChar a = String a "".
Proof. intros Ha. apply escapeChar_plain; [destruct (isHtmlSpecial a)|]; tauto. Qed.

Lemma escapeChar_prefix_free a b u v :
  escapeChar a +:+ u = escapeChar b +:+ v → a = b ∧ u = v.
Proof.
  destruct (decide (isHtmlSpecial a = true ∨ a = "&"%char)) as [Ha|Ha],
    (decide (isHtmlSpecial b = true ∨ b = "&"%char)) as [Hb|Hb].
  - apply escapeChar_entities in Ha, Hb.
    repeat match goal with
      | H : _ ∈ _ :: _ |- _ => apply elem_of_cons in H as [->|H]
      | H : _ ∈ [] |- _ => by apply elem_of_nil in H
      end; simpl; intros ?; by simplify_eq.
  - intros Heq. destruct (escapeChar_entity_plain a b u v); [done| |tauto|done].
    destruct (isHtmlSpecial b); tauto.
  - intros Heq. destruct (escapeChar_entity_plain b a v u); [done| |tauto|done].
    destruct (isHtmlSpecial a); tauto.
  - rewrite (escapeChar_not_entity a), (escapeChar_not_entity b) by done.
    by intros [= -> ->].
Qed.

#[export] Instance escape_inj : Inj (=) (=) escape.
Proof.
  intros s t. rewrite !escape_substChars. revert t.
  induction s as [|a s IH]; intros [|b t]; simpl; [done| | |].
  - pose proof (escapeChar_not_nil b). by destruct (escapeChar b).
  - pose proof (escapeChar_not_nil a). by destruct (escapeChar a).
  - intros [-> Hst]%escapeChar_prefix_free. f_equal. by apply IH.
Qed.

End escape.

(** ** [trim] *)

Section trim.
Implicit Types (s t : string) (c a b : ascii).

Lemma ltrim_headChar s a : headChar (ltrim s) = Some a → isWhitespace a = false.
Proof.
  induction s as [|b s IH]; simpl; [done|].
  destruct (isWhitespace b) eqn:Hb; [done|]. by intros [= <-].
Qed.

Lemma ltrim_id s a : headChar s = Some a → isWhitespace a = false → ltrim s = s.
Proof. destruct s as [|b s]; simpl; [done|]. by intros [= ->] ->. Qed.

Lemma ltrim_nil s : ltrim s = "" ↔ allChars isWhitespace s = true.
Proof.
  induction s as [|b s IH]; simpl; [done|].
  destruct (isWhitespace b); simpl; [done|]. split; done.
Qed.

Lemma rtrim_cons a s :
  rtrim (String a s)
  = if isEmpty (rtrim s) && isWhitespace a then "" else String a (rtrim s).
Proof. simpl. destruct (rtrim s); simpl; [|done]. by destruct (isWhitespace a). Qed.

Lemma rtrim_nil s : rtrim s = "" ↔ allChars isWhitespace s = true.
Proof.
  induction s as [|b s IH]; [done|]. rewrite rtrim_cons. simpl.
  destruct (rtrim s) eqn:E; simpl.
  - destruct (isWhitespace b); simpl; [by rewrite <-IH|done].
  - split; [done|]. intros [_ H%IH]%andb_true_iff. done.
Qed.

Lemma rtrim_lastChar s b : lastChar (rtrim s) = Some b → isWhitespace b = false.
Proof.
  induction s as [|a s IH]; [done|]. rewrite rtrim_cons.
  destruct (rtrim s) as [|a' r] eqn:E; simpl isEmpty; simpl andb.
  - destruct (isWhitespace a) eqn:Ha; [done|]. by intros [= <-].
  - cbv iota. rewrite lastChar_cons. destruct (lastChar (String a' r)) eqn:El.
    + intros [= <-]. by apply IH.
    + by apply lastChar_None in El.
Qed.

Lemma rtrim_headChar s a :
  headChar s = Some a → isWhitespace a = false → headChar (rtrim s) = Some a.
Proof.
  destruct s as [|b s]; [done|]. intros [= ->] Ha. rewrite rtrim_cons, Ha.
  by rewrite andb_false_r.
Qed.

Lemma rtrim_id s b : lastChar s = Some b → isWhitespace b = false → rtrim s = s.
Proof.
  induction s as [|a s IH]; [done|]. rewrite lastChar_cons, rtrim_cons.
  destruct (lastChar s) as [b'|] eqn:Hl.
  - intros [= ->] Hb. rewrite IH by done. destruct s; [done|]. done.
  - intros [= ->] Hb. apply lastChar_None in Hl as ->. simpl. by rewrite Hb.
Qed.

Lemma trim_nil s : trim s = "" ↔ allChars isWhitespace s = true.
Proof.
  unfold trim. rewrite rtrim_nil. induction s as [|a s IH]; simpl; [done|].
  destruct (isWhitespace a) eqn:Ha; simpl; [done|]. by rewrite Ha.
Qed.

(** A trimmed string is empty or starts and ends with characters that are
    no whitespace. *)
Lemma trim_edges s :
  trim s ≠ "" → edges (λ c, negb (isWhitespace c)) (trim s) = true.
Proof.
  intros Hne. unfold trim in *.
  destruct (ltrim s) as [|a l] eqn:El; [done|].
  assert (isWhitespace a = false) as Ha by (apply (ltrim_headChar s); by rewrite El).
  destruct (lastChar (rtrim (String a l))) as [b|] eqn:Hl;
    [|by apply lastChar_None in Hl].
  eapply edges_intro; [by apply rtrim_headChar|done| |].
  - by rewrite Ha.
  - by rewrite (rtrim_lastChar _ _ Hl).
Qed.

Lemma trim_id s :
  edges (λ c, negb (isWhitespace c)) s = true → trim s = s.
Proof.
  intros (a & b & Hh & Hl & Ha%negb_true_iff & Hb%negb_true_iff)%edges_inv.
  unfold trim. rewrite (ltrim_id s a) by done. by apply (rtrim_id s b).
Qed.

Lemma trim_idempotent s : trim (trim s) = trim s.
Proof.
  destruct (decide (trim s = "")) as [->|Hne]; [done|].
  by apply trim_id, trim_edges.
Qed.

Lemma isWhitespace_isLineBreak c : isLineBreak c = true → isWhitespace c = true.
Proof.
  unfold isLineBreak.
  destruct (Ascii.eqb_spec c LF) as [->|]; [done|].
  by destruct (Ascii.eqb_spec c CR) as [->|].
Qed.

End trim.

(** ** [toLowerCase] *)

Section lower.
Implicit Types (s t : string) (c a b : ascii).

Lemma lowerChar_idempotent a : lowerChar (lowerChar a) = lowerChar a.
Proof. all_chars a; reflexivity. Qed.

Lemma toLowerCase_idempotent s : toLowerCase (toLowerCase s) = toLowerCase s.
Proof. induction s as [|a s IH]; simpl; [done|]. by rewrite lowerChar_idempotent, IH. Qed.

Lemma toLowerCase_length s : String.length (toLowerCase s) = String.length s.
Proof. induction s as [|a s IH]; simpl; [done|]. by rewrite IH. Qed.

Lemma isIn_true s options : isIn s options = true ↔ s ∈ options.
Proof. unfold isIn. apply bool_decide_eq_true. Qed.

End lower.

(** ** Lengths *)

Section lengths.
Implicit Types (s t : string) (c a b : ascii).

Lemma ltrim_length s : String.length (ltrim s) ≤ String.length s.
Proof. induction s as [|a s IH]; simpl; [done|]. destruct (isWhitespace a); simpl; lia. Qed.

Lemma rtrim_length s : String.length (rtrim s) ≤ String.length s.
Proof.
  induction s as [|a s IH]; [done|]. rewrite rtrim_cons.
  destruct (rtrim s); [destruct (isWhitespace a)|]; simpl in *; lia.
Qed.

Lemma trim_length s : String.length (trim s) ≤ String.length s.
Proof. unfold trim. etrans; [apply rtrim_length|apply ltrim_length]. Qed.

Lemma escapeChar_length c :
  1 ≤ String.length (escapeChar c) ∧ String.length (escapeChar c) ≤ 6.
Proof. all_chars c; simpl; lia. Qed.

(** [escape] never shortens a string and makes it at most six times as
    long: the longest entity has six characters. *)
Lemma escape_length s :
  String.length s ≤ String.length (escape s) ∧
  String.length (escape s) ≤ 6 * String.length s.
Proof.
  rewrite escape_substChars. induction s as [|a s IH]; simpl; [lia|].
  rewrite string_length_app. pose proof (escapeChar_length a). lia.
Qed.

End lengths.

(** ** Escaping twice *)

Section escape_twice.
Implicit Types (s t : string) (c a b : ascii).

(** The strings [escape] leaves as they are: those without a character it
    replaces.  Escaping is therefore not idempotent: a text with such a
    character changes again each time it is escaped. *)
Lemma substChars_plain s :
  htmlSafe s = true → includes "&" s = false → substChars escapeChar s = s.
Proof.
  induction s as [|a s IH]; [done|]. unfold htmlSafe in *. simpl.
  intros [Ha%negb_true_iff Hs]%andb_true_iff [Hne Hamp]%orb_false_elim.
  rewrite escapeChar_plain, IH by (done || by destruct (Ascii.eqb_spec a "&")). done.
Qed.

Lemma escape_fixed s : escape s = s ↔ htmlSafe s = true ∧ includes "&" s = false.
Proof.
  split; [|intros [Hs Ha]; rewrite escape_substChars; by apply substChars_plain].
  intros Hs. split; [rewrite <- Hs; apply escape_htmlSafe|]. revert Hs.
  rewrite escape_substChars. induction s as [|a s IH]; [done|]. simpl.
  destruct (Ascii.eqb_spec a "&") as [->|Hne].
  - simpl. intros [= Hs]. pose proof (proj1 (escape_length s)) as Hl.
    rewrite escape_substChars in Hl. apply (f_equal String.length) in Hs.
    simpl in Hs. rewrite <- Hs in Hl. simpl in Hl. lia.
  - destruct (isHtmlSpecial a) eqn:Ha.
    + pose proof (escapeChar_entity a (or_introl Ha)). intros Heq.
      by destruct (escapeChar a); simplify_eq/=.
    + rewrite escapeChar_plain by done. simpl. intros [= Hs]. by apply IH.
Qed.

Lemma escape_twice s :
  escape (escape s) = escape s ↔ htmlSafe s = true ∧ includes "&" s = false.
Proof.
  rewrite <- escape_fixed. split; [by intros ?%(inj escape)|intros Hs; by rewrite !Hs].
Qed.

(** Trimming again after [escape] changes nothing: what a chain with
    [trim] and [escape] stores, it reads back as typed. *)
Lemma trim_escape_trim s : trim (escape (trim s)) = escape (trim s).
Proof.
  destruct (decide (trim s = "")) as [->|Hne]; [done|].
  by apply trim_id, escape_edges, trim_edges.
Qed.

End escape_twice.
