(* ===== verification/Validator.v ===== *)
(** * Validator: validation chains and their interpreter

    A chain of express-validator ([body('title', msg).trim().notEmpty()...])
    is modelled as data: the field it reads, its message, whether it is
    optional, and the sanitizers and validators it lists, in order.
    [runChain] interprets one chain over a request body the way the library
    runs it as a middleware: an optional chain whose field is absent does
    nothing; otherwise every item runs in order, a sanitizer replacing the
    value of the field and a validator recording an error when it fails,
    without stopping the chain.  (The library tests the optional flag
    before every item, on the value the field has then; that is the test
    made once here, because an item that runs on a value that is present
    leaves one.)  [runChains] runs the chains of a route in
    order and collects what [validationResult(req).array()] returns.

    The interpreter models the library, which is not part of the
    repository; the chains themselves are in [Chains].  A field is a
    string when it arrives ([stringBody]), as the specification has it; a
    boolean or an array is what a custom sanitizer leaves, and no chain of
    the controllers has an item after its custom sanitizer
    ([customsLast]).  A standard item that met an array would read it
    through [toString] here, where the library treats its elements one by
    one: arrays that arrive in the request are outside the model. *)

From stdpp Require Export gmap.
From S2P Require Import Prelude JsString Sanitizers.

(** ** Values, chains and errors *)

(** The values a field of [req.body] holds: a string as it arrives, a
    boolean or an array of strings once a custom sanitizer has run. *)
Inductive JsValue :=
| VString (s : string)
| VBool (b : bool)
| VArray (l : list string).

#[global] Instance JsValue_eq_dec : EqDecision JsValue.
Proof. solve_decision. Defined.

(** A request body: the fields that are present. *)
Abbreviation Body := (gmap string JsValue).

(** [toString] of express-validator: what a standard sanitizer or validator
    receives.  An absent field reads as the empty string. *)
Definition toString (v : option JsValue) : string :=
  match v with
  | None => ""
  | Some (VString s) => s
  | Some (VBool b) => if b then "true" else "false"
  | Some (VArray l) => join "," l
  end.

Inductive Item :=
| Trim
| ToLowerCase
| Escape
| NotEmpty
| IsIn (options : list string)
| CustomSanitizer (f : string → JsValue).

Record ValidationChain := mkChain {
  c_field : string;
  c_message : string;
  c_optional : bool;
  c_items : list Item;
}.

(** One entry of [validationResult(req).array()]. *)
Record ValidationError := mkError {
  e_value : option JsValue;
  e_msg : string;
  e_path : string;
}.

#[global] Instance ValidationError_eq_dec : EqDecision ValidationError.
Proof. solve_decision. Defined.

(** ** Building chains, as the controllers write them *)

Definition body (field message : string) : ValidationChain :=
  mkChain field message false [].

(** [body(field)] with no message: the library's default message. *)
Definition bodyField (field : string) : ValidationChain :=
  mkChain field "Invalid value" false [].

Definition addItem (it : Item) (c : ValidationChain) : ValidationChain :=
  mkChain (c_field c) (c_message c) (c_optional c) (c_items c ++ [it]).

(** [.optional()] sets a flag of the chain wherever it stands in it. *)
Definition optional (c : ValidationChain) : ValidationChain :=
  mkChain (c_field c) (c_message c) true (c_items c).

Notation "c |> f" := (f c) (at level 45, left associativity, only parsing) : blog_scope.
Notation ".trim()" := (addItem Trim) (only parsing) : blog_scope.
Notation ".toLowerCase()" := (addItem ToLowerCase) (only parsing) : blog_scope.
Notation ".escape()" := (addItem Escape) (only parsing) : blog_scope.
Notation ".notEmpty()" := (addItem NotEmpty) (only parsing) : blog_scope.
Notation ".isIn( o )" := (addItem (IsIn o)) (only parsing) : blog_scope.
Notation ".customSanitizer( f )" := (addItem (CustomSanitizer f)) (only parsing) : blog_scope.
Notation ".optional()" := optional (only parsing) : blog_scope.

(** ** Running a chain *)

Definition isSanitizer (it : Item) : bool :=
  match it with
  | Trim | ToLowerCase | Escape | CustomSanitizer _ => true
  | NotEmpty | IsIn _ => false
  end.

(** [toLowerCase()] of express-validator: the library's own sanitizer,
    [value => typeof value === 'string' ? value.toLowerCase() : value].  A
    value that is no string is left as it is, and an absent field stays
    absent. *)
Definition lowerCased (v : option JsValue) : option JsValue :=
  match v with
  | Some (VString s) => Some (VString (toLowerCase s))
  | _ => v
  end.

(** The value of the field after one item.  The sanitizers of validator.js
    ([trim], [escape]) receive [toString] of the value, and so do here the
    custom sanitizers of the controllers, which are typed on strings and
    stand after a [trim] in every chain. *)
Definition applyItem (it : Item) (v : option JsValue) : option JsValue :=
  match it with
  | Trim => Some (VString (trim (toString v)))
  | ToLowerCase => lowerCased v
  | Escape => Some (VString (escape (toString v)))
  | CustomSanitizer f => Some (f (toString v))
  | NotEmpty | IsIn _ => v
  end.

(** Whether a validator accepts the value; sanitizers accept everything. *)
Definition accepts (it : Item) (v : option JsValue) : bool :=
  match it with
  | NotEmpty => negb (isEmpty (toString v))
  | IsIn options => isIn (toString v) options
  | _ => true
  end.

Definition itemErrors (message path : string) (it : Item) (v : option JsValue)
  : list ValidationError :=
  if accepts it v then [] else [mkError v message path].

Fixpoint runItems (message path : string) (its : list Item) (v : option JsValue)
  : option JsValue * list ValidationError :=
  match its with
  | [] => (v, [])
  | it :: rest =>
      let '(v', errs) := runItems message path rest (applyItem it v) in
      (v', itemErrors message path it v ++ errs)
  end.

(** The chain as a middleware: the body it leaves and the errors it adds. *)
Definition runChain (c : ValidationChain) (req : Body) : Body * list ValidationError :=
  let v := req !! c_field c in
  if c_optional c && bool_decide (v = None) then (req, [])
  else
    let '(v', errs) := runItems (c_message c) (c_field c) (c_items c) v in
    (match v' with Some x => <[c_field c := x]> req | None => req end, errs).

(** The chains of a route, in order. *)
Fixpoint runChains (cs : list ValidationChain) (req : Body) : Body * list ValidationError :=
  match cs with
  | [] => (req, [])
  | c :: rest =>
      let '(req', errs) := runChain c req in
      let '(req'', errs') := runChains rest req' in
      (req'', errs ++ errs')
  end.

(** What a chain makes of the value of its field, and the errors it
    reports for it. *)
Definition chainValue (c : ValidationChain) (v : option JsValue) : option JsValue :=
  if c_optional c && bool_decide (v = None) then None
  else (runItems (c_message c) (c_field c) (c_items c) v).1.

Definition chainErrors (c : ValidationChain) (v : option JsValue) : list ValidationError :=
  if c_optional c && bool_decide (v = None) then []
  else (runItems (c_message c) (c_field c) (c_items c) v).2.

(** Custom sanitizers come last in a chain: every standard item before
    them reads a string or an absent field. *)
Fixpoint customsLast (its : list Item) : bool :=
  match its with
  | [] => true
  | CustomSanitizer _ :: rest => bool_decide (rest = [])
  | _ :: rest => customsLast rest
  end.

(** A body as it arrives: every field is a string. *)
Definition isString (v : JsValue) : bool :=
  match v with
  | VString _ => true
  | _ => false
  end.

Definition stringBody (req : Body) : Prop := map_Forall (λ _ v, isString v = true) req.

#[global] Instance stringBody_dec req : Decision (stringBody req).
Proof. unfold stringBody. apply _. Defined.

(** ** Lemmas on the interpreter *)

Section interpreter.
Implicit Types (c : ValidationChain) (cs : list ValidationChain) (req : Body)
  (v : option JsValue) (its : list Item) (it : Item).

(** A field of a body of strings is a string or absent. *)
Lemma stringBody_lookup req k :
  stringBody req → req !! k = None ∨ ∃ s, req !! k = Some (VString s).
Proof.
  intros Hreq. destruct (req !! k) as [x|] eqn:Hk; [right|by left].
  specialize (Hreq k x Hk). destruct x; [by eexists|done..].
Qed.

(** On a string or an absent field [toLowerCase()] is
    [String.prototype.toLowerCase] of what a standard item would read. *)
Lemma lowerCased_string s : lowerCased (Some (VString s)) = Some (VString (toLowerCase s)).
Proof. done. Qed.

Lemma toString_lowerCased req k :
  stringBody req → toString (lowerCased (req !! k)) = toLowerCase (toString (req !! k)).
Proof. by intros [->|[s ->]]%(stringBody_lookup _ k). Qed.

Lemma runItems_app message path its1 its2 v :
  runItems message path (its1 ++ its2) v =
  let '(v1, e1) := runItems message path its1 v in
  let '(v2, e2) := runItems message path its2 v1 in
  (v2, e1 ++ e2).
Proof.
  revert v. induction its1 as [|it its1 IH]; intros v; simpl.
  - by destruct (runItems _ _ its2 v).
  - rewrite IH. destruct (runItems _ _ its1 _) as [v1 e1].
    destruct (runItems _ _ its2 v1) as [v2 e2]. by rewrite app_assoc.
Qed.

Lemma runChain_value c req :
  (runChain c req).1 !! c_field c = match chainValue c (req !! c_field c) with
                                    | Some x => Some x
                                    | None => req !! c_field c
                                    end.
Proof.
  unfold runChain, chainValue.
  destruct (c_optional c && bool_decide (req !! c_field c = None)) eqn:E; simpl.
  - done.
  - destruct (runItems _ _ _ _) as [[x|] errs]; simpl; [|done].
    by rewrite lookup_insert_eq.
Qed.

Lemma runChain_errors c req :
  (runChain c req).2 = chainErrors c (req !! c_field c).
Proof.
  unfold runChain, chainErrors.
  destruct (c_optional c && bool_decide (req !! c_field c = None)); [done|].
  by destruct (runItems _ _ _ _).
Qed.

Lemma runChain_optional_absent c req :
  c_optional c = true → req !! c_field c = None → runChain c req = (req, []).
Proof. unfold runChain. by intros -> ->. Qed.

(** A chain touches no field but its own. *)
Lemma runChain_other c req k :
  k ≠ c_field c → (runChain c req).1 !! k = req !! k.
Proof.
  intros Hk. unfold runChain.
  destruct (c_optional c && bool_decide (req !! c_field c = None)); [done|].
  destruct (runItems _ _ _ _) as [[x|] errs]; simpl; [|done].
  by rewrite lookup_insert_ne.
Qed.

Lemma runChains_other cs req k :
  k ∉ c_field <$> cs → (runChains cs req).1 !! k = req !! k.
Proof.
  revert req. induction cs as [|c cs IH]; intros req Hk; [done|].
  rewrite fmap_cons, not_elem_of_cons in Hk. destruct Hk as [Hk1 Hk2]. simpl.
  pose proof (runChain_other c req k Hk1) as H1.
  destruct (runChain c req) as [req' e1]. specialize (IH req' Hk2).
  destruct (runChains cs req') as [req'' e2]. simpl in *. congruence.
Qed.

(** The chains of a route read distinct fields, so each one sees the value
    its field had in the request, reports its errors whatever the others
    found, and leaves its result in the body. *)
Lemma runChains_errors cs req :
  NoDup (c_field <$> cs) →
  (runChains cs req).2 = List.concat ((λ c, chainErrors c (req !! c_field c)) <$> cs).
Proof.
  revert req. induction cs as [|c cs IH]; intros req Hnd; [done|].
  rewrite fmap_cons in Hnd. apply NoDup_cons in Hnd as [Hc Hnd]. simpl.
  pose proof (runChain_errors c req) as He.
  pose proof (λ k, runChain_other c req k) as Ho.
  destruct (runChain c req) as [req' e1]. specialize (IH req' Hnd).
  destruct (runChains cs req') as [req'' e2]. simpl in *. subst. f_equal.
  apply (f_equal (@List.concat _)), list_fmap_ext. intros i c' Hc'.
  rewrite Ho; [done|]. intros E. apply Hc. rewrite <-E.
  apply list_elem_of_fmap. eauto using list_elem_of_lookup_2.
Qed.

Lemma runChains_value cs req c :
  NoDup (c_field <$> cs) → c ∈ cs →
  (runChains cs req).1 !! c_field c = match chainValue c (req !! c_field c) with
                                      | Some x => Some x
                                      | None => req !! c_field c
                                      end.
Proof.
  revert req. induction cs as [|c' cs IH]; intros req Hnd Hc; [by inv Hc|].
  rewrite fmap_cons in Hnd. apply NoDup_cons in Hnd as [Hc' Hnd]. simpl.
  pose proof (runChain_value c' req) as Hv.
  pose proof (λ k, runChain_other c' req k) as Ho.
  destruct (runChain c' req) as [req' e1].
  apply elem_of_cons in Hc as [->|Hc].
  - pose proof (runChains_other cs req' (c_field c') Hc') as H2.
    destruct (runChains cs req') as [req'' e2]. simpl in *. congruence.
  - specialize (IH req' Hnd Hc). destruct (runChains cs req') as [req'' e2].
    simpl in *. rewrite IH, Ho; [done|]. intros E. apply Hc'. rewrite <-E.
    apply list_elem_of_fmap. eauto.
Qed.

End interpreter.
