(* ===== verification/ScriptTags.v ===== *)
(** * ScriptTags: the script-tag sanitizer of the comment chains

    The comments controller imports [removeDangerousScriptTags] from the
    posts controller, whose source in the repository does not define it.
    The chains are therefore modelled against an interface,
    [ScriptTagRemover]: a function on strings that leaves a string without
    [<] as it is, which every removal of [<script>...</script>] substrings
    satisfies.  [stripScriptTags] is one such function, used where a
    concrete run is computed. *)

From S2P Require Import Prelude JsString Sanitizers.

(** ** The interface *)

Class ScriptTagRemover := {
  removeDangerousScriptTags : string → string;
  removeDangerousScriptTags_no_lt s :
    includes "<" s = false → removeDangerousScriptTags s = s;
}.

(** ** An implementation *)

Fixpoint dropChars (n : nat) (s : string) : string :=
  match n, s with
  | S n', String _ s' => dropChars n' s'
  | _, _ => s
  end.

(** The rest of [s] after the first occurrence of [pat], if there is one. *)
Fixpoint dropThrough (pat s : string) : option string :=
  if String.prefix pat s then Some (dropChars (String.length pat) s)
  else match s with
       | "" => None
       | String _ s' => dropThrough pat s'
       end.

(** Removes every [<script ... </script>] substring, leftmost first; an
    opening tag that is never closed stays.  [fuel] bounds the number of
    characters read: the length of the string is enough. *)
Fixpoint stripScriptTagsFuel (fuel : nat) (s : string) : string :=
  match fuel, s with
  | S n, String a s' =>
      if String.prefix "<script" s then
        match dropThrough "</script>" s with
        | Some rest => stripScriptTagsFuel n rest
        | None => String a (stripScriptTagsFuel n s')
        end
      else String a (stripScriptTagsFuel n s')
  | _, _ => s
  end.

Definition stripScriptTags (s : string) : string :=
  stripScriptTagsFuel (String.length s) s.

Example stripScriptTags_example :
  stripScriptTags "a<script>alert(1)</script>b<i>" = "ab<i>".
Proof. reflexivity. Qed.

(** ** The implementation meets the interface *)

Lemma prefix_cons_ne a b p s :
  a ≠ b → String.prefix (String a p) (String b s) = false.
Proof. intros Hne. simpl. by destruct (ascii_dec a b). Qed.

Lemma stripScriptTagsFuel_no_lt fuel s :
  includes "<" s = false → stripScriptTagsFuel fuel s = s.
Proof.
  revert s. induction fuel as [|n IH]; intros s; [by destruct s|].
  destruct s as [|a s]; [done|]. intros H. simpl in H.
  apply orb_false_elim in H as [Ha Hs].
  cbn [stripScriptTagsFuel]. rewrite prefix_cons_ne, IH; [done..|].
  intros <-. by rewrite Ascii.eqb_refl in Ha.
Qed.

(** ** The fuel is enough *)

Lemma dropChars_length n s : String.length (dropChars n s) = String.length s - n.
Proof. revert s. induction n as [|n IH]; intros [|a s]; simpl; auto with lia. Qed.

Lemma prefix_length p s : String.prefix p s = true → String.length p ≤ String.length s.
Proof.
  revert s. induction p as [|a p IH]; intros [|b s]; simpl; [lia..|done|].
  destruct (ascii_dec a b); [|done]. intros ?%IH. lia.
Qed.

(** What follows a pattern that is not empty is shorter than the string. *)
Lemma dropThrough_length pat s rest :
  pat ≠ "" → dropThrough pat s = Some rest → String.length rest < String.length s.
Proof.
  intros Hpat. induction s as [|a s IH]; cbn [dropThrough].
  - destruct (String.prefix pat "") eqn:Hp; [|done].
    apply prefix_length in Hp. destruct pat; [done|simpl in Hp; lia].
  - destruct (String.prefix pat (String a s)) eqn:Hp.
    + intros [= <-]. apply prefix_length in Hp. rewrite dropChars_length.
      destruct pat; [done|simpl in *; lia].
    + intros ?%IH. simpl. lia.
Qed.

(** Any fuel that is at least the length of the string gives the same
    result. *)
Lemma stripScriptTagsFuel_irrelevant n m s :
  String.length s ≤ n → String.length s ≤ m →
  stripScriptTagsFuel n s = stripScriptTagsFuel m s.
Proof.
  revert m s. induction n as [|n IH]; intros m s Hn Hm.
  { destruct s; [by destruct m|simpl in Hn; lia]. }
  destruct s as [|a s]; [by destruct m|].
  destruct m as [|m]; [simpl in Hm; lia|]. cbn [stripScriptTagsFuel].
  simpl in Hn, Hm.
  destruct (String.prefix "<script" (String a s));
    [destruct (dropThrough "</script>" (String a s)) as [rest|] eqn:Hrest|].
  - apply dropThrough_length in Hrest; [|done]. simpl in Hrest. apply IH; lia.
  - f_equal. apply IH; lia.
  - f_equal. apply IH; lia.
Qed.

Lemma stripScriptTags_fuel_enough n s :
  String.length s ≤ n → stripScriptTagsFuel n s = stripScriptTags s.
Proof. intros Hn. by apply stripScriptTagsFuel_irrelevant. Qed.

(** Removing script tags never lengthens a string. *)
Lemma stripScriptTagsFuel_length n s :
  String.length (stripScriptTagsFuel n s) ≤ String.length s.
Proof.
  revert s. induction n as [|n IH]; intros s; [by destruct s|].
  destruct s as [|a s]; [done|]. cbn [stripScriptTagsFuel].
  destruct (String.prefix "<script" (String a s));
    [destruct (dropThrough "</script>" (String a s)) as [rest|] eqn:Hrest|].
  - apply dropThrough_length in Hrest; [|done]. specialize (IH rest). lia.
  - specialize (IH s). simpl. lia.
  - specialize (IH s). simpl. lia.
Qed.

#[export] Instance stripScriptTags_remover : ScriptTagRemover :=
  {| removeDangerousScriptTags := stripScriptTags;
     removeDangerousScriptTags_no_lt s := stripScriptTagsFuel_no_lt _ s |}.
