(* ===== verification/Chains.v ===== *)
(** * Chains: the validation chains of the two controllers

    The chains that precede the handlers of [postNewPost], [editPost],
    [postNewComment] and [editComment], written item by item as in the
    source, over the category list of the Post model and the script-tag
    sanitizer, neither of which is defined in the repository ([categories]
    is a parameter of the section, the sanitizer an instance of
    [ScriptTagRemover]).  The theorems describe, for each route, which
    errors the chains report and what the sanitized fields hold when they
    report none. *)

From S2P Require Import Prelude JsString Sanitizers Validator ScriptTags.

#[local] Open Scope blog_scope.

(** ** The chains *)

Section chains.
Context (categories : list string) `{ScriptTagRemover}.

(** The custom sanitizer of the [isPublished] chains:
    [(selection) => selection === 'yes']. *)
Definition selectionToBoolean (selection : string) : JsValue :=
  VBool (bool_decide (selection = "yes")).

(** [postNewPost] *)

Definition postNewPost_title : ValidationChain :=
  body "title" "Title must not be empty" |> .trim() |> .notEmpty() |> .escape().

Definition postNewPost_category : ValidationChain :=
  body "category" "Category must be one of the listed options"
    |> .toLowerCase() |> .isIn(categories).

Definition postNewPost_text : ValidationChain :=
  body "text" "Article cannot be empty"
    |> .trim() |> .notEmpty() |> .escape()
    |> .customSanitizer(λ text, VArray (convertToArrayOfParagraphs text)).

Definition postNewPost_isPublished : ValidationChain :=
  bodyField "isPublished"
    |> .trim() |> .toLowerCase() |> .escape()
    |> .customSanitizer(selectionToBoolean).

Definition postNewPost_chains : list ValidationChain :=
  [postNewPost_title; postNewPost_category; postNewPost_text; postNewPost_isPublished].

(** [editPost] *)

Definition editPost_title : ValidationChain :=
  body "title" "Title must not be empty"
    |> .optional() |> .trim() |> .notEmpty() |> .escape().

Definition editPost_category : ValidationChain :=
  body "category" "Category must be one of the listed options"
    |> .toLowerCase() |> .optional() |> .isIn(categories).

Definition editPost_text : ValidationChain :=
  body "text" "Article cannot be empty"
    |> .optional() |> .trim() |> .notEmpty() |> .escape()
    |> .customSanitizer(λ text, VArray (editPost_textToParagraphs text)).

Definition editPost_isPublished : ValidationChain :=
  bodyField "isPublished"
    |> .optional() |> .trim() |> .toLowerCase() |> .escape()
    |> .customSanitizer(selectionToBoolean).

Definition editPost_chains : list ValidationChain :=
  [editPost_title; editPost_category; editPost_text; editPost_isPublished].

(** [postNewComment] *)

Definition postNewComment_text : ValidationChain :=
  body "text" "Comment cannot be empty"
    |> .trim() |> .notEmpty() |> .escape()
    |> .customSanitizer(λ text, VString (removeDangerousScriptTags text)).

Definition postNewComment_chains : list ValidationChain := [postNewComment_text].

(** [editComment] *)

Definition editComment_text : ValidationChain :=
  body "text" "Comment cannot be empty"
    |> .trim() |> .notEmpty()
    |> .customSanitizer(λ text, VString (removeDangerousScriptTags text)).

Definition editComment_chains : list ValidationChain := [editComment_text].

End chains.

(** ** What each chain computes *)

(** [chain_errors] evaluates the errors of a concrete chain on a symbolic
    value. *)
Ltac chain_errors :=
  unfold chainErrors; simpl; unfold itemErrors; simpl; rewrite ?app_nil_r.

Section chain_results.
Context (categories : list string) `{ScriptTagRemover}.
Implicit Types (v : option JsValue) (req : Body) (s : string).

(** The error a chain with message [message] on field [path] reports for
    the value [s]. *)
Definition fieldError (message path s : string) : ValidationError :=
  mkError (Some (VString s)) message path.

(** The errors of a chain that trims and requires a non-empty value. *)
Definition requiredErrors (message path : string) (v : option JsValue)
  : list ValidationError :=
  if isEmpty (trim (toString v)) then [fieldError message path ""] else [].

(** The error of the category chain.  The value it reports is the value
    the validator met: the lower-cased string, or nothing for a field that
    is absent, which [toLowerCase()] leaves as it is. *)
Definition categoryErrors (v : option JsValue) : list ValidationError :=
  if isIn (toString (lowerCased v)) categories then []
  else [mkError (lowerCased v) "Category must be one of the listed options" "category"].

(** The sanitized value of each field, from the value in the request. *)
Definition titleOf (v : option JsValue) : string := escape (trim (toString v)).

Definition categoryOf (v : option JsValue) : string := toString (lowerCased v).

Definition textOf (v : option JsValue) : list string :=
  convertToArrayOfParagraphs (escape (trim (toString v))).

Definition publishedOf (v : option JsValue) : bool :=
  bool_decide (escape (toLowerCase (trim (toString v))) = "yes").

Definition commentTextOf (v : option JsValue) : string :=
  removeDangerousScriptTags (escape (trim (toString v))).

Definition editedCommentTextOf (v : option JsValue) : string :=
  removeDangerousScriptTags (trim (toString v)).

Lemma isEmpty_true s : isEmpty s = true ↔ s = "".
Proof. by destruct s. Qed.

Lemma requiredErrors_alt message path v :
  (if negb (isEmpty (trim (toString v))) then []
   else [fieldError message path (trim (toString v))])
  = requiredErrors message path v.
Proof.
  unfold requiredErrors. destruct (isEmpty _) eqn:E; [|done].
  by apply isEmpty_true in E as ->.
Qed.

Lemma postNewPost_title_value v :
  chainValue postNewPost_title v = Some (VString (titleOf v)).
Proof. done. Qed.

Lemma postNewPost_title_errors v :
  chainErrors postNewPost_title v = requiredErrors "Title must not be empty" "title" v.
Proof.
  chain_errors. apply requiredErrors_alt.
Qed.

Lemma categoryOf_string s : categoryOf (Some (VString s)) = toLowerCase s.
Proof. done. Qed.

Lemma categoryOf_absent : categoryOf None = "".
Proof. done. Qed.

Lemma postNewPost_category_value v :
  chainValue (postNewPost_category categories) v = lowerCased v.
Proof. done. Qed.

Lemma postNewPost_category_errors v :
  chainErrors (postNewPost_category categories) v = categoryErrors v.
Proof.
  chain_errors. unfold categoryErrors. by destruct (isIn _ _).
Qed.

Lemma postNewPost_text_value v :
  chainValue postNewPost_text v = Some (VArray (textOf v)).
Proof. done. Qed.

Lemma postNewPost_text_errors v :
  chainErrors postNewPost_text v = requiredErrors "Article cannot be empty" "text" v.
Proof.
  chain_errors. apply requiredErrors_alt.
Qed.

Lemma postNewPost_isPublished_value v :
  chainValue postNewPost_isPublished v = Some (VBool (publishedOf v)).
Proof. done. Qed.

Lemma postNewPost_isPublished_errors v : chainErrors postNewPost_isPublished v = [].
Proof. done. Qed.

Lemma postNewComment_text_value v :
  chainValue postNewComment_text v = Some (VString (commentTextOf v)).
Proof. done. Qed.

Lemma postNewComment_text_errors v :
  chainErrors postNewComment_text v = requiredErrors "Comment cannot be empty" "text" v.
Proof.
  chain_errors. apply requiredErrors_alt.
Qed.

Lemma editComment_text_value v :
  chainValue editComment_text v = Some (VString (editedCommentTextOf v)).
Proof. done. Qed.

Lemma editComment_text_errors v :
  chainErrors editComment_text v = requiredErrors "Comment cannot be empty" "text" v.
Proof.
  chain_errors. apply requiredErrors_alt.
Qed.

Lemma editPost_title_errors v :
  chainErrors editPost_title v
  = from_option (λ x, requiredErrors "Title must not be empty" "title" (Some x)) [] v.
Proof. destruct v as [x|]; [apply (postNewPost_title_errors (Some x))|done]. Qed.

Lemma editPost_category_value v :
  chainValue (editPost_category categories) v = lowerCased v.
Proof. by destruct v. Qed.

Lemma editPost_category_errors v :
  chainErrors (editPost_category categories) v
  = from_option (λ x, categoryErrors (Some x)) [] v.
Proof. destruct v as [x|]; [apply (postNewPost_category_errors (Some x))|done]. Qed.

Lemma editPost_text_errors v :
  chainErrors editPost_text v
  = from_option (λ x, requiredErrors "Article cannot be empty" "text" (Some x)) [] v.
Proof. destruct v as [x|]; [apply (postNewPost_text_errors (Some x))|done]. Qed.

Lemma editPost_isPublished_errors v : chainErrors editPost_isPublished v = [].
Proof. by destruct v. Qed.

(** An optional chain does nothing on an absent field and, on a present
    one, what the chain of [postNewPost] for the same field does. *)
Lemma editPost_absent c :
  c ∈ editPost_chains categories → chainValue c None = None ∧ chainErrors c None = [].
Proof.
  intros Hc. repeat (apply elem_of_cons in Hc as [->|Hc]; [done|]).
  by apply elem_of_nil in Hc.
Qed.

Lemma editPost_present x :
  Forall2 (λ c c', chainValue c (Some x) = chainValue c' (Some x) ∧
                   chainErrors c (Some x) = chainErrors c' (Some x))
    (editPost_chains categories) (postNewPost_chains categories).
Proof. repeat constructor. Qed.

End chain_results.

(** ** Well-formed fields *)

(** What the store is meant to hold: a title or a comment that is not
    empty and free of the characters [escape] removes; a text of at least
    one paragraph, each one non-empty, without line break and safe. *)
Definition titleOk (t : string) : Prop := t ≠ "" ∧ htmlSafe t = true.

Definition paragraphsOk (l : list string) : Prop :=
  l ≠ [] ∧
  Forall (λ p, nonEmpty p = true ∧ paragraph_ok p = true ∧ htmlSafe p = true) l.

Section well_formed.
Implicit Types (s t : string).

Lemma escape_trim_titleOk s : trim s ≠ "" → titleOk (escape (trim s)).
Proof. intros Hs. split; [by rewrite escape_nil|apply escape_htmlSafe]. Qed.

Lemma edges_not_lineBreak s :
  edges (λ c, negb (isWhitespace c)) s = true →
  edges (λ c, negb (isLineBreak c)) s = true.
Proof.
  apply edges_weaken. intros c Hc. apply negb_true_iff, not_true_is_false.
  intros Hl%isWhitespace_isLineBreak. by rewrite Hl in Hc.
Qed.

Lemma convert_htmlSafe s :
  htmlSafe s = true →
  Forall (λ p, htmlSafe p = true) (convertToArrayOfParagraphs s).
Proof.
  intros Hs. apply Forall_forall. intros p Hp. apply htmlSafe_iff. intros c Hc.
  assert (includes c (collapseNewlines (replaceAll CR "" s)) = false) as Hi.
  { rewrite includes_collapseNewlines, includes_replaceAll_nil_ne.
    - by apply htmlSafe_excludes.
    - by intros <-. }
  pose proof (split_Forall_excludes c LF _ Hi) as HF.
  rewrite Forall_forall in HF. by apply HF.
Qed.

Lemma escape_trim_paragraphsOk s :
  trim s ≠ "" → paragraphsOk (convertToArrayOfParagraphs (escape (trim s))).
Proof.
  intros Hs. split; [apply split_not_nil|].
  pose proof (paragraphs_nonEmpty (escape (trim s))
    (edges_not_lineBreak _ (escape_edges _ (trim_edges s Hs)))) as H1.
  pose proof (paragraphs_no_lineBreak (escape (trim s))) as H2.
  pose proof (convert_htmlSafe _ (escape_htmlSafe (trim s))) as H3.
  rewrite Forall_forall in *. naive_solver.
Qed.

End well_formed.

(** ** The chains of a route *)

Section routes.
Context (categories : list string) `{ScriptTagRemover}.
Implicit Types (req : Body) (s : string).

Lemma postNewPost_fields_NoDup : NoDup (c_field <$> postNewPost_chains categories).
Proof. by apply (bool_decide_unpack _). Qed.

Lemma editPost_fields_NoDup : NoDup (c_field <$> editPost_chains categories).
Proof. by apply (bool_decide_unpack _). Qed.

Lemma postNewPost_errors_eq req :
  (runChains (postNewPost_chains categories) req).2 =
  requiredErrors "Title must not be empty" "title" (req !! "title") ++
  categoryErrors categories (req !! "category") ++
  requiredErrors "Article cannot be empty" "text" (req !! "text").
Proof.
  rewrite runChains_errors by apply postNewPost_fields_NoDup.
  unfold postNewPost_chains. rewrite !fmap_cons, fmap_nil. cbn [List.concat].
  rewrite postNewPost_title_errors, postNewPost_category_errors,
    postNewPost_text_errors, postNewPost_isPublished_errors.
  by rewrite !app_nil_r.
Qed.

(** No error means: a title and a text that are not blank and a category
    of the list, up to case. *)
Lemma postNewPost_no_errors req :
  (runChains (postNewPost_chains categories) req).2 = [] ↔
  trim (toString (req !! "title")) ≠ "" ∧
  categoryOf (req !! "category") ∈ categories ∧
  trim (toString (req !! "text")) ≠ "".
Proof.
  rewrite postNewPost_errors_eq. unfold requiredErrors, categoryErrors, categoryOf.
  rewrite <-isIn_true.
  destruct (trim (toString (req !! "title"))), (isIn _ _),
    (trim (toString (req !! "text"))); simpl; intuition congruence.
Qed.

(** The body the chains leave.  The category is the one field that can
    stay absent: the handler reads it through [toString]. *)
Lemma postNewPost_values req :
  let req' := (runChains (postNewPost_chains categories) req).1 in
  req' !! "title" = Some (VString (titleOf (req !! "title"))) ∧
  req' !! "category" = lowerCased (req !! "category") ∧
  req' !! "text" = Some (VArray (textOf (req !! "text"))) ∧
  req' !! "isPublished" = Some (VBool (publishedOf (req !! "isPublished"))).
Proof.
  pose proof (λ c, runChains_value (postNewPost_chains categories) req c
                     postNewPost_fields_NoDup) as Hv.
  split_and!.
  - exact (Hv postNewPost_title ltac:(set_solver)).
  - etrans; [exact (Hv (postNewPost_category categories) ltac:(set_solver))|].
    rewrite postNewPost_category_value. simpl c_field. by destruct (req !! "category") as [[]|].
  - exact (Hv postNewPost_text ltac:(set_solver)).
  - exact (Hv postNewPost_isPublished ltac:(set_solver)).
Qed.

(** The chains of [editPost]: a field that is absent stays absent, a field
    that is present is sanitized as on creation. *)
Lemma editPost_values req :
  let req' := (runChains (editPost_chains categories) req).1 in
  req' !! "title" = (λ v, VString (titleOf (Some v))) <$> req !! "title" ∧
  req' !! "category" = lowerCased (req !! "category") ∧
  req' !! "text" = (λ v, VArray (textOf (Some v))) <$> req !! "text" ∧
  req' !! "isPublished" = (λ v, VBool (publishedOf (Some v))) <$> req !! "isPublished".
Proof.
  pose proof (λ c, runChains_value (editPost_chains categories) req c
                     editPost_fields_NoDup) as Hv.
  split_and!.
  - etrans; [exact (Hv editPost_title ltac:(set_solver))|].
    simpl c_field. by destruct (req !! "title").
  - etrans; [exact (Hv (editPost_category categories) ltac:(set_solver))|].
    rewrite editPost_category_value. simpl c_field. by destruct (req !! "category") as [[]|].
  - etrans; [exact (Hv editPost_text ltac:(set_solver))|].
    simpl c_field. by destruct (req !! "text").
  - etrans; [exact (Hv editPost_isPublished ltac:(set_solver))|].
    simpl c_field. by destruct (req !! "isPublished").
Qed.

Lemma editPost_errors_eq req :
  (runChains (editPost_chains categories) req).2 =
  from_option (λ v, requiredErrors "Title must not be empty" "title" (Some v)) []
    (req !! "title") ++
  from_option (λ v, categoryErrors categories (Some v)) [] (req !! "category") ++
  from_option (λ v, requiredErrors "Article cannot be empty" "text" (Some v)) []
    (req !! "text").
Proof.
  rewrite runChains_errors by apply editPost_fields_NoDup.
  unfold editPost_chains. rewrite !fmap_cons, fmap_nil. cbn [List.concat].
  rewrite editPost_title_errors, editPost_category_errors, editPost_text_errors,
    editPost_isPublished_errors.
  by rewrite !app_nil_r.
Qed.

Lemma requiredErrors_nil message path v :
  requiredErrors message path v = [] ↔ trim (toString v) ≠ "".
Proof. unfold requiredErrors. by destruct (trim (toString v)). Qed.

Lemma categoryErrors_nil v :
  categoryErrors categories v = [] ↔ categoryOf v ∈ categories.
Proof. unfold categoryErrors, categoryOf. rewrite <-isIn_true. by destruct (isIn _ _). Qed.

(** No error means: each field that is present is acceptable. *)
Lemma editPost_no_errors req :
  (runChains (editPost_chains categories) req).2 = [] ↔
  from_option (λ v, trim (toString (Some v)) ≠ "") True (req !! "title") ∧
  from_option (λ v, categoryOf (Some v) ∈ categories) True (req !! "category") ∧
  from_option (λ v, trim (toString (Some v)) ≠ "") True (req !! "text").
Proof.
  rewrite editPost_errors_eq, !app_nil.
  destruct (req !! "title") as [t|], (req !! "category") as [c|], (req !! "text") as [x|];
    simpl; rewrite ?requiredErrors_nil, ?categoryErrors_nil; tauto.
Qed.

Lemma postNewComment_values req :
  (runChains postNewComment_chains req).1 !! "text"
  = Some (VString (commentTextOf (req !! "text"))) ∧
  (runChains postNewComment_chains req).2
  = requiredErrors "Comment cannot be empty" "text" (req !! "text").
Proof.
  split.
  - exact (runChains_value postNewComment_chains req postNewComment_text
             ltac:(by apply (bool_decide_unpack _)) ltac:(set_solver)).
  - rewrite runChains_errors by (by apply (bool_decide_unpack _)).
    unfold postNewComment_chains. rewrite fmap_cons, fmap_nil. cbn [List.concat].
    rewrite app_nil_r. apply postNewComment_text_errors.
Qed.

Lemma editComment_values req :
  (runChains editComment_chains req).1 !! "text"
  = Some (VString (editedCommentTextOf (req !! "text"))) ∧
  (runChains editComment_chains req).2
  = requiredErrors "Comment cannot be empty" "text" (req !! "text").
Proof.
  split.
  - exact (runChains_value editComment_chains req editComment_text
             ltac:(by apply (bool_decide_unpack _)) ltac:(set_solver)).
  - rewrite runChains_errors by (by apply (bool_decide_unpack _)).
    unfold editComment_chains. rewrite fmap_cons, fmap_nil. cbn [List.concat].
    rewrite app_nil_r. apply editComment_text_errors.
Qed.

End routes.

(** ** Theorems on the chains *)

Section chain_theorems.
Context (categories : list string) `{ScriptTagRemover}.
Implicit Types (req : Body) (v : option JsValue) (s : string).

(** In every chain of the controllers the custom sanitizer is the last
    item: the standard items before it read a string or an absent field,
    never a boolean or an array. *)
Lemma chains_customsLast :
  Forall (λ c, customsLast (c_items c) = true)
    (postNewPost_chains categories ++ editPost_chains categories ++
     postNewComment_chains ++ editComment_chains).
Proof. repeat constructor. Qed.

(** C30: the chains of [postNewPost] report, in this order, one error for a
    title that is blank or missing, one for a category that is not in the
    list once lower-cased, one for a text that is blank or missing, and
    nothing else: every failing field is reported, not only the first.  The
    value an error reports is the value its validator met: the empty string
    for a title or a text, which [trim] has made a string; for the
    category the lower-cased string, and nothing ([undefined]) when the
    field is missing, which [toLowerCase()] leaves as it is. *)
Theorem postNewPost_validation_errors req :
  (runChains (postNewPost_chains categories) req).2 =
  (if isEmpty (trim (toString (req !! "title")))
   then [mkError (Some (VString "")) "Title must not be empty" "title"] else []) ++
  match req !! "category" with
  | Some (VString c) =>
      if isIn (toLowerCase c) categories then []
      else [mkError (Some (VString (toLowerCase c)))
              "Category must be one of the listed options" "category"]
  | other =>
      if isIn (toString other) categories then []
      else [mkError other "Category must be one of the listed options" "category"]
  end ++
  (if isEmpty (trim (toString (req !! "text")))
   then [mkError (Some (VString "")) "Article cannot be empty" "text"] else []).
Proof.
  rewrite postNewPost_errors_eq. do 2 f_equal. unfold categoryErrors.
  by destruct (req !! "category") as [[]|].
Qed.

(** The category chain of [postNewPost] lower-cases a string and accepts
    it exactly when the lower-cased string is in the category list; a
    missing category stays missing, is read as the empty string by [isIn]
    and is reported with no value. *)
Theorem postNewPost_category_spec :
  (∀ c, chainValue (postNewPost_category categories) (Some (VString c))
        = Some (VString (toLowerCase c)) ∧
        (chainErrors (postNewPost_category categories) (Some (VString c)) = []
         ↔ toLowerCase c ∈ categories)) ∧
  chainValue (postNewPost_category categories) None = None ∧
  (chainErrors (postNewPost_category categories) None = [] ↔ "" ∈ categories) ∧
  ("" ∉ categories →
   chainErrors (postNewPost_category categories) None
   = [mkError None "Category must be one of the listed options" "category"]).
Proof.
  split_and!; [intros c; split; [done|]|done| |];
    rewrite postNewPost_category_errors; [apply categoryErrors_nil..|].
  intros Hc. unfold categoryErrors. cbn [lowerCased toString].
  by destruct (isIn "" categories) eqn:Hin; [apply isIn_true in Hin|].
Qed.

(** C31: when the chains of [postNewPost] report no error on a body of
    strings, and the empty string is no category, the body holds a title
    that is a non-empty string without HTML-special characters, a category
    that is a string of the category list, a text that is an array of at
    least one paragraph, each non-empty, without line break and without
    HTML-special characters, and a boolean [isPublished]. *)
Theorem postNewPost_validated req :
  stringBody req → "" ∉ categories →
  (runChains (postNewPost_chains categories) req).2 = [] →
  ∃ title category text published,
    let req' := (runChains (postNewPost_chains categories) req).1 in
    req' !! "title" = Some (VString title) ∧ titleOk title ∧
    req' !! "category" = Some (VString category) ∧ category ∈ categories ∧
    req' !! "text" = Some (VArray text) ∧ paragraphsOk text ∧
    req' !! "isPublished" = Some (VBool published).
Proof.
  intros Hreq Hne (Ht & Hc & Hx)%postNewPost_no_errors.
  pose proof (postNewPost_values categories req) as Hv. cbv zeta in Hv.
  destruct Hv as (H1 & H2 & H3 & H4).
  destruct (stringBody_lookup req "category" Hreq) as [Hcat|[c Hcat]];
    rewrite Hcat in Hc, H2; [done|].
  eexists _, _, _, _. cbv zeta. rewrite H1, H2, H3, H4. split_and!; try done.
  - by apply escape_trim_titleOk.
  - by apply escape_trim_paragraphsOk.
Qed.

(** Without the second hypothesis the category can be missing from the
    body the handler reads: when the empty string is a category, a request
    without category passes the chains and is left without one. *)
Theorem postNewPost_category_missing req :
  "" ∈ categories → req !! "category" = None →
  chainErrors (postNewPost_category categories) (req !! "category") = [] ∧
  (runChains (postNewPost_chains categories) req).1 !! "category" = None.
Proof.
  intros Hin Hcat. destruct (postNewPost_values categories req) as (_ & Hc & _).
  rewrite Hc, Hcat. split; [|done].
  by rewrite postNewPost_category_errors, categoryErrors_nil.
Qed.

(** The chains of [editPost] are optional: on a body that holds none of
    the four fields they report no error and leave the body as it is. *)
Theorem editPost_chains_absent req :
  req !! "title" = None → req !! "category" = None →
  req !! "text" = None → req !! "isPublished" = None →
  runChains (editPost_chains categories) req = (req, []).
Proof.
  intros Ht Hc Hx Hp. unfold editPost_chains. cbn [runChains].
  by rewrite !runChain_optional_absent.
Qed.

(** C38: in the text chain of [postNewComment] the script-tag sanitizer runs
    after [escape] and therefore never changes anything: the stored text is
    the escaped, trimmed input, whatever the sanitizer removes. *)
Theorem postNewComment_strip_noop v :
  chainValue postNewComment_text v = Some (VString (escape (trim (toString v)))).
Proof.
  rewrite postNewComment_text_value. unfold commentTextOf.
  by rewrite removeDangerousScriptTags_no_lt by (by apply escape_excludes).
Qed.

(** C34: the text chain of [editComment] has no [escape]: a text without [<]
    is stored as typed once trimmed, with its ampersands, quotes and [>]
    as they are, where [postNewComment] would have stored their entities. *)
Theorem editComment_text_unescaped s :
  includes "<" (trim s) = false →
  chainValue editComment_text (Some (VString s)) = Some (VString (trim s)).
Proof.
  intros Hs. rewrite editComment_text_value. unfold editedCommentTextOf. simpl.
  by rewrite removeDangerousScriptTags_no_lt.
Qed.

(** The sanitizers bound what is stored by what was sent.  After the
    chains of [postNewPost], the title is at most six times as long as the
    title of the request, and the paragraphs of the text hold together at
    most six times the characters of the text of the request.  The factor
    is the length of the longest entity of [escape], and a title of
    apostrophes attains it. *)
Theorem postNewPost_length_bounds req :
  let req' := (runChains (postNewPost_chains categories) req).1 in
  String.length (toString (req' !! "title")) ≤ 6 * String.length (toString (req !! "title")) ∧
  ∃ paragraphs,
    req' !! "text" = Some (VArray paragraphs) ∧
    totalLength paragraphs ≤ 6 * String.length (toString (req !! "text")).
Proof.
  intros req'. destruct (postNewPost_values categories req) as (Ht & _ & Hx & _).
  fold req' in Ht, Hx. rewrite Ht. split.
  - unfold titleOf. cbn [toString].
    pose proof (escape_length (trim (toString (req !! "title")))).
    pose proof (trim_length (toString (req !! "title"))). lia.
  - eexists. split; [exact Hx|]. unfold textOf.
    pose proof (convert_totalLength (escape (trim (toString (req !! "text"))))).
    pose proof (escape_length (trim (toString (req !! "text")))).
    pose proof (trim_length (toString (req !! "text"))). lia.
Qed.

Example postNewPost_length_attained :
  chainValue postNewPost_title (Some (VString "''"))
  = Some (VString "&#x27;&#x27;").
Proof. done. Qed.

(** The sanitizers of a title lose nothing and are not idempotent.  Two
    titles that are stored alike were alike once trimmed.  A stored title
    that is submitted again, as a form filled with what the API returned
    does, is escaped a second time: it is stored as it was exactly when the
    title typed first held none of the characters [escape] replaces, and
    otherwise every ampersand of its entities becomes an entity again. *)
Theorem title_resubmitted v w :
  (titleOf v = titleOf w → trim (toString v) = trim (toString w)) ∧
  chainValue postNewPost_title (Some (VString (titleOf v)))
  = Some (VString (escape (titleOf v))) ∧
  chainValue editPost_title (Some (VString (titleOf v)))
  = Some (VString (escape (titleOf v))) ∧
  (escape (titleOf v) = titleOf v
   ↔ htmlSafe (trim (toString v)) = true ∧ includes "&" (trim (toString v)) = false).
Proof.
  assert (titleOf (Some (VString (titleOf v))) = escape (titleOf v)) as Hagain
    by (unfold titleOf; simpl; by rewrite trim_escape_trim).
  split_and!; [by intros ?%(inj escape)| | |apply escape_twice]; by rewrite <- Hagain.
Qed.

Example title_resubmitted_example :
  chainValue postNewPost_title (Some (VString " Tom & Jerry "))
  = Some (VString "Tom &amp; Jerry") ∧
  chainValue editPost_title (Some (VString "Tom &amp; Jerry"))
  = Some (VString "Tom &amp;amp; Jerry").
Proof. done. Qed.

End chain_theorems.

(** ** Concrete runs *)

Definition exampleCategories : list string := ["javascript"; "html"; "css"; "other"].

Definition exampleBody : Body :=
  <["title" := VString " T "]>
    (<["category" := VString "CSS"]> (<["text" := VString "x"]> ∅)).

Lemma exampleCategories_nonblank : "" ∉ exampleCategories.
Proof. by apply (bool_decide_unpack _). Defined.

Lemma exampleBody_strings : stringBody exampleBody.
Proof. repeat (apply map_Forall_insert_2; [done|]). apply map_Forall_empty. Defined.

Lemma postNewPost_validated_witness :
  ∃ title category text published,
    let req' := (runChains (postNewPost_chains exampleCategories) exampleBody).1 in
    req' !! "title" = Some (VString title) ∧ titleOk title ∧
    req' !! "category" = Some (VString category) ∧ category ∈ exampleCategories ∧
    req' !! "text" = Some (VArray text) ∧ paragraphsOk text ∧
    req' !! "isPublished" = Some (VBool published).
Proof.
  exact (postNewPost_validated exampleCategories exampleBody
           exampleBody_strings exampleCategories_nonblank eq_refl).
Defined.

(** A request with no field at all: three errors, the one on the category
    without a value. *)
Lemma postNewPost_validation_errors_witness :
  (runChains (postNewPost_chains exampleCategories) ∅).2
  = [mkError (Some (VString "")) "Title must not be empty" "title";
     mkError None "Category must be one of the listed options" "category";
     mkError (Some (VString "")) "Article cannot be empty" "text"].
Proof. exact (postNewPost_validation_errors exampleCategories ∅). Defined.

Lemma editPost_chains_absent_witness :
  runChains (editPost_chains exampleCategories) (<["other" := VString "x"]> ∅)
  = (<["other" := VString "x"]> ∅, []).
Proof.
  exact (editPost_chains_absent exampleCategories (<["other" := VString "x"]> ∅)
           eq_refl eq_refl eq_refl eq_refl).
Defined.

Lemma editComment_text_unescaped_witness :
  chainValue editComment_text (Some (VString " Tom & Jerry's > all "))
  = Some (VString "Tom & Jerry's > all").
Proof. exact (editComment_text_unescaped " Tom & Jerry's > all " eq_refl). Defined.
