(* ===== verification/ObjectId.v ===== *)
(** * ObjectId: identifiers of stored documents

    The handlers receive identifiers as strings and hand them to bson's
    [ObjectId]: [Types.ObjectId.isValid(s)] tests a string and
    [new Types.ObjectId(s)] converts it, throwing on a string the test
    refuses.  The library is not part of the repository; the handlers are
    modelled against the interface [ObjectIdLib], which says only that
    identifiers are a countable type with a partial conversion from strings.
    [hex24] is the usual implementation: 24 hexadecimal digits, compared
    without case.

    One conversion stands for three calls of the libraries: the test
    ([isValid]), the constructor ([newObjectId] in [Program]) and the cast
    Mongoose applies to a string where a schema has an identifier
    ([castObjectId]).  The interface assumes that the three accept the same
    strings.  That is how the libraries are written: since version 5 of
    bson the test is whether the constructor succeeds, and Mongoose casts
    a string by calling the constructor.  Older versions of bson differ on
    twelve-character strings that are not twelve bytes long, which the
    test accepts and the constructor refuses. *)

From stdpp Require Import countable.
From S2P Require Import Prelude JsString Sanitizers.

(** ** The interface *)

Class ObjectIdLib := {
  ObjectId : Type;
  #[global] ObjectId_eq_dec :: EqDecision ObjectId;
  #[global] ObjectId_countable :: Countable ObjectId;
  (** [new Types.ObjectId(s)]: [None] when the constructor throws. *)
  parseObjectId : string → option ObjectId;
}.

Section interface.
Context `{ObjectIdLib}.

(** [Types.ObjectId.isValid(s)]. *)
Definition isValid (s : string) : bool := bool_decide (is_Some (parseObjectId s)).

Lemma isValid_true s : isValid s = true ↔ ∃ id, parseObjectId s = Some id.
Proof. unfold isValid. by rewrite bool_decide_eq_true. Qed.

Lemma isValid_false s : isValid s = false ↔ parseObjectId s = None.
Proof. unfold isValid. by rewrite bool_decide_eq_false, eq_None_not_Some. Qed.

End interface.

(** ** 24 hexadecimal digits *)

Definition isHexDigit (c : ascii) : bool :=
  let n := N_of_ascii c in
  ((48 <=? n) && (n <=? 57) || (65 <=? n) && (n <=? 70) || (97 <=? n) && (n <=? 102))%N.

Definition parseHex24 (s : string) : option string :=
  if (String.length s =? 24)%nat && allChars isHexDigit s
  then Some (toLowerCase s) else None.

#[export] Instance hex24 : ObjectIdLib :=
  {| ObjectId := string; parseObjectId := parseHex24 |}.

Example hex24_valid : @isValid hex24 "65068c32be2fd5ade9800662" = true.
Proof. reflexivity. Qed.

Example hex24_invalid : @isValid hex24 "not-an-id" = false.
Proof. reflexivity. Qed.

(** Parsing is idempotent: an identifier printed in its canonical form
    parses to itself. *)
Lemma parseHex24_canonical s id :
  parseHex24 s = Some id → parseHex24 id = Some id.
Proof.
  unfold parseHex24. destruct (_ && _) eqn:E; [|done]. intros [= <-].
  apply andb_true_iff in E as [Hl Hh].
  rewrite toLowerCase_length, Hl, toLowerCase_idempotent. simpl.
  replace (allChars isHexDigit (toLowerCase s)) with true; [done|].
  symmetry. clear Hl. induction s as [|a s IH]; simpl in *; [done|].
  apply andb_true_iff in Hh as [Ha Hs]. rewrite IH, andb_true_r by done.
  revert Ha. by all_chars a.
Qed.
