(* ===== verification/Store.v ===== *)
(** * Store: documents, collections and the operations of the persistence
    service

    The three collections of the application (posts, comments, authors) as
    finite maps from identifiers to documents, and the Mongoose calls the
    handlers make on them, each as a function from the state of the store to
    a result and a new state: [find] with a sort on the timestamp, [findById],
    [save] of a new document, [findByIdAndUpdate] with the three kinds of
    update the controllers send, [findByIdAndDelete] and [populate].  The
    Post and Comment schemas are not part of the repository: the fields are
    those the controllers construct documents with, and what the code
    leaves to the schemas is taken from the data model of the
    specification.  That is: [commentCount] starts at zero and is kept by
    the replacement document of [editPost], which does not mention it
    ([applyPostUpdate]); [post] and [commenter] of a comment are
    identifiers, so that a filter on them is cast as one; and [commenter]
    refers to an author ([populateCommenter]), although the code selects
    of it a field [username] that the Author schema does not have and
    names the route parameter [readerID]. *)

From stdpp Require Export gmap sorting numbers.
From S2P Require Import Prelude ObjectId.

(** ** Sorting *)

(** [a] is at least as recent as [b]. *)
Definition newerEq {D} (ts : D → Z) : relation D := λ a b, (ts b ≤ ts a)%Z.

#[global] Instance newerEq_dec {D} (ts : D → Z) : RelDecision (newerEq ts).
Proof. intros a b. unfold newerEq. apply _. Defined.

(** [.sort({ timestamp: -1 })]: newest first. *)
Definition newestFirst {D} (ts : D → Z) (l : list D) : list D :=
  merge_sort (newerEq ts) l.

(** ** Documents *)

Section documents.
Context `{ObjectIdLib}.

Record PostModel := mkPost {
  post_id : ObjectId;
  post_author : ObjectId;
  post_title : string;
  post_timestamp : Z;
  post_category : string;
  post_text : list string;
  post_isPublished : bool;
  post_commentCount : Z;
}.

Record CommentModel := mkComment {
  comment_id : ObjectId;
  comment_commenter : ObjectId;
  comment_post : ObjectId;
  comment_timestamp : Z;
  comment_text : string;
  comment_replies : list ObjectId;
}.

(** The Author schema: one required, unique [name]. *)
Record AuthorModel := mkAuthor {
  author_name : string;
}.

(** The state of the store. *)
Record DB := mkDB {
  posts : gmap ObjectId PostModel;
  comments : gmap ObjectId CommentModel;
  authors : gmap ObjectId AuthorModel;
}.

Definition emptyDB : DB := mkDB ∅ ∅ ∅.

Definition setPosts (f : gmap ObjectId PostModel → gmap ObjectId PostModel) (db : DB) : DB :=
  mkDB (f (posts db)) (comments db) (authors db).

Definition setComments (f : gmap ObjectId CommentModel → gmap ObjectId CommentModel)
  (db : DB) : DB :=
  mkDB (posts db) (f (comments db)) (authors db).

(** ** Updates of a post *)

(** The fields [editPost] sends as the replacement document: all but the
    comment counter. *)
Record PostEdits := mkPostEdits {
  edit_author : ObjectId;
  edit_title : string;
  edit_timestamp : Z;
  edit_category : string;
  edit_text : list string;
  edit_isPublished : bool;
}.

(** The three update documents the controllers send: the replacement of
    [editPost] (line 329), the field of [publishPost] (line 358) and the
    increment of [postNewComment] and [deleteComment] (lines 83 and
    162). *)
Inductive PostUpdate :=
| SetDocument (e : PostEdits)          (* findByIdAndUpdate(id, postWithEdits) *)
| SetIsPublished (b : bool)            (* { isPublished: newPublishedStatus } *)
| IncCommentCount (n : Z).             (* { $inc: { commentCount: n } } *)

(** What the persistence service makes of an update.  Every update sets
    the fields it names and keeps the others; that [SetDocument] keeps
    [commentCount] is the specification's reading of [editPost], and holds
    of Mongoose when the Post schema gives the field no default. *)
Definition applyPostUpdate (u : PostUpdate) (p : PostModel) : PostModel :=
  match u with
  | SetDocument e =>
      mkPost (post_id p) (edit_author e) (edit_title e) (edit_timestamp e)
        (edit_category e) (edit_text e) (edit_isPublished e) (post_commentCount p)
  | SetIsPublished b =>
      mkPost (post_id p) (post_author p) (post_title p) (post_timestamp p)
        (post_category p) (post_text p) b (post_commentCount p)
  | IncCommentCount n =>
      mkPost (post_id p) (post_author p) (post_title p) (post_timestamp p)
        (post_category p) (post_text p) (post_isPublished p) (post_commentCount p + n)
  end.

(** The replacement document of [editComment]: every field but [_id]. *)
Definition applyCommentUpdate (c' c : CommentModel) : CommentModel :=
  mkComment (comment_id c) (comment_commenter c') (comment_post c')
    (comment_timestamp c') (comment_text c') (comment_replies c').

(** ** Queries *)

(** The filter of [getAllComments]: each part is there when the route
    has the parameter. *)
Record Query := mkQuery {
  q_post : option ObjectId;
  q_commenter : option ObjectId;
}.

Definition matchesField (want : option ObjectId) (have : ObjectId) : bool :=
  match want with
  | None => true
  | Some id => bool_decide (have = id)
  end.

Definition matchesQuery (q : Query) (c : CommentModel) : bool :=
  matchesField (q_post q) (comment_post c) &&
  matchesField (q_commenter q) (comment_commenter c).

(** A comment with its [commenter] populated: the selected fields of the
    author it references, or null when there is no such author. *)
Record PopulatedComment := mkPopulated {
  populated_comment : CommentModel;
  populated_commenter : option (list (string * string));
}.

Definition authorFields (a : AuthorModel) : list (string * string) :=
  [("name", author_name a)].

(** A projection such as ['username -_id']: the listed fields, without
    the identifier. *)
Definition selectFields (fields : list string) (doc : list (string * string))
  : list (string * string) :=
  List.filter (λ kv, bool_decide (kv.1 ∈ fields)) doc.

(** [.populate('commenter', 'username -_id')]: the commenter is looked up
    among the authors, which is the data model of the specification; the
    Comment schema, which names the collection, is not in the
    repository. *)
Definition populateCommenter (db : DB) (c : CommentModel) : PopulatedComment :=
  mkPopulated c (selectFields ["username"] ∘ authorFields <$> authors db !! comment_commenter c).

(** ** Operations *)

(** [Post.find().sort({ timestamp: -1 })] *)
Definition Post_find (db : DB) : list PostModel :=
  newestFirst post_timestamp (map_to_list (posts db)).*2.

(** [Post.findById(id)] *)
Definition Post_findById (id : ObjectId) (db : DB) : option PostModel :=
  posts db !! id.

(** [post.save()] of a new document: [None] when the identifier is taken
    (the insert fails with a duplicate-key error). *)
Definition Post_save (p : PostModel) (db : DB) : option DB :=
  match posts db !! post_id p with
  | Some _ => None
  | None => Some (setPosts <[post_id p := p]> db)
  end.

(** [Post.findByIdAndUpdate(id, update, { new: true })]: the updated
    document, or null when there is none with that identifier. *)
Definition Post_findByIdAndUpdate (id : ObjectId) (u : PostUpdate) (db : DB)
  : option PostModel * DB :=
  match posts db !! id with
  | None => (None, db)
  | Some p => (Some (applyPostUpdate u p), setPosts <[id := applyPostUpdate u p]> db)
  end.

(** [Post.findByIdAndDelete(id)] *)
Definition Post_findByIdAndDelete (id : ObjectId) (db : DB) : option PostModel * DB :=
  (posts db !! id, setPosts (delete id) db).

(** [Comment.find(filter).populate(...).sort({ timestamp: -1 })] *)
Definition Comment_find (q : Query) (db : DB) : list PopulatedComment :=
  populateCommenter db <$>
    newestFirst comment_timestamp
      (List.filter (matchesQuery q) (map_to_list (comments db)).*2).

Definition Comment_findById (id : ObjectId) (db : DB) : option CommentModel :=
  comments db !! id.

Definition Comment_save (c : CommentModel) (db : DB) : option DB :=
  match comments db !! comment_id c with
  | Some _ => None
  | None => Some (setComments <[comment_id c := c]> db)
  end.

Definition Comment_findByIdAndUpdate (id : ObjectId) (c' : CommentModel) (db : DB)
  : option CommentModel * DB :=
  match comments db !! id with
  | None => (None, db)
  | Some c => (Some (applyCommentUpdate c' c), setComments <[id := applyCommentUpdate c' c]> db)
  end.

Definition Comment_findByIdAndDelete (id : ObjectId) (db : DB)
  : option CommentModel * DB :=
  (comments db !! id, setComments (delete id) db).

End documents.

(** ** Lemmas on sorting *)

Section sorting.
Context {D : Type} (ts : D → Z).

#[global] Instance newerEq_total : Total (newerEq ts).
Proof. intros a b. unfold newerEq. lia. Qed.

#[global] Instance newerEq_trans : Transitive (newerEq ts).
Proof. intros a b c. unfold newerEq. lia. Qed.

Lemma newestFirst_Permutation (l : list D) : newestFirst ts l ≡ₚ l.
Proof. apply merge_sort_Permutation. Qed.

Lemma newestFirst_Sorted (l : list D) : StronglySorted (newerEq ts) (newestFirst ts l).
Proof. apply Sorted_StronglySorted; [apply _|]. apply Sorted_merge_sort, _. Qed.

Lemma newestFirst_elem_of (l : list D) x : x ∈ newestFirst ts l ↔ x ∈ l.
Proof. by rewrite newestFirst_Permutation. Qed.

End sorting.

(** ** Lemmas on the operations *)

Section store_lemmas.
Context `{ObjectIdLib}.
Implicit Types (db : DB) (id : ObjectId) (p : PostModel) (c : CommentModel).

Lemma setPosts_id db (f : gmap ObjectId PostModel → gmap ObjectId PostModel) :
  f (posts db) = posts db → setPosts f db = db.
Proof. destruct db. unfold setPosts. simpl. by intros ->. Qed.

Lemma setComments_id db (f : gmap ObjectId CommentModel → gmap ObjectId CommentModel) :
  f (comments db) = comments db → setComments f db = db.
Proof. destruct db. unfold setComments. simpl. by intros ->. Qed.

Lemma Post_findByIdAndDelete_absent id db :
  posts db !! id = None → Post_findByIdAndDelete id db = (None, db).
Proof.
  intros Hid. unfold Post_findByIdAndDelete. rewrite Hid.
  f_equal. by apply setPosts_id, delete_id.
Qed.

Lemma Comment_findByIdAndDelete_absent id db :
  comments db !! id = None → Comment_findByIdAndDelete id db = (None, db).
Proof.
  intros Hid. unfold Comment_findByIdAndDelete. rewrite Hid.
  f_equal. by apply setComments_id, delete_id.
Qed.

Lemma Post_findByIdAndUpdate_absent id u db :
  posts db !! id = None → Post_findByIdAndUpdate id u db = (None, db).
Proof. unfold Post_findByIdAndUpdate. by intros ->. Qed.

Lemma Post_findByIdAndUpdate_present id u db p :
  posts db !! id = Some p →
  Post_findByIdAndUpdate id u db
  = (Some (applyPostUpdate u p), setPosts <[id := applyPostUpdate u p]> db).
Proof. unfold Post_findByIdAndUpdate. by intros ->. Qed.

Lemma Post_save_fresh p db :
  posts db !! post_id p = None → Post_save p db = Some (setPosts <[post_id p := p]> db).
Proof. unfold Post_save. by intros ->. Qed.

Lemma Comment_save_fresh c db :
  comments db !! comment_id c = None →
  Comment_save c db = Some (setComments <[comment_id c := c]> db).
Proof. unfold Comment_save. by intros ->. Qed.

(** [Post.find] returns every stored post once, newest first. *)
Lemma Post_find_Permutation db : Post_find db ≡ₚ (map_to_list (posts db)).*2.
Proof. apply newestFirst_Permutation. Qed.

Lemma Post_find_elem_of db p :
  p ∈ Post_find db ↔ ∃ id, posts db !! id = Some p.
Proof.
  unfold Post_find. rewrite newestFirst_elem_of, list_elem_of_fmap. split.
  - intros [[id p'] [-> Hp%elem_of_map_to_list]]. eauto.
  - intros [id Hp%elem_of_map_to_list]. by exists (id, p).
Qed.

Lemma Post_find_Sorted db : StronglySorted (newerEq post_timestamp) (Post_find db).
Proof. apply newestFirst_Sorted. Qed.

(** When commenters are authors, as the specification has it, the
    commenter that [populate('commenter', 'username -_id')] puts in a
    comment never carries a name: the Author schema has a [name] and no
    [username], so the projection selects nothing. *)
Lemma populate_selects_nothing db c :
  populated_commenter (populateCommenter db c) = None ∨
  populated_commenter (populateCommenter db c) = Some [].
Proof.
  unfold populateCommenter. simpl. destruct (authors db !! comment_commenter c); auto.
Qed.

End store_lemmas.
