(* ===== verification/Program.v ===== *)
(** * Program: handlers as programs over the store

    A handler of the controllers is an [async] function: straight-line code
    that suspends at each [await] on a call to the persistence service and
    ends by sending a response, or by throwing.  [Prog A] is that shape: a
    tree whose nodes are the awaited operations ([Await]), the pair of
    operations awaited together by [Promise.all] ([AwaitAll]), a thrown
    exception ([Throw]) and the result ([Ret]).  [run] executes a program
    against a state of the store, one operation after the other with no
    other request in between; [expressAsyncHandler] turns what is thrown
    into the response of the error middleware.

    [Response] is what a handler sends: a status and a JSON body. *)

From S2P Require Import Prelude Validator ObjectId Store.

(** ** Responses *)

(** [type ErrorMessage] of the posts controller. *)
Record ErrorMessage := mkErrorMessage {
  message : string;
  status : nat;
}.

Section program.
Context `{ObjectIdLib}.

Inductive Json :=
| JErrorMessage (e : ErrorMessage)
| JMessage (m : string)                       (* { message: m } *)
| JErrors (errors : list ValidationError)     (* { errors: [...] } *)
| JPost (p : option PostModel)                (* a post, or null *)
| JPosts (l : list PostModel)
| JComment (c : option CommentModel)
| JPopulatedComment (c : PopulatedComment)
| JComments (l : list PopulatedComment).

Record Response := mkResponse {
  res_status : nat;
  res_body : Json;
}.

(** [res.json(x)] and [res.status(n).json(x)]. *)
Definition json (x : Json) : Response := mkResponse 200 x.
Definition statusJson (n : nat) (x : Json) : Response := mkResponse n x.

(** ** Exceptions *)

Inductive Exn :=
| BSONError          (* new Types.ObjectId(s) on a malformed string *)
| CastError          (* a malformed identifier in a query filter *)
| DuplicateKey.      (* save() of a document whose _id is taken *)

(** ** Operations of the persistence service *)

Inductive DbOp : Type → Type :=
| OpPostFind : DbOp (list PostModel)
| OpPostFindById (id : ObjectId) : DbOp (option PostModel)
| OpPostSave (p : PostModel) : DbOp PostModel
| OpPostUpdate (id : ObjectId) (u : PostUpdate) : DbOp (option PostModel)
| OpPostDelete (id : ObjectId) : DbOp (option PostModel)
| OpCommentFind (q : Query) : DbOp (list PopulatedComment)
| OpCommentFindById (id : ObjectId) : DbOp (option CommentModel)
| OpCommentSave (c : CommentModel) : DbOp CommentModel
| OpCommentUpdate (id : ObjectId) (c : CommentModel) : DbOp (option CommentModel)
| OpCommentDelete (id : ObjectId) : DbOp (option CommentModel)
| OpPopulate (c : CommentModel) : DbOp PopulatedComment.

(** One operation on a state of the store: what it returns, or throws, and
    the state it leaves. *)
Definition execOp {R} (op : DbOp R) (db : DB) : (Exn + R) * DB :=
  match op in DbOp R return (Exn + R) * DB with
  | OpPostFind => (inr (Post_find db), db)
  | OpPostFindById id => (inr (Post_findById id db), db)
  | OpPostSave p =>
      match Post_save p db with
      | Some db' => (inr p, db')
      | None => (inl DuplicateKey, db)
      end
  | OpPostUpdate id u => let '(r, db') := Post_findByIdAndUpdate id u db in (inr r, db')
  | OpPostDelete id => let '(r, db') := Post_findByIdAndDelete id db in (inr r, db')
  | OpCommentFind q => (inr (Comment_find q db), db)
  | OpCommentFindById id => (inr (Comment_findById id db), db)
  | OpCommentSave c =>
      match Comment_save c db with
      | Some db' => (inr c, db')
      | None => (inl DuplicateKey, db)
      end
  | OpCommentUpdate id c => let '(r, db') := Comment_findByIdAndUpdate id c db in (inr r, db')
  | OpCommentDelete id => let '(r, db') := Comment_findByIdAndDelete id db in (inr r, db')
  | OpPopulate c => (inr (populateCommenter db c), db)
  end.

(** ** Programs *)

Inductive Prog (A : Type) : Type :=
| Ret (a : A)
| Throw (e : Exn)
| Await {R : Type} (op : DbOp R) (k : R → Prog A)
| AwaitAll {R1 R2 : Type} (op1 : DbOp R1) (op2 : DbOp R2) (k : R1 * R2 → Prog A).

#[global] Arguments Ret {A} a.
#[global] Arguments Throw {A} e.
#[global] Arguments Await {A R} op k.
#[global] Arguments AwaitAll {A R1 R2} op1 op2 k.

Fixpoint bind {A B} (p : Prog A) (f : A → Prog B) : Prog B :=
  match p with
  | Ret a => f a
  | Throw e => Throw e
  | Await op k => Await op (λ r, bind (k r) f)
  | AwaitAll op1 op2 k => AwaitAll op1 op2 (λ r, bind (k r) f)
  end.

(** [await op] *)
Definition await {R} (op : DbOp R) : Prog R := Await op Ret.

(** [await Promise.all([op1, op2])] *)
Definition awaitAll {R1 R2} (op1 : DbOp R1) (op2 : DbOp R2) : Prog (R1 * R2) :=
  AwaitAll op1 op2 Ret.

(** The result of [Promise.all] on two settled operations: the pair, or the
    rejection of the one that failed first. *)
Definition both {R1 R2} (r1 : Exn + R1) (r2 : Exn + R2) : Exn + (R1 * R2) :=
  match r1, r2 with
  | inr a, inr b => inr (a, b)
  | inl e, _ => inl e
  | _, inl e => inl e
  end.

(** Sequential execution: each operation runs on the state the previous
    one left.  The two operations of [AwaitAll] are both issued before
    either result is looked at, so the second one runs even when the first
    one fails. *)
Fixpoint run {A} (p : Prog A) (db : DB) : (Exn + A) * DB :=
  match p with
  | Ret a => (inr a, db)
  | Throw e => (inl e, db)
  | Await op k =>
      match execOp op db with
      | (inr r, db') => run (k r) db'
      | (inl e, db') => (inl e, db')
      end
  | AwaitAll op1 op2 k =>
      let '(r1, db1) := execOp op1 db in
      let '(r2, db2) := execOp op2 db1 in
      match both r1 r2 with
      | inr r => run (k r) db2
      | inl e => (inl e, db2)
      end
  end.

(** The number of operations a program issues at most. *)
Fixpoint steps {A} (p : Prog A) (db : DB) : nat :=
  match p with
  | Ret _ | Throw _ => 0
  | Await op k =>
      match execOp op db with
      | (inr r, db') => S (steps (k r) db')
      | (inl _, _) => 1
      end
  | AwaitAll op1 op2 k =>
      let '(r1, db1) := execOp op1 db in
      let '(r2, db2) := execOp op2 db1 in
      match both r1 r2 with
      | inr r => S (S (steps (k r) db2))
      | inl _ => 2
      end
  end.

(** What a request reads from the runtime: the clock ([new Date()]), the
    identifier Mongoose gives the document it constructs, and the one
    [new Types.ObjectId(undefined)] generates. *)
Record Env := mkEnv {
  env_now : Z;
  env_newId : ObjectId;
  env_generated : ObjectId;
}.

(** [new Types.ObjectId(s)]: throws on a malformed string, generates an
    identifier when there is no string. *)
Definition newObjectId (env : Env) (s : option string) : Prog ObjectId :=
  match s with
  | None => Ret (env_generated env)
  | Some s =>
      match parseObjectId s with
      | Some id => Ret id
      | None => Throw BSONError
      end
  end.

(** The cast Mongoose applies to an identifier given as a string in a
    query. *)
Definition castObjectId (s : string) : Prog ObjectId :=
  match parseObjectId s with
  | Some id => Ret id
  | None => Throw CastError
  end.

(** [expressAsyncHandler(h)]: a rejection of [h] goes to Express's error
    middleware, which is not part of the repository; the outcome records
    it as such. *)
Inductive Outcome :=
| Sent (r : Response)
| Failed (e : Exn).

Definition expressAsyncHandler (h : Prog Response) (db : DB) : Outcome * DB :=
  match run h db with
  | (inr r, db') => (Sent r, db')
  | (inl e, db') => (Failed e, db')
  end.

End program.

#[global] Instance Prog_ret `{ObjectIdLib} : MRet Prog := λ A a, Ret a.
#[global] Instance Prog_bind `{ObjectIdLib} : MBind Prog := λ A B f p, bind p f.

#[global] Arguments newObjectId : simpl never.
#[global] Arguments castObjectId : simpl never.

(** ** Lemmas on programs *)

Section program_lemmas.
Context `{ObjectIdLib}.
Implicit Types (db : DB) (s : string) (id : ObjectId).

Lemma run_bind {A B} (p : Prog A) (f : A → Prog B) db :
  run (p ≫= f) db =
  match run p db with
  | (inr a, db') => run (f a) db'
  | (inl e, db') => (inl e, db')
  end.
Proof.
  unfold mbind, Prog_bind. revert db.
  induction p as [a|e|R op k IH|R1 R2 op1 op2 k IH]; intros db; simpl; [done..| |].
  - destruct (execOp op db) as [[e|r] db']; [done|apply IH].
  - destruct (execOp op1 db) as [r1 db1], (execOp op2 db1) as [r2 db2].
    destruct (both r1 r2); [done|apply IH].
Qed.

(** The three laws of a monad, up to what [run] observes. *)
Lemma bind_ret_l {A B} (a : A) (f : A → Prog B) : (mret a ≫= f) = f a.
Proof. done. Qed.

Lemma run_bind_ret_r {A} (p : Prog A) db : run (p ≫= mret) db = run p db.
Proof. rewrite run_bind. by destruct (run p db) as [[e|a] db']. Qed.

Lemma run_bind_assoc {A B C} (p : Prog A) (f : A → Prog B) (g : B → Prog C) db :
  run ((p ≫= f) ≫= g) db = run (p ≫= (λ a, f a ≫= g)) db.
Proof.
  rewrite !run_bind. destruct (run p db) as [[e|a] db']; [done|].
  by rewrite run_bind.
Qed.

Lemma isValid_parse s id : parseObjectId s = Some id → isValid s = true.
Proof. intros Hs. apply isValid_true. eauto. Qed.

Lemma castObjectId_parse s id : parseObjectId s = Some id → castObjectId s = Ret id.
Proof. unfold castObjectId. by intros ->. Qed.

(** A string that passed [isValid] is never refused by the cast. *)
Lemma castObjectId_valid s : isValid s = true → ∃ id, castObjectId s = Ret id.
Proof. intros [id Hid]%isValid_true. eauto using castObjectId_parse. Qed.

Lemma newObjectId_parse env s id :
  parseObjectId s = Some id → newObjectId env (Some s) = Ret id.
Proof. unfold newObjectId. by intros ->. Qed.

Lemma newObjectId_invalid env s :
  isValid s = false → newObjectId env (Some s) = Throw BSONError.
Proof. unfold newObjectId. by intros ->%isValid_false. Qed.

End program_lemmas.

#[export] Hint Rewrite @isValid_parse @castObjectId_parse @newObjectId_parse
  using eassumption : blog.
