(* ===== verification/ProgEquiv.v ===== *)
(** * ProgEquiv: programs up to their continuations

    Two programs of [Program] that issue the same operations and end alike
    are two values of [Prog] as soon as their continuations are written
    differently: [p ≫= mret] is not [p].  [progEquiv] is equality of
    programs up to that: the same constructors, the same operations, and
    continuations that agree on every result.  It is an equivalence, the
    operations on programs respect it ([Proper] instances for [Await],
    [AwaitAll], [≫=], [run] and [steps]), and the three laws of a monad
    hold for it.  The statement-level reading of the handlers in [Express]
    is compared with the handlers of the controllers up to it. *)

From S2P Require Import Prelude Validator ObjectId Store Program.

Section equivalence.
Context `{ObjectIdLib}.

Fixpoint progEquiv {A} (p q : Prog A) : Prop :=
  match p with
  | Ret a => q = Ret a
  | Throw e => q = Throw e
  | Await op k => ∃ k', q = Await op k' ∧ ∀ r, progEquiv (k r) (k' r)
  | AwaitAll op1 op2 k => ∃ k', q = AwaitAll op1 op2 k' ∧ ∀ r, progEquiv (k r) (k' r)
  end.

#[global] Instance Prog_equiv {A} : Equiv (Prog A) := progEquiv.

(** [f <$> p]: the program [p] with [f] applied to its result. *)
#[global] Instance Prog_fmap : FMap Prog := λ A B f p, p ≫= λ a, mret (f a).

End equivalence.

(** [prog_equiv] proves an equivalence of two programs that have the same
    shape: it splits the tests and the matches the programs go through and
    descends into the continuations. *)
Ltac prog_unfold :=
  unfold equiv, Prog_equiv, fmap, Prog_fmap, mbind, Prog_bind, mret, Prog_ret in *;
  cbn [progEquiv bind] in *.

Ltac prog_equiv :=
  prog_unfold;
  repeat first
    [ done
    | progress cbn [progEquiv bind]
    | eexists; split; [reflexivity|intros ?]
    | case_match ].

Section equivalence_lemmas.
Context `{ObjectIdLib}.
Implicit Types (db : DB).

#[global] Instance progEquiv_refl {A} : Reflexive (≡@{Prog A}).
Proof. intros p. induction p; prog_unfold; eauto. Qed.

#[global] Instance progEquiv_sym {A} : Symmetric (≡@{Prog A}).
Proof.
  intros p. induction p as [a|e|R op k IH|R1 R2 op1 op2 k IH]; intros q; prog_unfold;
    [by intros ->..| |]; intros (k' & -> & Hk); exists k; (split; [done|]);
    intros r; by apply IH.
Qed.

#[global] Instance progEquiv_trans {A} : Transitive (≡@{Prog A}).
Proof.
  intros p. induction p as [a|e|R op k IH|R1 R2 op1 op2 k IH]; intros q q'; prog_unfold;
    [by intros ->..| |]; intros (k' & -> & Hk) (k'' & -> & Hk'); exists k'';
    (split; [done|]); intros r; (eapply IH; [apply Hk|apply Hk']).
Qed.

#[global] Instance progEquiv_equivalence {A} : Equivalence (≡@{Prog A}).
Proof. split; apply _. Qed.

(** ** The constructors and the operations respect the equivalence *)

#[global] Instance Await_proper {A R} (op : DbOp R) :
  Proper (pointwise_relation R (≡) ==> (≡@{Prog A})) (Await op).
Proof. intros k k' Hk. exists k'. by split. Qed.

#[global] Instance AwaitAll_proper {A R1 R2} (op1 : DbOp R1) (op2 : DbOp R2) :
  Proper (pointwise_relation (R1 * R2) (≡) ==> (≡@{Prog A})) (AwaitAll op1 op2).
Proof. intros k k' Hk. exists k'. by split. Qed.

#[global] Instance bind_proper {A B} :
  Proper ((≡) ==> pointwise_relation A (≡) ==> (≡@{Prog B})) bind.
Proof.
  intros p. induction p as [a|e|R op k IH|R1 R2 op1 op2 k IH]; intros q Hq f g Hfg;
    prog_unfold; [subst; by apply Hfg|by subst| |]; destruct Hq as (k' & -> & Hk);
    eexists; (split; [done|]); intros r; by apply IH.
Qed.

#[global] Instance mbind_proper {A B} :
  Proper (pointwise_relation A (≡) ==> (≡) ==> (≡@{Prog B})) mbind.
Proof. intros f g Hfg p q Hpq. by apply bind_proper. Qed.

#[global] Instance fmap_proper {A B} (f : A → B) : Proper ((≡) ==> (≡@{Prog B})) (fmap f).
Proof. intros p q Hpq. by apply bind_proper. Qed.

(** Equivalent programs run alike: they leave the same result and the same
    store, after the same number of operations. *)
#[global] Instance run_proper {A} : Proper ((≡) ==> (=) ==> (=)) (run (A:=A)).
Proof.
  intros p. induction p as [a|e|R op k IH|R1 R2 op1 op2 k IH]; intros q Hq db ? <-;
    prog_unfold; [by subst..| |]; destruct Hq as (k' & -> & Hk); cbn.
  - destruct (execOp op db) as [[e|r] db']; [done|by apply IH].
  - destruct (execOp op1 db) as [r1 db1], (execOp op2 db1) as [r2 db2].
    destruct (both r1 r2); [done|by apply IH].
Qed.

#[global] Instance steps_proper {A} : Proper ((≡) ==> (=) ==> (=)) (steps (A:=A)).
Proof.
  intros p. induction p as [a|e|R op k IH|R1 R2 op1 op2 k IH]; intros q Hq db ? <-;
    prog_unfold; [by subst..| |]; destruct Hq as (k' & -> & Hk); cbn.
  - destruct (execOp op db) as [[e|r] db']; [done|]. f_equal. by apply IH.
  - destruct (execOp op1 db) as [r1 db1], (execOp op2 db1) as [r2 db2].
    destruct (both r1 r2); [done|]. do 2 f_equal. by apply IH.
Qed.

(** ** The laws of a monad *)

Lemma bind_ret_r {A} (p : Prog A) : p ≫= mret ≡ p.
Proof. induction p; prog_equiv. Qed.

Lemma bind_assoc {A B C} (p : Prog A) (f : A → Prog B) (g : B → Prog C) :
  (p ≫= f) ≫= g ≡ p ≫= (λ a, f a ≫= g).
Proof. induction p; prog_equiv. Qed.

Lemma fmap_bind {A B C} (f : B → C) (p : Prog A) (k : A → Prog B) :
  f <$> (p ≫= k) ≡ p ≫= (λ a, f <$> k a).
Proof. apply bind_assoc. Qed.

Lemma fmap_ret {A B} (f : A → B) (a : A) : f <$> mret a = mret (M:=Prog) (f a).
Proof. done. Qed.

(** What [run] makes of a mapped program. *)
Lemma run_fmap {A B} (f : A → B) (p : Prog A) db :
  run (f <$> p) db = (sum_map id f (run p db).1, (run p db).2).
Proof.
  unfold fmap at 1, Prog_fmap. rewrite run_bind.
  by destruct (run p db) as [[e|a] db'].
Qed.

End equivalence_lemmas.
