(* ===== verification/Routes.v ===== *)
(** * Routes: a route as an array of middleware

    The entry point declares [type FormPOSTHandler = Array<ValidationChain |
    RequestHandler>] ([src/unnamed/part_000], line 17), and the four routes
    of the controllers that take a body are such arrays: the validation
    chains of the route followed by its handler.  Express runs the array in
    order.  A chain sanitizes its field of the body, records its errors on
    the request and passes the request on; the handler reads the body and
    [validationResult(req)], answers, and passes nothing on, so that what
    follows a handler in the array never runs. *)

From S2P Require Import Prelude Validator ObjectId Store Program.

(** The request as the middleware of a route see it: the body, and the
    errors recorded so far. *)
Abbreviation Validated := (Body * list ValidationError)%type.

Section routes.
Context `{ObjectIdLib}.

(** An element of the array. *)
Inductive RouteItem :=
| ItemChain (c : ValidationChain)
| ItemHandler (h : Validated → Prog Response).

(** [type FormPOSTHandler] *)
Definition FormPOSTHandler : Type := list RouteItem.

(** The array run on a request: [None] when no element answers. *)
Fixpoint runRoute (items : list RouteItem) (req : Validated) : option (Prog Response) :=
  match items with
  | [] => None
  | ItemChain c :: rest =>
      let '(body', errs) := runChain c req.1 in runRoute rest (body', req.2 ++ errs)
  | ItemHandler h :: _ => Some (h req)
  end.

(** The chains [cs], then the handler [h]. *)
Definition routeOf (cs : list ValidationChain) (h : Validated → Prog Response)
  : FormPOSTHandler :=
  (ItemChain <$> cs) ++ [ItemHandler h].

(** The shape of a route that answers every request: chains, then a
    handler. *)
Definition routeOk (items : FormPOSTHandler) : Prop := ∃ cs h, items = routeOf cs h.

End routes.

(** ** Running a route *)

Section routes_lemmas.
Context `{ObjectIdLib}.
Implicit Types (cs : list ValidationChain) (items rest : list RouteItem) (body : Body)
  (errs : list ValidationError) (h : Validated → Prog Response).

(** The chains at the head of the array run as [runChains] runs them. *)
Lemma runRoute_chains cs rest body errs :
  runRoute ((ItemChain <$> cs) ++ rest) (body, errs)
  = runRoute rest ((runChains cs body).1, errs ++ (runChains cs body).2).
Proof.
  revert body errs. induction cs as [|c cs IH]; intros body errs.
  - by rewrite app_nil_r.
  - cbn [fmap list_fmap app runRoute runChains fst snd].
    destruct (runChain c body) as [body1 errs1]. rewrite IH.
    destruct (runChains cs body1) as [body2 errs2]. cbn [fst snd]. by rewrite app_assoc.
Qed.

(** A route hands its handler the body the chains leave and the errors
    they report. *)
Lemma runRoute_routeOf cs h body :
  runRoute (routeOf cs h) (body, []) = Some (h (runChains cs body)).
Proof. unfold routeOf. rewrite runRoute_chains. by destruct (runChains cs body). Qed.

(** What follows the handler never runs. *)
Lemma runRoute_after_handler cs h rest body :
  runRoute (routeOf cs h ++ rest) (body, []) = runRoute (routeOf cs h) (body, []).
Proof. unfold routeOf. by rewrite <-app_assoc, !runRoute_chains. Qed.

(** Chains alone answer nothing. *)
Lemma runRoute_no_handler cs body errs : runRoute (ItemChain <$> cs) (body, errs) = None.
Proof. by rewrite <-(app_nil_r (_ <$> _)), runRoute_chains. Qed.

End routes_lemmas.
