(* ===== verification/Posts.v ===== *)
(** * Posts: the posts controller

    The six handlers of [posts_controller]: [getAllPosts],
    [getSpecificPost], [postNewPost], [editPost], [publishPost] and
    [deletePost], each as a program over the store.  A handler takes what it
    reads from the request: the route parameter [postID], the query
    parameter [publish], the body.  The guards are the conditions of the
    source, in its order.  [postNewPost] and [editPost] are arrays of type
    [FormPOSTHandler]: their chains, then their handler
    ([postNewPost_handler], [editPost_handler]), which reads the body the
    chains leave and the errors they report. *)

From S2P Require Import Prelude JsString Sanitizers Validator ScriptTags.
From S2P Require Import Chains ObjectId Store Program Routes.

(** ** The error messages *)

Definition INVALID_ID : ErrorMessage :=
  mkErrorMessage "Failed to fetch - invalid ID format" 400.

Definition INVALID_QUERY : ErrorMessage :=
  mkErrorMessage "Failed to fetch - invalid query" 400.

Definition DOES_NOT_EXIST : ErrorMessage :=
  mkErrorMessage "Failed to fetch - no resource with that ID" 404.

(** ** Reading the validated body *)

(** The fields of the body as the document constructor receives them.  After
    the chains have run without error on a body of strings each field has
    the type its cast names ([postNewPost_validated]), and these functions
    only unwrap it.  A category that is absent, which passes the chains
    only when the empty string is a category, is read as the empty
    string. *)
Definition asString (v : option JsValue) : string := toString v.

Definition asArray (v : option JsValue) : list string :=
  match v with
  | Some (VArray l) => l
  | Some (VString s) => [s]
  | _ => []
  end.

Definition asBoolean (v : option JsValue) : bool :=
  match v with
  | Some (VBool b) => b
  | _ => false
  end.

(** ** The handlers *)

Section posts.
Context `{ObjectIdLib} (categories : list string).

(** The author every new post gets until authentication exists. *)
Definition PLACEHOLDER_AUTHOR : string := "65068c32be2fd5ade9800662".

Definition getAllPosts : Prog Response :=
  posts ← await OpPostFind;
  mret (json (JPosts posts)).

Definition getSpecificPost (postID : string) : Prog Response :=
  if negb (isValid postID) then mret (statusJson 400 (JErrorMessage INVALID_ID))
  else
    id ← castObjectId postID;
    post ← await (OpPostFindById id);
    match post with
    | None => mret (statusJson 404 (JErrorMessage DOES_NOT_EXIST))
    | Some p => mret (json (JPost (Some p)))
    end.

(** The handler of the array [postNewPost] (lines 245-267): [body'] is
    [req.body] as the chains have left it, and [errors] what
    [validationResult(req)] returns. *)
Definition postNewPost_handler (env : Env) (req : Validated) : Prog Response :=
  let '(body', errors) := req in
  if negb (bool_decide (errors = [])) then mret (json (JErrors errors))
  else
    author ← newObjectId env (Some PLACEHOLDER_AUTHOR);
    let post :=
      mkPost (env_newId env) author
        (asString (body' !! "title"))
        (env_now env)
        (asString (body' !! "category"))
        (asArray (body' !! "text"))
        (asBoolean (body' !! "isPublished"))
        0 in
    _ ← await (OpPostSave post);
    mret (json (JPost (Some post))).

(** The array [postNewPost] (lines 226-268). *)
Definition postNewPost_route (env : Env) : FormPOSTHandler :=
  routeOf (postNewPost_chains categories) (postNewPost_handler env).

(** The route on a request with the body [body]: the handler on what the
    chains leave. *)
Definition postNewPost (env : Env) (body : Body) : Prog Response :=
  Eval cbv beta delta [postNewPost_handler] in
  postNewPost_handler env (runChains (postNewPost_chains categories) body).

(** The handler of the array [editPost] (lines 300-336). *)
Definition editPost_handler (postID : string) (req : Validated) : Prog Response :=
  let '(body', errors) := req in
  if negb (isValid postID) then mret (statusJson 400 (JErrorMessage INVALID_ID))
  else if negb (bool_decide (errors = [])) then mret (json (JErrors errors))
  else
    id ← castObjectId postID;
    existingPost ← await (OpPostFindById id);
    match existingPost with
    | None => mret (statusJson 404 (JErrorMessage DOES_NOT_EXIST))
    | Some existing =>
        let postWithEdits :=
          mkPostEdits (post_author existing)
            (from_option (λ v, asString (Some v)) (post_title existing) (body' !! "title"))
            (post_timestamp existing)
            (from_option (λ v, asString (Some v)) (post_category existing) (body' !! "category"))
            (from_option (λ v, asArray (Some v)) (post_text existing) (body' !! "text"))
            (from_option (λ v, asBoolean (Some v)) (post_isPublished existing)
               (body' !! "isPublished")) in
        editedPost ← await (OpPostUpdate id (SetDocument postWithEdits));
        mret (json (JPost editedPost))
    end.

(** The array [editPost] (lines 273-337). *)
Definition editPost_route (postID : string) : FormPOSTHandler :=
  routeOf (editPost_chains categories) (editPost_handler postID).

Definition editPost (postID : string) (body : Body) : Prog Response :=
  Eval cbv beta delta [editPost_handler] in
  editPost_handler postID (runChains (editPost_chains categories) body).

Definition publishPost (postID : string) (publish : option string) : Prog Response :=
  if negb (isValid postID) || negb (bool_decide (publish ∈ [Some "true"; Some "false"]))
  then
    let message := if negb (isValid postID) then INVALID_ID else INVALID_QUERY in
    mret (statusJson 400 (JErrorMessage message))
  else
    let newPublishedStatus := bool_decide (publish = Some "true") in
    id ← castObjectId postID;
    editedPost ← await (OpPostUpdate id (SetIsPublished newPublishedStatus));
    match editedPost with
    | None => mret (statusJson 404 (JErrorMessage DOES_NOT_EXIST))
    | Some p => mret (json (JPost (Some p)))
    end.

Definition deletePost (postID : string) : Prog Response :=
  if negb (isValid postID) then mret (statusJson 400 (JErrorMessage INVALID_ID))
  else
    id ← castObjectId postID;
    deletedPost ← await (OpPostDelete id);
    match deletedPost with
    | None => mret (statusJson 404 (JErrorMessage DOES_NOT_EXIST))
    | Some p => mret (json (JPost (Some p)))
    end.

End posts.

(** ** Behaviour of the handlers *)

(** [handler_valid Hid] rewrites the guard and the cast of a handler whose
    identifier parses, as [Hid] says. *)
Ltac handler_valid Hid :=
  rewrite ?(isValid_parse _ _ Hid), ?(castObjectId_parse _ _ Hid); simpl.

Section posts_lemmas.
Context `{ObjectIdLib} (categories : list string).
Implicit Types (db : DB) (postID : string) (id : ObjectId) (p : PostModel)
  (body : Body) (env : Env).

Definition notFound : Response := statusJson 404 (JErrorMessage DOES_NOT_EXIST).
Definition invalidId : Response := statusJson 400 (JErrorMessage INVALID_ID).

(** What [postNewPost] stores for a body that passes validation. *)
Definition newPostOf env (author : ObjectId) body : PostModel :=
  mkPost (env_newId env) author (titleOf (body !! "title")) (env_now env)
    (categoryOf (body !! "category")) (textOf (body !! "text"))
    (publishedOf (body !! "isPublished")) 0.

(** What [editPost] makes of a stored post: each field of the body that is
    present replaces the stored one. *)
Definition postEditsOf body p : PostEdits :=
  mkPostEdits (post_author p)
    (from_option (λ v, titleOf (Some v)) (post_title p) (body !! "title"))
    (post_timestamp p)
    (from_option (λ v, categoryOf (Some v)) (post_category p) (body !! "category"))
    (from_option (λ v, textOf (Some v)) (post_text p) (body !! "text"))
    (from_option (λ v, publishedOf (Some v)) (post_isPublished p) (body !! "isPublished")).

(** The document [editPost] stores: the edits applied to the stored post. *)
Definition editedPostOf body p : PostModel :=
  applyPostUpdate (SetDocument (postEditsOf body p)) p.

Lemma getAllPosts_run db : run getAllPosts db = (inr (json (JPosts (Post_find db))), db).
Proof. done. Qed.

Lemma getSpecificPost_run postID id db :
  parseObjectId postID = Some id →
  run (getSpecificPost postID) db
  = (inr (from_option (λ p, json (JPost (Some p))) notFound (posts db !! id)), db).
Proof.
  intros Hid. unfold getSpecificPost. handler_valid Hid.
  unfold Post_findById. by destruct (posts db !! id).
Qed.

Lemma deletePost_run postID id db :
  parseObjectId postID = Some id →
  run (deletePost postID) db
  = (inr (from_option (λ p, json (JPost (Some p))) notFound (posts db !! id)),
     setPosts (delete id) db).
Proof.
  intros Hid. unfold deletePost. handler_valid Hid.
  by destruct (posts db !! id).
Qed.

Lemma publishPost_run postID id (b : bool) db :
  parseObjectId postID = Some id →
  run (publishPost postID (Some (if b then "true" else "false"))) db
  = match posts db !! id with
    | Some p =>
        (inr (json (JPost (Some (applyPostUpdate (SetIsPublished b) p)))),
         setPosts <[id := applyPostUpdate (SetIsPublished b) p]> db)
    | None => (inr notFound, db)
    end.
Proof.
  intros Hid. unfold publishPost. handler_valid Hid.
  replace (bool_decide (Some (if b then "true" else "false") ∈ [Some "true"; Some "false"]))
    with true by (by destruct b).
  simpl. replace (bool_decide (Some (if b then "true" else "false") = Some "true"))
    with b by (by destruct b).
  unfold Post_findByIdAndUpdate. by destruct (posts db !! id).
Qed.

Lemma publishPost_invalid_query postID publish :
  isValid postID = true → publish ≠ Some "true" → publish ≠ Some "false" →
  publishPost postID publish = Ret (statusJson 400 (JErrorMessage INVALID_QUERY)).
Proof.
  intros Hv H1 H2. unfold publishPost. rewrite Hv. simpl.
  rewrite bool_decide_eq_false_2; [done|]. set_solver.
Qed.

Lemma postNewPost_rejected env body :
  (runChains (postNewPost_chains categories) body).2 ≠ [] →
  postNewPost categories env body
  = Ret (json (JErrors (runChains (postNewPost_chains categories) body).2)).
Proof.
  intros He. unfold postNewPost. destruct (runChains _ _) as [body' errors].
  simpl in *. by rewrite bool_decide_eq_false_2.
Qed.

Lemma postNewPost_accepted env body author :
  (runChains (postNewPost_chains categories) body).2 = [] →
  parseObjectId PLACEHOLDER_AUTHOR = Some author →
  postNewPost categories env body
  = (_ ← await (OpPostSave (newPostOf env author body));
     mret (json (JPost (Some (newPostOf env author body))))).
Proof.
  intros He Ha. unfold postNewPost.
  destruct (postNewPost_values categories body) as (Ht & Hc & Hx & Hp).
  destruct (runChains _ _) as [body' errors]. simpl in *. subst errors.
  rewrite bool_decide_eq_true_2 by done. simpl.
  rewrite (newObjectId_parse env _ _ Ha), Ht, Hc, Hx, Hp. done.
Qed.

(** When the placeholder author is not an identifier the constructor
    throws before anything is stored. *)
Lemma postNewPost_no_author env body :
  (runChains (postNewPost_chains categories) body).2 = [] →
  parseObjectId PLACEHOLDER_AUTHOR = None →
  postNewPost categories env body = Throw BSONError.
Proof.
  intros He Ha. unfold postNewPost. destruct (runChains _ _) as [body' errors].
  simpl in He. subst errors. rewrite bool_decide_eq_true_2 by done.
  unfold newObjectId. by rewrite Ha.
Qed.

Lemma postNewPost_run env body author db :
  (runChains (postNewPost_chains categories) body).2 = [] →
  parseObjectId PLACEHOLDER_AUTHOR = Some author →
  run (postNewPost categories env body) db
  = match posts db !! env_newId env with
    | None => (inr (json (JPost (Some (newPostOf env author body)))),
               setPosts <[env_newId env := newPostOf env author body]> db)
    | Some _ => (inl DuplicateKey, db)
    end.
Proof.
  intros He Ha. rewrite (postNewPost_accepted _ _ author He Ha). simpl.
  unfold Post_save. simpl. by destruct (posts db !! env_newId env).
Qed.

Lemma editPost_invalid postID body :
  isValid postID = false → editPost categories postID body = Ret invalidId.
Proof.
  intros Hv. unfold editPost. destruct (runChains _ _) as [body' errors].
  by rewrite Hv.
Qed.

Lemma editPost_rejected postID body :
  isValid postID = true →
  (runChains (editPost_chains categories) body).2 ≠ [] →
  editPost categories postID body
  = Ret (json (JErrors (runChains (editPost_chains categories) body).2)).
Proof.
  intros Hv He. unfold editPost. destruct (runChains _ _) as [body' errors].
  simpl in *. by rewrite Hv, bool_decide_eq_false_2.
Qed.

Lemma postEditsOf_body body body' p :
  body' !! "title" = (λ v, VString (titleOf (Some v))) <$> body !! "title" →
  body' !! "category" = lowerCased (body !! "category") →
  body' !! "text" = (λ v, VArray (textOf (Some v))) <$> body !! "text" →
  body' !! "isPublished" = (λ v, VBool (publishedOf (Some v))) <$> body !! "isPublished" →
  mkPostEdits (post_author p)
    (from_option (λ v, asString (Some v)) (post_title p) (body' !! "title"))
    (post_timestamp p)
    (from_option (λ v, asString (Some v)) (post_category p) (body' !! "category"))
    (from_option (λ v, asArray (Some v)) (post_text p) (body' !! "text"))
    (from_option (λ v, asBoolean (Some v)) (post_isPublished p) (body' !! "isPublished"))
  = postEditsOf body p.
Proof.
  intros -> -> -> ->. unfold postEditsOf.
  by destruct (body !! "title"), (body !! "category") as [[]|], (body !! "text"),
    (body !! "isPublished").
Qed.

Lemma editPost_run postID id body db :
  parseObjectId postID = Some id →
  (runChains (editPost_chains categories) body).2 = [] →
  run (editPost categories postID body) db
  = match posts db !! id with
    | Some p => (inr (json (JPost (Some (editedPostOf body p)))),
                 setPosts <[id := editedPostOf body p]> db)
    | None => (inr notFound, db)
    end.
Proof.
  intros Hid He. unfold editPost.
  destruct (editPost_values categories body) as (Ht & Hc & Hx & Hp).
  destruct (runChains _ _) as [body' errors]. simpl in He, Ht, Hc, Hx, Hp. subst errors.
  rewrite (isValid_parse _ _ Hid), (castObjectId_parse _ _ Hid).
  cbn [negb bool_decide decide_rel]. rewrite bool_decide_eq_true_2 by done.
  cbn [negb mbind Prog_bind bind await run execOp]. unfold Post_findById.
  destruct (posts db !! id) as [p|] eqn:Hp'; [|done].
  rewrite (postEditsOf_body body body' p Ht Hc Hx Hp).
  cbn [mbind Prog_bind bind await run execOp].
  by rewrite (Post_findByIdAndUpdate_present _ _ _ _ Hp').
Qed.

(** The arrays [postNewPost] and [editPost] run on a request. *)
Lemma postNewPost_route_run env body rest :
  runRoute (postNewPost_route categories env ++ rest) (body, [])
  = Some (postNewPost categories env body).
Proof. unfold postNewPost_route. by rewrite runRoute_after_handler, runRoute_routeOf. Qed.

Lemma editPost_route_run postID body rest :
  runRoute (editPost_route categories postID ++ rest) (body, [])
  = Some (editPost categories postID body).
Proof. unfold editPost_route. by rewrite runRoute_after_handler, runRoute_routeOf. Qed.

End posts_lemmas.

(** ** Theorems on the posts controller *)

(** A post as the validation chains let it into the store. *)
Definition postOk (categories : list string) `{ObjectIdLib} (p : PostModel) : Prop :=
  titleOk (post_title p) ∧ post_category p ∈ categories ∧ paragraphsOk (post_text p).

Section posts_theorems.
Context `{ObjectIdLib} (categories : list string).
Implicit Types (db : DB) (postID : string) (id : ObjectId) (p : PostModel)
  (body : Body) (env : Env).

(** An edit that passes validation keeps a well-formed post well formed. *)
Lemma editedPostOf_postOk body p :
  (runChains (editPost_chains categories) body).2 = [] →
  postOk categories p → postOk categories (editedPostOf body p).
Proof.
  intros (Ht & Hc & Hx)%editPost_no_errors (Ht' & Hc' & Hx'). unfold postOk. simpl.
  destruct (body !! "title") as [t|], (body !! "category") as [c|],
    (body !! "text") as [x|]; cbn [from_option] in *; split_and!;
    (done || by apply escape_trim_titleOk || by apply escape_trim_paragraphsOk).
Qed.

(** The post [postNewPost] constructs from a body that passes validation
    is well formed. *)
Lemma newPostOf_postOk env author body :
  (runChains (postNewPost_chains categories) body).2 = [] →
  postOk categories (newPostOf env author body).
Proof.
  intros (Ht & Hc & Hx)%postNewPost_no_errors.
  split_and!; [by apply escape_trim_titleOk|done|by apply escape_trim_paragraphsOk].
Qed.

(** C4: with a malformed identifier, [getSpecificPost], [editPost],
    [publishPost] and [deletePost] answer 400 with [INVALID_ID] and issue no
    operation on the store at all, whatever the body or the query. *)
Theorem posts_invalid_id postID body publish :
  isValid postID = false →
  getSpecificPost postID = Ret invalidId ∧
  editPost categories postID body = Ret invalidId ∧
  publishPost postID publish = Ret invalidId ∧
  deletePost postID = Ret invalidId.
Proof.
  intros Hv. split_and!.
  - unfold getSpecificPost. by rewrite Hv.
  - by apply editPost_invalid.
  - unfold publishPost. by rewrite Hv.
  - unfold deletePost. by rewrite Hv.
Qed.

(** [getSpecificPost] with a well-formed identifier answers 200 with
    the stored post, or 404 with [DOES_NOT_EXIST] when there is none, and
    leaves the store as it was. *)
Theorem getSpecificPost_spec postID id db :
  parseObjectId postID = Some id →
  run (getSpecificPost postID) db
  = (inr (from_option (λ p, json (JPost (Some p))) notFound (posts db !! id)), db).
Proof. apply getSpecificPost_run. Qed.

(** C7: when the chains report an error, [postNewPost] answers 200 with the
    error array and stores nothing; a blank or missing title is such an
    error, reported as "Title must not be empty". *)
Theorem postNewPost_empty_title env body db :
  trim (toString (body !! "title")) = "" →
  ∃ errors,
    run (postNewPost categories env body) db = (inr (json (JErrors errors)), db) ∧
    fieldError "Title must not be empty" "title" "" ∈ errors.
Proof.
  intros Ht. exists (runChains (postNewPost_chains categories) body).2.
  assert (fieldError "Title must not be empty" "title" ""
            ∈ (runChains (postNewPost_chains categories) body).2) as Hin.
  { rewrite postNewPost_errors_eq. unfold requiredErrors at 1. rewrite Ht. set_solver. }
  split; [|done]. rewrite postNewPost_rejected; [done|].
  intros E. rewrite E in Hin. by apply elem_of_nil in Hin.
Qed.

(** C6: when the chains report no error and the generated identifier is
    free, [postNewPost] stores exactly one new post and answers with it:
    the placeholder author, the clock's timestamp, the sanitized fields, a
    comment counter of zero; the stored post is well formed. *)
Theorem postNewPost_creates env body author db :
  (runChains (postNewPost_chains categories) body).2 = [] →
  parseObjectId PLACEHOLDER_AUTHOR = Some author →
  posts db !! env_newId env = None →
  let post := newPostOf env author body in
  run (postNewPost categories env body) db
  = (inr (json (JPost (Some post))), setPosts <[env_newId env := post]> db) ∧
  postOk categories post ∧ post_commentCount post = 0%Z.
Proof.
  intros He Ha Hfresh post. rewrite (postNewPost_run _ _ _ author) by done.
  rewrite Hfresh. split; [done|]. split; [|done].
  apply postNewPost_no_errors in He as (Ht & Hc & Hx).
  split_and!; [by apply escape_trim_titleOk|done|by apply escape_trim_paragraphsOk].
Qed.

(** C8: [editPost] on a valid identifier with a body that passes the chains
    replaces, in the stored post, the fields the body holds by their
    sanitized values and keeps the others, the identifier, the author, the
    timestamp and the comment counter included; it answers 404 and changes
    nothing when there is no such post. *)
Theorem editPost_spec postID id body db :
  parseObjectId postID = Some id →
  (runChains (editPost_chains categories) body).2 = [] →
  run (editPost categories postID body) db
  = match posts db !! id with
    | Some p =>
        let p' :=
          mkPost (post_id p) (post_author p)
            (from_option (λ v, titleOf (Some v)) (post_title p) (body !! "title"))
            (post_timestamp p)
            (from_option (λ v, categoryOf (Some v)) (post_category p) (body !! "category"))
            (from_option (λ v, textOf (Some v)) (post_text p) (body !! "text"))
            (from_option (λ v, publishedOf (Some v)) (post_isPublished p)
               (body !! "isPublished"))
            (post_commentCount p) in
        (inr (json (JPost (Some p'))), setPosts <[id := p']> db)
    | None => (inr notFound, db)
    end.
Proof. intros Hid He. by rewrite (editPost_run _ _ id). Qed.

(** [publishPost] with publish "true" or "false" sets [isPublished] of
    the stored post to that value, changes no other field, and answers with
    the updated post; 404 when there is no such post. *)
Theorem publishPost_spec postID id (b : bool) db :
  parseObjectId postID = Some id →
  run (publishPost postID (Some (if b then "true" else "false"))) db
  = match posts db !! id with
    | Some p =>
        let p' :=
          mkPost (post_id p) (post_author p) (post_title p) (post_timestamp p)
            (post_category p) (post_text p) b (post_commentCount p) in
        (inr (json (JPost (Some p'))), setPosts <[id := p']> db)
    | None => (inr notFound, db)
    end.
Proof. apply publishPost_run. Qed.

(** [publishPost] with a well-formed identifier and a [publish]
    parameter that is neither "true" nor "false" (or is missing) answers
    400 with [INVALID_QUERY] and issues no operation. *)
Theorem publishPost_bad_query postID publish :
  isValid postID = true → publish ≠ Some "true" → publish ≠ Some "false" →
  publishPost postID publish = Ret (statusJson 400 (JErrorMessage INVALID_QUERY)).
Proof. apply publishPost_invalid_query. Qed.

(** [deletePost] with a well-formed identifier removes the post and
    answers with it; when there is none it answers 404 and the store is
    unchanged. *)
Theorem deletePost_spec postID id db :
  parseObjectId postID = Some id →
  run (deletePost postID) db
  = match posts db !! id with
    | Some p => (inr (json (JPost (Some p))), setPosts (delete id) db)
    | None => (inr notFound, db)
    end.
Proof.
  intros Hid. rewrite (deletePost_run _ id) by done.
  destruct (posts db !! id) eqn:E; [done|]. simpl. f_equal.
  by apply setPosts_id, delete_id.
Qed.

(** [getAllPosts] answers with every stored post exactly once, ordered
    by timestamp, newest first, and leaves the store as it was. *)
Theorem getAllPosts_spec db :
  ∃ l, run getAllPosts db = (inr (json (JPosts l)), db) ∧
       l ≡ₚ (map_to_list (posts db)).*2 ∧
       StronglySorted (λ a b, post_timestamp b ≤ post_timestamp a)%Z l.
Proof.
  exists (Post_find db). split; [done|].
  split; [apply Post_find_Permutation|apply Post_find_Sorted].
Qed.

End posts_theorems.

(** ** Concrete runs *)

(** A category list, a request environment, a body and a store with one
    post, over identifiers of 24 hexadecimal digits. *)
Definition sampleCategories : list string := ["javascript"; "html"; "css"; "other"].

Definition sampleId : string := "aaaaaaaaaaaaaaaaaaaaaaaa".

Definition sampleEnv : @Env hex24 :=
  mkEnv 1700000000000 sampleId "bbbbbbbbbbbbbbbbbbbbbbbb".

Definition sampleBody : Body :=
  <["title" := VString " Hello <b>world</b> "]>
    (<["category" := VString "HTML"]>
      (<["text" := VString ("first" +:+ String CR (String LF (String LF "second")))]>
        (<["isPublished" := VString "Yes"]> ∅))).

Definition samplePost : @PostModel hex24 :=
  mkPost sampleId PLACEHOLDER_AUTHOR "Hello &lt;b&gt;world&lt;&#x2F;b&gt;" 1700000000000
    "html" ["first"; "second"] true 0.

Definition sampleDB : @DB hex24 := setPosts <[sampleId := samplePost]> emptyDB.

Lemma posts_invalid_id_witness :
  @getSpecificPost hex24 "42" = Ret invalidId ∧
  editPost sampleCategories "42" sampleBody = Ret invalidId ∧
  @publishPost hex24 "42" (Some "true") = Ret invalidId ∧
  @deletePost hex24 "42" = Ret invalidId.
Proof. apply posts_invalid_id. reflexivity. Defined.

Lemma getSpecificPost_spec_witness :
  run (getSpecificPost "AAAAAAAAAAAAAAAAAAAAAAAA") sampleDB
  = (inr (json (JPost (Some samplePost))), sampleDB).
Proof. apply (getSpecificPost_spec (H:=hex24) _ sampleId). reflexivity. Defined.

Lemma postNewPost_empty_title_witness :
  ∃ errors,
    run (postNewPost sampleCategories sampleEnv (<["title" := VString "  "]> sampleBody))
      emptyDB = (inr (json (JErrors errors)), emptyDB) ∧
    fieldError "Title must not be empty" "title" "" ∈ errors.
Proof. apply postNewPost_empty_title. reflexivity. Defined.

Lemma postNewPost_creates_witness :
  run (postNewPost sampleCategories sampleEnv sampleBody) emptyDB
  = (inr (json (JPost (Some samplePost))), sampleDB) ∧
  postOk sampleCategories samplePost ∧ post_commentCount samplePost = 0%Z.
Proof.
  apply (postNewPost_creates (H:=hex24) sampleCategories sampleEnv sampleBody
           PLACEHOLDER_AUTHOR emptyDB); reflexivity.
Defined.

Lemma editPost_spec_witness :
  run (editPost sampleCategories sampleId (<["title" := VString "New"]> ∅)) sampleDB
  = (inr (json (JPost (Some
       (mkPost sampleId PLACEHOLDER_AUTHOR "New" 1700000000000 "html"
          ["first"; "second"] true 0)))),
     setPosts <[sampleId :=
       mkPost sampleId PLACEHOLDER_AUTHOR "New" 1700000000000 "html"
         ["first"; "second"] true 0]> sampleDB).
Proof.
  exact (editPost_spec (H:=hex24) sampleCategories sampleId sampleId
           (<["title" := VString "New"]> ∅) sampleDB eq_refl eq_refl).
Defined.

Lemma publishPost_spec_witness :
  run (publishPost sampleId (Some "false")) sampleDB
  = (inr (json (JPost (Some
       (mkPost sampleId PLACEHOLDER_AUTHOR "Hello &lt;b&gt;world&lt;&#x2F;b&gt;"
          1700000000000 "html" ["first"; "second"] false 0)))),
     setPosts <[sampleId :=
       mkPost sampleId PLACEHOLDER_AUTHOR "Hello &lt;b&gt;world&lt;&#x2F;b&gt;"
         1700000000000 "html" ["first"; "second"] false 0]> sampleDB).
Proof. exact (publishPost_spec (H:=hex24) sampleId sampleId false sampleDB eq_refl). Defined.

Lemma publishPost_bad_query_witness :
  @publishPost hex24 sampleId (Some "maybe")
  = Ret (statusJson 400 (JErrorMessage INVALID_QUERY)).
Proof. apply publishPost_bad_query; [reflexivity|discriminate..]. Defined.

Lemma deletePost_spec_witness :
  run (deletePost sampleId) sampleDB
  = (inr (json (JPost (Some samplePost))), setPosts (delete sampleId) sampleDB).
Proof. exact (deletePost_spec (H:=hex24) sampleId sampleId sampleDB eq_refl). Defined.
