(* ===== verification/Comments.v ===== *)
(** * Comments: the comments controller

    The five handlers of [comments_controller]: [getAllComments],
    [getSpecificComment], [postNewComment], [editComment] and
    [deleteComment].  [postNewComment] saves the comment and increments the
    counter of its post in one [Promise.all]; [deleteComment] decrements
    the counter after the comment is gone and does not look at the
    result.  [postNewComment] and [editComment] are arrays of type
    [FormPOSTHandler], as in [Posts]. *)

From S2P Require Import Prelude JsString Sanitizers Validator ScriptTags.
From S2P Require Import Chains ObjectId Store Program Routes Posts.

Definition DATABASE_UPDATE_ERROR : string := "Error updating database".

Section comments.
Context `{ObjectIdLib} `{ScriptTagRemover}.

(** [x && { key: x }] of the search filter: the key is there when the
    parameter is a non-empty string. *)
Definition truthy (s : option string) : option string :=
  match s with
  | Some "" | None => None
  | Some s => Some s
  end.

(** One key of the filter, cast by Mongoose when the query is built. *)
Definition filterKey (s : option string) : Prog (option ObjectId) :=
  match truthy s with
  | None => mret None
  | Some s => id ← castObjectId s; mret (Some id)
  end.

Definition getAllComments (postID readerID : option string) : Prog Response :=
  post ← filterKey postID;
  commenter ← filterKey readerID;
  allComments ← await (OpCommentFind (mkQuery post commenter));
  mret (json (JComments allComments)).

Definition getSpecificComment (commentID : string) : Prog Response :=
  if negb (isValid commentID) then mret (statusJson 400 (JErrorMessage INVALID_ID))
  else
    id ← castObjectId commentID;
    comment ← await (OpCommentFindById id);
    match comment with
    | None => mret (statusJson 404 (JErrorMessage DOES_NOT_EXIST))
    | Some c => mret (json (JComment (Some c)))
    end.

(** The handler of the array [postNewComment] (lines 62-96). *)
Definition postNewComment_handler (env : Env) (postID : string)
  (commenterID : option string) (req : Validated) : Prog Response :=
  let '(body', errors) := req in
  if negb (bool_decide (errors = [])) then mret (json (JErrors errors))
  else
    commenter ← newObjectId env commenterID;
    post ← newObjectId env (Some postID);
    let comment :=
      mkComment (env_newId env) commenter post (env_now env)
        (asString (body' !! "text")) [] in
    '(savedComment, updatedPost) ←
      awaitAll (OpCommentSave comment) (OpPostUpdate post (IncCommentCount 1));
    populated ← await (OpPopulate savedComment);
    match updatedPost with
    | Some _ => mret (statusJson 201 (JPopulatedComment populated))
    | None => mret (statusJson 500 (JMessage DATABASE_UPDATE_ERROR))
    end.

(** The array [postNewComment] (lines 55-97). *)
Definition postNewComment_route (env : Env) (postID : string)
  (commenterID : option string) : FormPOSTHandler :=
  routeOf postNewComment_chains (postNewComment_handler env postID commenterID).

Definition postNewComment (env : Env) (postID : string) (commenterID : option string)
  (body : Body) : Prog Response :=
  Eval cbv beta delta [postNewComment_handler] in
  postNewComment_handler env postID commenterID (runChains postNewComment_chains body).

(** The handler of the array [editComment] (lines 108-143). *)
Definition editComment_handler (commentID : string) (req : Validated) : Prog Response :=
  let '(body', errors) := req in
  if negb (isValid commentID) then mret (statusJson 400 (JErrorMessage INVALID_ID))
  else if negb (bool_decide (errors = [])) then mret (json (JErrors errors))
  else
    id ← castObjectId commentID;
    existingComment ← await (OpCommentFindById id);
    match existingComment with
    | None => mret (statusJson 404 (JErrorMessage DOES_NOT_EXIST))
    | Some existing =>
        let commentWithEdits :=
          mkComment (comment_id existing) (comment_commenter existing)
            (comment_post existing) (comment_timestamp existing)
            (asString (body' !! "text")) (comment_replies existing) in
        editedComment ← await (OpCommentUpdate id commentWithEdits);
        mret (json (JComment editedComment))
    end.

(** The array [editComment] (lines 102-144). *)
Definition editComment_route (commentID : string) : FormPOSTHandler :=
  routeOf editComment_chains (editComment_handler commentID).

Definition editComment (commentID : string) (body : Body) : Prog Response :=
  Eval cbv beta delta [editComment_handler] in
  editComment_handler commentID (runChains editComment_chains body).

Definition deleteComment (commentID : string) : Prog Response :=
  if negb (isValid commentID) then mret (statusJson 400 (JErrorMessage INVALID_ID))
  else
    id ← castObjectId commentID;
    deletedComment ← await (OpCommentDelete id);
    match deletedComment with
    | None => mret (statusJson 404 (JErrorMessage DOES_NOT_EXIST))
    | Some c =>
        _ ← await (OpPostUpdate (comment_post c) (IncCommentCount (-1)));
        mret (statusJson 204 (JComment (Some c)))
    end.

End comments.

(** ** Behaviour of the handlers *)

Section comments_lemmas.
Context `{ObjectIdLib} `{ScriptTagRemover}.
Implicit Types (db : DB) (commentID postID : string) (id pid : ObjectId)
  (c : CommentModel) (body : Body) (env : Env).

(** The comment [postNewComment] constructs. *)
Definition newCommentOf env (commenter post : ObjectId) body : CommentModel :=
  mkComment (env_newId env) commenter post (env_now env)
    (commentTextOf (body !! "text")) [].

(** The comment [editComment] stores in place of [c]. *)
Definition editedCommentOf body c : CommentModel :=
  mkComment (comment_id c) (comment_commenter c) (comment_post c)
    (comment_timestamp c) (editedCommentTextOf (body !! "text")) (comment_replies c).

(** The identifier [new Types.ObjectId(commenterID)] yields. *)
Definition commenterOf env (commenterID : option string) : option ObjectId :=
  match commenterID with
  | None => Some (env_generated env)
  | Some s => parseObjectId s
  end.

Definition incCommentCount (n : Z) (pid : ObjectId) (db : DB) : DB :=
  (Post_findByIdAndUpdate pid (IncCommentCount n) db).2.

Lemma incCommentCount_absent n pid db :
  posts db !! pid = None → incCommentCount n pid db = db.
Proof. intros Hp. unfold incCommentCount. by rewrite Post_findByIdAndUpdate_absent. Qed.

Lemma incCommentCount_present n pid db p :
  posts db !! pid = Some p →
  incCommentCount n pid db
  = setPosts <[pid := applyPostUpdate (IncCommentCount n) p]> db.
Proof.
  intros Hp. unfold incCommentCount.
  by rewrite (Post_findByIdAndUpdate_present _ _ _ _ Hp).
Qed.

Lemma getSpecificComment_run commentID id db :
  parseObjectId commentID = Some id →
  run (getSpecificComment commentID) db
  = (inr (from_option (λ c, json (JComment (Some c))) notFound (comments db !! id)), db).
Proof.
  intros Hid. unfold getSpecificComment. handler_valid Hid.
  unfold Comment_findById. by destruct (comments db !! id).
Qed.

Lemma newObjectId_commenterOf env commenterID :
  newObjectId env commenterID
  = from_option Ret (Throw BSONError) (commenterOf env commenterID).
Proof.
  unfold newObjectId, commenterOf. destruct commenterID as [s|]; [|done].
  by destruct (parseObjectId s).
Qed.

Lemma postNewComment_rejected env postID commenterID body :
  (runChains postNewComment_chains body).2 ≠ [] →
  postNewComment env postID commenterID body
  = Ret (json (JErrors (runChains postNewComment_chains body).2)).
Proof.
  intros He. unfold postNewComment. destruct (runChains _ _) as [body' errors].
  simpl in *. by rewrite bool_decide_eq_false_2.
Qed.

Lemma postNewComment_run env postID commenterID body commenter pid db :
  (runChains postNewComment_chains body).2 = [] →
  commenterOf env commenterID = Some commenter →
  parseObjectId postID = Some pid →
  let comment := newCommentOf env commenter pid body in
  run (postNewComment env postID commenterID body) db
  = match comments db !! env_newId env with
    | Some _ => (inl DuplicateKey, incCommentCount 1 pid db)
    | None =>
        let db1 := setComments <[env_newId env := comment]> db in
        match posts db !! pid with
        | Some p =>
            (inr (statusJson 201 (JPopulatedComment (populateCommenter db comment))),
             incCommentCount 1 pid db1)
        | None => (inr (statusJson 500 (JMessage DATABASE_UPDATE_ERROR)), db1)
        end
    end.
Proof.
  intros He Hc Hp comment. unfold postNewComment.
  destruct (postNewComment_values body) as [Hx _].
  destruct (runChains _ _) as [body' errors]. simpl in He, Hx. subst errors.
  rewrite bool_decide_eq_true_2 by done. cbn [negb].
  rewrite (newObjectId_parse env _ _ Hp), (newObjectId_commenterOf env commenterID), Hc, Hx.
  cbn [from_option mbind Prog_bind bind awaitAll run execOp asString toString].
  fold comment. unfold Comment_save, incCommentCount. cbn [comment_id comment newCommentOf].
  destruct (comments db !! env_newId env) as [c0|] eqn:Hfresh.
  - by destruct (Post_findByIdAndUpdate pid _ db).
  - unfold Post_findByIdAndUpdate. cbn [posts setComments].
    by destruct (posts db !! pid).
Qed.

Lemma editComment_invalid commentID body :
  isValid commentID = false → editComment commentID body = Ret invalidId.
Proof.
  intros Hv. unfold editComment. destruct (runChains _ _) as [body' errors].
  by rewrite Hv.
Qed.

Lemma editComment_rejected commentID body :
  isValid commentID = true →
  (runChains editComment_chains body).2 ≠ [] →
  editComment commentID body = Ret (json (JErrors (runChains editComment_chains body).2)).
Proof.
  intros Hv He. unfold editComment. destruct (runChains _ _) as [body' errors].
  simpl in *. by rewrite Hv, bool_decide_eq_false_2.
Qed.

Lemma editComment_run commentID id body db :
  parseObjectId commentID = Some id →
  (runChains editComment_chains body).2 = [] →
  run (editComment commentID body) db
  = match comments db !! id with
    | Some c => (inr (json (JComment (Some (editedCommentOf body c)))),
                 setComments <[id := editedCommentOf body c]> db)
    | None => (inr notFound, db)
    end.
Proof.
  intros Hid He. unfold editComment.
  destruct (editComment_values body) as [Hx _].
  destruct (runChains _ _) as [body' errors]. simpl in He, Hx. subst errors.
  rewrite (isValid_parse _ _ Hid), (castObjectId_parse _ _ Hid), Hx.
  rewrite bool_decide_eq_true_2 by done.
  cbn [negb mbind Prog_bind bind await run execOp]. unfold Comment_findById.
  destruct (comments db !! id) as [c|] eqn:Hc; [|done].
  cbn [mbind Prog_bind bind await run execOp]. unfold Comment_findByIdAndUpdate.
  by rewrite Hc.
Qed.

Lemma deleteComment_run commentID id db :
  parseObjectId commentID = Some id →
  run (deleteComment commentID) db
  = match comments db !! id with
    | Some c => (inr (statusJson 204 (JComment (Some c))),
                 incCommentCount (-1) (comment_post c) (setComments (delete id) db))
    | None => (inr notFound, db)
    end.
Proof.
  intros Hid. unfold deleteComment. handler_valid Hid.
  destruct (comments db !! id) as [c|] eqn:Hc; simpl.
  - unfold incCommentCount. by destruct (Post_findByIdAndUpdate _ _ _).
  - f_equal. by apply setComments_id, delete_id.
Qed.

(** A key of the search filter after the cast: [None] when the cast
    throws. *)
Definition filterOf (s : option string) : option (option ObjectId) :=
  match truthy s with
  | None => Some None
  | Some s => Some <$> parseObjectId s
  end.

Lemma filterKey_filterOf s :
  filterKey s = from_option Ret (Throw CastError) (filterOf s).
Proof.
  unfold filterKey, filterOf. destruct (truthy s) as [s'|]; [|done].
  unfold castObjectId. by destruct (parseObjectId s').
Qed.

Lemma getAllComments_run (postID readerID : option string) post commenter db :
  filterOf postID = Some post → filterOf readerID = Some commenter →
  run (getAllComments postID readerID) db
  = (inr (json (JComments (Comment_find (mkQuery post commenter) db))), db).
Proof.
  intros Hp Hc. unfold getAllComments. by rewrite !filterKey_filterOf, Hp, Hc.
Qed.

Lemma populateCommenter_comment db c : populated_comment (populateCommenter db c) = c.
Proof. done. Qed.

Lemma Comment_find_comments q db :
  populated_comment <$> Comment_find q db
  = newestFirst comment_timestamp
      (List.filter (matchesQuery q) (map_to_list (comments db)).*2).
Proof.
  unfold Comment_find. rewrite <-list_fmap_compose.
  etrans; [|apply list_fmap_id]. by apply list_fmap_ext.
Qed.

(** Restoring a counter: [+1] then [-1] on a post gives the post back. *)
Lemma applyPostUpdate_inc_dec p :
  applyPostUpdate (IncCommentCount (-1)) (applyPostUpdate (IncCommentCount 1) p) = p.
Proof. destruct p. simpl. f_equal. lia. Qed.

(** The arrays [postNewComment] and [editComment] run on a request. *)
Lemma postNewComment_route_run env postID commenterID body rest :
  runRoute (postNewComment_route env postID commenterID ++ rest) (body, [])
  = Some (postNewComment env postID commenterID body).
Proof. unfold postNewComment_route. by rewrite runRoute_after_handler, runRoute_routeOf. Qed.

Lemma editComment_route_run commentID body rest :
  runRoute (editComment_route commentID ++ rest) (body, [])
  = Some (editComment commentID body).
Proof. unfold editComment_route. by rewrite runRoute_after_handler, runRoute_routeOf. Qed.

End comments_lemmas.

(** ** Theorems on the comments controller *)

(** The two writes of [postNewComment], in one order and in the other. *)
Definition saveThenIncrement `{ObjectIdLib} (c : CommentModel) (pid : ObjectId) (db : DB)
  : (Exn + CommentModel) * (Exn + option PostModel) * DB :=
  let '(r1, db1) := execOp (OpCommentSave c) db in
  let '(r2, db2) := execOp (OpPostUpdate pid (IncCommentCount 1)) db1 in
  (r1, r2, db2).

Definition incrementThenSave `{ObjectIdLib} (c : CommentModel) (pid : ObjectId) (db : DB)
  : (Exn + CommentModel) * (Exn + option PostModel) * DB :=
  let '(r2, db1) := execOp (OpPostUpdate pid (IncCommentCount 1)) db in
  let '(r1, db2) := execOp (OpCommentSave c) db1 in
  (r1, r2, db2).

Section comments_theorems.
Context `{ObjectIdLib} `{ScriptTagRemover}.
Implicit Types (db : DB) (commentID postID : string) (id pid : ObjectId)
  (c : CommentModel) (p : PostModel) (body : Body) (env : Env).

(** With a malformed identifier, [getSpecificComment], [editComment] and
    [deleteComment] answer 400 with [INVALID_ID] and issue no operation on
    the store. *)
Theorem comments_invalid_id commentID body :
  isValid commentID = false →
  getSpecificComment commentID = Ret invalidId ∧
  editComment commentID body = Ret invalidId ∧
  deleteComment commentID = Ret invalidId.
Proof.
  intros Hv. split_and!.
  - unfold getSpecificComment. by rewrite Hv.
  - unfold editComment. destruct (runChains _ _). by rewrite Hv.
  - unfold deleteComment. by rewrite Hv.
Qed.

(** C2: when the text passes validation, both identifiers are well formed,
    the post exists and the generated identifier is free, [postNewComment]
    stores the comment, increments the comment counter of the post by
    exactly one, changes nothing else, and answers 201 with the comment. *)
Theorem postNewComment_creates env postID commenterID body commenter pid p db :
  (runChains postNewComment_chains body).2 = [] →
  commenterOf env commenterID = Some commenter →
  parseObjectId postID = Some pid →
  comments db !! env_newId env = None →
  posts db !! pid = Some p →
  let comment :=
    mkComment (env_newId env) commenter pid (env_now env)
      (commentTextOf (body !! "text")) [] in
  let p' :=
    mkPost (post_id p) (post_author p) (post_title p) (post_timestamp p)
      (post_category p) (post_text p) (post_isPublished p) (post_commentCount p + 1) in
  run (postNewComment env postID commenterID body) db
  = (inr (statusJson 201 (JPopulatedComment (populateCommenter db comment))),
     mkDB (<[pid := p']> (posts db)) (<[env_newId env := comment]> (comments db))
       (authors db)).
Proof.
  intros He Hc Hp Hfresh Hpost comment p'.
  rewrite (postNewComment_run _ _ _ _ commenter pid) by done.
  rewrite Hfresh, Hpost. f_equal.
  by rewrite (incCommentCount_present _ _ _ p).
Qed.

(** C9: when the post does not exist, [postNewComment] answers 500 with the
    database-update error and the comment is in the store nevertheless: the
    two writes are not undone together. *)
Theorem postNewComment_orphan env postID commenterID body commenter pid db :
  (runChains postNewComment_chains body).2 = [] →
  commenterOf env commenterID = Some commenter →
  parseObjectId postID = Some pid →
  comments db !! env_newId env = None →
  posts db !! pid = None →
  ∃ db',
    run (postNewComment env postID commenterID body) db
    = (inr (statusJson 500 (JMessage DATABASE_UPDATE_ERROR)), db') ∧
    comments db' !! env_newId env = Some (newCommentOf env commenter pid body) ∧
    posts db' = posts db.
Proof.
  intros He Hc Hp Hfresh Hpost. eexists.
  rewrite (postNewComment_run _ _ _ _ commenter pid) by done.
  rewrite Hfresh, Hpost. split; [done|]. simpl. by rewrite lookup_insert_eq.
Qed.

(** C36: when the text passes validation and the post or the commenter
    identifier is malformed, [postNewComment] does not answer 400: the
    constructor of the identifier throws, no response is sent by the
    handler, and the store is unchanged. *)
Theorem postNewComment_malformed_id env postID commenterID body db :
  (runChains postNewComment_chains body).2 = [] →
  commenterOf env commenterID = None ∨ parseObjectId postID = None →
  expressAsyncHandler (postNewComment env postID commenterID body) db
  = (Failed BSONError, db).
Proof.
  intros He Hbad. unfold expressAsyncHandler, postNewComment.
  destruct (runChains _ _) as [body' errors]. simpl in He. subst errors.
  rewrite bool_decide_eq_true_2 by done. cbn [negb].
  rewrite (newObjectId_commenterOf env commenterID).
  destruct (commenterOf env commenterID) as [commenter|]; [|done].
  destruct Hbad as [|Hp]; [done|]. cbn [from_option mbind Prog_bind bind].
  unfold newObjectId. by rewrite Hp.
Qed.

(** C3: [deleteComment] with the identifier of a stored comment removes it,
    decrements the comment counter of its post by exactly one when that
    post exists, changes nothing else, and answers 204 with the comment. *)
Theorem deleteComment_spec commentID id c db :
  parseObjectId commentID = Some id →
  comments db !! id = Some c →
  run (deleteComment commentID) db
  = (inr (statusJson 204 (JComment (Some c))),
     mkDB
       (match posts db !! comment_post c with
        | Some p =>
            <[comment_post c :=
                mkPost (post_id p) (post_author p) (post_title p) (post_timestamp p)
                  (post_category p) (post_text p) (post_isPublished p)
                  (post_commentCount p + -1)]> (posts db)
        | None => posts db
        end)
       (delete id (comments db)) (authors db)).
Proof.
  intros Hid Hc. rewrite (deleteComment_run _ id) by done. rewrite Hc. f_equal.
  destruct (posts db !! comment_post c) as [p|] eqn:Hp.
  - by rewrite (incCommentCount_present _ _ _ p).
  - by rewrite incCommentCount_absent.
Qed.

(** C32: [editComment] replaces the text of the stored comment by the
    trimmed, script-stripped text of the body and keeps its identifier,
    commenter, post, timestamp and replies; 404 when there is no such
    comment. *)
Theorem editComment_spec commentID id body db :
  parseObjectId commentID = Some id →
  (runChains editComment_chains body).2 = [] →
  run (editComment commentID body) db
  = match comments db !! id with
    | Some c =>
        let c' :=
          mkComment (comment_id c) (comment_commenter c) (comment_post c)
            (comment_timestamp c)
            (removeDangerousScriptTags (trim (toString (body !! "text"))))
            (comment_replies c) in
        (inr (json (JComment (Some c'))), setComments <[id := c']> db)
    | None => (inr notFound, db)
    end.
Proof. intros Hid He. by rewrite (editComment_run _ id). Qed.

(** The two writes [postNewComment] awaits together commute: saving the
    comment and then incrementing the counter gives the same results and
    the same store as incrementing and then saving. *)
Theorem promise_all_commutes c pid db :
  saveThenIncrement c pid db = incrementThenSave c pid db.
Proof.
  unfold saveThenIncrement, incrementThenSave. cbn [execOp].
  unfold Comment_save, Post_findByIdAndUpdate.
  destruct (comments db !! comment_id c) eqn:Hc, (posts db !! pid) eqn:Hp;
    cbn [posts comments setPosts setComments]; rewrite ?Hc, ?Hp; done.
Qed.

(** C11: deleting the comment [postNewComment] has just created gives back
    the store as it was before the creation: the comment is gone and the
    counter of the post is what it was. *)
Theorem create_delete_roundtrip env postID commenterID body commenter pid p newID db :
  (runChains postNewComment_chains body).2 = [] →
  commenterOf env commenterID = Some commenter →
  parseObjectId postID = Some pid →
  comments db !! env_newId env = None →
  posts db !! pid = Some p →
  parseObjectId newID = Some (env_newId env) →
  ∃ r1 r2 db1,
    run (postNewComment env postID commenterID body) db = (inr r1, db1) ∧
    run (deleteComment newID) db1 = (inr r2, db) ∧
    res_status r1 = 201 ∧ res_status r2 = 204.
Proof.
  intros He Hc Hp Hfresh Hpost Hid. do 3 eexists.
  rewrite (postNewComment_run _ _ _ _ commenter pid) by done.
  rewrite (deleteComment_run _ (env_newId env)) by done.
  rewrite Hfresh, Hpost. split; [done|].
  rewrite (incCommentCount_present _ _ _ p) by done.
  cbn [comments setPosts setComments]. rewrite lookup_insert_eq.
  assert (incCommentCount (-1) (comment_post (newCommentOf env commenter pid body))
            (setComments (delete (env_newId env))
               (setPosts <[pid:=applyPostUpdate (IncCommentCount 1) p]>
                  (setComments <[env_newId env:=newCommentOf env commenter pid body]> db)))
          = db) as ->; [|done].
  rewrite (incCommentCount_present _ _ _ (applyPostUpdate (IncCommentCount 1) p))
    by apply lookup_insert_eq.
  destruct db as [ps cs au]. unfold setPosts, setComments.
  cbn [posts comments authors comment_post newCommentOf] in *.
  by rewrite applyPostUpdate_inc_dec, insert_insert_eq, insert_id, delete_insert_eq,
    delete_id.
Qed.

(** C33: [getAllComments] with filter keys that are absent or well formed
    answers with the stored comments that match every key that is present,
    each exactly once, newest first, and leaves the store as it was. *)
Theorem getAllComments_spec (postID readerID : option string) post commenter db :
  filterOf postID = Some post → filterOf readerID = Some commenter →
  ∃ l, run (getAllComments postID readerID) db = (inr (json (JComments l)), db) ∧
       populated_comment <$> l
         ≡ₚ List.filter (matchesQuery (mkQuery post commenter))
              (map_to_list (comments db)).*2 ∧
       StronglySorted (λ a b, comment_timestamp b ≤ comment_timestamp a)%Z
         (populated_comment <$> l).
Proof.
  intros Hp Hc. eexists. split; [by apply getAllComments_run|].
  rewrite Comment_find_comments.
  split; [apply newestFirst_Permutation|apply newestFirst_Sorted].
Qed.

(** C37: a filter key that is present and malformed makes [getAllComments]
    throw when the query is built: no response is sent by the handler. *)
Theorem getAllComments_malformed (postID readerID : option string) db :
  filterOf postID = None ∨ filterOf readerID = None →
  expressAsyncHandler (getAllComments postID readerID) db = (Failed CastError, db).
Proof.
  intros Hbad. unfold expressAsyncHandler, getAllComments.
  rewrite !filterKey_filterOf.
  destruct (filterOf postID) as [post|]; [|done].
  destruct Hbad as [|Hr]; [done|]. by rewrite Hr.
Qed.

(** The four arrays of type [FormPOSTHandler] are chains followed by
    a handler, and Express running the array is the handler run on what the
    chains leave: every chain has sanitized its field and recorded its
    errors, in the order of the array, before the handler reads the body
    and [validationResult(req)].  The handler answers every request, so
    that nothing appended to the array ever runs: the theorems on
    [postNewPost], [editPost], [postNewComment] and [editComment] are
    theorems on the routes. *)
Theorem routes_run_handlers categories env postID commentID commenterID body rest :
  runRoute (postNewPost_route categories env ++ rest) (body, [])
  = Some (postNewPost categories env body) ∧
  runRoute (editPost_route categories postID ++ rest) (body, [])
  = Some (editPost categories postID body) ∧
  runRoute (postNewComment_route env postID commenterID ++ rest) (body, [])
  = Some (postNewComment env postID commenterID body) ∧
  runRoute (editComment_route commentID ++ rest) (body, [])
  = Some (editComment commentID body) ∧
  Forall routeOk [postNewPost_route categories env; editPost_route categories postID;
                  postNewComment_route env postID commenterID;
                  editComment_route commentID].
Proof.
  split_and!;
    [apply postNewPost_route_run|apply editPost_route_run|apply postNewComment_route_run
    |apply editComment_route_run|].
  repeat constructor; by eexists _, _.
Qed.

End comments_theorems.

(** ** Concrete runs *)

Definition sampleCommentId : string := "cccccccccccccccccccccccc".
Definition sampleReader : string := "dddddddddddddddddddddddd".

Definition sampleCommentEnv : @Env hex24 :=
  mkEnv 1700000005000 sampleCommentId "eeeeeeeeeeeeeeeeeeeeeeee".

Definition sampleCommentBody : Body := <["text" := VString " Nice <i>post</i> "]> ∅.

Definition sampleComment : @CommentModel hex24 :=
  mkComment sampleCommentId sampleReader sampleId 1700000005000
    "Nice &lt;i&gt;post&lt;&#x2F;i&gt;" [].

(** The store after the comment is created on [sampleDB]. *)
Definition sampleDB1 : @DB hex24 :=
  mkDB (<[sampleId := applyPostUpdate (IncCommentCount 1) samplePost]> (posts sampleDB))
    (<[sampleCommentId := sampleComment]> (comments sampleDB)) (authors sampleDB).

Lemma comments_invalid_id_witness :
  @getSpecificComment hex24 "xyz" = Ret invalidId ∧
  editComment "xyz" sampleCommentBody = Ret invalidId ∧
  @deleteComment hex24 "xyz" = Ret invalidId.
Proof. apply comments_invalid_id. reflexivity. Defined.

Lemma postNewComment_creates_witness :
  run (postNewComment sampleCommentEnv sampleId (Some sampleReader) sampleCommentBody)
    sampleDB
  = (inr (statusJson 201 (JPopulatedComment (mkPopulated sampleComment None))), sampleDB1).
Proof.
  exact (postNewComment_creates sampleCommentEnv sampleId (Some sampleReader)
           sampleCommentBody sampleReader sampleId samplePost sampleDB
           eq_refl eq_refl eq_refl eq_refl eq_refl).
Defined.

Lemma postNewComment_orphan_witness :
  ∃ db',
    run (postNewComment sampleCommentEnv sampleId (Some sampleReader) sampleCommentBody)
      emptyDB
    = (inr (statusJson 500 (JMessage DATABASE_UPDATE_ERROR)), db') ∧
    comments db' !! sampleCommentId = Some sampleComment ∧
    posts db' = posts emptyDB.
Proof.
  exact (postNewComment_orphan sampleCommentEnv sampleId (Some sampleReader)
           sampleCommentBody sampleReader sampleId emptyDB
           eq_refl eq_refl eq_refl eq_refl eq_refl).
Defined.

Lemma postNewComment_malformed_id_witness :
  expressAsyncHandler
    (postNewComment sampleCommentEnv "42" (Some sampleReader) sampleCommentBody) sampleDB
  = (Failed BSONError, sampleDB).
Proof.
  exact (postNewComment_malformed_id sampleCommentEnv "42" (Some sampleReader)
           sampleCommentBody sampleDB eq_refl (or_intror eq_refl)).
Defined.

Lemma deleteComment_spec_witness :
  run (deleteComment sampleCommentId) sampleDB1
  = (inr (statusJson 204 (JComment (Some sampleComment))),
     mkDB (<[sampleId := samplePost]> (posts sampleDB1))
       (delete sampleCommentId (comments sampleDB1)) (authors sampleDB1)).
Proof.
  exact (deleteComment_spec sampleCommentId sampleCommentId sampleComment sampleDB1
           eq_refl eq_refl).
Defined.

Lemma editComment_spec_witness :
  run (editComment sampleCommentId (<["text" := VString " a > b "]> ∅)) sampleDB1
  = (inr (json (JComment (Some
       (mkComment sampleCommentId sampleReader sampleId 1700000005000 "a > b" [])))),
     setComments <[sampleCommentId :=
       mkComment sampleCommentId sampleReader sampleId 1700000005000 "a > b" []]>
       sampleDB1).
Proof.
  exact (editComment_spec sampleCommentId sampleCommentId
           (<["text" := VString " a > b "]> ∅) sampleDB1 eq_refl eq_refl).
Defined.

Lemma create_delete_roundtrip_witness :
  ∃ r1 r2 db1,
    run (postNewComment sampleCommentEnv sampleId (Some sampleReader) sampleCommentBody)
      sampleDB = (inr r1, db1) ∧
    run (deleteComment sampleCommentId) db1 = (inr r2, sampleDB) ∧
    res_status r1 = 201 ∧ res_status r2 = 204.
Proof.
  exact (create_delete_roundtrip sampleCommentEnv sampleId (Some sampleReader)
           sampleCommentBody sampleReader sampleId samplePost sampleCommentId sampleDB
           eq_refl eq_refl eq_refl eq_refl eq_refl eq_refl).
Defined.

Lemma getAllComments_spec_witness :
  ∃ l, run (getAllComments (Some sampleId) None) sampleDB1
       = (inr (json (JComments l)), sampleDB1) ∧
       populated_comment <$> l
         ≡ₚ List.filter (matchesQuery (mkQuery (Some sampleId) None))
              (map_to_list (comments sampleDB1)).*2 ∧
       StronglySorted (λ a b, comment_timestamp b ≤ comment_timestamp a)%Z
         (populated_comment <$> l).
Proof.
  exact (getAllComments_spec (Some sampleId) None (Some sampleId) None sampleDB1
           eq_refl eq_refl).
Defined.

Lemma getAllComments_malformed_witness :
  expressAsyncHandler (getAllComments (Some "42") None) sampleDB1
  = (Failed CastError, sampleDB1).
Proof. exact (getAllComments_malformed (Some "42") None sampleDB1 (or_introl eq_refl)). Defined.
