(* ===== verification/Api.v ===== *)
(** * Api: the requests of the API and their execution

    One [Request] per route of the API, with what the handler reads from
    it; [handler] binds each to the handler of the controllers that serves
    it, and [serve] runs the handler under [expressAsyncHandler] on a state
    of the store.  [serveAll] serves a sequence of requests one after the
    other, each on the state its predecessor left.  The routers of the
    application are not part of the repository's sources: the routes are
    those of the HTTP surface the specification lists, one per exported
    handler.

    The second half relates [serve] to [run] and shows that the requests
    that read leave the store as it is. *)

From S2P Require Import Prelude JsString Sanitizers Validator ScriptTags.
From S2P Require Import Chains ObjectId Store Program Posts Comments.

Section api.
Context `{ObjectIdLib} `{ScriptTagRemover} (categories : list string).

Inductive Request :=
| GetAllPosts                                             (* GET /posts *)
| GetSpecificPost (postID : string)                       (* GET /posts/:postID *)
| PostNewPost (env : Env) (body : Body)                   (* POST /posts *)
| EditPost (postID : string) (body : Body)                (* PUT /posts/:postID *)
| PublishPost (postID : string) (publish : option string) (* PATCH /posts/:postID?publish= *)
| DeletePost (postID : string)                            (* DELETE /posts/:postID *)
| GetAllComments (postID readerID : option string)        (* GET /comments *)
| GetSpecificComment (commentID : string)                 (* GET /comments/:commentID *)
| PostNewComment (env : Env) (postID : string) (commenterID : option string)
    (body : Body)                                         (* POST /comments?commenterID= *)
| EditComment (commentID : string) (body : Body)          (* PUT /comments/:commentID *)
| DeleteComment (commentID : string).                     (* DELETE /comments/:commentID *)

Definition handler (r : Request) : Prog Response :=
  match r with
  | GetAllPosts => getAllPosts
  | GetSpecificPost postID => getSpecificPost postID
  | PostNewPost env body => postNewPost categories env body
  | EditPost postID body => editPost categories postID body
  | PublishPost postID publish => publishPost postID publish
  | DeletePost postID => deletePost postID
  | GetAllComments postID readerID => getAllComments postID readerID
  | GetSpecificComment commentID => getSpecificComment commentID
  | PostNewComment env postID commenterID body => postNewComment env postID commenterID body
  | EditComment commentID body => editComment commentID body
  | DeleteComment commentID => deleteComment commentID
  end.

Definition serve (r : Request) (db : DB) : Outcome * DB :=
  expressAsyncHandler (handler r) db.

(** Requests served one after the other. *)
Fixpoint serveAll (rs : list Request) (db : DB) : list Outcome * DB :=
  match rs with
  | [] => ([], db)
  | r :: rs =>
      let '(o, db1) := serve r db in
      let '(os, db2) := serveAll rs db1 in
      (o :: os, db2)
  end.

(** The status of the response, when one was sent. *)
Definition statusOf (o : Outcome) : option nat :=
  match o with
  | Sent r => Some (res_status r)
  | Failed _ => None
  end.

(** The requests that only read. *)
Definition isGet (r : Request) : bool :=
  match r with
  | GetAllPosts | GetSpecificPost _ | GetAllComments _ _ | GetSpecificComment _ => true
  | _ => false
  end.

End api.

(** ** The store after a request *)

Section api_lemmas.
Context `{ObjectIdLib} `{ScriptTagRemover} (categories : list string).
Implicit Types (db : DB) (r : Request) (rs : list Request) (id : ObjectId)
  (body : Body) (env : Env).

Lemma serve_store r db : (serve categories r db).2 = (run (handler categories r) db).2.
Proof. unfold serve, expressAsyncHandler. by destruct (run _ _) as [[e|a] db']. Qed.

Lemma serve_sent r db a db' :
  run (handler categories r) db = (inr a, db') → serve categories r db = (Sent a, db').
Proof. unfold serve, expressAsyncHandler. by intros ->. Qed.

Lemma serve_failed r db e db' :
  run (handler categories r) db = (inl e, db') → serve categories r db = (Failed e, db').
Proof. unfold serve, expressAsyncHandler. by intros ->. Qed.

Lemma serveAll_cons r rs db :
  (serveAll categories (r :: rs) db).2
  = (serveAll categories rs (serve categories r db).2).2.
Proof.
  simpl. destruct (serve categories r db) as [o db1]. simpl.
  by destruct (serveAll categories rs db1).
Qed.

Lemma serveAll_app rs1 rs2 db :
  serveAll categories (rs1 ++ rs2) db
  = let '(os1, db1) := serveAll categories rs1 db in
    let '(os2, db2) := serveAll categories rs2 db1 in
    (os1 ++ os2, db2).
Proof.
  revert db. induction rs1 as [|r rs1 IH]; intros db; simpl.
  - by destruct (serveAll categories rs2 db).
  - destruct (serve categories r db) as [o db1]. rewrite IH.
    destruct (serveAll categories rs1 db1) as [os1 db2].
    by destruct (serveAll categories rs2 db2).
Qed.

Lemma serveAll_length rs db : length (serveAll categories rs db).1 = length rs.
Proof.
  revert db. induction rs as [|r rs IH]; intros db; simpl; [done|].
  destruct (serve categories r db) as [o db1]. specialize (IH db1).
  destruct (serveAll categories rs db1). simpl in *. by rewrite IH.
Qed.

(** A handler that returns before its first [await] leaves the store as it
    is. *)
Lemma run_Ret_store {A} (p : Prog A) (a : A) db : p = Ret a → (run p db).2 = db.
Proof. by intros ->. Qed.

Lemma run_Throw_store {A} (p : Prog A) e db : p = Throw e → (run p db).2 = db.
Proof. by intros ->. Qed.

(** The requests that read leave the store as it is. *)
Lemma get_store r db : isGet r = true → (run (handler categories r) db).2 = db.
Proof.
  destruct r as [|postID| | | | |postID readerID|commentID| | |]; try done; intros _; simpl.
  - destruct (parseObjectId postID) as [id|] eqn:Hid.
    + by rewrite (getSpecificPost_run _ id).
    + apply isValid_false in Hid. unfold getSpecificPost. by rewrite Hid.
  - unfold getAllComments. rewrite !filterKey_filterOf.
    by destruct (filterOf postID), (filterOf readerID).
  - destruct (parseObjectId commentID) as [id|] eqn:Hid.
    + by rewrite (getSpecificComment_run _ id).
    + apply isValid_false in Hid. unfold getSpecificComment. by rewrite Hid.
Qed.

(** The four GET requests leave the store as it is, also when they
    fail. *)
Theorem get_requests_readonly r db : isGet r = true → (serve categories r db).2 = db.
Proof. intros Hr. rewrite serve_store. by apply get_store. Qed.

End api_lemmas.

Lemma get_requests_readonly_witness :
  (serve sampleCategories (GetSpecificPost sampleId) sampleDB).2 = sampleDB.
Proof. exact (get_requests_readonly sampleCategories (GetSpecificPost sampleId) sampleDB eq_refl). Defined.
