(* ===== verification/Responses.v ===== *)
(** * Responses: what a handler can answer, and after how many operations

    A handler is a tree: at each [await] it branches on what the store
    returns.  [bounded Q n p] says that on every branch of [p], whatever
    the store returns, at most [n] operations are issued, and that a value
    returned at the end of a branch satisfies [Q].  The predicate is
    syntactic: it holds of executions in which other requests change the
    store between two operations as well as of sequential ones.

    Every handler of the two controllers is bounded by three operations,
    and every response it sends is well formed ([wellFormedResponse]): its
    status is the one its body goes with. *)

From S2P Require Import Prelude JsString Sanitizers Validator ScriptTags.
From S2P Require Import Chains ObjectId Store Program Posts Comments Api.

Section bounded.
Context `{ObjectIdLib}.

Inductive bounded {A} (Q : A → Prop) : nat → Prog A → Prop :=
| bounded_Ret n a : Q a → bounded Q n (Ret a)
| bounded_Throw n e : bounded Q n (Throw e)
| bounded_Await n {R} (op : DbOp R) k :
    (∀ r, bounded Q n (k r)) → bounded Q (S n) (Await op k)
| bounded_AwaitAll n {R1 R2} (op1 : DbOp R1) (op2 : DbOp R2) k :
    (∀ r, bounded Q n (k r)) → bounded Q (S (S n)) (AwaitAll op1 op2 k).

Lemma bounded_mono {A} (Q Q' : A → Prop) n m p :
  (∀ a, Q a → Q' a) → n ≤ m → bounded Q n p → bounded Q' m p.
Proof.
  intros HQ Hnm Hp. revert m Hnm.
  induction Hp as [n a Ha|n e|n R op k _ IH|n R1 R2 op1 op2 k _ IH]; intros m Hnm.
  - by apply bounded_Ret, HQ.
  - apply bounded_Throw.
  - destruct m as [|m]; [lia|]. apply bounded_Await. intros r. apply IH. lia.
  - destruct m as [|[|m]]; [lia..|]. apply bounded_AwaitAll. intros r. apply IH. lia.
Qed.

Lemma bounded_bind {A B} (Q : A → Prop) (Q' : B → Prop) n m (p : Prog A) (f : A → Prog B) :
  bounded Q n p → (∀ a, Q a → bounded Q' m (f a)) → bounded Q' (n + m) (p ≫= f).
Proof.
  intros Hp Hf. unfold mbind, Prog_bind.
  induction Hp as [n a Ha|n e|n R op k _ IH|n R1 R2 op1 op2 k _ IH]; simpl.
  - eapply bounded_mono; [done| |by apply Hf]. lia.
  - apply bounded_Throw.
  - apply bounded_Await, IH.
  - apply bounded_AwaitAll, IH.
Qed.

(** What [bounded] says of an execution. *)
Lemma bounded_run {A} (Q : A → Prop) n (p : Prog A) db :
  bounded Q n p →
  steps p db ≤ n ∧ ∀ a db', run p db = (inr a, db') → Q a.
Proof.
  intros Hp. revert db.
  induction Hp as [n a Ha|n e|n R op k _ IH|n R1 R2 op1 op2 k _ IH]; intros db; simpl.
  - split; [lia|]. by intros ?? [= <- _].
  - split; [lia|done].
  - destruct (execOp op db) as [[e|r] db1]; [split; [lia|done]|].
    destruct (IH r db1). split; [lia|done].
  - destruct (execOp op1 db) as [r1 db1], (execOp op2 db1) as [r2 db2].
    destruct (both r1 r2) as [e|r]; [split; [lia|done]|].
    destruct (IH r db2). split; [lia|done].
Qed.

End bounded.

(** [bounded_step] decomposes a goal [bounded Q n p] along the structure of
    [p]: it splits on the tests and on the matches of the program and
    enters the continuations of its operations. *)
Ltac bounded_step :=
  lazymatch goal with
  | |- bounded _ _ (Ret _) => apply bounded_Ret
  | |- bounded _ _ (Throw _) => apply bounded_Throw
  | |- bounded _ _ (Await _ _) => apply bounded_Await; intros ?
  | |- bounded _ _ (AwaitAll _ _ _) => apply bounded_AwaitAll; intros [? ?]
  | |- bounded _ _ (if ?b then _ else _) => destruct b eqn:?
  | |- bounded _ _ (match ?x with _ => _ end) => destruct x eqn:?
  | |- bounded _ _ (bind (match ?x with _ => _ end) _) => destruct x eqn:?
  | |- bounded _ _ (bind (bind (match ?x with _ => _ end) _) _) => destruct x eqn:?
  end.

Ltac bounded_steps :=
  unfold mbind, mret, Prog_bind, Prog_ret;
  repeat (try unfold castObjectId, newObjectId, filterKey, mbind, mret, Prog_bind, Prog_ret;
          cbn [bind await awaitAll]; bounded_step).

(** ** Well-formed responses *)

Section responses.
Context `{ObjectIdLib} `{ScriptTagRemover} (categories : list string).
Implicit Types (r : Request) (db : DB) (resp : Response).

(** The status a body goes with: an error message carries its own; the
    list of validation errors is not empty and is sent with 200; the
    database-update error is a 500; a populated comment is what a creation
    answers, with 201; a deleted comment is sent with 204. *)
Definition wellFormedResponse resp : Prop :=
  match res_body resp with
  | JErrorMessage e => res_status resp = status e ∧ (status e = 400 ∨ status e = 404)
  | JErrors errors => res_status resp = 200 ∧ errors ≠ []
  | JMessage _ => res_status resp = 500
  | JPopulatedComment _ => res_status resp = 201
  | JComment _ => res_status resp = 200 ∨ res_status resp = 204
  | JPost _ | JPosts _ | JComments _ => res_status resp = 200
  end.

Lemma errors_not_nil (errors : list ValidationError) :
  negb (bool_decide (errors = [])) = true → errors ≠ [].
Proof. by intros ?%negb_true_iff%bool_decide_eq_false. Qed.

Lemma handler_bounded r : bounded wellFormedResponse 3 (handler categories r).
Proof.
  destruct r; cbn [handler];
    unfold getAllPosts, getSpecificPost, postNewPost, editPost, publishPost, deletePost,
      getAllComments, getSpecificComment, postNewComment, editComment, deleteComment;
    bounded_steps; unfold wellFormedResponse; cbn; repeat case_match;
    auto using errors_not_nil.
Qed.

(** C15: every response a handler sends is well formed, in whatever state
    of the store the request is served: the status is the one of the error
    message in the body (400 or 404), 200 with a list of validation errors
    that is not empty, 500 with the database-update error, 201 with a
    created comment, and 200 otherwise, but for the deleted comment that
    goes out with 204. *)
Theorem responses_well_formed r db resp db' :
  serve categories r db = (Sent resp, db') → wellFormedResponse resp.
Proof.
  unfold serve, expressAsyncHandler. intros Hs.
  destruct (bounded_run wellFormedResponse 3 (handler categories r) db
              (handler_bounded r)) as [_ Hq].
  destruct (run (handler categories r) db) as [[e|a] db1] eqn:Hrun; [done|].
  simplify_eq. by eapply Hq.
Qed.

(** Every handler finishes after at most three operations on the
    store, whatever the request and the state of the store: a request is
    answered, or fails, within a bounded number of steps. *)
Theorem handlers_terminate r db : steps (handler categories r) db ≤ 3.
Proof. by apply (bounded_run wellFormedResponse), handler_bounded. Qed.

End responses.

Lemma responses_well_formed_witness :
  wellFormedResponse (H:=hex24) (statusJson 404 (JErrorMessage DOES_NOT_EXIST)).
Proof.
  exact (responses_well_formed sampleCategories (DeleteComment sampleCommentId) emptyDB
           _ _ eq_refl).
Defined.
