(* ===== verification/Interleave.v ===== *)
(** * Interleave: requests in flight at the same time

    Node serves a request until its handler awaits the store, and serves
    others in the meantime: the handlers of several requests interleave at
    their [await]s.  The two operations of a [Promise.all] are both in
    flight at once, so that they are executed in either order, and
    operations of other requests may come between them.

    A [Thread] is a handler in flight: a program, or a [Promise.all] one
    of whose operations has been executed.  [stepThread] executes the next
    operation of a thread (the flag chooses which one, for a
    [Promise.all]); [stepPool] does so for one thread of a pool, and a
    [Schedule] is the sequence of these choices.  Everything is
    executable.

    [run], which the other files reason with, is the schedule that lets
    one thread proceed alone and takes the operations of a [Promise.all]
    from left to right ([runThread_run]).  A thread that has no result can
    always take its next operation: requests do not block one another.
    The last part shows what interleaving does to two edits of one
    post. *)

From S2P Require Import Prelude JsString Sanitizers Validator ScriptTags.
From S2P Require Import Chains ObjectId Store Program ProgEquiv Posts Comments.

Section threads.
Context `{ObjectIdLib}.

Inductive Thread (A : Type) : Type :=
| Running (p : Prog A)
| FirstDone {R1 R2 : Type} (r1 : Exn + R1) (op2 : DbOp R2) (k : R1 * R2 → Prog A)
| SecondDone {R1 R2 : Type} (op1 : DbOp R1) (r2 : Exn + R2) (k : R1 * R2 → Prog A).

#[global] Arguments Running {A} p.
#[global] Arguments FirstDone {A R1 R2} r1 op2 k.
#[global] Arguments SecondDone {A R1 R2} op1 r2 k.

(** A program that has its result. *)
Definition done {A} (r : Exn + A) : Prog A :=
  match r with
  | inr a => Ret a
  | inl e => Throw e
  end.

(** What follows an operation whose result is [r]. *)
Definition resume {A R} (r : Exn + R) (k : R → Prog A) : Prog A :=
  match r with
  | inr a => k a
  | inl e => Throw e
  end.

(** The next operation of a thread.  [left] chooses the operation of a
    [Promise.all] that is executed first.  A thread that has its result
    does not step. *)
Definition stepThread {A} (left : bool) (t : Thread A) (db : DB) : option (Thread A * DB) :=
  match t with
  | Running (Ret _) | Running (Throw _) => None
  | Running (Await op k) =>
      let '(r, db') := execOp op db in Some (Running (resume r k), db')
  | Running (AwaitAll op1 op2 k) =>
      if left then let '(r1, db') := execOp op1 db in Some (FirstDone r1 op2 k, db')
      else let '(r2, db') := execOp op2 db in Some (SecondDone op1 r2 k, db')
  | FirstDone r1 op2 k =>
      let '(r2, db') := execOp op2 db in Some (Running (resume (both r1 r2) k), db')
  | SecondDone op1 r2 k =>
      let '(r1, db') := execOp op1 db in Some (Running (resume (both r1 r2) k), db')
  end.

(** The result of a thread that has finished. *)
Definition resultOf {A} (t : Thread A) : option (Exn + A) :=
  match t with
  | Running (Ret a) => Some (inr a)
  | Running (Throw e) => Some (inl e)
  | _ => None
  end.

(** A thread left alone, operations from left to right, for at most [fuel]
    operations. *)
Fixpoint runThread {A} (fuel : nat) (t : Thread A) (db : DB) : Thread A * DB :=
  match fuel with
  | 0 => (t, db)
  | S n =>
      match stepThread true t db with
      | Some (t', db') => runThread n t' db'
      | None => (t, db)
      end
  end.

(** ** Pools *)

Definition Pool := list (Thread Response).

(** One choice of the scheduler: the thread that proceeds, and the side of
    its [Promise.all]. *)
Definition Choice : Type := nat * bool.
Definition Schedule := list Choice.

Definition stepPool (c : Choice) (cfg : Pool * DB) : option (Pool * DB) :=
  t ← cfg.1 !! c.1;
  '(t', db') ← stepThread c.2 t cfg.2;
  Some (<[c.1 := t']> cfg.1, db').

Fixpoint runSchedule (s : Schedule) (cfg : Pool * DB) : option (Pool * DB) :=
  match s with
  | [] => Some cfg
  | c :: s' => stepPool c cfg ≫= runSchedule s'
  end.

(** One step of some thread. *)
Definition poolStep : relation (Pool * DB) :=
  λ cfg cfg', ∃ c, stepPool c cfg = Some cfg'.

(** Every thread of the pool has its result. *)
Definition quiescent (ts : Pool) : Prop := Forall (λ t, is_Some (resultOf t)) ts.

End threads.

(** ** Threads of equivalent programs *)

Section equivalent_threads.
Context `{ObjectIdLib}.
Implicit Types (db : DB).

(** Two threads at the same point of equivalent programs. *)
Definition threadEquiv {A} (t t' : Thread A) : Prop :=
  match t with
  | Running p => ∃ p', t' = Running p' ∧ p ≡ p'
  | FirstDone r1 op2 k => ∃ k', t' = FirstDone r1 op2 k' ∧ ∀ r, k r ≡ k' r
  | SecondDone op1 r2 k => ∃ k', t' = SecondDone op1 r2 k' ∧ ∀ r, k r ≡ k' r
  end.

#[global] Instance Thread_equiv {A} : Equiv (Thread A) := threadEquiv.

(** [thread_equiv H] opens an equivalence of threads whose first thread
    is known. *)
Local Ltac thread_equiv H :=
  hnf in H; cbn [threadEquiv] in H; destruct H as (? & -> & H).

#[global] Instance threadEquiv_equivalence {A} : Equivalence (≡@{Thread A}).
Proof.
  split.
  - intros [p|R1 R2 r1 op2 k|R1 R2 op1 r2 k]; hnf; eexists; by split.
  - intros [p|R1 R2 r1 op2 k|R1 R2 op1 r2 k] t' Ht; thread_equiv Ht; hnf; eexists;
      (split; [done|]); try intros r; by symmetry.
  - intros [p|R1 R2 r1 op2 k|R1 R2 op1 r2 k] t' t'' Ht Ht'; thread_equiv Ht;
      thread_equiv Ht'; hnf; eexists; (split; [done|]); try intros r;
      (etrans; [apply Ht|apply Ht']).
Qed.

#[global] Instance Running_proper {A} : Proper ((≡) ==> (≡@{Thread A})) Running.
Proof. intros p q Hpq. by exists q. Qed.

Lemma resume_equiv {A R} (r : Exn + R) (k k' : R → Prog A) :
  (∀ x, k x ≡ k' x) → resume r k ≡ resume r k'.
Proof. intros Hk. destruct r; [done|apply Hk]. Qed.

(** Equivalent threads have the same result, and take the same step to
    equivalent threads and to the same store. *)
#[global] Instance resultOf_proper {A} : Proper ((≡) ==> (=)) (resultOf (A:=A)).
Proof.
  intros [p|R1 R2 r1 op2 k|R1 R2 op1 r2 k] t' Ht; thread_equiv Ht; [|done..].
  destruct p; prog_unfold; [by subst..| |]; by destruct Ht as (? & -> & _).
Qed.

Lemma stepThread_equiv {A} left (t t' : Thread A) db :
  t ≡ t' →
  option_Forall2 (λ x y, x.1 ≡ y.1 ∧ x.2 = y.2) (stepThread left t db) (stepThread left t' db).
Proof.
  intros Ht. destruct t as [p|R1 R2 r1 op2 k|R1 R2 op1 r2 k]; thread_equiv Ht;
    cbn [stepThread].
  - destruct p; prog_unfold; [subst; constructor..| |]; destruct Ht as (k' & -> & Hk).
    + destruct (execOp op db) as [r db']. constructor. split; [|done].
      by apply Running_proper, resume_equiv.
    + destruct left; [destruct (execOp op1 db)|destruct (execOp op2 db)];
        constructor; (split; [|done]); by eexists.
  - destruct (execOp op2 db) as [r2 db']. constructor. split; [|done].
    by apply Running_proper, resume_equiv.
  - destruct (execOp op1 db) as [r1 db']. constructor. split; [|done].
    by apply Running_proper, resume_equiv.
Qed.

(** A thread among others: before each of its operations the other
    requests have done [others] to the store. *)
Fixpoint runAmong {A} (sched : list (bool * (DB → DB))) (t : Thread A) (db : DB)
  : Thread A * DB :=
  match sched with
  | [] => (t, db)
  | (side, others) :: sched' =>
      match stepThread side t (others db) with
      | Some (t', db') => runAmong sched' t' db'
      | None => (t, others db)
      end
  end.

(** Whatever the other requests do in between, equivalent threads stay
    equivalent and leave the same store. *)
Lemma runAmong_equiv {A} sched (t t' : Thread A) db :
  t ≡ t' →
  (runAmong sched t db).1 ≡ (runAmong sched t' db).1 ∧
  (runAmong sched t db).2 = (runAmong sched t' db).2.
Proof.
  revert t t' db. induction sched as [|[left others] sched IH]; intros t t' db Ht; [done|].
  cbn [runAmong]. destruct (stepThread_equiv left t t' (others db) Ht)
    as [[t1 db1] [t1' db1'] [Ht1 Hdb]|]; [|done].
  cbn [fst snd] in Ht1, Hdb. subst db1'. by apply IH.
Qed.

(** A thread whose result is mapped takes the steps of the thread. *)
Definition mapThread {A B} (f : A → B) (t : Thread A) : Thread B :=
  match t with
  | Running p => Running (f <$> p)
  | FirstDone r1 op2 k => FirstDone r1 op2 (λ r, f <$> k r)
  | SecondDone op1 r2 k => SecondDone op1 r2 (λ r, f <$> k r)
  end.

Lemma resume_fmap {A B R} (f : A → B) (r : Exn + R) (k : R → Prog A) :
  resume r (λ x, f <$> k x) = f <$> resume r k.
Proof. by destruct r. Qed.

Lemma stepThread_fmap {A B} (f : A → B) left (t : Thread A) db :
  stepThread left (mapThread f t) db = prod_map (mapThread f) id <$> stepThread left t db.
Proof.
  destruct t as [[a|e|R op k|R1 R2 op1 op2 k]|R1 R2 r1 op2 k|R1 R2 op1 r2 k];
    cbn [mapThread stepThread fmap Prog_fmap mbind Prog_bind bind option_fmap option_map];
    try done.
  - destruct (execOp op db) as [r db']. cbn. by rewrite <- resume_fmap.
  - by destruct left; [destruct (execOp op1 db)|destruct (execOp op2 db)].
  - destruct (execOp op2 db) as [r2 db']. cbn. by rewrite <- resume_fmap.
  - destruct (execOp op1 db) as [r1 db']. cbn. by rewrite <- resume_fmap.
Qed.

Lemma runAmong_fmap {A B} (f : A → B) sched (t : Thread A) db :
  runAmong sched (mapThread f t) db = prod_map (mapThread f) id (runAmong sched t db).
Proof.
  revert t db. induction sched as [|[left others] sched IH]; intros t db; [done|].
  cbn [runAmong]. rewrite stepThread_fmap.
  destruct (stepThread left t (others db)) as [[t' db']|]; [apply IH|done].
Qed.

Lemma resultOf_fmap {A B} (f : A → B) (t : Thread A) :
  resultOf (mapThread f t) = sum_map id f <$> resultOf t.
Proof. by destruct t as [[]| |]. Qed.

End equivalent_threads.

(** ** A thread alone *)

Section alone.
Context `{ObjectIdLib}.
Implicit Types (db : DB).

Lemma runThread_done {A} fuel (r : Exn + A) db :
  runThread fuel (Running (done r)) db = (Running (done r), db).
Proof. by destruct fuel, r. Qed.

(** With fuel for [steps p db] operations or more, the thread left alone
    ends with the result of [run], in the state [run] leaves. *)
Lemma runThread_enough {A} (p : Prog A) db fuel :
  steps p db ≤ fuel →
  runThread fuel (Running p) db = (Running (done (run p db).1), (run p db).2).
Proof.
  intros Hle. replace fuel with (steps p db + (fuel - steps p db)) by lia.
  generalize (fuel - steps p db) as extra. intros extra. clear Hle fuel.
  revert db. induction p as [a|e|R op k IH|R1 R2 op1 op2 k IH]; intros db.
  - by destruct extra.
  - by destruct extra.
  - cbn [steps run]. destruct (execOp op db) as [[e|r] db'] eqn:Hop.
    + cbn [plus runThread stepThread]. rewrite Hop. by destruct extra.
    + cbn [plus runThread stepThread]. rewrite Hop. apply IH.
  - cbn [steps run]. destruct (execOp op1 db) as [r1 db1] eqn:H1.
    destruct (execOp op2 db1) as [r2 db2] eqn:H2.
    destruct (both r1 r2) as [e|r] eqn:Hb.
    + cbn [plus runThread stepThread]. rewrite H1. cbn [runThread stepThread].
      rewrite H2, Hb. by destruct extra.
    + cbn [plus runThread stepThread]. rewrite H1. cbn [runThread stepThread].
      rewrite H2, Hb. apply IH.
Qed.

(** [run] is the schedule of a thread alone. *)
Lemma runThread_run {A} (p : Prog A) db :
  runThread (steps p db) (Running p) db = (Running (done (run p db).1), (run p db).2).
Proof. by apply runThread_enough. Qed.

End alone.

(** ** Schedules *)

Section schedules.
Context `{ObjectIdLib}.
Implicit Types (db : DB) (ts : Pool) (t : Thread Response) (s : Schedule) (c : Choice).

Lemma stepPool_Some i left ts db t t' db' :
  ts !! i = Some t → stepThread left t db = Some (t', db') →
  stepPool (i, left) (ts, db) = Some (<[i := t']> ts, db').
Proof. unfold stepPool. cbn [fst snd]. intros -> . cbn [mbind option_bind]. by intros ->. Qed.

Lemma stepPool_inv c ts db ts' db' :
  stepPool c (ts, db) = Some (ts', db') →
  ∃ t t', ts !! c.1 = Some t ∧ stepThread c.2 t db = Some (t', db') ∧
          ts' = <[c.1 := t']> ts.
Proof.
  unfold stepPool. cbn [fst snd]. destruct (ts !! c.1) as [t|] eqn:Ht; [|done].
  cbn [mbind option_bind]. destruct (stepThread c.2 t db) as [[t' db1]|] eqn:Hs; [|done].
  cbn [mbind option_bind]. intros [= <- <-]. eauto.
Qed.

Lemma runSchedule_cons c s cfg cfg' :
  stepPool c cfg = Some cfg' → runSchedule (c :: s) cfg = runSchedule s cfg'.
Proof. simpl. by intros ->. Qed.

Lemma runSchedule_app s1 s2 cfg :
  runSchedule (s1 ++ s2) cfg = runSchedule s1 cfg ≫= runSchedule s2.
Proof.
  revert cfg. induction s1 as [|c s1 IH]; intros cfg; simpl; [done|].
  destruct (stepPool c cfg) as [cfg'|]; simpl; [apply IH|done].
Qed.

(** A schedule is a sequence of steps of the pool. *)
Lemma runSchedule_rtc s cfg cfg' : runSchedule s cfg = Some cfg' → rtc poolStep cfg cfg'.
Proof.
  revert cfg. induction s as [|c s IH]; intros cfg; simpl.
  - by intros [= ->].
  - destruct (stepPool c cfg) as [cfg1|] eqn:Hc; [|done]. simpl. intros Hs.
    eapply rtc_l; [by exists c|by apply IH].
Qed.

Lemma rtc_runSchedule cfg cfg' : rtc poolStep cfg cfg' → ∃ s, runSchedule s cfg = Some cfg'.
Proof.
  induction 1 as [cfg|cfg cfg1 cfg2 [c Hc] _ [s Hs]]; [by exists []|].
  exists (c :: s). by rewrite (runSchedule_cons _ _ _ _ Hc).
Qed.

(** A thread that does not step has its result. *)
Lemma stepThread_None {A} left (t : Thread A) db : stepThread left t db = None → is_Some (resultOf t).
Proof.
  destruct t as [[a|e|R op k|R1 R2 op1 op2 k]|R1 R2 r1 op2 k|R1 R2 op1 r2 k];
    cbn [stepThread resultOf]; eauto;
    repeat first [destruct left | destruct (execOp _ db)]; done.
Qed.

Lemma stepThread_done {A} left (t : Thread A) db : is_Some (resultOf t) → stepThread left t db = None.
Proof. destruct t as [[]| |]; cbn [resultOf]; by intros [? ?]. Qed.

(** Requests in flight never block one another: as long as some
    request has no result, the thread of every such request can take its
    next operation, whatever the state of the store. *)
Theorem pool_progress ts db i t left :
  ts !! i = Some t → resultOf t = None → is_Some (stepPool (i, left) (ts, db)).
Proof.
  intros Ht Hr. destruct (stepThread left t db) as [[t' db']|] eqn:Hstep.
  - rewrite (stepPool_Some _ _ _ _ _ _ _ Ht Hstep). eauto.
  - apply stepThread_None in Hstep as [r Hs]. congruence.
Qed.

End schedules.

(** ** Two edits of one post *)

Section edits.
Context `{ObjectIdLib} (categories : list string).
Implicit Types (db : DB) (id : ObjectId) (p : PostModel) (body : Body).

(** [editPost] after its [findById]: the replacement is computed from the
    post that was read. *)
Definition editPost_update id body p : Prog Response :=
  Await (OpPostUpdate id (SetDocument (postEditsOf body p)))
    (λ editedPost, Ret (json (JPost editedPost))).

Lemma editPost_find postID id body db p left :
  parseObjectId postID = Some id →
  (runChains (editPost_chains categories) body).2 = [] →
  posts db !! id = Some p →
  stepThread left (Running (editPost categories postID body)) db
  = Some (Running (editPost_update id body p), db).
Proof.
  intros Hid He Hp. unfold editPost.
  destruct (editPost_values categories body) as (Ht & Hc & Hx & Hb).
  destruct (runChains _ _) as [body' errors]. simpl in He, Ht, Hc, Hx, Hb. subst errors.
  rewrite (isValid_parse _ _ Hid), (castObjectId_parse _ _ Hid).
  cbn [negb bool_decide decide_rel]. rewrite bool_decide_eq_true_2 by done.
  cbn [negb mbind Prog_bind bind await stepThread execOp]. unfold Post_findById.
  rewrite Hp. cbn [resume]. by rewrite (postEditsOf_body body body' p Ht Hc Hx Hb).
Qed.

Lemma editPost_write id body p db p1 left :
  posts db !! id = Some p1 →
  stepThread left (Running (editPost_update id body p)) db
  = Some (Running (Ret (json (JPost (Some (applyPostUpdate (SetDocument (postEditsOf body p)) p1))))),
          setPosts <[id := applyPostUpdate (SetDocument (postEditsOf body p)) p1]> db).
Proof.
  intros Hp1. unfold editPost_update. cbn [stepThread execOp].
  by rewrite (Post_findByIdAndUpdate_present _ _ _ _ Hp1).
Qed.

(** The schedule in which both requests read before either writes. *)
Definition readReadWriteWrite : Schedule := [(0, true); (1, true); (0, true); (1, true)].

Lemma edits_interleaved postID id body1 body2 db p :
  parseObjectId postID = Some id →
  (runChains (editPost_chains categories) body1).2 = [] →
  (runChains (editPost_chains categories) body2).2 = [] →
  posts db !! id = Some p →
  runSchedule readReadWriteWrite
    ([Running (editPost categories postID body1);
      Running (editPost categories postID body2)], db)
  = Some ([Running (Ret (json (JPost (Some (editedPostOf body1 p)))));
           Running (Ret (json (JPost (Some (editedPostOf body2 p)))))],
          setPosts <[id := editedPostOf body2 p]> db).
Proof.
  intros Hid He1 He2 Hp.
  set (e1 := Running (editPost categories postID body1)).
  set (e2 := Running (editPost categories postID body2)).
  set (u1 := Running (editPost_update id body1 p)).
  set (u2 := Running (editPost_update id body2 p)).
  set (r1 := Running (Ret (json (JPost (Some (editedPostOf body1 p)))))).
  set (db1 := setPosts <[id := editedPostOf body1 p]> db).
  assert (stepPool (0, true) ([e1; e2], db) = Some ([u1; e2], db)) as S1
    by (apply (stepPool_Some 0 true [e1; e2] db e1 u1 db eq_refl); by apply editPost_find).
  assert (stepPool (1, true) ([u1; e2], db) = Some ([u1; u2], db)) as S2
    by (apply (stepPool_Some 1 true [u1; e2] db e2 u2 db eq_refl); by apply editPost_find).
  assert (stepPool (0, true) ([u1; u2], db) = Some ([r1; u2], db1)) as S3
    by (apply (stepPool_Some 0 true [u1; u2] db u1 r1 db1 eq_refl); by apply editPost_write).
  unfold readReadWriteWrite.
  rewrite (runSchedule_cons _ _ _ _ S1), (runSchedule_cons _ _ _ _ S2),
    (runSchedule_cons _ _ _ _ S3).
  assert (stepPool (1, true) ([r1; u2], db1)
          = Some ([r1; Running (Ret (json (JPost (Some (editedPostOf body2 p)))))],
                  setPosts <[id := editedPostOf body2 p]> db)) as S4.
  { etrans; [eapply (stepPool_Some 1 true [r1; u2] db1 u2);
               [done|eapply editPost_write, lookup_insert_eq]|].
    simpl. do 2 f_equal. unfold db1, setPosts. cbn [posts comments authors].
    by rewrite insert_insert_eq. }
  by rewrite (runSchedule_cons _ _ _ _ S4).
Qed.

(** C13: concurrent edits of one post lose an update.  When two [editPost]
    requests both read the post before either writes, each is answered 200
    with its own edit applied to the post it read, and the store keeps the
    second write only: a title the first request set is replaced by the
    old title when the second request does not mention the title.  Served
    one after the other, the same two requests leave the new title. *)
Theorem concurrent_edits_lose_update postID id body1 body2 db p :
  parseObjectId postID = Some id →
  (runChains (editPost_chains categories) body1).2 = [] →
  (runChains (editPost_chains categories) body2).2 = [] →
  posts db !! id = Some p → body2 !! "title" = None →
  ∃ ts db',
    runSchedule readReadWriteWrite
      ([Running (editPost categories postID body1);
        Running (editPost categories postID body2)], db) = Some (ts, db') ∧
    resultOf <$> ts = [Some (inr (json (JPost (Some (editedPostOf body1 p)))));
                       Some (inr (json (JPost (Some (editedPostOf body2 p)))))] ∧
    post_title <$> posts db' !! id = Some (post_title p) ∧
    post_title <$> posts (run (editPost categories postID body2)
                            (run (editPost categories postID body1) db).2).2 !! id
    = Some (post_title (editedPostOf body1 p)).
Proof.
  intros Hid He1 He2 Hp Ht. eexists _, _. split; [by apply edits_interleaved|].
  split; [done|]. split.
  - cbn [posts setPosts]. rewrite lookup_insert_eq. simpl. by rewrite Ht.
  - rewrite (editPost_run _ _ id _ db) by done. rewrite Hp. cbn [snd].
    rewrite (editPost_run _ _ id) by done. cbn [posts setPosts].
    rewrite lookup_insert_eq. cbn [snd posts setPosts]. rewrite lookup_insert_eq.
    simpl. by rewrite Ht.
Qed.

End edits.

Lemma concurrent_edits_lose_update_witness :
  ∃ ts db',
    runSchedule readReadWriteWrite
      ([Running (editPost sampleCategories sampleId (<["title" := VString "New title"]> ∅));
        Running (editPost sampleCategories sampleId (<["category" := VString "css"]> ∅))],
       sampleDB) = Some (ts, db') ∧
    resultOf <$> ts
    = [Some (inr (json (JPost
         (Some (editedPostOf (<["title" := VString "New title"]> ∅) samplePost)))));
       Some (inr (json (JPost
         (Some (editedPostOf (<["category" := VString "css"]> ∅) samplePost)))))] ∧
    post_title <$> posts db' !! sampleId = Some (post_title samplePost) ∧
    post_title <$>
      posts (run (editPost sampleCategories sampleId (<["category" := VString "css"]> ∅))
               (run (editPost sampleCategories sampleId
                       (<["title" := VString "New title"]> ∅)) sampleDB).2).2 !! sampleId
    = Some (post_title (editedPostOf (<["title" := VString "New title"]> ∅) samplePost)).
Proof.
  exact (concurrent_edits_lose_update sampleCategories sampleId sampleId
           (<["title" := VString "New title"]> ∅) (<["category" := VString "css"]> ∅)
           sampleDB samplePost eq_refl eq_refl eq_refl eq_refl eq_refl).
Defined.

Lemma pool_progress_witness :
  is_Some (stepPool (1, true)
             ([Running (editPost sampleCategories sampleId ∅);
               Running (getSpecificPost sampleId)], sampleDB)).
Proof.
  exact (pool_progress [Running (editPost sampleCategories sampleId ∅);
                        Running (getSpecificPost sampleId)] sampleDB 1 _ true
           eq_refl eq_refl).
Defined.
