(* ===== verification/Express.v ===== *)
(** * Express: the handlers statement by statement

    The handlers of [Posts] and [Comments] are values of [Prog Response]:
    a handler is read as returning the response it sends.  The source does
    not return responses.  Its handlers are [async] functions of type
    [Promise<void>] that call [res.status(n)] and [res.json(x)] on the
    response object Express hands them, leave early with [return;], and
    are wrapped by [expressAsyncHandler], which passes a rejection on to
    the error middleware.  Nothing in their type keeps a handler from
    answering twice, from answering and then failing, or from ending
    without an answer.

    This file reads the handlers that way.  [Async] is the body of an
    [async] function: the awaited operations of [Prog], the calls on [res]
    and [return;].  [exec] runs a body on a response object and a store;
    [progOf] forgets that the calls on [res] are events and gives the
    program of [Program] that issues the same operations.  Each handler of
    the controllers is written again, statement by statement
    ([getAllPosts_body], ...), and shown to be the handler of [Posts] or
    [Comments] up to [ProgEquiv]: on every path it sends exactly one
    response, the one the handler of the controllers returns, and sends it
    last, so that a rejected handler has sent nothing. *)

From S2P Require Import Prelude JsString Sanitizers Validator ScriptTags.
From S2P Require Import Chains ObjectId Store Program ProgEquiv Routes Posts Comments Api.
From S2P Require Import Interleave.

(** ** The response object *)

Section response.
Context `{ObjectIdLib}.

(** What the handlers use of [res]: the status [res.status(n)] sets, and
    the responses [res.json(x)] has sent, in order. *)
Record Res := mkRes {
  statusCode : nat;
  sent : list Response;
}.

(** The response object of a new request. *)
Definition freshRes : Res := mkRes 200 [].

(** [res.status(n)] *)
Definition setStatus (n : nat) (res : Res) : Res := mkRes n (sent res).

(** [res.json(x)]: sends [x] with the status set so far. *)
Definition sendJson (x : Json) (res : Res) : Res :=
  mkRes (statusCode res) (sent res ++ [mkResponse (statusCode res) x]).

(** The response object after [r] was sent, once. *)
Definition sentOnce (r : Response) : Res := mkRes (res_status r) [r].

(** ** Bodies of [async] functions *)

Inductive Async (A : Type) : Type :=
| ARet (a : A)
| AReturn                                      (* return; *)
| AThrow (e : Exn)
| AAwait {R : Type} (op : DbOp R) (k : R → Async A)
| AAwaitAll {R1 R2 : Type} (op1 : DbOp R1) (op2 : DbOp R2) (k : R1 * R2 → Async A)
| AStatus (n : nat) (k : Async A)              (* res.status(n) *)
| AJson (x : Json) (k : Async A).              (* res.json(x) *)

#[global] Arguments ARet {A} a.
#[global] Arguments AReturn {A}.
#[global] Arguments AThrow {A} e.
#[global] Arguments AAwait {A R} op k.
#[global] Arguments AAwaitAll {A R1 R2} op1 op2 k.
#[global] Arguments AStatus {A} n k.
#[global] Arguments AJson {A} x k.

(** Sequencing: [return;] and a thrown exception end the body. *)
Fixpoint abind {A B} (b : Async A) (f : A → Async B) : Async B :=
  match b with
  | ARet a => f a
  | AReturn => AReturn
  | AThrow e => AThrow e
  | AAwait op k => AAwait op (λ r, abind (k r) f)
  | AAwaitAll op1 op2 k => AAwaitAll op1 op2 (λ r, abind (k r) f)
  | AStatus n k => AStatus n (abind k f)
  | AJson x k => AJson x (abind k f)
  end.

(** A program of [Program] as a part of a body. *)
Fixpoint lift {A} (p : Prog A) : Async A :=
  match p with
  | Ret a => ARet a
  | Throw e => AThrow e
  | Await op k => AAwait op (λ r, lift (k r))
  | AwaitAll op1 op2 k => AAwaitAll op1 op2 (λ r, lift (k r))
  end.

(** [res.status(n)], [res.json(x)], [return;] and [if (c) { b }] *)
Definition resStatus (n : nat) : Async unit := AStatus n (ARet tt).
Definition resJson (x : Json) : Async unit := AJson x (ARet tt).
Definition return_ : Async unit := AReturn.
Definition when_ (c : bool) (b : Async unit) : Async unit := if c then b else ARet tt.

(** How an [async] function ends: it falls off its end, returns, or
    throws, which rejects its promise. *)
Inductive Ending (A : Type) : Type :=
| Completed (a : A)
| Returned
| Threw (e : Exn).

#[global] Arguments Completed {A} a.
#[global] Arguments Returned {A}.
#[global] Arguments Threw {A} e.

Definition rejection {A} (c : Ending A) : option Exn :=
  match c with
  | Threw e => Some e
  | _ => None
  end.

(** A body run on a response object and a store, the operations one after
    the other as [run] executes them. *)
Fixpoint exec {A} (b : Async A) (res : Res) (db : DB) : Ending A * Res * DB :=
  match b with
  | ARet a => (Completed a, res, db)
  | AReturn => (Returned, res, db)
  | AThrow e => (Threw e, res, db)
  | AAwait op k =>
      match execOp op db with
      | (inr r, db') => exec (k r) res db'
      | (inl e, db') => (Threw e, res, db')
      end
  | AAwaitAll op1 op2 k =>
      let '(r1, db1) := execOp op1 db in
      let '(r2, db2) := execOp op2 db1 in
      match both r1 r2 with
      | inr r => exec (k r) res db2
      | inl e => (Threw e, res, db2)
      end
  | AStatus n k => exec k (setStatus n res) db
  | AJson x k => exec k (sendJson x res) db
  end.

(** The operations of a body as a program: what the body does to the
    store, and the response object it leaves when it does not throw. *)
Fixpoint progOf {A} (b : Async A) (res : Res) : Prog Res :=
  match b with
  | ARet _ | AReturn => Ret res
  | AThrow e => Throw e
  | AAwait op k => Await op (λ r, progOf (k r) res)
  | AAwaitAll op1 op2 k => AwaitAll op1 op2 (λ r, progOf (k r) res)
  | AStatus n k => progOf k (setStatus n res)
  | AJson x k => progOf k (sendJson x res)
  end.

(** A body that neither awaits nor throws. *)
Fixpoint final {A} (b : Async A) : Prop :=
  match b with
  | ARet _ | AReturn => True
  | AThrow _ | AAwait _ _ | AAwaitAll _ _ _ => False
  | AStatus _ k | AJson _ k => final k
  end.

(** A body that answers last: once it has touched [res] it neither awaits
    nor throws. *)
Fixpoint answersLast {A} (b : Async A) : Prop :=
  match b with
  | ARet _ | AReturn | AThrow _ => True
  | AAwait _ k => ∀ r, answersLast (k r)
  | AAwaitAll _ _ k => ∀ r, answersLast (k r)
  | AStatus _ k | AJson _ k => final k
  end.

End response.

#[global] Instance Async_ret `{ObjectIdLib} : MRet Async := λ A a, ARet a.
#[global] Instance Async_bind `{ObjectIdLib} : MBind Async := λ A B f b, abind b f.

(** ** The handlers of the posts controller *)

Section posts_bodies.
Context `{ObjectIdLib}.

Definition getAllPosts_body : Async unit :=
  posts ← lift (await OpPostFind);
  resJson (JPosts posts).

Definition getSpecificPost_body (postID : string) : Async unit :=
  when_ (negb (isValid postID))
    (resStatus 400;; resJson (JErrorMessage INVALID_ID);; return_);;
  post ← lift (id ← castObjectId postID; await (OpPostFindById id));
  match post with
  | None => resStatus 404;; resJson (JErrorMessage DOES_NOT_EXIST)
  | Some p => resJson (JPost (Some p))
  end.

Definition postNewPost_body (env : Env) (req : Validated) : Async unit :=
  let errors := req.2 in
  if negb (bool_decide (errors = [])) then resJson (JErrors errors)
  else
    author ← lift (newObjectId env (Some PLACEHOLDER_AUTHOR));
    let post :=
      mkPost (env_newId env) author
        (asString (req.1 !! "title"))
        (env_now env)
        (asString (req.1 !! "category"))
        (asArray (req.1 !! "text"))
        (asBoolean (req.1 !! "isPublished"))
        0 in
    lift (await (OpPostSave post));;
    resJson (JPost (Some post)).

Definition editPost_body (postID : string) (req : Validated) : Async unit :=
  when_ (negb (isValid postID))
    (resStatus 400;; resJson (JErrorMessage INVALID_ID);; return_);;
  let errors := req.2 in
  if negb (bool_decide (errors = [])) then resJson (JErrors errors)
  else
    existingPost ← lift (id ← castObjectId postID; await (OpPostFindById id));
    match existingPost with
    | None => resStatus 404;; resJson (JErrorMessage DOES_NOT_EXIST)
    | Some existing =>
        let postWithEdits :=
          mkPostEdits (post_author existing)
            (from_option (λ v, asString (Some v)) (post_title existing) (req.1 !! "title"))
            (post_timestamp existing)
            (from_option (λ v, asString (Some v)) (post_category existing)
               (req.1 !! "category"))
            (from_option (λ v, asArray (Some v)) (post_text existing) (req.1 !! "text"))
            (from_option (λ v, asBoolean (Some v)) (post_isPublished existing)
               (req.1 !! "isPublished")) in
        editedPost ←
          lift (id ← castObjectId postID; await (OpPostUpdate id (SetDocument postWithEdits)));
        resJson (JPost editedPost)
    end.

Definition publishPost_body (postID : string) (publish : option string) : Async unit :=
  when_ (negb (isValid postID) || negb (bool_decide (publish ∈ [Some "true"; Some "false"])))
    (let message := if negb (isValid postID) then INVALID_ID else INVALID_QUERY in
     resStatus 400;; resJson (JErrorMessage message);; return_);;
  let newPublishedStatus := bool_decide (publish = Some "true") in
  editedPost ←
    lift (id ← castObjectId postID;
          await (OpPostUpdate id (SetIsPublished newPublishedStatus)));
  match editedPost with
  | None => resStatus 404;; resJson (JErrorMessage DOES_NOT_EXIST)
  | Some p => resJson (JPost (Some p))
  end.

Definition deletePost_body (postID : string) : Async unit :=
  when_ (negb (isValid postID))
    (resStatus 400;; resJson (JErrorMessage INVALID_ID);; return_);;
  deletedPost ← lift (id ← castObjectId postID; await (OpPostDelete id));
  match deletedPost with
  | None => resStatus 404;; resJson (JErrorMessage DOES_NOT_EXIST)
  | Some p => resJson (JPost (Some p))
  end.

End posts_bodies.

(** ** The handlers of the comments controller *)

Section comments_bodies.
Context `{ObjectIdLib}.

Definition getAllComments_body (postID readerID : option string) : Async unit :=
  allComments ←
    lift (post ← filterKey postID;
          commenter ← filterKey readerID;
          await (OpCommentFind (mkQuery post commenter)));
  resJson (JComments allComments).

Definition getSpecificComment_body (commentID : string) : Async unit :=
  when_ (negb (isValid commentID))
    (resStatus 400;; resJson (JErrorMessage INVALID_ID);; return_);;
  comment ← lift (id ← castObjectId commentID; await (OpCommentFindById id));
  match comment with
  | None => resStatus 404;; resJson (JErrorMessage DOES_NOT_EXIST)
  | Some c => resJson (JComment (Some c))
  end.

Definition postNewComment_body (env : Env) (postID : string)
  (commenterID : option string) (req : Validated) : Async unit :=
  let errors := req.2 in
  if negb (bool_decide (errors = [])) then resJson (JErrors errors)
  else
    commenter ← lift (newObjectId env commenterID);
    post ← lift (newObjectId env (Some postID));
    let comment :=
      mkComment (env_newId env) commenter post (env_now env)
        (asString (req.1 !! "text")) [] in
    '(savedComment, updatedPost) ←
      lift (awaitAll (OpCommentSave comment) (OpPostUpdate post (IncCommentCount 1)));
    populated ← lift (await (OpPopulate savedComment));
    match updatedPost with
    | Some _ => resStatus 201;; resJson (JPopulatedComment populated)
    | None => resStatus 500;; resJson (JMessage DATABASE_UPDATE_ERROR)
    end.

Definition editComment_body (commentID : string) (req : Validated) : Async unit :=
  when_ (negb (isValid commentID))
    (resStatus 400;; resJson (JErrorMessage INVALID_ID);; return_);;
  let errors := req.2 in
  if negb (bool_decide (errors = [])) then resJson (JErrors errors)
  else
    existingComment ← lift (id ← castObjectId commentID; await (OpCommentFindById id));
    match existingComment with
    | None => resStatus 404;; resJson (JErrorMessage DOES_NOT_EXIST)
    | Some existing =>
        let commentWithEdits :=
          mkComment (comment_id existing) (comment_commenter existing)
            (comment_post existing) (comment_timestamp existing)
            (asString (req.1 !! "text")) (comment_replies existing) in
        editedComment ←
          lift (id ← castObjectId commentID; await (OpCommentUpdate id commentWithEdits));
        resJson (JComment editedComment)
    end.

Definition deleteComment_body (commentID : string) : Async unit :=
  when_ (negb (isValid commentID))
    (resStatus 400;; resJson (JErrorMessage INVALID_ID);; return_);;
  deletedComment ← lift (id ← castObjectId commentID; await (OpCommentDelete id));
  match deletedComment with
  | None => resStatus 404;; resJson (JErrorMessage DOES_NOT_EXIST)
  | Some c =>
      lift (await (OpPostUpdate (comment_post c) (IncCommentCount (-1))));;
      resStatus 204;; resJson (JComment (Some c))
  end.

End comments_bodies.

(** ** The body of every request *)

Section bodies.
Context `{ObjectIdLib} `{ScriptTagRemover} (categories : list string).

(** The [async] function that serves a request, on the request as the
    chains of its route leave it. *)
Definition bodyOf (r : Request) : Async unit :=
  match r with
  | GetAllPosts => getAllPosts_body
  | GetSpecificPost postID => getSpecificPost_body postID
  | PostNewPost env body =>
      postNewPost_body env (runChains (postNewPost_chains categories) body)
  | EditPost postID body =>
      editPost_body postID (runChains (editPost_chains categories) body)
  | PublishPost postID publish => publishPost_body postID publish
  | DeletePost postID => deletePost_body postID
  | GetAllComments postID readerID => getAllComments_body postID readerID
  | GetSpecificComment commentID => getSpecificComment_body commentID
  | PostNewComment env postID commenterID body =>
      postNewComment_body env postID commenterID (runChains postNewComment_chains body)
  | EditComment commentID body =>
      editComment_body commentID (runChains editComment_chains body)
  | DeleteComment commentID => deleteComment_body commentID
  end.

(** [expressAsyncHandler] around a body: the response object and the
    store the body leaves, and the error passed to [next] when the
    promise is rejected. *)
Definition asyncHandler (b : Async unit) (db : DB) : option Exn * Res * DB :=
  let '(c, res, db') := exec b freshRes db in (rejection c, res, db').

(** [declare global { interface Error { status?: number } }] of the entry
    point: an error may carry a status.  None of the exceptions the
    handlers meet does: they are thrown by bson, Mongoose and MongoDB. *)
Definition Error_status (e : Exn) : option nat := None.

(** The status of the page Express's default error handler answers with,
    which is the one that runs since the entry point installs none: the
    status of the error when it is an error status, 500 otherwise. *)
Definition errorStatus (e : Exn) : nat :=
  match Error_status e with
  | Some n => if (400 <=? n) && (n <? 600) then n else 500
  | None => 500
  end.

(** What the client of a request receives. *)
Inductive Answer :=
| Answered (r : Response)      (* the response of the handler *)
| ErrorPage (status : nat).    (* the page of the default error handler *)

(** The answer to a request whose handler has ended: the one response the
    handler sent, or the error page when the handler was rejected before
    it sent anything.  A handler that ends without a response leaves the
    request waiting; one that sends twice, or is rejected after it has
    sent, makes Node throw or Express close the connection.  None of
    these is an answer. *)
Definition answerOf (ended : option Exn * Res) : option Answer :=
  match ended with
  | (None, mkRes _ [r]) => Some (Answered r)
  | (Some e, mkRes _ []) => Some (ErrorPage (errorStatus e))
  | _ => None
  end.

End bodies.

(** ** Running a body *)

(** [body_equiv] compares a body with a program of the same shape. *)
Ltac body_unfold :=
  unfold when_, resStatus, resJson, return_, filterKey, castObjectId, newObjectId,
    await, awaitAll, mbind, mret, Async_bind, Async_ret in *;
  prog_unfold.

Ltac body_equiv :=
  body_unfold;
  repeat first
    [ done
    | progress cbn [progEquiv bind abind lift progOf fst snd negb]
    | eexists; split; [reflexivity|intros ?]
    | case_match ].

Section exec_lemmas.
Context `{ObjectIdLib}.
Implicit Types (db : DB) (res : Res).

(** [progOf] is [exec] without the response object of a rejected body. *)
Lemma run_progOf {A} (b : Async A) res db :
  run (progOf b res) db
  = (from_option inl (inr (exec b res db).1.2) (rejection (exec b res db).1.1),
     (exec b res db).2).
Proof.
  revert res db.
  induction b as [a| |e|R op k IH|R1 R2 op1 op2 k IH|n k IH|x k IH]; intros res db;
    cbn [progOf exec run]; [done..| | |apply IH|apply IH].
  - destruct (execOp op db) as [[e|r] db']; [done|apply IH].
  - destruct (execOp op1 db) as [r1 db1], (execOp op2 db1) as [r2 db2].
    destruct (both r1 r2); [done|apply IH].
Qed.

(** A body that neither awaits nor throws is not rejected and leaves the
    store as it is. *)
Lemma exec_final {A} (b : Async A) res db :
  final b → rejection (exec b res db).1.1 = None ∧ (exec b res db).2 = db.
Proof.
  revert res. induction b; intros res; cbn [final exec]; try done; auto.
Qed.

(** A body that answers last and is rejected has not touched the response
    object. *)
Lemma exec_answersLast {A} (b : Async A) res db :
  answersLast b → is_Some (rejection (exec b res db).1.1) → (exec b res db).1.2 = res.
Proof.
  revert db. induction b as [a| |e|R op k IH|R1 R2 op1 op2 k IH|n k _|x k _];
    intros db; cbn [answersLast exec]; [done..| | | |].
  - intros Hk. destruct (execOp op db) as [[e|r] db']; [done|by apply IH].
  - intros Hk. destruct (execOp op1 db) as [r1 db1], (execOp op2 db1) as [r2 db2].
    destruct (both r1 r2); [done|by apply IH].
  - intros Hk [e He]. by destruct (exec_final k (setStatus n res) db Hk) as [? _]; simplify_eq.
  - intros Hk [e He]. by destruct (exec_final k (sendJson x res) db Hk) as [? _]; simplify_eq.
Qed.

(** A program made part of a body does not touch the response object. *)
Lemma progOf_lift {A} (p : Prog A) res : progOf (lift p) res ≡ (λ _, res) <$> p.
Proof. induction p; body_equiv. Qed.

Lemma answersLast_lift {A} (p : Prog A) : answersLast (lift p).
Proof. induction p; cbn; auto. Qed.

End exec_lemmas.

(** ** The bodies against the handlers of the controllers *)

Section bodies_lemmas.
Context `{ObjectIdLib}.
Implicit Types (db : DB) (env : Env) (req : Validated).

Lemma getAllPosts_body_equiv : progOf getAllPosts_body freshRes ≡ sentOnce <$> getAllPosts.
Proof. unfold getAllPosts_body, getAllPosts. body_equiv. Qed.

Lemma getSpecificPost_body_equiv postID :
  progOf (getSpecificPost_body postID) freshRes ≡ sentOnce <$> getSpecificPost postID.
Proof. unfold getSpecificPost_body, getSpecificPost. body_equiv. Qed.

Lemma postNewPost_body_equiv env req :
  progOf (postNewPost_body env req) freshRes ≡ sentOnce <$> postNewPost_handler env req.
Proof. destruct req. unfold postNewPost_body, postNewPost_handler. body_equiv. Qed.

Lemma editPost_body_equiv postID req :
  progOf (editPost_body postID req) freshRes ≡ sentOnce <$> editPost_handler postID req.
Proof. destruct req. unfold editPost_body, editPost_handler. body_equiv. Qed.

Lemma publishPost_body_equiv postID publish :
  progOf (publishPost_body postID publish) freshRes ≡ sentOnce <$> publishPost postID publish.
Proof. unfold publishPost_body, publishPost. body_equiv. Qed.

Lemma deletePost_body_equiv postID :
  progOf (deletePost_body postID) freshRes ≡ sentOnce <$> deletePost postID.
Proof. unfold deletePost_body, deletePost. body_equiv. Qed.

Lemma getAllComments_body_equiv postID readerID :
  progOf (getAllComments_body postID readerID) freshRes
  ≡ sentOnce <$> getAllComments postID readerID.
Proof. unfold getAllComments_body, getAllComments. body_equiv. Qed.

Lemma getSpecificComment_body_equiv commentID :
  progOf (getSpecificComment_body commentID) freshRes
  ≡ sentOnce <$> getSpecificComment commentID.
Proof. unfold getSpecificComment_body, getSpecificComment. body_equiv. Qed.

Lemma postNewComment_body_equiv env postID commenterID req :
  progOf (postNewComment_body env postID commenterID req) freshRes
  ≡ sentOnce <$> postNewComment_handler env postID commenterID req.
Proof. destruct req. unfold postNewComment_body, postNewComment_handler. body_equiv. Qed.

Lemma editComment_body_equiv commentID req :
  progOf (editComment_body commentID req) freshRes
  ≡ sentOnce <$> editComment_handler commentID req.
Proof. destruct req. unfold editComment_body, editComment_handler. body_equiv. Qed.

Lemma deleteComment_body_equiv commentID :
  progOf (deleteComment_body commentID) freshRes ≡ sentOnce <$> deleteComment commentID.
Proof. unfold deleteComment_body, deleteComment. body_equiv. Qed.

End bodies_lemmas.

(** [body_last] shows that a body answers last, path by path. *)
Ltac body_last :=
  body_unfold;
  repeat first
    [ done
    | progress cbn [answersLast final abind lift bind fst snd negb]
    | intros ?
    | case_match ].

Section bodies_theorems.
Context `{ObjectIdLib} `{ScriptTagRemover} (categories : list string).
Implicit Types (db : DB) (r : Request).

(** The body of a request issues the operations of its handler and leaves
    the response object with the response of the handler, sent once. *)
Lemma bodyOf_equiv r :
  progOf (bodyOf categories r) freshRes ≡ sentOnce <$> handler categories r.
Proof.
  destruct r; cbn [bodyOf handler].
  - apply getAllPosts_body_equiv.
  - apply getSpecificPost_body_equiv.
  - apply (postNewPost_body_equiv env (runChains (postNewPost_chains categories) body)).
  - apply (editPost_body_equiv postID (runChains (editPost_chains categories) body)).
  - apply publishPost_body_equiv.
  - apply deletePost_body_equiv.
  - apply getAllComments_body_equiv.
  - apply getSpecificComment_body_equiv.
  - apply (postNewComment_body_equiv env postID commenterID
             (runChains postNewComment_chains body)).
  - apply (editComment_body_equiv commentID (runChains editComment_chains body)).
  - apply deleteComment_body_equiv.
Qed.

Lemma bodyOf_answersLast r : answersLast (bodyOf categories r).
Proof.
  destruct r; cbn [bodyOf];
    unfold getAllPosts_body, getSpecificPost_body, postNewPost_body, editPost_body,
      publishPost_body, deletePost_body, getAllComments_body, getSpecificComment_body,
      postNewComment_body, editComment_body, deleteComment_body;
    body_last.
Qed.

(** What [exec] leaves, from what [run] leaves of the program of the
    body. *)
Lemma exec_of_run (b : Async unit) (p : Prog Response) db :
  answersLast b → progOf b freshRes ≡ sentOnce <$> p →
  asyncHandler b db
  = match expressAsyncHandler p db with
    | (Sent response, db') => (None, sentOnce response, db')
    | (Failed e, db') => (Some e, freshRes, db')
    end.
Proof.
  intros Hlast Heq. pose proof (run_progOf b freshRes db) as Hrun.
  rewrite Heq, run_fmap in Hrun. pose proof (exec_answersLast b freshRes db Hlast) as Hres.
  unfold asyncHandler, expressAsyncHandler.
  destruct (exec b freshRes db) as [[c res] db'], (run p db) as [[e|response] db1];
    cbn [fst snd] in *; destruct (rejection c) as [e'|]; simplify_eq/=; [|done].
  by rewrite Hres.
Qed.

(** C10: every handler answers exactly once, and last.  The body of the
    handler of any request, run statement by statement on a fresh response
    object, leaves the store [serve] leaves.  When its promise is
    fulfilled, [res.json] was called once, with the response and the
    status [serve] reports.  When it is rejected, with the exception
    [serve] reports, the response object is untouched: the error
    middleware [expressAsyncHandler] calls is the first to answer. *)
Theorem handlers_answer_once r db :
  asyncHandler (bodyOf categories r) db
  = match serve categories r db with
    | (Sent response, db') => (None, sentOnce response, db')
    | (Failed e, db') => (Some e, freshRes, db')
    end.
Proof. apply exec_of_run; [apply bodyOf_answersLast|apply bodyOf_equiv]. Qed.

(** C25: among other requests, whatever they do to the store between two
    operations and whichever operation of a [Promise.all] goes first, the
    body of a request does to the store what its handler does, and ends
    when it does, with its response sent once. *)
Theorem bodies_interleave r sched db :
  let body := runAmong sched (Running (progOf (bodyOf categories r) freshRes)) db in
  let served := runAmong sched (Running (handler categories r)) db in
  body.2 = served.2 ∧ resultOf body.1 = sum_map id sentOnce <$> resultOf served.1.
Proof.
  intros body served.
  destruct (runAmong_equiv sched _ _ db (Running_proper _ _ (bodyOf_equiv r)))
    as [Ht Hdb].
  change (Running (sentOnce <$> ?p)) with (mapThread sentOnce (Running p)) in Ht, Hdb.
  rewrite runAmong_fmap in Ht, Hdb. split; [done|].
  unfold body. by rewrite Ht, <- resultOf_fmap.
Qed.

(** Every request is answered, once.  Whatever the request and the
    store, the client receives the response of the handler when the
    handler is not rejected, and otherwise the page of Express's default
    error handler with status 500, since no exception of the handlers
    carries a status: no request is left waiting and no connection is
    closed on a half-sent response. *)
Theorem requests_answered r db :
  answerOf (asyncHandler (bodyOf categories r) db).1
  = Some match (serve categories r db).1 with
         | Sent response => Answered response
         | Failed e => ErrorPage 500
         end.
Proof.
  rewrite (exec_of_run _ (handler categories r))
    by (apply bodyOf_answersLast || apply bodyOf_equiv).
  unfold serve. by destruct (expressAsyncHandler _ db) as [[response|e] db'].
Qed.

End bodies_theorems.

(** ** Concrete runs *)

(** A malformed identifier: one response, sent before [return;]. *)
Example deletePost_body_invalid :
  asyncHandler (deletePost_body (H:=hex24) "not-an-id") emptyDB
  = (None, mkRes 400 [statusJson 400 (JErrorMessage INVALID_ID)], emptyDB).
Proof. reflexivity. Qed.

(** A malformed identifier where the handler does not check it: the
    constructor throws before anything is sent. *)
Example postNewComment_body_rejected :
  asyncHandler
    (postNewComment_body (H:=hex24) sampleCommentEnv "not-an-id" None
       (sampleCommentBody, []))
    emptyDB
  = (Some BSONError, freshRes, emptyDB).
Proof. reflexivity. Qed.
