(* ===== verification/Progress.v ===== *)
(** * Progress: requests in flight finish, whatever the schedule

    The bound of [Responses] on the operations of a handler is syntactic,
    so that it holds of a handler whose operations are interleaved with
    those of other requests: each step of a thread uses up one of the
    operations it is bounded by, and a pool of [n] requests takes at most
    [3 * n] steps, in whatever order they are taken.  Since a thread steps
    unless it has its result ([Interleave]), every schedule that goes on
    ends with all requests answered, and each request after three turns
    of its own at most ([turns]).  The responses the threads end with are
    well formed. *)

From S2P Require Import Prelude JsString Sanitizers Validator ScriptTags.
From S2P Require Import Chains ObjectId Store Program Posts Comments Api.
From S2P Require Import Responses Interleave.

Section progress.
Context `{ObjectIdLib}.
Context {A : Type} (Q : A → Prop).
Implicit Types (db : DB) (t : Thread A) (n : nat).

(** The thread issues at most [n] more operations, and a value it returns
    satisfies [Q]. *)
Definition boundedThread n t : Prop :=
  match t with
  | Running p => bounded Q n p
  | FirstDone _ _ k | SecondDone _ _ k => ∃ m, n = S m ∧ ∀ r, bounded Q m (k r)
  end.

Lemma bounded_resume {R} n (r : Exn + R) (k : R → Prog A) :
  (∀ r, bounded Q n (k r)) → bounded Q n (resume r k).
Proof. destruct r; [intros _; apply bounded_Throw|]. intros Hk. apply Hk. Qed.

(** A step uses up one operation of the bound. *)
Lemma boundedThread_step left n t db t' db' :
  boundedThread n t → stepThread left t db = Some (t', db') →
  ∃ m, n = S m ∧ boundedThread m t'.
Proof.
  destruct t as [p|R1 R2 r1 op2 k|R1 R2 op1 r2 k]; cbn [boundedThread].
  - destruct 1 as [n a Ha|n e|n R op k Hk|n R1 R2 op1 op2 k Hk]; cbn [stepThread];
      [done..| |].
    + destruct (execOp op db) as [r db1]. intros [= <- <-]. exists n.
      split; [done|]. by apply bounded_resume.
    + destruct left; [destruct (execOp op1 db)|destruct (execOp op2 db)];
        intros [= <- <-]; exists (S n); (split; [done|]); by exists n.
  - intros (m & -> & Hk). cbn [stepThread]. destruct (execOp op2 db).
    intros [= <- <-]. exists m. split; [done|]. by apply bounded_resume.
  - intros (m & -> & Hk). cbn [stepThread]. destruct (execOp op1 db).
    intros [= <- <-]. exists m. split; [done|]. by apply bounded_resume.
Qed.

(** A thread that has no operation left has its result. *)
Lemma boundedThread_0 t : boundedThread 0 t → is_Some (resultOf t).
Proof.
  destruct t as [p| |]; cbn [boundedThread resultOf]; [|by intros (m & ? & _)..].
  intros Hp. remember 0 as n eqn:Hn. destruct Hp; by eauto.
Qed.

(** The value a bounded thread ends with satisfies [Q]. *)
Lemma boundedThread_result n t a : boundedThread n t → resultOf t = Some (inr a) → Q a.
Proof.
  destruct t as [p| |]; cbn [boundedThread resultOf]; [|done..].
  by destruct 1; intros [= <-].
Qed.

End progress.

(** ** Pools *)

Section pools.
Context `{ObjectIdLib} `{ScriptTagRemover} (categories : list string).
Implicit Types (db : DB) (ts : Pool) (s : Schedule) (ns : list nat).

(** The requests in flight when none has started. *)
Definition inFlight (requests : list Request) : Pool :=
  (λ r, Running (handler categories r)) <$> requests.

(** Each thread with its bound. *)
Definition poolBound ns ts : Prop := Forall2 (boundedThread wellFormedResponse) ns ts.

Lemma sum_list_insert ns i m :
  ns !! i = Some (S m) → sum_list ns = S (sum_list (<[i := m]> ns)).
Proof.
  revert i. induction ns as [|n ns IH]; intros [|i]; try done.
  - by intros [= ->].
  - intros Hi. change (<[S i := m]> (n :: ns)) with (n :: <[i := m]> ns).
    cbn [sum_list sum_list_with]. rewrite (IH i Hi). lia.
Qed.

(** The turns of the thread [i] in a schedule. *)
Definition turns (i : nat) s : nat := length (List.filter (λ c, bool_decide (c.1 = i)) s).

(** A step of the pool uses up one operation of the thread that takes
    it. *)
Lemma stepPool_turn ch ns ts db ts' db' :
  poolBound ns ts → stepPool ch (ts, db) = Some (ts', db') →
  ∃ m, ns !! ch.1 = Some (S m) ∧ poolBound (<[ch.1 := m]> ns) ts'.
Proof.
  intros Hb (t & t' & Ht & Hstep & ->)%stepPool_inv.
  destruct (Forall2_lookup_r _ _ _ _ _ Hb Ht) as (n & Hn & Hbt).
  destruct (boundedThread_step _ _ _ _ _ _ _ Hbt Hstep) as (m & -> & Hm).
  exists m. split; [done|by apply Forall2_insert].
Qed.

Lemma stepPool_bound ch ns ts db ts' db' :
  poolBound ns ts → stepPool ch (ts, db) = Some (ts', db') →
  ∃ ns', poolBound ns' ts' ∧ sum_list ns = S (sum_list ns').
Proof.
  intros Hb Hstep. destruct (stepPool_turn _ _ _ _ _ _ Hb Hstep) as (m & Hm & Hb').
  exists (<[ch.1 := m]> ns). split; [done|by apply sum_list_insert].
Qed.

Lemma turns_cons c s i :
  turns i (c :: s) = (if decide (c.1 = i) then S (turns i s) else turns i s).
Proof.
  unfold turns. cbn [List.filter].
  by destruct (decide (c.1 = i)); simplify_eq/=;
    [rewrite bool_decide_eq_true_2|rewrite bool_decide_eq_false_2].
Qed.

(** What is left of the bound of each thread after a schedule: the bound
    less the turns the thread has taken. *)
Lemma runSchedule_turns s ns ts db ts' db' :
  poolBound ns ts → runSchedule s (ts, db) = Some (ts', db') →
  ∃ ns', poolBound ns' ts' ∧
         ∀ i n, ns !! i = Some n → turns i s ≤ n ∧ ns' !! i = Some (n - turns i s).
Proof.
  revert ns ts db. induction s as [|ch s IH]; intros ns ts db Hb; cbn [runSchedule].
  - intros [= <- <-]. exists ns. split; [done|]. intros i n Hn.
    split; [cbn; lia|]. by rewrite Nat.sub_0_r.
  - destruct (stepPool ch (ts, db)) as [[ts1 db1]|] eqn:Hch; [|done].
    destruct (stepPool_turn _ _ _ _ _ _ Hb Hch) as (m & Hm & Hb1).
    cbn [mbind option_bind]. intros (ns' & Hb' & Hturns)%(IH _ _ _ Hb1).
    exists ns'. split; [done|]. intros i n Hn. rewrite turns_cons.
    destruct (decide (ch.1 = i)) as [<-|Hne].
    + destruct (Hturns ch.1 m) as [Hle ->];
        [apply list_lookup_insert_eq; by eapply lookup_lt_Some|].
      assert (n = S m) as -> by congruence. split; [lia|done].
    + apply Hturns. by rewrite list_lookup_insert_ne.
Qed.

Lemma runSchedule_bound s ns ts db ts' db' :
  poolBound ns ts → runSchedule s (ts, db) = Some (ts', db') →
  ∃ ns', poolBound ns' ts' ∧ sum_list ns = length s + sum_list ns'.
Proof.
  revert ns ts db. induction s as [|ch s IH]; intros ns ts db Hb; cbn [runSchedule].
  - intros [= <- <-]. by exists ns.
  - destruct (stepPool ch (ts, db)) as [[ts1 db1]|] eqn:Hch; [|done].
    destruct (stepPool_bound _ _ _ _ _ _ Hb Hch) as (ns1 & Hb1 & ->).
    cbn [mbind option_bind]. intros (ns' & Hb' & ->)%(IH ns1); [|done].
    exists ns'. split; [done|]. simpl. lia.
Qed.

Lemma inFlight_bound requests :
  poolBound (replicate (length requests) 3) (inFlight requests).
Proof.
  induction requests as [|r rs IH]; [constructor|].
  constructor; [apply handler_bounded|apply IH].
Qed.

Lemma sum_list_replicate n m : sum_list (replicate n m) = n * m.
Proof. induction n as [|n IH]; simpl; [done|]. rewrite IH. lia. Qed.

(** C14: requests served at the same time all finish: however the
    operations of the requests are interleaved, no more than three
    operations per request are executed in all. *)
Theorem pool_terminates requests db s ts' db' :
  runSchedule s (inFlight requests, db) = Some (ts', db') →
  length s ≤ 3 * length requests.
Proof.
  intros (ns' & _ & Hsum)%(runSchedule_bound _ _ _ _ _ _ (inFlight_bound requests)).
  rewrite sum_list_replicate in Hsum. lia.
Qed.

(** C26: a request is answered once it has had its turns.  In a pool of
    requests, however their operations are interleaved, no request takes
    more than three turns; one that has taken three has its answer; and one
    that has no answer yet can take its next turn, whatever the other
    requests have done to the store. *)
Theorem requests_answered_in_turns requests db s ts' db' i :
  runSchedule s (inFlight requests, db) = Some (ts', db') → i < length requests →
  turns i s ≤ 3 ∧
  ∃ t, ts' !! i = Some t ∧
       (turns i s = 3 → is_Some (resultOf t)) ∧
       (resultOf t = None → ∀ side, is_Some (stepPool (i, side) (ts', db'))).
Proof.
  intros (ns' & Hb & Hturns)%(runSchedule_turns _ _ _ _ _ _ (inFlight_bound requests)) Hi.
  destruct (Hturns i 3) as [Hle Hn]; [by apply lookup_replicate_2|].
  destruct (Forall2_lookup_l _ _ _ _ _ Hb Hn) as (t & Ht & Hbt).
  split; [done|]. exists t. split_and!; [done| |].
  - intros H3. rewrite H3, Nat.sub_diag in Hbt. by eapply boundedThread_0.
  - intros Hr side. by eapply pool_progress.
Qed.

(** The responses of interleaved requests are well formed: whatever
    the schedule, a response a request ends with carries the status its
    body goes with. *)
Theorem interleaved_responses_well_formed requests db s ts' db' i t resp :
  runSchedule s (inFlight requests, db) = Some (ts', db') →
  ts' !! i = Some t → resultOf t = Some (inr resp) → wellFormedResponse resp.
Proof.
  intros (ns' & Hb & _)%(runSchedule_bound _ _ _ _ _ _ (inFlight_bound requests)) Ht.
  destruct (Forall2_lookup_r _ _ _ _ _ Hb Ht) as (n & _ & Hbt).
  by apply (boundedThread_result _ _ _ _ Hbt).
Qed.

End pools.

(** ** A run: two requests, one operation each *)

Definition twoRequests : list (@Request hex24) :=
  [DeleteComment sampleCommentId; GetSpecificPost sampleId].

Definition secondFirst : Schedule := [(1, true); (0, true)].

Lemma pool_terminates_witness : length secondFirst ≤ 3 * length twoRequests.
Proof.
  exact (pool_terminates sampleCategories twoRequests emptyDB secondFirst _ _ eq_refl).
Defined.

(** The deletion of [twoRequests] has had one turn, and its answer; three
    turns are a bound, not a need. *)
Lemma requests_answered_in_turns_witness :
  turns 0 secondFirst ≤ 3 ∧
  ∃ t, [Running (Ret (statusJson 404 (JErrorMessage DOES_NOT_EXIST)));
        Running (Ret (H:=hex24) (statusJson 404 (JErrorMessage DOES_NOT_EXIST)))] !! 0
       = Some t ∧
       (turns 0 secondFirst = 3 → is_Some (resultOf t)) ∧
       (resultOf t = None →
        ∀ side, is_Some (stepPool (0, side)
          ([Running (Ret (statusJson 404 (JErrorMessage DOES_NOT_EXIST)));
            Running (Ret (H:=hex24) (statusJson 404 (JErrorMessage DOES_NOT_EXIST)))],
           emptyDB))).
Proof.
  apply (requests_answered_in_turns sampleCategories twoRequests emptyDB secondFirst);
    [reflexivity|cbn; lia].
Defined.

Lemma interleaved_responses_well_formed_witness :
  wellFormedResponse (H:=hex24) (statusJson 404 (JErrorMessage DOES_NOT_EXIST)).
Proof.
  exact (interleaved_responses_well_formed sampleCategories twoRequests emptyDB
           secondFirst _ _ 0 _ _ eq_refl eq_refl eq_refl).
Defined.
