(* ===== verification/Sequential.v ===== *)
(** * Sequential: serving one request after the other is a schedule

    The theorems on the handlers and on sequences of requests are stated
    with [run] and [serveAll], which execute a handler from its first
    operation to its response before the next one starts.  This file shows
    that they speak of executions of the interleaving semantics: the
    schedule [oneByOne] lets each request in turn take all its operations,
    and ends with the outcomes and in the store of [serveAll]. *)

From S2P Require Import Prelude JsString Sanitizers Validator ScriptTags.
From S2P Require Import Chains ObjectId Store Program Posts Comments Api.
From S2P Require Import Responses Interleave Progress.

Section sequential.
Context `{ObjectIdLib} `{ScriptTagRemover} (categories : list string).
Implicit Types (db : DB) (ts pre : list (Thread Response)) (r : Request)
  (rs : list Request) (i : nat).

(** The thread of a request that has been served. *)
Definition finished (o : Outcome) : Thread Response :=
  Running match o with
          | Sent resp => Ret resp
          | Failed e => Throw e
          end.

(** The thread [i] takes [n] operations, the left one first. *)
Definition alone i (n : nat) : Schedule := replicate n (i, true).

(** The requests [rs], in flight as the threads [i], [i + 1], ..., are
    served one after the other from the store [db]. *)
Fixpoint oneByOne i rs db : Schedule :=
  match rs with
  | [] => []
  | r :: rs' =>
      alone i (steps (handler categories r) db)
      ++ oneByOne (S i) rs' (run (handler categories r) db).2
  end.

Lemma finished_serve r db :
  finished (serve categories r db).1 = Running (done (run (handler categories r) db).1).
Proof. unfold serve, expressAsyncHandler. by destruct (run _ _) as [[e|a] db']. Qed.

Lemma alone_S i n : alone i (S n) = (i, true) :: alone i n.
Proof. done. Qed.

(** A thread that takes all its operations in a row ends as [run] says,
    whatever the other threads of the pool. *)
Lemma runSchedule_alone (p : Prog Response) i ts db :
  ts !! i = Some (Running p) →
  runSchedule (alone i (steps p db)) (ts, db)
  = Some (<[i := Running (done (run p db).1)]> ts, (run p db).2).
Proof.
  revert ts db. induction p as [a|e|R op k IH|R1 R2 op1 op2 k IH]; intros ts db Hi.
  - by rewrite list_insert_id.
  - by rewrite list_insert_id.
  - cbn [steps run]. destruct (execOp op db) as [[e|r] db'] eqn:Hop.
    + apply (runSchedule_cons _ []), stepPool_Some with (t := Running (Await op k)); [done|].
      cbn [stepThread]. by rewrite Hop.
    + rewrite alone_S, (runSchedule_cons _ _ _ (<[i := Running (k r)]> ts, db')).
      * rewrite IH by (apply list_lookup_insert_eq; by eapply lookup_lt_Some).
        by rewrite list_insert_insert_eq.
      * apply stepPool_Some with (t := Running (Await op k)); [done|].
        cbn [stepThread]. by rewrite Hop.
  - cbn [steps run]. destruct (execOp op1 db) as [r1 db1] eqn:H1.
    destruct (execOp op2 db1) as [r2 db2] eqn:H2.
    assert (stepPool (i, true) (ts, db) = Some (<[i := FirstDone r1 op2 k]> ts, db1)) as S1.
    { apply stepPool_Some with (t := Running (AwaitAll op1 op2 k)); [done|].
      cbn [stepThread]. by rewrite H1. }
    assert (stepPool (i, true) (<[i := FirstDone r1 op2 k]> ts, db1)
            = Some (<[i := Running (resume (both r1 r2) k)]> ts, db2)) as S2.
    { etrans; [eapply (stepPool_Some i true _ db1 (FirstDone r1 op2 k));
                 [apply list_lookup_insert_eq; by eapply lookup_lt_Some|
                  cbn [stepThread]; by rewrite H2]|].
      do 2 f_equal. apply list_insert_insert_eq. }
    destruct (both r1 r2) as [e|r] eqn:Hb; rewrite !alone_S.
    + by rewrite (runSchedule_cons _ _ _ _ S1), (runSchedule_cons _ _ _ _ S2).
    + rewrite (runSchedule_cons _ _ _ _ S1), (runSchedule_cons _ _ _ _ S2).
      rewrite IH by (apply list_lookup_insert_eq; by eapply lookup_lt_Some).
      by rewrite list_insert_insert_eq.
Qed.

(** Behind the threads [pre], the requests served one after the other. *)
Lemma oneByOne_serveAll rs pre db :
  runSchedule (oneByOne (length pre) rs db) (pre ++ inFlight categories rs, db)
  = Some (pre ++ (finished <$> (serveAll categories rs db).1),
          (serveAll categories rs db).2).
Proof.
  revert pre db. induction rs as [|r rs IH]; intros pre db; [done|].
  cbn [oneByOne serveAll]. rewrite runSchedule_app.
  unfold inFlight. rewrite fmap_cons.
  rewrite runSchedule_alone by (by apply list_lookup_middle).
  rewrite list_insert_middle. cbn [mbind option_bind].
  rewrite <-serve_store, <-finished_serve.
  destruct (serve categories r db) as [o db1]. cbn [fst snd].
  specialize (IH (pre ++ [finished o]) db1).
  rewrite length_app, Nat.add_1_r, <-app_assoc in IH. cbn [app] in IH.
  fold (inFlight categories rs). rewrite IH.
  destruct (serveAll categories rs db1) as [os db2]. by rewrite <-app_assoc.
Qed.

(** Serving the requests one after the other is one of the
    interleavings.  The schedule that lets each request in turn take all
    its operations runs to the end, and ends with every request answered
    as [serveAll] answers it, or failed as it fails there, in the store
    [serveAll] leaves: what is proved of [serveAll] is proved of an
    execution of the concurrent program. *)
Theorem serveAll_is_a_schedule rs db :
  runSchedule (oneByOne 0 rs db) (inFlight categories rs, db)
  = Some (finished <$> (serveAll categories rs db).1, (serveAll categories rs db).2) ∧
  quiescent (finished <$> (serveAll categories rs db).1).
Proof.
  split; [apply (oneByOne_serveAll rs [])|].
  apply Forall_fmap, Forall_true. by intros [resp|e]; eexists.
Qed.

End sequential.
