(* ===== verification/Serializable.v ===== *)
(** * Serializable: the requests of one operation

    Seven of the eleven handlers issue one operation on the store at most:
    the four that read, [postNewPost], [publishPost] and [deletePost].
    Such a request takes effect at one moment, the moment of its
    operation.  However a pool of them is interleaved, the store it leaves
    and the answers it gives are those of the same requests served one
    after the other ([serveAll]), in the order in which the schedule took
    their operations: what the theorems on sequences of requests say
    holds of every concurrent execution of these requests.  The requests
    the schedule did not take are still to be served.

    The other four handlers read and then write, or write twice, and are
    not atomic: [Interleave] shows two edits of one post that no order of
    the two requests explains, and [Quiescence] what is left of the
    counters while a comment is created or deleted. *)

From S2P Require Import Prelude JsString Sanitizers Validator ScriptTags.
From S2P Require Import Chains ObjectId Store Program Posts Comments Api.
From S2P Require Import Responses Interleave Progress Sequential.

Section serializable.
Context `{ObjectIdLib} `{ScriptTagRemover} (categories : list string).
Implicit Types (db : DB) (ts : list (Thread Response)) (r : Request)
  (rs : list Request) (s : Schedule) (c : Choice) (i : nat).

(** The requests whose handler issues one operation at most. *)
Definition isAtomic r : bool :=
  match r with
  | GetAllPosts | GetSpecificPost _ | PostNewPost _ _ | PublishPost _ _ | DeletePost _
  | GetAllComments _ _ | GetSpecificComment _ => true
  | EditPost _ _ | PostNewComment _ _ _ _ | EditComment _ _ | DeleteComment _ => false
  end.

(** The requests of the pool in the order in which the schedule takes
    them. *)
Definition servedBy s rs : list Request := omap (λ c, rs !! c.1) s.

(** A pool of the requests [rs], some of them answered. *)
Definition partlyServed rs ts : Prop :=
  Forall2 (λ r t, t = Running (handler categories r) ∨ is_Some (resultOf t)) rs ts.

(** ** One operation *)

Lemma atomic_bounded r : isAtomic r = true → bounded (λ _, True) 1 (handler categories r).
Proof.
  destruct r; try done; intros _; cbn [handler];
    unfold getAllPosts, getSpecificPost, postNewPost, publishPost, deletePost,
      getAllComments, getSpecificComment;
    bounded_steps; done.
Qed.

(** A program that issues no operation has its result. *)
Lemma bounded_0 {A} (Q : A → Prop) (p : Prog A) db :
  bounded Q 0 p → p = done (run p db).1 ∧ (run p db).2 = db.
Proof. intros Hp. remember 0 as n eqn:Hn. by destruct Hp. Qed.

(** The one step of a program of one operation is its run. *)
Lemma atomic_step {A} (Q : A → Prop) (p : Prog A) side db t' db' :
  bounded Q 1 p → stepThread side (Running p) db = Some (t', db') →
  t' = Running (done (run p db).1) ∧ db' = (run p db).2.
Proof.
  intros Hp. remember 1 as n eqn:Hn.
  destruct Hp as [n a Ha|n e|n R op k Hk|n R1 R2 op1 op2 k Hk]; [done..| |lia].
  injection Hn as ->. cbn [stepThread run].
  destruct (execOp op db) as [[e|r] db1]; intros [= <- <-]; [done|].
  cbn [resume]. destruct (bounded_0 Q (k r) db1 (Hk r)) as [Hres Hdb].
  split; [by f_equal|done].
Qed.

(** ** Threads that have their result stay as they are *)

Lemma stepPool_finished c ts db ts' db' i t :
  stepPool c (ts, db) = Some (ts', db') →
  ts !! i = Some t → is_Some (resultOf t) → ts' !! i = Some t.
Proof.
  intros (t0 & t1 & Ht0 & Hstep & ->)%stepPool_inv Hi Hres.
  unfold Pool in *. destruct (decide (c.1 = i)) as [<-|Hne];
    [|by rewrite list_lookup_insert_ne].
  assert (t0 = t) as -> by congruence.
  by rewrite (stepThread_done c.2 t db Hres) in Hstep.
Qed.

Lemma runSchedule_finished s ts db ts' db' i t :
  runSchedule s (ts, db) = Some (ts', db') →
  ts !! i = Some t → is_Some (resultOf t) → ts' !! i = Some t.
Proof.
  revert ts db. induction s as [|c s IH]; intros ts db; cbn [runSchedule].
  - by intros [= <- <-].
  - destruct (stepPool c (ts, db)) as [[ts1 db1]|] eqn:Hc; [|done].
    cbn [mbind option_bind]. intros Hs Hi Hres. apply (IH ts1 db1 Hs); [|done].
    by eapply stepPool_finished.
Qed.

(** ** Threads the schedule does not take stay as they are *)

Lemma stepPool_other c ts db ts' db' i :
  stepPool c (ts, db) = Some (ts', db') → c.1 ≠ i → ts' !! i = ts !! i.
Proof.
  intros (t0 & t1 & _ & _ & ->)%stepPool_inv Hne. unfold Pool in *.
  by rewrite list_lookup_insert_ne.
Qed.

Lemma runSchedule_untaken s ts db ts' db' i :
  runSchedule s (ts, db) = Some (ts', db') → i ∉ s.*1 → ts' !! i = ts !! i.
Proof.
  revert ts db. induction s as [|c s IH]; intros ts db; cbn [runSchedule].
  - by intros [= <- <-].
  - destruct (stepPool c (ts, db)) as [[ts1 db1]|] eqn:Hc; [|done].
    cbn [mbind option_bind]. rewrite fmap_cons, not_elem_of_cons. intros Hs [Hi Hin].
    rewrite (IH ts1 db1 Hs Hin). by eapply stepPool_other.
Qed.

(** ** Pools of atomic requests *)

Lemma partlyServed_inFlight rs : partlyServed rs (inFlight categories rs).
Proof. apply Forall2_fmap_r, Forall_Forall2_diag, Forall_true. auto. Qed.

(** A step of a pool of atomic requests serves one of them. *)
Lemma atomic_stepPool rs c ts db ts' db' :
  Forall (λ r, isAtomic r = true) rs → partlyServed rs ts →
  stepPool c (ts, db) = Some (ts', db') →
  ∃ r, rs !! c.1 = Some r ∧
       ts' = <[c.1 := finished (serve categories r db).1]> ts ∧
       db' = (serve categories r db).2 ∧ partlyServed rs ts'.
Proof.
  intros Hrs Hts (t & t' & Ht & Hstep & ->)%stepPool_inv. unfold Pool in *.
  destruct (Forall2_lookup_r _ _ _ _ _ Hts Ht) as (r & Hr & [->|Hres]);
    [|by rewrite (stepThread_done _ _ _ Hres) in Hstep].
  pose proof (atomic_bounded r (proj1 (Forall_lookup _ _) Hrs _ _ Hr)) as Hb.
  destruct (atomic_step _ _ _ _ _ _ Hb Hstep) as [-> ->].
  exists r. rewrite finished_serve, serve_store. split_and!; [done..|].
  rewrite <- (list_insert_id rs c.1 r Hr). apply Forall2_insert; [done|].
  right. by destruct (run (handler categories r) db).1.
Qed.

Lemma serveAll_cons_eq r rs db :
  serveAll categories (r :: rs) db
  = ((serve categories r db).1 :: (serveAll categories rs (serve categories r db).2).1,
     (serveAll categories rs (serve categories r db).2).2).
Proof.
  cbn [serveAll]. destruct (serve categories r db) as [o db1]. cbn [fst snd].
  by destruct (serveAll categories rs db1).
Qed.

(** However a pool of atomic requests is interleaved, it is served as
    [serveAll] serves the requests in the order of the schedule. *)
Lemma atomic_runSchedule rs s ts db ts' db' :
  Forall (λ r, isAtomic r = true) rs → partlyServed rs ts →
  runSchedule s (ts, db) = Some (ts', db') →
  db' = (serveAll categories (servedBy s rs) db).2 ∧
  Forall2 (λ c o, ts' !! c.1 = Some (finished o)) s
    (serveAll categories (servedBy s rs) db).1.
Proof.
  intros Hrs. revert ts db. induction s as [|c s IH]; intros ts db Hts; cbn [runSchedule].
  - intros [= <- <-]. by split; [|constructor].
  - destruct (stepPool c (ts, db)) as [[ts1 db1]|] eqn:Hc; [|done].
    cbn [mbind option_bind]. intros Hs.
    destruct (atomic_stepPool rs c ts db ts1 db1 Hrs Hts Hc) as (r & Hr & -> & -> & Hts1).
    destruct (IH _ _ Hts1 Hs) as [-> Hos].
    unfold servedBy. cbn [omap list_omap]. rewrite Hr. fold (servedBy s rs).
    rewrite serveAll_cons_eq. split; [done|]. constructor; [|done].
    eapply runSchedule_finished; [exact Hs| |by destruct (serve categories r db).1].
    apply list_lookup_insert_eq. assert (length rs = length ts) as <- by by eapply Forall2_length.
    by eapply lookup_lt_Some.
Qed.

(** C23: the requests of one operation are serializable.  A pool of
    requests that read, create a post, publish or delete one, interleaved
    in any way, leaves the store that [serveAll] leaves when it serves the
    requests in the order in which the schedule took them, and every
    request the schedule took has the answer it has there. *)
Theorem atomic_requests_serializable rs s db ts' db' :
  Forall (λ r, isAtomic r = true) rs →
  runSchedule s (inFlight categories rs, db) = Some (ts', db') →
  let serial := serveAll categories (servedBy s rs) db in
  db' = serial.2 ∧ Forall2 (λ c o, ts' !! c.1 = Some (finished o)) s serial.1.
Proof.
  intros Hrs Hs.
  apply (atomic_runSchedule rs s (inFlight categories rs)); [done| |done].
  apply partlyServed_inFlight.
Qed.

(** The requests the schedule did not take are still to be served. *)
Theorem atomic_requests_untaken rs s db ts' db' i r :
  runSchedule s (inFlight categories rs, db) = Some (ts', db') →
  rs !! i = Some r → i ∉ s.*1 → ts' !! i = Some (Running (handler categories r)).
Proof.
  intros Hs Hr Hi. rewrite (runSchedule_untaken s _ db ts' db' i Hs Hi).
  unfold inFlight. by rewrite list_lookup_fmap, Hr.
Qed.

End serializable.

(** ** A concrete run *)

(** A deletion and a listing, the listing first in the pool and second in
    the schedule. *)
Definition listAndDelete : list (@Request hex24) := [GetAllPosts; DeletePost sampleId].

Lemma atomic_requests_serializable_witness :
  let serial := serveAll sampleCategories (servedBy secondFirst listAndDelete) emptyDB in
  servedBy secondFirst listAndDelete = [DeletePost sampleId; GetAllPosts] ∧
  emptyDB = serial.2 ∧
  Forall2 (λ c o,
      [finished (Sent (json (JPosts []))); finished (Sent notFound)] !! c.1
      = Some (finished o))
    secondFirst serial.1.
Proof.
  split; [reflexivity|].
  apply (atomic_requests_serializable sampleCategories listAndDelete secondFirst emptyDB);
    [by repeat constructor|reflexivity].
Defined.
