(* ===== verification/Consistency.v ===== *)
(** * Consistency: the API as a transition system and its invariants

    The data model of the specification promises that a post's
    [commentCount] is the number of comments that reference it, that
    identifiers, authors, timestamps and the post of a comment never change,
    and that what is stored went through validation.  None of this is
    checked by the store: it holds, where it holds, because of what the
    handlers write.

    This file states the changes the API can make to the store as a
    labelled transition relation, [transition]: one rule per kind of change
    with the conditions the handlers guarantee.  The invariants are proved
    by case analysis on that relation; the refinement theorem of the file
    [Refinement] shows that every request is one of its transitions. *)

From S2P Require Import Prelude JsString Sanitizers Validator ScriptTags.
From S2P Require Import Chains ObjectId Store Program Posts Comments.

(** ** Counting in finite maps *)

Section counting.
Context `{Countable K} {A : Type} (P : A → Prop) `{!∀ x, Decision (P x)}.
Implicit Types (m : gmap K A) (i : K) (x : A).

(** The number of entries of [m] whose value satisfies [P]. *)
Definition countIf m : nat := size (filter (λ kv, P kv.2) m).

Definition bump x (n : nat) : nat := if decide (P x) then S n else n.

Lemma countIf_empty : countIf ∅ = 0.
Proof. unfold countIf. by rewrite map_filter_empty, map_size_empty. Qed.

Lemma countIf_insert_fresh m i x :
  m !! i = None → countIf (<[i:=x]> m) = bump x (countIf m).
Proof.
  intros Hi. unfold countIf, bump. rewrite map_filter_insert. simpl.
  destruct (decide (P x)).
  - rewrite map_size_insert_None; [done|]. apply map_lookup_filter_None. auto.
  - by rewrite delete_id.
Qed.

Lemma countIf_delete m i x :
  m !! i = Some x → bump x (countIf (delete i m)) = countIf m.
Proof.
  intros Hi. rewrite <-(insert_id m i x) at 2 by done.
  rewrite <-insert_delete_eq. symmetry. apply countIf_insert_fresh, lookup_delete_eq.
Qed.

Lemma countIf_insert m i x x' :
  m !! i = Some x → (P x ↔ P x') → countIf (<[i:=x']> m) = countIf m.
Proof.
  intros Hi HP. rewrite <-(countIf_delete m i x Hi), <-insert_delete_eq.
  rewrite countIf_insert_fresh by apply lookup_delete_eq.
  unfold bump. destruct (decide (P x)), (decide (P x')); tauto.
Qed.

Lemma countIf_zero m : countIf m = 0 ↔ map_Forall (λ _ x, ¬ P x) m.
Proof.
  unfold countIf. rewrite map_size_empty_iff, map_empty_filter.
  rewrite !map_Forall_lookup. naive_solver.
Qed.

End counting.

(** ** The invariants *)

Section invariants.
Context `{ObjectIdLib} (categories : list string).
Implicit Types (db : DB) (id pid : ObjectId) (p : PostModel) (c : CommentModel).

(** The number of stored comments that reference the post [pid]. *)
Definition commentsOn pid db : nat := countIf (λ c, comment_post c = pid) (comments db).

(** Every document is stored under its own identifier. *)
Definition keysOk db : Prop :=
  map_Forall (λ id p, post_id p = id) (posts db) ∧
  map_Forall (λ id c, comment_id c = id) (comments db).

(** Counter consistency: the counter of every stored post is the number of
    stored comments that reference it. *)
Definition countersOk db : Prop :=
  map_Forall (λ pid p, post_commentCount p = Z.of_nat (commentsOn pid db)) (posts db).

(** Every stored post is as validation leaves one. *)
Definition postsOk db : Prop := map_Forall (λ _ p, postOk categories p) (posts db).

(** What an edit of a post may not change. *)
Definition samePostIdentity p p' : Prop :=
  post_id p' = post_id p ∧ post_author p' = post_author p ∧
  post_timestamp p' = post_timestamp p.

(** What an edit of a comment may not change: all but its text. *)
Definition sameCommentIdentity c c' : Prop :=
  comment_id c' = comment_id c ∧ comment_commenter c' = comment_commenter c ∧
  comment_post c' = comment_post c ∧ comment_timestamp c' = comment_timestamp c ∧
  comment_replies c' = comment_replies c.

(** ** Changes of the store *)

Inductive Change :=
| Skip
| CreatePost (p : PostModel)
| RevisePost (id : ObjectId) (p' : PostModel)
| RemovePost (id : ObjectId)
| CreateComment (c : CommentModel)
| ReviseComment (id : ObjectId) (c' : CommentModel)
| RemoveComment (id : ObjectId)
| StrayIncrement (pid : ObjectId).

(** [transition db ch db']: the change [ch] is possible in [db] and leaves
    [db'].  The premises are what the handlers guarantee of what they
    write.  [StrayIncrement] is the anomaly of a comment whose insert was
    refused while the increment issued with it went through. *)
Inductive transition : DB → Change → DB → Prop :=
| t_skip db : transition db Skip db
| t_createPost db p :
    posts db !! post_id p = None → post_commentCount p = 0%Z → postOk categories p →
    transition db (CreatePost p) (setPosts <[post_id p := p]> db)
| t_revisePost db id p p' :
    posts db !! id = Some p → samePostIdentity p p' →
    post_commentCount p' = post_commentCount p →
    (postOk categories p → postOk categories p') →
    transition db (RevisePost id p') (setPosts <[id := p']> db)
| t_removePost db id :
    transition db (RemovePost id) (setPosts (delete id) db)
| t_createComment db c :
    comments db !! comment_id c = None →
    transition db (CreateComment c)
      (incCommentCount 1 (comment_post c) (setComments <[comment_id c := c]> db))
| t_reviseComment db id c c' :
    comments db !! id = Some c → sameCommentIdentity c c' →
    transition db (ReviseComment id c') (setComments <[id := c']> db)
| t_removeComment db id c :
    comments db !! id = Some c →
    transition db (RemoveComment id)
      (incCommentCount (-1) (comment_post c) (setComments (delete id) db))
| t_strayIncrement db pid :
    transition db (StrayIncrement pid) (incCommentCount 1 pid db).

(** The changes under which the counters stay right: a post that is created
    is not yet referenced by a comment, and no increment goes astray. *)
Definition regular db (ch : Change) : Prop :=
  match ch with
  | CreatePost p => commentsOn (post_id p) db = 0
  | StrayIncrement _ => False
  | _ => True
  end.

End invariants.

(** ** Counting the comments of a post *)

Section counters.
Context `{ObjectIdLib}.
Implicit Types (db : DB) (id pid : ObjectId) (p : PostModel) (c : CommentModel).

(** An increment as a change of the posts alone. *)
Lemma incCommentCount_alter n pid db :
  incCommentCount n pid db = setPosts (alter (applyPostUpdate (IncCommentCount n)) pid) db.
Proof.
  destruct (posts db !! pid) as [p|] eqn:Hp.
  - rewrite (incCommentCount_present _ _ _ p Hp). unfold setPosts. f_equal.
    apply map_eq. intros i. destruct (decide (pid = i)) as [->|].
    + by rewrite lookup_insert_eq, lookup_alter_eq, Hp.
    + by rewrite lookup_insert_ne, lookup_alter_ne.
  - rewrite incCommentCount_absent by done. symmetry. apply setPosts_id.
    apply map_eq. intros i. destruct (decide (pid = i)) as [->|].
    + by rewrite lookup_alter_eq, Hp.
    + by rewrite lookup_alter_ne.
Qed.

Lemma commentsOn_setPosts f pid db : commentsOn pid (setPosts f db) = commentsOn pid db.
Proof. done. Qed.

Lemma commentsOn_incCommentCount n q pid db :
  commentsOn pid (incCommentCount n q db) = commentsOn pid db.
Proof. by rewrite incCommentCount_alter. Qed.

Lemma commentsOn_created c pid db :
  comments db !! comment_id c = None →
  commentsOn pid (setComments <[comment_id c := c]> db)
  = if decide (comment_post c = pid) then S (commentsOn pid db) else commentsOn pid db.
Proof. intros Hc. unfold commentsOn. simpl. by rewrite countIf_insert_fresh. Qed.

Lemma commentsOn_removed id c pid db :
  comments db !! id = Some c →
  commentsOn pid db
  = if decide (comment_post c = pid) then S (commentsOn pid (setComments (delete id) db))
    else commentsOn pid (setComments (delete id) db).
Proof.
  intros Hc. unfold commentsOn. simpl.
  by rewrite <-(countIf_delete _ (comments db) id c Hc).
Qed.

Lemma commentsOn_revised id c c' pid db :
  comments db !! id = Some c → comment_post c' = comment_post c →
  commentsOn pid (setComments <[id := c']> db) = commentsOn pid db.
Proof.
  intros Hc Hp. unfold commentsOn. simpl. apply (countIf_insert _ _ _ c); [done|].
  by rewrite Hp.
Qed.

(** A store without comments that reference [pid]. *)
Lemma commentsOn_zero pid db :
  commentsOn pid db = 0 ↔ ∀ id c, comments db !! id = Some c → comment_post c ≠ pid.
Proof. unfold commentsOn. by rewrite countIf_zero, map_Forall_lookup. Qed.

End counters.

(** ** The invariants are preserved *)

Section preservation.
Context `{ObjectIdLib} (categories : list string).
Implicit Types (db : DB) (id pid : ObjectId) (p : PostModel) (c : CommentModel)
  (ch : Change).

Lemma applyPostUpdate_inc_id n p : post_id (applyPostUpdate (IncCommentCount n) p) = post_id p.
Proof. done. Qed.

Lemma applyPostUpdate_inc_postOk n p :
  postOk categories (applyPostUpdate (IncCommentCount n) p) ↔ postOk categories p.
Proof. done. Qed.

Lemma applyPostUpdate_inc_identity n p :
  samePostIdentity p (applyPostUpdate (IncCommentCount n) p).
Proof. done. Qed.

(** A property of single posts that increments keep is kept by
    [incCommentCount]. *)
Lemma incCommentCount_Forall (P : ObjectId → PostModel → Prop) n pid db :
  (∀ id p, P id p → P id (applyPostUpdate (IncCommentCount n) p)) →
  map_Forall P (posts db) → map_Forall P (posts (incCommentCount n pid db)).
Proof.
  intros HP Hdb. rewrite incCommentCount_alter. simpl.
  intros id p'. destruct (decide (pid = id)) as [->|].
  - rewrite lookup_alter_eq. destruct (posts db !! id) as [p|] eqn:Hp; [|done].
    intros [= <-]. apply HP, (Hdb _ _ Hp).
  - rewrite lookup_alter_ne by done. apply Hdb.
Qed.

Lemma comments_incCommentCount n pid db : comments (incCommentCount n pid db) = comments db.
Proof. by rewrite incCommentCount_alter. Qed.

Lemma keysOk_transition db ch db' : transition categories db ch db' → keysOk db → keysOk db'.
Proof.
  intros Ht [Hp Hc]. destruct Ht as [db|db p|db id p p' Hid [Hp' _]| |db c|db id c c' Hid [Hc' _]
    |db id c|db pid]; unfold keysOk; rewrite ?comments_incCommentCount; simpl.
  - done.
  - split; [by apply map_Forall_insert_2|done].
  - split; [|done]. apply map_Forall_insert_2; [|done]. by rewrite Hp', (Hp _ _ Hid).
  - split; [by apply map_Forall_delete|done].
  - split; [by apply incCommentCount_Forall|by apply map_Forall_insert_2].
  - split; [done|]. apply map_Forall_insert_2; [|done]. by rewrite Hc', (Hc _ _ Hid).
  - split; [by apply incCommentCount_Forall|by apply map_Forall_delete].
  - split; [by apply incCommentCount_Forall|done].
Qed.

Lemma postsOk_transition db ch db' :
  transition categories db ch db' → postsOk categories db → postsOk categories db'.
Proof.
  intros Ht Hp. destruct Ht as [db|db p|db id p p' Hid _ _ Hok| |db c|db id c c'
    |db id c|db pid]; unfold postsOk; simpl;
    try (by apply (incCommentCount_Forall (λ _, postOk categories))); try done.
  - by apply map_Forall_insert_2.
  - apply map_Forall_insert_2; [|done]. apply Hok, (Hp _ _ Hid).
  - by apply map_Forall_delete.
Qed.

End preservation.

(** ** Counter consistency is preserved *)

Section counters_preserved.
Context `{ObjectIdLib} (categories : list string).
Implicit Types (db : DB) (id pid : ObjectId) (p : PostModel) (c : CommentModel)
  (ch : Change).

(** After the comments have changed, one increment by [n] on the post [q]
    restores the counters when [q] is the one post whose count moved, by
    [n]. *)
Lemma countersOk_incCommentCount n q db :
  (∀ pid p, posts db !! pid = Some p →
     (post_commentCount p + (if decide (q = pid) then n else 0))%Z
     = Z.of_nat (commentsOn pid db)) →
  countersOk (incCommentCount n q db).
Proof.
  intros Hdb pid p'. rewrite commentsOn_incCommentCount, incCommentCount_alter. simpl.
  destruct (decide (q = pid)) as [->|Hne].
  - rewrite lookup_alter_eq. destruct (posts db !! pid) as [p|] eqn:Hp; [|done].
    intros [= <-]. simpl. rewrite <-(Hdb _ _ Hp). by rewrite decide_True.
  - rewrite lookup_alter_ne by done. intros Hp. rewrite <-(Hdb _ _ Hp).
    rewrite decide_False by done. lia.
Qed.

Lemma countersOk_createComment c db :
  comments db !! comment_id c = None → countersOk db →
  countersOk (incCommentCount 1 (comment_post c) (setComments <[comment_id c := c]> db)).
Proof.
  intros Hc Hdb. apply countersOk_incCommentCount. intros pid p Hp.
  rewrite commentsOn_created by done. rewrite (Hdb pid p Hp).
  destruct (decide (comment_post c = pid)); lia.
Qed.

Lemma countersOk_removeComment id c db :
  comments db !! id = Some c → countersOk db →
  countersOk (incCommentCount (-1) (comment_post c) (setComments (delete id) db)).
Proof.
  intros Hc Hdb. apply countersOk_incCommentCount. intros pid p Hp.
  rewrite (Hdb pid p Hp), (commentsOn_removed id c pid db Hc).
  destruct (decide (comment_post c = pid)); lia.
Qed.

Lemma countersOk_createPost p db :
  posts db !! post_id p = None → post_commentCount p = 0%Z →
  commentsOn (post_id p) db = 0 → countersOk db →
  countersOk (setPosts <[post_id p := p]> db).
Proof.
  intros Hp H0 Hn Hdb. apply map_Forall_insert_2; [|done].
  rewrite commentsOn_setPosts, H0, Hn. done.
Qed.

Lemma countersOk_transition db ch db' :
  transition categories db ch db' → regular db ch → countersOk db → countersOk db'.
Proof.
  intros Ht Hreg Hdb. destruct Ht as [db|db p|db id p p' Hid _ Hn _| |db c|db id c c' Hid Hc
    |db id c|db pid]; simpl in Hreg.
  - done.
  - by apply countersOk_createPost.
  - apply map_Forall_insert_2; [|done]. by rewrite Hn, (Hdb _ _ Hid).
  - by apply map_Forall_delete.
  - by apply countersOk_createComment.
  - intros pid p Hp. rewrite (commentsOn_revised id c c') by (done || apply Hc).
    by apply Hdb.
  - by apply countersOk_removeComment.
  - done.
Qed.

End counters_preserved.

(** ** What no change touches *)

Section identity.
Context `{ObjectIdLib} (categories : list string).
Implicit Types (db : DB) (id pid : ObjectId) (p : PostModel) (c : CommentModel)
  (ch : Change).

#[global] Instance samePostIdentity_equiv : Equivalence samePostIdentity.
Proof.
  unfold samePostIdentity. split; [done| |]; repeat intros ?; intuition congruence.
Qed.

#[global] Instance sameCommentIdentity_equiv : Equivalence sameCommentIdentity.
Proof.
  unfold sameCommentIdentity. split; [done| |]; repeat intros ?; intuition congruence.
Qed.

Lemma lookup_incCommentCount n pid db id :
  posts (incCommentCount n pid db) !! id
  = (if decide (pid = id) then applyPostUpdate (IncCommentCount n) else λ p, p)
      <$> posts db !! id.
Proof.
  rewrite incCommentCount_alter. simpl. destruct (decide (pid = id)) as [->|].
  - by rewrite lookup_alter_eq.
  - rewrite lookup_alter_ne by done. by destruct (posts db !! id).
Qed.

(** A post that is there before and after a change has kept its
    identifier, its author and its timestamp. *)
Lemma transition_post_identity db ch db' id p p' :
  transition categories db ch db' →
  posts db !! id = Some p → posts db' !! id = Some p' → samePostIdentity p p'.
Proof.
  intros Ht Hp. destruct Ht as [db|db p0 Hfresh|db id0 p0 p0' Hid Hsame| |db c|db id0 c c'
    |db id0 c|db pid]; rewrite ?lookup_incCommentCount; simpl; rewrite ?Hp; simpl.
  - by intros [= <-].
  - rewrite lookup_insert_ne by congruence. rewrite Hp. by intros [= <-].
  - destruct (decide (id0 = id)) as [->|].
    + rewrite lookup_insert_eq. intros [= <-]. congruence.
    + rewrite lookup_insert_ne by done. rewrite Hp. by intros [= <-].
  - intros [_ Hp']%lookup_delete_Some. by simplify_eq.
  - intros [= <-]. by destruct (decide _).
  - by intros [= <-].
  - intros [= <-]. by destruct (decide _).
  - intros [= <-]. by destruct (decide _).
Qed.

(** A comment that is there before and after a change has kept everything
    but its text: the post it belongs to in particular. *)
Lemma transition_comment_identity db ch db' id c c' :
  transition categories db ch db' →
  comments db !! id = Some c → comments db' !! id = Some c' → sameCommentIdentity c c'.
Proof.
  intros Ht Hc. destruct Ht as [db|db p0|db id0 p0 p0'| |db c0 Hfresh|db id0 c0 c0' Hid Hsame
    |db id0 c0|db pid]; rewrite ?comments_incCommentCount; simpl; rewrite ?Hc;
    try (by intros [= <-]).
  - rewrite lookup_insert_ne by congruence. rewrite Hc. by intros [= <-].
  - destruct (decide (id0 = id)) as [->|].
    + rewrite lookup_insert_eq. intros [= <-]. congruence.
    + rewrite lookup_insert_ne by done. rewrite Hc. by intros [= <-].
  - intros [_ Hc']%lookup_delete_Some. by simplify_eq.
Qed.

End identity.

(** ** Reachable states *)

Section reachable.
Context `{ObjectIdLib} (categories : list string).
Implicit Types (db : DB).

(** A state in which the three invariants hold. *)
Definition consistent db : Prop := keysOk db ∧ countersOk db ∧ postsOk categories db.

(** One regular change. *)
Definition regularStep : relation DB :=
  λ db db', ∃ ch, transition categories db ch db' ∧ regular db ch.

Lemma consistent_initial db : posts db = ∅ → comments db = ∅ → consistent db.
Proof.
  intros Hp Hc. unfold consistent, keysOk, countersOk, postsOk. rewrite Hp, Hc.
  split_and!; apply map_Forall_empty.
Qed.

Lemma consistent_step db db' : regularStep db db' → consistent db → consistent db'.
Proof.
  intros (ch & Ht & Hreg) (Hk & Hn & Hp). split_and!.
  - by eapply keysOk_transition.
  - by eapply countersOk_transition.
  - by eapply postsOk_transition.
Qed.

Lemma consistent_rtc db db' : rtc regularStep db db' → consistent db → consistent db'.
Proof. induction 1; eauto using consistent_step. Qed.

End reachable.
