(* ===== verification/Guarantee.v ===== *)
(** * Guarantee: what every write of a handler guarantees

    Keys and validation of the stored posts do not depend on the order in
    which the operations of the requests are executed: every operation of
    a handler, taken alone, keeps them.  [guarded] says so of a handler:
    each post it saves, and each replacement it sends for a post, is well
    formed, given that the posts it has read from the store were.  The
    theorem of this file is the invariant for every interleaving, with no
    assumption on identifiers. *)

From S2P Require Import Prelude JsString Sanitizers Validator ScriptTags.
From S2P Require Import Chains ObjectId Store Program Posts Comments Api.
From S2P Require Import Responses Interleave Progress Consistency.

Section guarantee.
Context `{ObjectIdLib} `{ScriptTagRemover} (categories : list string).
Implicit Types (db : DB) (p : PostModel) (e : PostEdits) (ts : list (Thread Response)).

(** Documents are under their identifiers and posts are well formed. *)
Definition storeOk db : Prop := keysOk db ∧ postsOk categories db.

(** The replacement is the one of a well-formed post. *)
Definition editsOk e : Prop :=
  titleOk (edit_title e) ∧ edit_category e ∈ categories ∧ paragraphsOk (edit_text e).

(** What the operation writes is well formed. *)
Definition writeOk {R} (op : DbOp R) : Prop :=
  match op with
  | OpPostSave p => postOk categories p
  | OpPostUpdate _ (SetDocument e) => editsOk e
  | _ => True
  end.

(** What the handler knows of a result: a post read from the store is
    well formed. *)
Definition learns {R} (op : DbOp R) : R → Prop :=
  match op in DbOp R return R → Prop with
  | OpPostFindById _ => λ r, ∀ p, r = Some p → postOk categories p
  | _ => λ _, True
  end.

(** Every write of the program is well formed, whatever the store
    returns, as long as the posts it returns are. *)
Fixpoint guarded {A} (p : Prog A) : Prop :=
  match p with
  | Ret _ | Throw _ => True
  | Await op k => writeOk op ∧ ∀ r, learns op r → guarded (k r)
  | AwaitAll op1 op2 k => writeOk op1 ∧ writeOk op2 ∧ ∀ r, guarded (k r)
  end.

Definition guardedThread {A} (t : Thread A) : Prop :=
  match t with
  | Running p => guarded p
  | FirstDone _ op2 k => writeOk op2 ∧ ∀ r, guarded (k r)
  | SecondDone op1 _ k => writeOk op1 ∧ ∀ r, guarded (k r)
  end.

(** ** One operation *)

Lemma execOp_keysOk {R} (op : DbOp R) db r db' :
  execOp op db = (r, db') → keysOk db → keysOk db'.
Proof.
  intros Hex [Hp Hc].
  destruct op; simpl in Hex;
    unfold Post_save, Post_findByIdAndUpdate, Post_findByIdAndDelete, Comment_save,
      Comment_findByIdAndUpdate, Comment_findByIdAndDelete in Hex;
    repeat case_match; simplify_eq; split; simpl;
    try done; try (by apply map_Forall_delete); apply map_Forall_insert_2; try done.
  - destruct u; simpl; by eapply Hp.
  - simpl. by eapply Hc.
Qed.

Lemma execOp_postsOk {R} (op : DbOp R) db r db' :
  writeOk op → execOp op db = (r, db') → postsOk categories db →
  postsOk categories db'.
Proof.
  intros Hw Hex Hp.
  destruct op; simpl in Hex;
    unfold Post_save, Post_findByIdAndUpdate, Post_findByIdAndDelete, Comment_save,
      Comment_findByIdAndUpdate, Comment_findByIdAndDelete in Hex;
    repeat case_match; simplify_eq; unfold postsOk; simpl;
    try done; try (by apply map_Forall_delete); apply map_Forall_insert_2; try done.
  destruct u; simpl in *; try done; by eapply (Hp id p).
Qed.

Lemma execOp_learns {R} (op : DbOp R) db r db' :
  execOp op db = (inr r, db') → postsOk categories db → learns op r.
Proof.
  destruct op; try done. simpl. intros [= <- <-] Hp p Hid. by eapply Hp.
Qed.

Lemma execOp_storeOk {R} (op : DbOp R) db r db' :
  writeOk op → execOp op db = (r, db') → storeOk db → storeOk db'.
Proof. intros ?? []. split; eauto using execOp_keysOk, execOp_postsOk. Qed.

(** ** One step of a thread *)

Lemma guarded_resume {A R} (op : DbOp R) (r : Exn + R) (k : R → Prog A) :
  (∀ r', r = inr r' → learns op r') → (∀ r', learns op r' → guarded (k r')) →
  guarded (resume r k).
Proof. destruct r as [e|r']; [done|]. intros Hl Hk. by apply Hk, Hl. Qed.

Lemma guarded_resume_all {A R} (r : Exn + R) (k : R → Prog A) :
  (∀ r', guarded (k r')) → guarded (resume r k).
Proof. destruct r; [done|]. intros Hk. apply Hk. Qed.

Lemma stepThread_storeOk {A} left (t t' : Thread A) db db' :
  guardedThread t → storeOk db → stepThread left t db = Some (t', db') →
  guardedThread t' ∧ storeOk db'.
Proof.
  destruct t as [[a|e|R op k|R1 R2 op1 op2 k]|R1 R2 r1 op2 k|R1 R2 op1 r2 k];
    cbn [guardedThread guarded stepThread]; try done.
  - intros [Hw Hk] Hs. destruct (execOp op db) as [r db1] eqn:Hop. intros [= <- <-].
    split; [|by eauto using execOp_storeOk].
    apply (guarded_resume op); [|done]. intros r' ->.
    eapply execOp_learns; [done|apply Hs].
  - intros (H1 & H2 & Hk) Hs.
    destruct left; [destruct (execOp op1 db) eqn:Hop|destruct (execOp op2 db) eqn:Hop];
      intros [= <- <-]; (split; [done|]); eauto using execOp_storeOk.
  - intros [H2 Hk] Hs. destruct (execOp op2 db) eqn:Hop. intros [= <- <-].
    split; [by apply guarded_resume_all|]. eauto using execOp_storeOk.
  - intros [H1 Hk] Hs. destruct (execOp op1 db) eqn:Hop. intros [= <- <-].
    split; [by apply guarded_resume_all|]. eauto using execOp_storeOk.
Qed.

(** What holds of a pool and a store at every moment. *)
Definition poolOk (cfg : Pool * DB) : Prop :=
  Forall guardedThread cfg.1 ∧ storeOk cfg.2.

Lemma poolStep_poolOk cfg cfg' : poolStep cfg cfg' → poolOk cfg → poolOk cfg'.
Proof.
  destruct cfg as [ts db], cfg' as [ts' db']. intros [ch Hstep] [Hg Hs].
  apply stepPool_inv in Hstep as (t & t' & Ht & Hstep & ->).
  destruct (stepThread_storeOk ch.2 t t' db db') as [Hg' Hs'];
    [by eapply (Forall_lookup_1 _ _ _ _ Hg)|done..|].
  split; [by apply Forall_insert|done].
Qed.

Lemma rtc_poolStep_poolOk cfg cfg' : rtc poolStep cfg cfg' → poolOk cfg → poolOk cfg'.
Proof. induction 1; eauto using poolStep_poolOk. Qed.

(** ** The handlers *)

Lemma guarded_Await {A R} (op : DbOp R) (k : R → Prog A) :
  writeOk op → (∀ r, learns op r → guarded (k r)) → guarded (Await op k).
Proof. done. Qed.

Lemma guarded_AwaitAll {A R1 R2} (op1 : DbOp R1) (op2 : DbOp R2) (k : R1 * R2 → Prog A) :
  writeOk op1 → writeOk op2 → (∀ r, guarded (k r)) → guarded (AwaitAll op1 op2 k).
Proof. done. Qed.

Lemma postNewPost_guarded env body : guarded (postNewPost categories env body).
Proof.
  destruct ((runChains (postNewPost_chains categories) body).2) as [|e l] eqn:He;
    [|rewrite postNewPost_rejected; [done|by rewrite He]].
  destruct (parseObjectId PLACEHOLDER_AUTHOR) as [author|] eqn:Ha;
    [|by rewrite postNewPost_no_author].
  rewrite (postNewPost_accepted _ _ _ author) by done.
  apply guarded_Await; [by apply newPostOf_postOk|done].
Qed.

Lemma editPost_guarded postID body : guarded (editPost categories postID body).
Proof.
  destruct (parseObjectId postID) as [id|] eqn:Hid;
    [|by rewrite editPost_invalid by (by apply isValid_false)].
  destruct ((runChains (editPost_chains categories) body).2) as [|e l] eqn:He;
    [|rewrite editPost_rejected; [done|by eapply isValid_parse|by rewrite He]].
  pose proof (λ p, editedPostOf_postOk categories body p He) as Hok.
  unfold editPost. destruct (editPost_values categories body) as (Ht & Hc & Hx & Hp).
  destruct (runChains _ _) as [body' errors]. simpl in He, Ht, Hc, Hx, Hp. subst errors.
  rewrite (isValid_parse _ _ Hid), (castObjectId_parse _ _ Hid).
  cbn [negb bool_decide decide_rel]. rewrite bool_decide_eq_true_2 by done.
  cbn [negb mbind Prog_bind bind await]. apply guarded_Await; [done|].
  intros [p|] Hl; [|done]. rewrite (postEditsOf_body body body' p Ht Hc Hx Hp).
  apply guarded_Await; [|done]. by apply (Hok p), Hl.
Qed.

End guarantee.

(** [guarded_steps] decomposes a goal [guarded p] along the structure of a
    program whose writes carry no obligation. *)
Ltac guarded_step :=
  lazymatch goal with
  | |- guarded _ (Ret _) => exact I
  | |- guarded _ (Throw _) => exact I
  | |- guarded _ (Await _ _) => apply guarded_Await; [exact I|intros ? _]
  | |- guarded _ (AwaitAll _ _ _) => apply guarded_AwaitAll; [exact I|exact I|intros [? ?]]
  | |- guarded _ (if ?b then _ else _) => destruct b eqn:?
  | |- guarded _ (match ?x with _ => _ end) => destruct x eqn:?
  | |- guarded _ (bind (match ?x with _ => _ end) _) => destruct x eqn:?
  | |- guarded _ (bind (bind (match ?x with _ => _ end) _) _) => destruct x eqn:?
  end.

Ltac guarded_steps :=
  unfold mbind, mret, Prog_bind, Prog_ret;
  repeat (try unfold castObjectId, newObjectId, filterKey, mbind, mret, Prog_bind, Prog_ret;
          cbn [bind await awaitAll]; guarded_step).

Section interleaved.
Context `{ObjectIdLib} `{ScriptTagRemover} (categories : list string).
Implicit Types (db : DB) (r : Request) (rs : list Request).

Lemma handler_guarded r : guarded categories (handler categories r).
Proof.
  destruct r; cbn [handler];
    [|  |apply postNewPost_guarded|apply editPost_guarded|..];
    unfold getAllPosts, getSpecificPost, publishPost, deletePost,
      getAllComments, getSpecificComment, postNewComment, editComment, deleteComment;
    guarded_steps.
Qed.

(** C18: keys and validation hold at every moment of every interleaving.
    From a store in which every document is under its own identifier and
    every post is as validation leaves one, whatever the requests and
    however their operations interleave, with no assumption on the
    identifiers that are generated: in every state of the store on the
    way, every document is under its own identifier and every post is as
    validation leaves one. *)
Theorem interleaved_store_ok rs db ts' db' :
  storeOk categories db →
  rtc poolStep (inFlight categories rs, db) (ts', db') →
  storeOk categories db'.
Proof.
  intros Hs Hsteps. apply (rtc_poolStep_poolOk categories _ _ Hsteps).
  split; [|done]. apply Forall_fmap, Forall_true. intros r. apply handler_guarded.
Qed.

End interleaved.

Lemma interleaved_store_ok_witness :
  ∃ ts' db',
    rtc poolStep (inFlight sampleCategories twoRequests, emptyDB) (ts', db') ∧
    quiescent ts' ∧ storeOk sampleCategories db'.
Proof.
  assert (runSchedule secondFirst (inFlight sampleCategories twoRequests, emptyDB)
          = Some ([Running (Ret (statusJson 404 (JErrorMessage DOES_NOT_EXIST)));
                   Running (Ret (statusJson 404 (JErrorMessage DOES_NOT_EXIST)))],
                  setComments (delete sampleCommentId) emptyDB)) as Hs by reflexivity.
  eexists _, _. split; [exact (runSchedule_rtc _ _ _ Hs)|].
  split; [by repeat constructor|].
  exact (interleaved_store_ok sampleCategories twoRequests emptyDB _ _
           (conj (conj (map_Forall_empty _) (map_Forall_empty _)) (map_Forall_empty _))
           (runSchedule_rtc _ _ _ Hs)).
Defined.
