(* ===== verification/Refinement.v ===== *)
(** * Refinement: every request is a transition

    The handlers of the two controllers refine the transition system of
    [Consistency]: whatever the request, the store the handler leaves is
    the store one [transition] leaves, and when the identifier generated
    for the request is fresh that transition is a regular one.  The
    invariants of [Consistency] therefore hold after any sequence of
    requests ([serveAll]) and in every reachable state.

    Freshness is what Mongoose's identifier generator provides and the
    handlers do not check: the identifier of a new comment is not the one
    of a stored comment, and the identifier of a new post is not yet
    referenced by a comment.  The examples at the end show the counters
    going wrong when it fails. *)

From S2P Require Import Prelude JsString Sanitizers Validator ScriptTags.
From S2P Require Import Chains ObjectId Store Program Posts Comments Api Consistency.

Section refinement.
Context `{ObjectIdLib} `{ScriptTagRemover} (categories : list string).
Implicit Types (db : DB) (r : Request) (rs : list Request) (id : ObjectId)
  (body : Body) (env : Env) (ch : Change).

(** The identifier generated for the request is fresh. *)
Definition freshRequest db r : Prop :=
  match r with
  | PostNewPost env _ => commentsOn (env_newId env) db = 0
  | PostNewComment env _ _ _ => comments db !! env_newId env = None
  | _ => True
  end.

(** The identifiers generated along a sequence of requests are fresh, each
    in the state its request is served in. *)
Fixpoint freshTrace rs db : Prop :=
  match rs with
  | [] => True
  | r :: rs => freshRequest db r ∧ freshTrace rs (serve categories r db).2
  end.

(** What a request may not change: the identity of the documents it
    leaves in the store. *)
Definition keepsIdentity db db' : Prop :=
  (∀ id p p', posts db !! id = Some p → posts db' !! id = Some p' → samePostIdentity p p') ∧
  (∀ id c c', comments db !! id = Some c → comments db' !! id = Some c' →
     sameCommentIdentity c c').

(** The states the API reaches from an empty store when generated
    identifiers are fresh. *)
Inductive reachable : DB → Prop :=
| reachable_initial db : posts db = ∅ → comments db = ∅ → reachable db
| reachable_serve db r :
    reachable db → freshRequest db r → reachable (serve categories r db).2.

(** The changes a request may make: none, or the change of its route to
    the document the request names.  A request that reads changes
    nothing; a creation stores a document under the identifier generated
    for the request; an edit, a publication or a deletion changes the
    document of the identifier in the path. *)
Definition allows r ch : Prop :=
  match ch, r with
  | Skip, _ => True
  | CreatePost p, PostNewPost env _ => post_id p = env_newId env
  | RevisePost id _, EditPost postID _
  | RevisePost id _, PublishPost postID _
  | RemovePost id, DeletePost postID => parseObjectId postID = Some id
  | CreateComment c, PostNewComment env postID _ _ =>
      comment_id c = env_newId env ∧ parseObjectId postID = Some (comment_post c)
  | StrayIncrement pid, PostNewComment _ postID _ _ => parseObjectId postID = Some pid
  | ReviseComment id _, EditComment commentID _
  | RemoveComment id, DeleteComment commentID => parseObjectId commentID = Some id
  | _, _ => False
  end.

(** The program [p], which serves the request [r], makes in [db] one
    transition that [r] allows, a regular one when [fresh] holds. *)
Definition refines {A} db (p : Prog A) r (fresh : Prop) : Prop :=
  ∃ ch, transition categories db ch (run p db).2 ∧ allows r ch ∧ (fresh → regular db ch).

Lemma refines_unchanged {A} db (p : Prog A) r fresh :
  (run p db).2 = db → refines db p r fresh.
Proof. intros Hdb. exists Skip. rewrite Hdb. split_and!; [constructor|done..]. Qed.

Lemma refines_Ret {A} db (p : Prog A) a r fresh : p = Ret a → refines db p r fresh.
Proof. intros ->. by apply refines_unchanged. Qed.

Lemma refines_Throw {A} db (p : Prog A) e r fresh : p = Throw e → refines db p r fresh.
Proof. intros ->. by apply refines_unchanged. Qed.

Lemma refines_run {A} ch db (p : Prog A) r fresh res db' :
  run p db = (res, db') → transition categories db ch db' → allows r ch →
  (fresh → regular db ch) → refines db p r fresh.
Proof. intros Hrun Ht Hr Hreg. exists ch. by rewrite Hrun. Qed.

(** *** The requests that read *)

Lemma get_refines r db : isGet r = true → refines db (handler categories r) r True.
Proof. intros Hr. by apply refines_unchanged, get_store. Qed.

(** *** The posts controller *)

Lemma postNewPost_refines env body db :
  refines db (postNewPost categories env body) (PostNewPost env body)
    (commentsOn (env_newId env) db = 0).
Proof.
  destruct ((runChains (postNewPost_chains categories) body).2) as [|e l] eqn:He;
    [|eapply refines_Ret, postNewPost_rejected; by rewrite He].
  destruct (parseObjectId PLACEHOLDER_AUTHOR) as [author|] eqn:Ha.
  - pose proof (postNewPost_run categories env body author db He Ha) as Hrun.
    destruct (posts db !! env_newId env) eqn:Hfresh;
      [apply refines_unchanged; by rewrite Hrun|].
    eapply (refines_run (CreatePost (newPostOf env author body))); [exact Hrun| |done..].
    apply (t_createPost _ _ (newPostOf env author body)); [done..|].
    by apply newPostOf_postOk.
  - by eapply refines_Throw, postNewPost_no_author.
Qed.

Lemma editPost_refines postID body db :
  refines db (editPost categories postID body) (EditPost postID body) True.
Proof.
  destruct (parseObjectId postID) as [id|] eqn:Hid;
    [|eapply refines_Ret, editPost_invalid; by apply isValid_false].
  destruct ((runChains (editPost_chains categories) body).2) as [|e l] eqn:He;
    [|eapply refines_Ret, editPost_rejected; [by eapply isValid_parse|by rewrite He]].
  pose proof (editPost_run categories postID id body db Hid He) as Hrun.
  destruct (posts db !! id) as [p|] eqn:Hp; [|apply refines_unchanged; by rewrite Hrun].
  eapply (refines_run (RevisePost id (editedPostOf body p))); [exact Hrun| |done..].
  apply (t_revisePost _ _ _ p); [done..|]. by apply editedPostOf_postOk.
Qed.

Lemma publishPost_refines postID publish db :
  refines db (publishPost postID publish) (PublishPost postID publish) True.
Proof.
  destruct (parseObjectId postID) as [id|] eqn:Hid; cycle 1.
  { eapply refines_Ret. apply isValid_false in Hid. unfold publishPost. by rewrite Hid. }
  destruct (decide (publish = Some "true" ∨ publish = Some "false")) as [Hq|Hq]; cycle 1.
  { eapply refines_Ret, publishPost_invalid_query; [by eapply isValid_parse|tauto..]. }
  assert (∃ b : bool, publish = Some (if b then "true" else "false")) as [b ->].
  { destruct Hq; [by exists true|by exists false]. }
  pose proof (publishPost_run postID id b db Hid) as Hrun.
  destruct (posts db !! id) as [p|] eqn:Hp; [|apply refines_unchanged; by rewrite Hrun].
  eapply (refines_run (RevisePost id _)); [exact Hrun| |done..].
  by apply (t_revisePost _ _ _ p).
Qed.

Lemma deletePost_refines postID db :
  refines db (deletePost postID) (DeletePost postID) True.
Proof.
  destruct (parseObjectId postID) as [id|] eqn:Hid.
  - eapply (refines_run (RemovePost id)); [by apply (deletePost_run _ id)| |done..].
    apply t_removePost.
  - apply refines_unchanged. apply isValid_false in Hid. unfold deletePost. by rewrite Hid.
Qed.

(** *** The comments controller *)

(** [postNewComment] throws before its first operation when an identifier
    is malformed. *)
Lemma postNewComment_throws env postID commenterID body :
  (runChains postNewComment_chains body).2 = [] →
  commenterOf env commenterID = None ∨ parseObjectId postID = None →
  postNewComment env postID commenterID body = Throw BSONError.
Proof.
  intros He Hbad. unfold postNewComment.
  destruct (runChains _ _) as [body' errors]. simpl in He. subst errors.
  rewrite bool_decide_eq_true_2 by done. cbn [negb].
  rewrite (newObjectId_commenterOf env commenterID).
  destruct (commenterOf env commenterID) as [commenter|]; [|done].
  destruct Hbad as [|Hp]; [done|]. cbn [from_option mbind Prog_bind bind].
  unfold newObjectId. by rewrite Hp.
Qed.

Lemma postNewComment_refines env postID commenterID body db :
  refines db (postNewComment env postID commenterID body)
    (PostNewComment env postID commenterID body) (comments db !! env_newId env = None).
Proof.
  destruct ((runChains postNewComment_chains body).2) as [|e l] eqn:He;
    [|eapply refines_Ret, postNewComment_rejected; by rewrite He].
  destruct (commenterOf env commenterID) as [commenter|] eqn:Hc;
    [|eapply refines_Throw, postNewComment_throws; auto].
  destruct (parseObjectId postID) as [pid|] eqn:Hp;
    [|eapply refines_Throw, postNewComment_throws; auto].
  pose proof (postNewComment_run env postID commenterID body commenter pid db He Hc Hp)
    as Hrun. cbv zeta in Hrun.
  destruct (comments db !! env_newId env) eqn:Hfresh.
  { eapply (refines_run (StrayIncrement pid)); [exact Hrun|constructor|done..]. }
  set (c := newCommentOf env commenter pid body) in *.
  destruct (posts db !! pid) eqn:Hpost;
    (eapply (refines_run (CreateComment c)); [exact Hrun| |done..]).
  - by apply (t_createComment _ _ c).
  - rewrite <-(incCommentCount_absent 1 pid (setComments _ db)) by done.
    by apply (t_createComment _ _ c).
Qed.

Lemma editComment_refines commentID body db :
  refines db (editComment commentID body) (EditComment commentID body) True.
Proof.
  destruct (parseObjectId commentID) as [id|] eqn:Hid;
    [|eapply refines_Ret, editComment_invalid; by apply isValid_false].
  destruct ((runChains editComment_chains body).2) as [|e l] eqn:He;
    [|eapply refines_Ret, editComment_rejected; [by eapply isValid_parse|by rewrite He]].
  pose proof (editComment_run commentID id body db Hid He) as Hrun.
  destruct (comments db !! id) as [c|] eqn:Hc; [|apply refines_unchanged; by rewrite Hrun].
  eapply (refines_run (ReviseComment id (editedCommentOf body c))); [exact Hrun| |done..].
  by apply (t_reviseComment _ _ _ c).
Qed.

Lemma deleteComment_refines commentID db :
  refines db (deleteComment commentID) (DeleteComment commentID) True.
Proof.
  destruct (parseObjectId commentID) as [id|] eqn:Hid; cycle 1.
  { apply refines_unchanged. apply isValid_false in Hid. unfold deleteComment.
    by rewrite Hid. }
  pose proof (deleteComment_run commentID id db Hid) as Hrun.
  destruct (comments db !! id) as [c|] eqn:Hc; [|apply refines_unchanged; by rewrite Hrun].
  eapply (refines_run (RemoveComment id)); [exact Hrun| |done..]. by constructor.
Qed.

(** *** Every request *)

Lemma handler_refines r db : refines db (handler categories r) r (freshRequest db r).
Proof.
  destruct (isGet r) eqn:Hr; [destruct r; try done; by apply get_refines|].
  destruct r; try done; simpl;
    auto using postNewPost_refines, editPost_refines, publishPost_refines,
      deletePost_refines, postNewComment_refines, editComment_refines,
      deleteComment_refines.
Qed.

Lemma serve_transition r db :
  ∃ ch, transition categories db ch (serve categories r db).2 ∧ allows r ch ∧
        (freshRequest db r → regular db ch).
Proof. rewrite serve_store. apply handler_refines. Qed.

Lemma serve_regularStep r db :
  freshRequest db r → regularStep categories db (serve categories r db).2.
Proof.
  intros Hf. destruct (serve_transition r db) as (ch & Ht & _ & Hreg). exists ch. auto.
Qed.

Lemma serveAll_rtc rs db :
  freshTrace rs db → rtc (regularStep categories) db (serveAll categories rs db).2.
Proof.
  revert db. induction rs as [|r rs IH]; intros db; [done|].
  intros [Hr Hrs]. rewrite serveAll_cons.
  eapply rtc_l; [by apply serve_regularStep|by apply IH].
Qed.

End refinement.

(** ** Theorems on the API *)

Section api_theorems.
Context `{ObjectIdLib} `{ScriptTagRemover} (categories : list string).
Implicit Types (db : DB) (r : Request) (rs : list Request) (id : ObjectId)
  (p : PostModel) (c : CommentModel).

(** C5: refinement.  Whatever the request and the state of the store, the
    store the handler leaves is the one a transition of the abstract system
    leaves; the transition is one the request allows, that is no change or
    the change of its route to the document the request names; and it is
    regular when the identifier generated for the request is fresh. *)
Theorem api_refines_transitions r db :
  ∃ ch, transition categories db ch (serve categories r db).2 ∧ allows r ch ∧
        (freshRequest db r → regular db ch).
Proof. apply serve_transition. Qed.

(** C1: counter consistency.  From a state in which every stored post's
    [commentCount] is the number of stored comments that reference it, any
    sequence of requests whose generated identifiers are fresh leads to
    such a state; documents stay under their own identifiers and stored
    posts stay validated. *)
Theorem consistent_after_requests rs db :
  consistent categories db → freshTrace categories rs db →
  consistent categories (serveAll categories rs db).2.
Proof. intros Hdb Hrs. eapply consistent_rtc; [by apply serveAll_rtc|done]. Qed.

(** Every state the API reaches from an empty store, generated
    identifiers being fresh, is consistent. *)
Theorem reachable_consistent db : reachable categories db → consistent categories db.
Proof.
  induction 1 as [db Hp Hc|db r _ IH Hr]; [by apply consistent_initial|].
  eapply consistent_step; [by apply serve_regularStep|done].
Qed.

(** Without any assumption on the generated identifiers, no sequence of
    requests stores a document under an identifier that is not its own, or
    a post that validation would not let through. *)
Theorem stored_posts_validated rs db :
  keysOk db → postsOk categories db →
  keysOk (serveAll categories rs db).2 ∧ postsOk categories (serveAll categories rs db).2.
Proof.
  revert db. induction rs as [|r rs IH]; intros db Hk Hp; [done|].
  rewrite serveAll_cons. destruct (serve_transition categories r db) as (ch & Ht & _).
  apply IH; [by eapply keysOk_transition|by eapply postsOk_transition].
Qed.

(** C16: no request changes the identifier, the author or the timestamp of a
    post that it leaves in the store, nor the identifier, the commenter,
    the post, the timestamp or the replies of a comment. *)
Theorem request_keeps_identity r db : keepsIdentity db (serve categories r db).2.
Proof.
  destruct (serve_transition categories r db) as (ch & Ht & _).
  split; intros id x x'.
  - by apply (transition_post_identity categories db ch).
  - by apply (transition_comment_identity categories db ch).
Qed.

(** C19: the counters depend on freshness.  A comment posted on an
    identifier that is not a post's is answered 500 and stored; a post
    created afterwards under that identifier starts with a counter of zero
    although one comment references it, and the counters are wrong.  The
    identifier of the comment was free: what is not fresh in the trace is
    the identifier of the post, which is unused and referenced. *)
Theorem orphan_breaks_counter env env' postID commenterID body body' commenter author db :
  (runChains postNewComment_chains body).2 = [] →
  commenterOf env commenterID = Some commenter →
  parseObjectId postID = Some (env_newId env') →
  (runChains (postNewPost_chains categories) body').2 = [] →
  parseObjectId PLACEHOLDER_AUTHOR = Some author →
  posts db !! env_newId env' = None → comments db !! env_newId env = None →
  let requests := [PostNewComment env postID commenterID body; PostNewPost env' body'] in
  let result := serveAll categories requests db in
  statusOf <$> result.1 = [Some 500; Some 200] ∧ ¬ countersOk result.2 ∧
  freshRequest db (PostNewComment env postID commenterID body) ∧
  ¬ freshTrace categories requests db.
Proof.
  intros He Hc Hp He' Ha Hpost Hfresh. cbn [serveAll freshTrace freshRequest].
  pose proof (postNewComment_run env postID commenterID body commenter _ db He Hc Hp)
    as Hrun. cbv zeta in Hrun. rewrite Hfresh, Hpost in Hrun.
  rewrite (serve_sent _ (PostNewComment _ _ _ _) _ _ _ Hrun).
  set (c := newCommentOf env commenter (env_newId env') body).
  pose proof (postNewPost_run categories env' body' author
                (setComments <[env_newId env := c]> db) He' Ha) as Hrun'.
  cbn [posts setComments] in Hrun'. rewrite Hpost in Hrun'.
  rewrite (serve_sent _ (PostNewPost _ _) _ _ _ Hrun').
  assert (commentsOn (env_newId env') (setComments <[env_newId env := c]> db)
          = S (commentsOn (env_newId env') db)) as Hone
    by (rewrite (commentsOn_created c) by done; by rewrite decide_True).
  split_and!; [done| |done|].
  - intros Hn. specialize (Hn (env_newId env') _ (lookup_insert_eq _ _ _)).
    cbn beta iota delta [snd] in Hn. rewrite commentsOn_setPosts, Hone in Hn.
    simpl in Hn. lia.
  - intros (_ & Hz & _). cbn [snd] in Hz. by rewrite Hone in Hz.
Qed.

(** C20: the counters depend on the freshness of the comment's identifier as
    well.  When the identifier generated for a comment is already a
    comment's, the save is rejected and the request fails, but the update of
    the post's counter, composed with it by [Promise.all], has run: no
    comment was stored and the counter counts one more. *)
Theorem duplicate_breaks_counter env postID commenterID body commenter pid p c db :
  (runChains postNewComment_chains body).2 = [] →
  commenterOf env commenterID = Some commenter →
  parseObjectId postID = Some pid →
  comments db !! env_newId env = Some c → posts db !! pid = Some p →
  countersOk db →
  let request := PostNewComment env postID commenterID body in
  let result := serve categories request db in
  result.1 = Failed DuplicateKey ∧ comments result.2 = comments db ∧
  (post_commentCount <$> posts result.2 !! pid) = Some (post_commentCount p + 1)%Z ∧
  ¬ countersOk result.2 ∧ ¬ freshRequest db request.
Proof.
  intros He Hc Hp Hdup Hpost Hok request result.
  pose proof (postNewComment_run env postID commenterID body commenter _ db He Hc Hp)
    as Hrun. cbv zeta in Hrun. rewrite Hdup in Hrun.
  unfold result, request. rewrite (serve_failed _ (PostNewComment _ _ _ _) _ _ _ Hrun).
  cbn [fst snd freshRequest].
  assert ((post_commentCount <$> posts (incCommentCount 1 pid db) !! pid)
          = Some (post_commentCount p + 1)%Z) as Hcount
    by (by rewrite lookup_incCommentCount, decide_True, Hpost).
  split_and!; [done|by rewrite incCommentCount_alter|done| |by rewrite Hdup].
  intros Hn. destruct (posts (incCommentCount 1 pid db) !! pid) as [p'|] eqn:Hp'; [|done].
  specialize (Hn pid p' Hp'). specialize (Hok pid p Hpost). cbn beta in Hn, Hok.
  rewrite commentsOn_incCommentCount in Hn. simpl in Hcount. simplify_eq. lia.
Qed.

End api_theorems.

(** ** Concrete runs *)

(** A post is created, commented on, and the comment is deleted. *)
Definition sampleTrace : list (@Request hex24) :=
  [PostNewPost sampleEnv sampleBody;
   PostNewComment sampleCommentEnv sampleId (Some sampleReader) sampleCommentBody;
   DeleteComment sampleCommentId].

Lemma consistent_after_requests_witness :
  consistent sampleCategories (serveAll sampleCategories sampleTrace emptyDB).2.
Proof.
  apply (consistent_after_requests sampleCategories sampleTrace emptyDB).
  - by apply consistent_initial.
  - repeat split; reflexivity.
Defined.

Lemma reachable_consistent_witness :
  consistent sampleCategories
    (serve sampleCategories (PostNewPost sampleEnv sampleBody) emptyDB).2.
Proof.
  apply reachable_consistent, reachable_serve; [by apply reachable_initial|reflexivity].
Defined.

Lemma stored_posts_validated_witness :
  keysOk (serveAll sampleCategories sampleTrace emptyDB).2 ∧
  postsOk sampleCategories (serveAll sampleCategories sampleTrace emptyDB).2.
Proof.
  apply (stored_posts_validated sampleCategories sampleTrace emptyDB).
  - split; apply map_Forall_empty.
  - apply map_Forall_empty.
Defined.


(** A comment is posted on an identifier that is not yet a post's, and a
    post is then created under that very identifier. *)
Lemma orphan_breaks_counter_witness :
  let requests :=
    [PostNewComment sampleCommentEnv sampleId (Some sampleReader) sampleCommentBody;
     PostNewPost sampleEnv sampleBody] in
  let result := serveAll sampleCategories requests emptyDB in
  statusOf <$> result.1 = [Some 500; Some 200] ∧ ¬ countersOk result.2 ∧
  freshRequest emptyDB
    (PostNewComment sampleCommentEnv sampleId (Some sampleReader) sampleCommentBody) ∧
  ¬ freshTrace sampleCategories requests emptyDB.
Proof.
  exact (orphan_breaks_counter sampleCategories sampleCommentEnv sampleEnv sampleId
           (Some sampleReader) sampleCommentBody sampleBody sampleReader
           PLACEHOLDER_AUTHOR emptyDB eq_refl eq_refl eq_refl eq_refl eq_refl eq_refl
           eq_refl).
Defined.

(** The comment of [sampleTrace] is posted a second time under the
    identifier it was stored with. *)
Lemma duplicate_breaks_counter_witness :
  let db := (serveAll sampleCategories (take 2 sampleTrace) emptyDB).2 in
  let request :=
    PostNewComment sampleCommentEnv sampleId (Some sampleReader) sampleCommentBody in
  let result := serve sampleCategories request db in
  result.1 = Failed DuplicateKey ∧ comments result.2 = comments db ∧
  (post_commentCount <$> posts result.2 !! sampleId) = Some 2%Z ∧
  ¬ countersOk result.2 ∧ ¬ freshRequest db request.
Proof.
  intros db.
  apply (duplicate_breaks_counter sampleCategories sampleCommentEnv sampleId
           (Some sampleReader) sampleCommentBody sampleReader sampleId
           (applyPostUpdate (IncCommentCount 1) samplePost) sampleComment db
           eq_refl eq_refl eq_refl eq_refl eq_refl).
  apply (consistent_after_requests sampleCategories (take 2 sampleTrace) emptyDB).
  - by apply consistent_initial.
  - repeat split; reflexivity.
Defined.
