(* ===== verification/Frame.v ===== *)
(** * Frame: what a request leaves alone, and how much it adds

    The refinement of [Refinement] says which change each request makes:
    the one [allows] names, to the document the request names.  Two
    consequences are drawn here.  A request leaves every other document as
    it is: every comment but its target ([commentTarget]) and every post
    but its target ([postTarget]), the post of a comment that is created
    or deleted being a target because its counter moves.  And a sequence of
    requests adds at most one post for each [postNewPost] and one comment
    for each [postNewComment] it holds, and removes at most one document
    for each deletion: no handler stores or deletes twice. *)

From S2P Require Import Prelude JsString Sanitizers Validator ScriptTags.
From S2P Require Import Chains ObjectId Store Program Posts Comments Api Consistency.
From S2P Require Import Refinement.

Section frame.
Context `{ObjectIdLib} `{ScriptTagRemover} (categories : list string).
Implicit Types (db : DB) (r : Request) (rs : list Request) (id pid : ObjectId)
  (ch : Change).

(** The comment a request names: the one it creates under the identifier
    generated for it, or the one of the path. *)
Definition commentTarget r : option ObjectId :=
  match r with
  | PostNewComment env _ _ _ => Some (env_newId env)
  | EditComment commentID _ | DeleteComment commentID => parseObjectId commentID
  | _ => None
  end.

(** The post a request names: the one it creates, the one of the path,
    or the post of the comment it deletes. *)
Definition postTarget db r : option ObjectId :=
  match r with
  | PostNewPost env _ => Some (env_newId env)
  | EditPost postID _ | PublishPost postID _ | DeletePost postID
  | PostNewComment _ postID _ _ => parseObjectId postID
  | DeleteComment commentID =>
      comment_post <$> (parseObjectId commentID ≫= λ id, comments db !! id)
  | _ => None
  end.

(** The requests of each kind in a sequence. *)
Definition howMany (kind : Request → bool) rs : nat := length (List.filter kind rs).

Definition isPostNewPost r : bool := if r is PostNewPost _ _ then true else false.
Definition isDeletePost r : bool := if r is DeletePost _ then true else false.
Definition isPostNewComment r : bool := if r is PostNewComment _ _ _ _ then true else false.
Definition isDeleteComment r : bool := if r is DeleteComment _ then true else false.

(** ** The documents a change touches *)

Definition changedComment ch : option ObjectId :=
  match ch with
  | CreateComment c => Some (comment_id c)
  | ReviseComment id _ | RemoveComment id => Some id
  | _ => None
  end.

Definition changedPost db ch : option ObjectId :=
  match ch with
  | CreatePost p => Some (post_id p)
  | RevisePost id _ | RemovePost id | StrayIncrement id => Some id
  | CreateComment c => Some (comment_post c)
  | RemoveComment id => comment_post <$> comments db !! id
  | _ => None
  end.

Lemma posts_incCommentCount_ne n pid db id :
  pid ≠ id → posts (incCommentCount n pid db) !! id = posts db !! id.
Proof.
  intros Hne. rewrite lookup_incCommentCount, decide_False by done.
  by destruct (posts db !! id).
Qed.

Lemma transition_comments db ch db' id :
  transition categories db ch db' → changedComment ch ≠ Some id →
  comments db' !! id = comments db !! id.
Proof.
  destruct 1; cbn [changedComment]; intros Hne; rewrite ?comments_incCommentCount;
    cbn [comments setPosts setComments]; try done;
    (rewrite lookup_insert_ne || rewrite lookup_delete_ne); congruence.
Qed.

Lemma transition_posts db ch db' id :
  transition categories db ch db' → changedPost db ch ≠ Some id →
  posts db' !! id = posts db !! id.
Proof.
  destruct 1 as [| | | | | |db cid c Hc|]; cbn [changedPost]; rewrite ?Hc;
    cbn [fmap option_fmap option_map]; intros Hne;
    rewrite ?posts_incCommentCount_ne by congruence;
    cbn [posts setPosts setComments]; try done;
    first [rewrite lookup_insert_ne by congruence|rewrite lookup_delete_ne by congruence];
    done.
Qed.

(** The change a request is allowed touches the targets of the request. *)
Lemma allows_changedComment r ch id :
  allows r ch → changedComment ch = Some id → commentTarget r = Some id.
Proof. destruct ch, r; cbn; try done; intros; destruct_and?; congruence. Qed.

Lemma allows_changedPost db r ch id :
  allows r ch → changedPost db ch = Some id → postTarget db r = Some id.
Proof.
  destruct ch, r; cbn; try done; intros; destruct_and?; simplify_option_eq; congruence.
Qed.

(** ** The size of the collections *)

Lemma size_insert_bounds {A} (m : gmap ObjectId A) id x :
  size m ≤ size (<[id := x]> m) ≤ S (size m).
Proof. rewrite map_size_insert. destruct (m !! id); simpl; lia. Qed.

Lemma size_delete_bounds {A} (m : gmap ObjectId A) id :
  size (delete id m) ≤ size m ≤ S (size (delete id m)).
Proof.
  destruct (m !! id) as [x|] eqn:Hx; [|rewrite delete_id by done; lia].
  rewrite <-(insert_delete_id m id x Hx) at 2 3.
  rewrite map_size_insert_None by apply lookup_delete_eq. lia.
Qed.

Lemma size_posts_incCommentCount n pid db :
  size (posts (incCommentCount n pid db)) = size (posts db).
Proof.
  rewrite incCommentCount_alter. cbn [posts setPosts].
  by rewrite <-!size_dom, dom_alter_L.
Qed.

(** One transition adds one document at most, when it creates one, and
    removes one at most, when it removes one. *)
Lemma transition_size db ch db' :
  transition categories db ch db' →
  size (posts db') ≤ size (posts db) + (if ch is CreatePost _ then 1 else 0) ∧
  size (posts db) ≤ size (posts db') + (if ch is RemovePost _ then 1 else 0) ∧
  size (comments db') ≤ size (comments db) + (if ch is CreateComment _ then 1 else 0) ∧
  size (comments db) ≤ size (comments db') + (if ch is RemoveComment _ then 1 else 0).
Proof.
  destruct 1 as [|db p Hp| |db id| | |db id|];
    rewrite ?size_posts_incCommentCount, ?comments_incCommentCount;
    cbn [posts comments setPosts setComments];
    rewrite ?map_size_insert_Some, ?map_size_insert_None by done;
    try pose proof (size_insert_bounds (posts db) (post_id p) p);
    try pose proof (size_delete_bounds (posts db) id);
    try pose proof (size_delete_bounds (comments db) id); lia.
Qed.

Lemma allows_kind r ch :
  allows r ch →
  ((if ch is CreatePost _ then 1 else 0) ≤ (if isPostNewPost r then 1 else 0)) ∧
  ((if ch is RemovePost _ then 1 else 0) ≤ (if isDeletePost r then 1 else 0)) ∧
  ((if ch is CreateComment _ then 1 else 0) ≤ (if isPostNewComment r then 1 else 0)) ∧
  ((if ch is RemoveComment _ then 1 else 0) ≤ (if isDeleteComment r then 1 else 0)).
Proof. destruct ch, r; cbn; try done; intros; lia. Qed.

Lemma howMany_cons kind r rs :
  howMany kind (r :: rs) = (if kind r then 1 else 0) + howMany kind rs.
Proof. unfold howMany. cbn [List.filter]. by destruct (kind r). Qed.

Lemma serve_size r db :
  let db' := (serve categories r db).2 in
  size (posts db') ≤ size (posts db) + (if isPostNewPost r then 1 else 0) ∧
  size (posts db) ≤ size (posts db') + (if isDeletePost r then 1 else 0) ∧
  size (comments db') ≤ size (comments db) + (if isPostNewComment r then 1 else 0) ∧
  size (comments db) ≤ size (comments db') + (if isDeleteComment r then 1 else 0).
Proof.
  destruct (serve_transition categories r db) as (ch & Ht & Hr & _).
  pose proof (transition_size _ _ _ Ht). pose proof (allows_kind _ _ Hr). cbv zeta. lia.
Qed.

(** ** Theorems *)

(** C17: a request changes its targets only.  Whatever the request and the
    store, every comment but the one the request names, and every post but
    the one it names, is after the request what it was before: present with
    the same fields, or absent. *)
Theorem request_frame r db id :
  let db' := (serve categories r db).2 in
  (commentTarget r ≠ Some id → comments db' !! id = comments db !! id) ∧
  (postTarget db r ≠ Some id → posts db' !! id = posts db !! id).
Proof.
  destruct (serve_transition categories r db) as (ch & Ht & Hr & _).
  split; intros Hne.
  - apply (transition_comments _ _ _ _ Ht). intros Hch.
    by apply Hne, (allows_changedComment r ch).
  - apply (transition_posts _ _ _ _ Ht). intros Hch.
    by apply Hne, (allows_changedPost db r ch).
Qed.

(** C27: the collections grow and shrink with the requests.  A sequence of
    requests leaves at most one post more for each [postNewPost] it holds
    and one comment more for each [postNewComment], and at most one post
    less for each [deletePost] and one comment less for each
    [deleteComment]. *)
Theorem store_growth rs db :
  let db' := (serveAll categories rs db).2 in
  size (posts db') ≤ size (posts db) + howMany isPostNewPost rs ∧
  size (posts db) ≤ size (posts db') + howMany isDeletePost rs ∧
  size (comments db') ≤ size (comments db) + howMany isPostNewComment rs ∧
  size (comments db) ≤ size (comments db') + howMany isDeleteComment rs.
Proof.
  revert db. induction rs as [|r rs IH]; intros db; [cbn; lia|].
  rewrite serveAll_cons, !howMany_cons. cbv zeta.
  pose proof (serve_size r db). specialize (IH (serve categories r db).2).
  cbv zeta in *. lia.
Qed.

End frame.

(** ** Concrete runs *)

(** The comment of [sampleDB1] is deleted: the documents under another
    identifier are as they were. *)
Lemma request_frame_witness :
  let db' := (serve sampleCategories (DeleteComment sampleCommentId) sampleDB1).2 in
  comments db' !! sampleReader = comments sampleDB1 !! sampleReader ∧
  posts db' !! sampleReader = posts sampleDB1 !! sampleReader.
Proof.
  destruct (request_frame sampleCategories (DeleteComment sampleCommentId) sampleDB1
              sampleReader) as [Hc Hp].
  split; [apply Hc|apply Hp]; discriminate.
Defined.

(** [sampleTrace] creates a post and a comment and deletes the comment. *)
Lemma store_growth_witness :
  let db' := (serveAll sampleCategories sampleTrace emptyDB).2 in
  size (posts db') ≤ 1 ∧ 0 ≤ size (posts db') + 0 ∧
  size (comments db') ≤ 1 ∧ 0 ≤ size (comments db') + 1.
Proof. exact (store_growth sampleCategories sampleTrace emptyDB). Defined.
