(* ===== verification/Idempotence.v ===== *)
(** * Idempotence: a request sent again

    A client that does not see the answer to a request sends the request
    again.  HTTP promises that this is harmless for every method but POST.
    The handlers keep that promise on the store: a [GET], [PUT], [PATCH] or
    [DELETE] request served a second time, right after the first, leaves
    the store the first one left, and all but [DELETE] answer again what
    they answered.  An edit is idempotent because [editPost] and
    [editComment] compute every field they write from the body or from a
    field they do not change; a deletion, because [deleteComment]
    decrements the counter only when it has found the comment.  The two
    [POST] requests are not: sent again, with the new identifier every
    request gets, [postNewPost] stores the post a second time. *)

From S2P Require Import Prelude JsString Sanitizers Validator ScriptTags.
From S2P Require Import Chains ObjectId Store Program Posts Comments Api Consistency.
From S2P Require Import Refinement.

Section idempotence.
Context `{ObjectIdLib} `{ScriptTagRemover} (categories : list string).
Implicit Types (db : DB) (r : Request) (id : ObjectId) (body : Body) (p : PostModel)
  (c : CommentModel) (env : Env).

(** The requests of the methods HTTP takes to be idempotent: all but the
    two [POST]. *)
Definition isIdempotent r : bool :=
  match r with
  | PostNewPost _ _ | PostNewComment _ _ _ _ => false
  | _ => true
  end.

(** The requests that also answer the same when they are sent again:
    [GET], [PUT] and [PATCH]. *)
Definition answersAgain r : bool :=
  match r with
  | DeletePost _ | DeleteComment _ => false
  | _ => isIdempotent r
  end.

(** The program run again on the store it left changes nothing more. *)
Definition settled {A} (prog : Prog A) db : Prop :=
  (run prog (run prog db).2).2 = (run prog db).2.

(** The program run again on the store it left does what it did. *)
Definition repeats {A} (prog : Prog A) db : Prop :=
  run prog (run prog db).2 = run prog db.

Lemma repeats_settled {A} (prog : Prog A) db : repeats prog db → settled prog db.
Proof. unfold repeats, settled. by intros ->. Qed.

Lemma repeats_unchanged {A} (prog : Prog A) db : (run prog db).2 = db → repeats prog db.
Proof. unfold repeats. by intros ->. Qed.

Lemma repeats_Ret {A} (prog : Prog A) a db : prog = Ret a → repeats prog db.
Proof. by intros ->. Qed.

(** What is run again when the first run wrote: the second run on the
    store the first one left. *)
Lemma repeats_run {A} (prog : Prog A) db res db' :
  run prog db = (res, db') → run prog db' = (res, db') → repeats prog db.
Proof. unfold repeats. intros -> Hagain. cbn [snd]. by rewrite Hagain. Qed.

Lemma settled_run {A} (prog : Prog A) db res res' db' :
  run prog db = (res, db') → run prog db' = (res', db') → settled prog db.
Proof. unfold settled. intros -> Hagain. cbn [snd]. by rewrite Hagain. Qed.

(** ** Edits applied twice *)

Lemma editedPostOf_again body p : editedPostOf body (editedPostOf body p) = editedPostOf body p.
Proof.
  unfold editedPostOf, postEditsOf. cbn.
  by destruct (body !! "title"), (body !! "category"), (body !! "text"),
    (body !! "isPublished").
Qed.

Lemma editedCommentOf_again body c :
  editedCommentOf body (editedCommentOf body c) = editedCommentOf body c.
Proof. done. Qed.

Lemma published_again (b : bool) p :
  applyPostUpdate (SetIsPublished b) (applyPostUpdate (SetIsPublished b) p)
  = applyPostUpdate (SetIsPublished b) p.
Proof. done. Qed.

Lemma setPosts_insert_again id p db :
  setPosts <[id := p]> (setPosts <[id := p]> db) = setPosts <[id := p]> db.
Proof. unfold setPosts. cbn. by rewrite insert_insert_eq. Qed.

Lemma setComments_insert_again id c db :
  setComments <[id := c]> (setComments <[id := c]> db) = setComments <[id := c]> db.
Proof. unfold setComments. cbn. by rewrite insert_insert_eq. Qed.

(** ** The handlers that write *)

Lemma editPost_repeats postID body db : repeats (editPost categories postID body) db.
Proof.
  destruct (parseObjectId postID) as [id|] eqn:Hid;
    [|eapply repeats_Ret, editPost_invalid; by apply isValid_false].
  destruct ((runChains (editPost_chains categories) body).2) as [|e l] eqn:He;
    [|eapply repeats_Ret, editPost_rejected; [by eapply isValid_parse|by rewrite He]].
  pose proof (editPost_run categories postID id body) as Hrun.
  destruct (posts db !! id) as [p|] eqn:Hp;
    [|apply repeats_unchanged; by rewrite Hrun, Hp].
  eapply repeats_run; [by rewrite Hrun, Hp|].
  rewrite Hrun by done. cbn [posts setPosts]. rewrite lookup_insert_eq.
  by rewrite editedPostOf_again, setPosts_insert_again.
Qed.

Lemma publishPost_repeats postID publish db : repeats (publishPost postID publish) db.
Proof.
  destruct (parseObjectId postID) as [id|] eqn:Hid; cycle 1.
  { eapply repeats_Ret. apply isValid_false in Hid. unfold publishPost. by rewrite Hid. }
  destruct (decide (publish = Some "true" ∨ publish = Some "false")) as [Hq|Hq]; cycle 1.
  { eapply repeats_Ret, publishPost_invalid_query; [by eapply isValid_parse|tauto..]. }
  assert (∃ b : bool, publish = Some (if b then "true" else "false")) as [b ->].
  { destruct Hq; [by exists true|by exists false]. }
  pose proof (publishPost_run postID id b) as Hrun.
  destruct (posts db !! id) as [p|] eqn:Hp;
    [|apply repeats_unchanged; by rewrite Hrun, Hp].
  eapply repeats_run; [by rewrite Hrun, Hp|].
  rewrite Hrun by done. cbn [posts setPosts]. rewrite lookup_insert_eq.
  by rewrite published_again, setPosts_insert_again.
Qed.

Lemma editComment_repeats commentID body db : repeats (editComment commentID body) db.
Proof.
  destruct (parseObjectId commentID) as [id|] eqn:Hid;
    [|eapply repeats_Ret, editComment_invalid; by apply isValid_false].
  destruct ((runChains editComment_chains body).2) as [|e l] eqn:He;
    [|eapply repeats_Ret, editComment_rejected; [by eapply isValid_parse|by rewrite He]].
  pose proof (editComment_run commentID id body) as Hrun.
  destruct (comments db !! id) as [c|] eqn:Hc;
    [|apply repeats_unchanged; by rewrite Hrun, Hc].
  eapply repeats_run; [by rewrite Hrun, Hc|].
  rewrite Hrun by done. cbn [comments setComments]. rewrite lookup_insert_eq.
  by rewrite editedCommentOf_again, setComments_insert_again.
Qed.

Lemma deletePost_settled postID db : settled (deletePost postID) db.
Proof.
  destruct (parseObjectId postID) as [id|] eqn:Hid.
  - eapply settled_run; [by apply (deletePost_run _ id)|].
    rewrite (deletePost_run _ id) by done. f_equal.
    unfold setPosts. cbn. by rewrite delete_delete_eq.
  - apply repeats_settled. eapply repeats_Ret.
    apply isValid_false in Hid. unfold deletePost. by rewrite Hid.
Qed.

Lemma deleteComment_settled commentID db : settled (deleteComment commentID) db.
Proof.
  destruct (parseObjectId commentID) as [id|] eqn:Hid; cycle 1.
  { apply repeats_settled. eapply repeats_Ret.
    apply isValid_false in Hid. unfold deleteComment. by rewrite Hid. }
  pose proof (deleteComment_run commentID id) as Hrun.
  destruct (comments db !! id) as [c|] eqn:Hc;
    [|apply repeats_settled, repeats_unchanged; by rewrite Hrun, Hc].
  eapply settled_run; [by rewrite Hrun, Hc|].
  rewrite Hrun by done. rewrite incCommentCount_alter. cbn [comments setPosts setComments].
  by rewrite lookup_delete_eq.
Qed.

Lemma get_repeats r db : isGet r = true → repeats (handler categories r) db.
Proof. intros Hr. by apply repeats_unchanged, get_store. Qed.

(** ** The requests *)

Lemma handler_repeats r db : answersAgain r = true → repeats (handler categories r) db.
Proof.
  destruct r; try done; intros _;
    first [ by apply get_repeats | apply editPost_repeats | apply publishPost_repeats
          | apply editComment_repeats ].
Qed.

Lemma handler_settled r db : isIdempotent r = true → settled (handler categories r) db.
Proof.
  destruct r; try done; intros _;
    first [ apply deletePost_settled | apply deleteComment_settled
          | by apply repeats_settled, handler_repeats ].
Qed.

(** C24: the requests of the idempotent methods are idempotent.  A [GET],
    [PUT], [PATCH] or [DELETE] request served again on the store it left
    leaves that store; and a [GET], [PUT] or [PATCH] request is answered
    again as it was answered. *)
Theorem requests_idempotent r db :
  isIdempotent r = true →
  (serve categories r (serve categories r db).2).2 = (serve categories r db).2 ∧
  (answersAgain r = true →
   serve categories r (serve categories r db).2 = serve categories r db).
Proof.
  intros Hr. split.
  - rewrite !serve_store. by apply handler_settled.
  - intros Ha. unfold serve at 1 3, expressAsyncHandler. rewrite serve_store.
    by rewrite (handler_repeats r db Ha).
Qed.

(** [postNewPost] is not idempotent: the request sent again gets a new
    identifier, and the post is stored under both. *)
Theorem postNewPost_again env env' body author db :
  (runChains (postNewPost_chains categories) body).2 = [] →
  parseObjectId PLACEHOLDER_AUTHOR = Some author →
  posts db !! env_newId env = None → posts db !! env_newId env' = None →
  env_newId env ≠ env_newId env' →
  let once := (serve categories (PostNewPost env body) db).2 in
  let twice := (serve categories (PostNewPost env' body) once).2 in
  posts once !! env_newId env' = None ∧
  posts twice !! env_newId env = Some (newPostOf env author body) ∧
  posts twice !! env_newId env' = Some (newPostOf env' author body).
Proof.
  intros He Ha Hfresh Hfresh' Hne once twice.
  assert (once = setPosts <[env_newId env := newPostOf env author body]> db) as Honce.
  { unfold once. rewrite serve_store. cbn [handler].
    by rewrite (postNewPost_run categories env body author db He Ha), Hfresh. }
  assert (posts once !! env_newId env' = None) as Hfree
    by (rewrite Honce; cbn [posts setPosts]; by rewrite lookup_insert_ne).
  split; [done|]. unfold twice. rewrite serve_store. cbn [handler].
  rewrite (postNewPost_run categories env' body author once He Ha), Hfree, Honce.
  cbn [snd posts setPosts]. by rewrite lookup_insert_ne, !lookup_insert_eq.
Qed.

End idempotence.

(** ** Concrete runs *)

Lemma requests_idempotent_witness :
  let r := DeleteComment sampleCommentId in
  let db := (serveAll sampleCategories (take 2 sampleTrace) emptyDB).2 in
  (serve sampleCategories r (serve sampleCategories r db).2).2
  = (serve sampleCategories r db).2 ∧
  (answersAgain r = true →
   serve sampleCategories r (serve sampleCategories r db).2 = serve sampleCategories r db).
Proof. intros r db. by apply requests_idempotent. Defined.
