(* ===== verification/Quiescence.v ===== *)
(** * Quiescence: the counters when requests interleave

    While requests are in flight the counters are wrong: between the two
    writes of [postNewComment] the comment is stored and the counter is
    not yet incremented (or the other way round), and between the two
    operations of [deleteComment] the comment is gone and the counter not
    yet decremented.  What holds at every moment is that each post's counter
    differs from the number of its comments by what the threads in flight
    still owe it ([balanced]); when every thread has its result nothing is
    owed, and the counters are right again.

    What a thread owes is read off its next operation ([owed]).  A handler
    follows the protocol [proto]: after each operation, whatever its
    result, what it owes has changed by exactly what the operation did to
    the balance of the store ([delta]).  The operations are those of
    [Interleave]: any thread may proceed at any [await], and the two
    operations of a [Promise.all] are taken in either order.

    Two assumptions on the environment are conditions of the steps
    ([admissible]): an identifier generated for a new document is fresh (a
    comment is inserted under a free identifier; a post is inserted under
    an identifier no comment references and no thread owes to), and
    identifiers are not reused (a comment is replaced by a comment of the
    same post). *)

From S2P Require Import Prelude JsString Sanitizers Validator ScriptTags.
From S2P Require Import Chains ObjectId Store Program Posts Comments Api Interleave.
From S2P Require Import Progress Consistency.

Section owed.
Context `{ObjectIdLib}.
Implicit Types (db : DB) (q pid : ObjectId) (p : PostModel) (c : CommentModel).

(** [n] at [pid], nothing elsewhere. *)
Definition at_post pid (n : Z) q : Z := if decide (pid = q) then n else 0%Z.

(** What a pending operation will add to a counter. *)
Definition owedOp {R} (op : DbOp R) q : Z :=
  match op with
  | OpPostUpdate pid (IncCommentCount n) => at_post pid n q
  | _ => 0%Z
  end.

(** The reference to a post a pending insert of a comment will add. *)
Definition savedRef {R} (op : DbOp R) q : Z :=
  match op with
  | OpCommentSave c => at_post (comment_post c) 1 q
  | _ => 0%Z
  end.

Definition owedProg {A} (p : Prog A) q : Z :=
  match p with
  | Await op _ => owedOp op q
  | AwaitAll op1 op2 _ => (owedOp op2 q - savedRef op1 q)%Z
  | _ => 0%Z
  end.

(** What the thread owes to the counter of [q]: the counter plus what is
    owed is the number of comments. *)
Definition owed {A} (t : Thread A) q : Z :=
  match t with
  | Running p => owedProg p q
  | FirstDone _ op2 _ => owedOp op2 q
  | SecondDone op1 _ _ => (- savedRef op1 q)%Z
  end.

Definition owedBy (ts : Pool) q : Z := foldr (λ t n, (owed t q + n)%Z) 0%Z ts.

(** By how much the operation, with the result it had, moves the counter of
    [q] ahead of the number of comments of [q]. *)
Definition delta {R} (op : DbOp R) : Exn + R → ObjectId → Z :=
  match op in DbOp R return Exn + R → ObjectId → Z with
  | OpCommentSave c => λ r q,
      match r with inr _ => (- at_post (comment_post c) 1 q)%Z | inl _ => 0%Z end
  | OpPostUpdate pid (IncCommentCount n) => λ _ q, at_post pid n q
  | OpCommentDelete _ => λ r q,
      match r with inr (Some c) => at_post (comment_post c) 1 q | _ => 0%Z end
  | _ => λ _ _, 0%Z
  end.

(** The counter of a stored post minus the number of its comments. *)
Definition balance q db : option Z :=
  (λ p, post_commentCount p - Z.of_nat (commentsOn q db))%Z <$> posts db !! q.

(** The counters are right up to what the threads owe. *)
Definition balanced (ts : Pool) db : Prop :=
  ∀ q b, balance q db = Some b → (b + owedBy ts q = 0)%Z.

(** The conditions under which the environment lets an operation execute:
    fresh identifiers for inserts, no reuse of the identifier of a comment. *)
Definition admissible {R} (ts : Pool) db (op : DbOp R) : Prop :=
  match op with
  | OpCommentSave c => comments db !! comment_id c = None
  | OpPostSave p =>
      posts db !! post_id p = None →
      commentsOn (post_id p) db = 0 ∧ owedBy ts (post_id p) = 0%Z
  | OpCommentUpdate id c' =>
      ∀ c, comments db !! id = Some c → comment_post c = comment_post c'
  | _ => True
  end.

(** What a handler may do, for the counters to follow: a post is created
    with the counter at zero. *)
Definition opOk {R} (op : DbOp R) : Prop :=
  match op with
  | OpPostSave p => post_commentCount p = 0%Z
  | _ => True
  end.

(** The operations that may be the first, and the second, of a
    [Promise.all]: the thread between the two owes what [owed] says. *)
Definition firstOk {R} (op : DbOp R) : Prop :=
  match op with
  | OpCommentDelete _ | OpPostUpdate _ (IncCommentCount _) => False
  | _ => opOk op
  end.

Definition secondOk {R} (op : DbOp R) : Prop :=
  match op with
  | OpCommentSave _ | OpCommentDelete _ => False
  | _ => opOk op
  end.

(** The protocol of a handler: what it owes after an operation is what it
    owed before, less what the operation did. *)
Fixpoint proto {A} (p : Prog A) : Prop :=
  match p with
  | Ret _ | Throw _ => True
  | Await op k =>
      opOk op ∧
      (∀ r q, owedProg (k r) q = (owedOp op q - delta op (inr r) q)%Z) ∧
      ∀ r, proto (k r)
  | AwaitAll op1 op2 k =>
      firstOk op1 ∧ secondOk op2 ∧
      (∀ r q, owedProg (k r) q = 0%Z) ∧
      ∀ r, proto (k r)
  end.

Definition protoThread {A} (t : Thread A) : Prop :=
  match t with
  | Running p => proto p
  | FirstDone _ op2 k =>
      secondOk op2 ∧ (∀ r q, owedProg (k r) q = 0%Z) ∧ ∀ r, proto (k r)
  | SecondDone op1 _ k =>
      firstOk op1 ∧ (∀ r q, owedProg (k r) q = 0%Z) ∧ ∀ r, proto (k r)
  end.

(** The operation the choice executes is admissible. *)
Definition admissibleThread {A} (left : bool) (t : Thread A) (ts : Pool) db : Prop :=
  match t with
  | Running (Await op _) => admissible ts db op
  | Running (AwaitAll op1 op2 _) =>
      if left then admissible ts db op1 else admissible ts db op2
  | FirstDone _ op2 _ => admissible ts db op2
  | SecondDone op1 _ _ => admissible ts db op1
  | Running _ => True
  end.

Definition admissibleChoice (c : Choice) (cfg : Pool * DB) : Prop :=
  ∀ t, cfg.1 !! c.1 = Some t → admissibleThread c.2 t cfg.1 cfg.2.

(** A step of some thread that the environment allows. *)
Definition fairStep : relation (Pool * DB) :=
  λ cfg cfg', ∃ ch : Choice, admissibleChoice ch cfg ∧ stepPool ch cfg = Some cfg'.

End owed.

(** ** One operation *)

Section operations.
Context `{ObjectIdLib}.
Implicit Types (db : DB) (q pid : ObjectId) (p : PostModel) (c : CommentModel)
  (ts : Pool).

Lemma at_post_same pid n : at_post pid n pid = n.
Proof. unfold at_post. by rewrite decide_True. Qed.

Lemma at_post_other pid n q : pid ≠ q → at_post pid n q = 0%Z.
Proof. unfold at_post. intros. by rewrite decide_False. Qed.

Lemma balance_Some q db b :
  balance q db = Some b ↔
  ∃ p, posts db !! q = Some p ∧ b = (post_commentCount p - Z.of_nat (commentsOn q db))%Z.
Proof. unfold balance. rewrite fmap_Some. naive_solver. Qed.

Lemma balance_setPosts_insert q pid p db :
  balance q (setPosts <[pid := p]> db)
  = if decide (pid = q)
    then Some (post_commentCount p - Z.of_nat (commentsOn q db))%Z
    else balance q db.
Proof.
  unfold balance. cbn [posts setPosts]. rewrite commentsOn_setPosts.
  destruct (decide (pid = q)) as [->|]; [by rewrite lookup_insert_eq|].
  by rewrite lookup_insert_ne.
Qed.

Lemma at_post_same_update pid u r :
  delta (OpPostUpdate pid u) r pid
  = match u with IncCommentCount n => n | _ => 0%Z end.
Proof. destruct u; simpl; [done..|apply at_post_same]. Qed.

Lemma at_post_other_update pid u r q : pid ≠ q → delta (OpPostUpdate pid u) r q = 0%Z.
Proof. destruct u; simpl; [done..|apply at_post_other]. Qed.

(** A failed operation has done what it owed. *)
Lemma delta_failed {R} (op : DbOp R) e q : delta op (inl e) q = owedOp op q.
Proof. destruct op as [| | |? []| | | | | | |]; done. Qed.

Lemma delta_second {R} (op : DbOp R) r q : secondOk op → delta op r q = owedOp op q.
Proof. destruct op as [| | |? []| | | | | | |]; done. Qed.

Lemma delta_first {R} (op : DbOp R) ts db r db' q :
  firstOk op → admissible ts db op → execOp op db = (r, db') →
  delta op r q = (- savedRef op q)%Z.
Proof.
  destruct op as [| | |? []| | | | | | |]; try done. simpl. unfold Comment_save.
  intros _ ->. by intros [= <- _].
Qed.

(** The balance [b'] of the post [q] after an operation: the balance
    before, moved by [d]; or the post is new, has no comment, and nothing
    is owed to it. *)
Definition movedBy ts db q (b' d : Z) : Prop :=
  (∃ b, balance q db = Some b ∧ b' = (b + d)%Z) ∨
  (b' = 0%Z ∧ owedBy ts q = 0%Z ∧ d = 0%Z).

Lemma movedBy_same ts db q b' :
  balance q db = Some b' → movedBy ts db q b' 0.
Proof. left. exists b'. split; [done|lia]. Qed.

Section cases.
Context (ts : Pool) (db db' : DB) (q : ObjectId) (b' : Z).
Context (Hb' : balance q db' = Some b').

Local Abbreviation moved d := (movedBy ts db q b' d).

Lemma balance_PostSave p r :
  post_commentCount p = 0%Z → admissible ts db (OpPostSave p) →
  execOp (OpPostSave p) db = (r, db') → moved 0%Z.
Proof using Hb'.
  simpl. unfold Post_save. intros Hc Hadm.
  destruct (posts db !! post_id p) eqn:Hp; intros [= <- <-];
    [by apply movedBy_same|].
  rewrite balance_setPosts_insert in Hb'. destruct (Hadm eq_refl) as [Hn Ho].
  destruct (decide (post_id p = q)) as [<-|]; [right|by apply movedBy_same].
  rewrite Hc, Hn in Hb'. by simplify_eq.
Qed.

Lemma balance_PostUpdate id u r :
  execOp (OpPostUpdate id u) db = (r, db') → moved (delta (OpPostUpdate id u) r q).
Proof using Hb'.
  cbn [execOp]. unfold Post_findByIdAndUpdate.
  destruct (posts db !! id) as [p|] eqn:Hp; intros [= <- <-]; left.
  - rewrite balance_setPosts_insert in Hb'. unfold balance.
    destruct (decide (id = q)) as [<-|];
      [rewrite Hp, at_post_same_update|rewrite at_post_other_update by done].
    + eexists. split; [done|]. simplify_eq. destruct u; simpl; lia.
    + exists b'. split; [done|lia].
  - exists b'. split; [done|]. rewrite at_post_other_update; [lia|].
    intros <-. apply balance_Some in Hb' as (? & ? & _). congruence.
Qed.

Lemma balance_CommentSave c r :
  admissible ts db (OpCommentSave c) →
  execOp (OpCommentSave c) db = (r, db') → moved (delta (OpCommentSave c) r q).
Proof using Hb'.
  simpl. unfold Comment_save. intros Hc. rewrite Hc. intros [= <- <-]. left.
  apply balance_Some in Hb' as (p & Hp & ->). cbn [posts setComments] in Hp.
  exists (post_commentCount p - Z.of_nat (commentsOn q db))%Z.
  split; [by apply balance_Some; eauto|].
  rewrite commentsOn_created by done. unfold at_post. case_decide; lia.
Qed.

Lemma balance_CommentUpdate id c' r :
  admissible ts db (OpCommentUpdate id c') →
  execOp (OpCommentUpdate id c') db = (r, db') → moved 0%Z.
Proof using Hb'.
  simpl. unfold Comment_findByIdAndUpdate. intros Hadm.
  destruct (comments db !! id) as [c|] eqn:Hc; intros [= <- <-];
    apply movedBy_same; [|done].
  revert Hb'. unfold balance. cbn [posts setComments].
  rewrite (commentsOn_revised id c); [done..|]. simpl. symmetry. by apply Hadm.
Qed.

Lemma balance_CommentDelete id r :
  execOp (OpCommentDelete id) db = (r, db') → moved (delta (OpCommentDelete id) r q).
Proof using Hb'.
  simpl. unfold Comment_findByIdAndDelete. intros [= <- <-]. left.
  apply balance_Some in Hb' as (p & Hp & ->). cbn [posts setComments] in Hp.
  exists (post_commentCount p - Z.of_nat (commentsOn q db))%Z.
  split; [by apply balance_Some; eauto|].
  destruct (comments db !! id) as [c|] eqn:Hc.
  - rewrite (commentsOn_removed id c q db Hc). unfold at_post. case_decide; lia.
  - unfold commentsOn. cbn [comments setComments]. rewrite delete_id by done. lia.
Qed.

End cases.

(** What one operation does to the balance of a stored post: it moves it
    by [delta], or the post is new, with no comment and nothing owed. *)
Lemma execOp_balance {R} (op : DbOp R) ts db r db' q b' :
  opOk op → admissible ts db op → execOp op db = (r, db') →
  balance q db' = Some b' → movedBy ts db q b' (delta op r q).
Proof.
  intros Hok Hadm Hex Hb'.
  destruct op;
    eauto using balance_PostSave, balance_PostUpdate, balance_CommentSave,
      balance_CommentUpdate, balance_CommentDelete;
    simpl in *; unfold Post_findByIdAndDelete in *; simplify_eq;
    apply movedBy_same; try done.
  revert Hb'. unfold balance. cbn [posts setPosts]. rewrite commentsOn_setPosts.
  destruct (decide (id = q)) as [->|]; [by rewrite lookup_delete_eq|].
  by rewrite lookup_delete_ne.
Qed.

End operations.

(** ** One step of a thread, and of the pool *)

Section steps.
Context `{ObjectIdLib}.
Implicit Types (db : DB) (q : ObjectId) (ts : Pool).

Lemma firstOk_opOk {R} (op : DbOp R) : firstOk op → opOk op.
Proof. by destruct op as [| | |? []| | | | | | |]. Qed.

Lemma secondOk_opOk {R} (op : DbOp R) : secondOk op → opOk op.
Proof. by destruct op. Qed.

Lemma owedProg_resume {A R} (r : Exn + R) (k : R → Prog A) q :
  (∀ r q, owedProg (k r) q = 0%Z) → owedProg (resume r k) q = 0%Z.
Proof. destruct r; [done|]. intros Hk. apply Hk. Qed.

Lemma proto_resume {A R} (r : Exn + R) (k : R → Prog A) :
  (∀ r, proto (k r)) → proto (resume r k).
Proof. destruct r; [done|]. intros Hk. apply Hk. Qed.

(** A step of a thread that follows the protocol: the thread follows it
    afterwards, and what it owes has changed by what the step did to the
    balances. *)
Lemma stepThread_balance {A} left (t t' : Thread A) ts db db' :
  protoThread t → admissibleThread left t ts db →
  stepThread left t db = Some (t', db') →
  protoThread t' ∧
  ∃ d : ObjectId → Z,
    (∀ q, owed t' q = (owed t q - d q)%Z) ∧
    ∀ q b', balance q db' = Some b' → movedBy ts db q b' (d q).
Proof.
  destruct t as [[a|e|R op k|R1 R2 op1 op2 k]|R1 R2 r1 op2 k|R1 R2 op1 r2 k];
    cbn [protoThread proto admissibleThread stepThread]; try done.
  - intros (Hok & Howed & Hk) Hadm. destruct (execOp op db) as [r db1] eqn:Hop.
    intros [= <- <-]. split; [by apply proto_resume|]. exists (delta op r).
    split; [|by eauto using execOp_balance].
    intros q. destruct r as [e|r]; cbn [owed resume owedProg];
      [rewrite delta_failed; lia|apply Howed].
  - intros (H1 & H2 & Howed & Hk) Hadm. destruct left.
    + destruct (execOp op1 db) as [r1 db1] eqn:Hop. intros [= <- <-].
      split; [done|]. exists (delta op1 r1).
      split; [|by eauto using execOp_balance, firstOk_opOk].
      intros q. cbn [owed owedProg]. rewrite (delta_first op1 ts db r1 db1) by done. lia.
    + destruct (execOp op2 db) as [r2 db1] eqn:Hop. intros [= <- <-].
      split; [done|]. exists (delta op2 r2).
      split; [|by eauto using execOp_balance, secondOk_opOk].
      intros q. cbn [owed owedProg]. rewrite delta_second by done. lia.
  - intros (H2 & Howed & Hk) Hadm. destruct (execOp op2 db) as [r2 db1] eqn:Hop.
    intros [= <- <-]. split; [by apply proto_resume|]. exists (delta op2 r2).
    split; [|by eauto using execOp_balance, secondOk_opOk].
    intros q. cbn [owed]. rewrite owedProg_resume, delta_second by done. lia.
  - intros (H1 & Howed & Hk) Hadm. destruct (execOp op1 db) as [r1 db1] eqn:Hop.
    intros [= <- <-]. split; [by apply proto_resume|]. exists (delta op1 r1).
    split; [|by eauto using execOp_balance, firstOk_opOk].
    intros q. cbn [owed]. rewrite owedProg_resume by done.
    rewrite (delta_first op1 ts db r1 db1) by done. lia.
Qed.

Lemma owedBy_cons (t : Thread Response) ts q :
  owedBy (t :: ts) q = (owed t q + owedBy ts q)%Z.
Proof. done. Qed.

Lemma owedBy_insert ts i t t' q :
  ts !! i = Some t →
  owedBy (<[i := t']> ts) q = (owedBy ts q - owed t q + owed t' q)%Z.
Proof.
  revert i. induction ts as [|t0 ts IH]; intros [|i]; try done.
  - intros [= ->]. simpl. lia.
  - intros Hi. change (<[S i := t']> (t0 :: ts)) with (t0 :: <[i := t']> ts).
    rewrite !owedBy_cons. specialize (IH i Hi). unfold Pool in *. lia.
Qed.

Lemma owedBy_app ts ts' q : owedBy (ts ++ ts') q = (owedBy ts q + owedBy ts' q)%Z.
Proof.
  induction ts as [|t ts IH]; [done|]. cbn [app]. rewrite !owedBy_cons.
  unfold Pool in *. lia.
Qed.

Lemma owedBy_quiescent ts q : quiescent ts → owedBy ts q = 0%Z.
Proof.
  induction 1 as [|t ts [r Hr] _ IH]; [done|]. rewrite owedBy_cons, IH.
  by destruct t as [[]| |].
Qed.

(** What holds of a pool and a store at every moment. *)
Definition inFlightOk (cfg : Pool * DB) : Prop :=
  Forall protoThread cfg.1 ∧ balanced cfg.1 cfg.2.

Lemma fairStep_inFlightOk cfg cfg' : fairStep cfg cfg' → inFlightOk cfg → inFlightOk cfg'.
Proof.
  destruct cfg as [ts db], cfg' as [ts' db']. intros (ch & Hadm & Hstep) [Hp Hb].
  apply stepPool_inv in Hstep as (t & t' & Ht & Hstep & ->).
  destruct (stepThread_balance ch.2 t t' ts db db') as (Hp' & d & Howed & Hd);
    [by eapply (Forall_lookup_1 _ _ _ _ Hp)|by apply Hadm|done|].
  split; [by apply Forall_insert|]. intros q b' Hb'. cbn [fst snd] in *.
  rewrite (owedBy_insert ts ch.1 t) by done. rewrite Howed.
  destruct (Hd q b' Hb') as [(b & Hq & ->)|(-> & Ho & Hz)]; [|lia].
  specialize (Hb q b Hq). lia.
Qed.

Lemma rtc_fairStep_inFlightOk cfg cfg' :
  rtc fairStep cfg cfg' → inFlightOk cfg → inFlightOk cfg'.
Proof. induction 1; eauto using fairStep_inFlightOk. Qed.

(** When nothing is in flight, balanced counters are right. *)
Lemma balanced_quiescent ts db : quiescent ts → balanced ts db → countersOk db.
Proof.
  intros Hq Hb pid p Hp.
  specialize (Hb pid _ (proj2 (balance_Some pid db _) (ex_intro _ p (conj Hp eq_refl)))).
  rewrite owedBy_quiescent in Hb by done. lia.
Qed.

Lemma countersOk_balanced ts db :
  (∀ q, owedBy ts q = 0%Z) → countersOk db → balanced ts db.
Proof.
  intros Ho Hc q b (p & Hp & ->)%balance_Some. rewrite Ho, (Hc q p Hp). lia.
Qed.

End steps.

(** ** The handlers follow the protocol *)

Section intro.
Context `{ObjectIdLib}.

Lemma proto_Await {A R} (op : DbOp R) (k : R → Prog A) :
  opOk op →
  (∀ r q, owedProg (k r) q = (owedOp op q - delta op (inr r) q)%Z) →
  (∀ r, proto (k r)) → proto (Await op k).
Proof. done. Qed.

Lemma proto_AwaitAll {A R1 R2} (op1 : DbOp R1) (op2 : DbOp R2) (k : R1 * R2 → Prog A) :
  firstOk op1 → secondOk op2 →
  (∀ r q, owedProg (k r) q = 0%Z) →
  (∀ r, proto (k r)) → proto (AwaitAll op1 op2 k).
Proof. done. Qed.

Lemma at_post_opp pid q : at_post pid (-1) q = (0 - at_post pid 1 q)%Z.
Proof. unfold at_post. case_decide; lia. Qed.

End intro.

(** [owed_solve] proves what a continuation owes, by cases on the result
    it continues with. *)
Ltac owed_solve :=
  intros;
  repeat first
    [ progress cbn [bind await awaitAll owedProg owedOp savedRef delta comment_post]
    | progress unfold castObjectId, newObjectId, filterKey, mbind, mret, Prog_bind, Prog_ret
    | case_match ];
  first [done | apply at_post_opp | lia].

(** [proto_steps] decomposes a goal [proto p] along the structure of [p]. *)
Ltac proto_step :=
  lazymatch goal with
  | |- proto (Ret _) => exact I
  | |- proto (Throw _) => exact I
  | |- proto (Await _ _) => apply proto_Await; [done|owed_solve|intros ?]
  | |- proto (AwaitAll _ _ _) => apply proto_AwaitAll; [done|done|owed_solve|intros [? ?]]
  | |- proto (if ?b then _ else _) => destruct b eqn:?
  | |- proto (match ?x with _ => _ end) => destruct x eqn:?
  | |- proto (bind (match ?x with _ => _ end) _) => destruct x eqn:?
  | |- proto (bind (bind (match ?x with _ => _ end) _) _) => destruct x eqn:?
  end.

Ltac proto_steps :=
  unfold mbind, mret, Prog_bind, Prog_ret;
  repeat (try unfold castObjectId, newObjectId, filterKey, mbind, mret, Prog_bind, Prog_ret;
          cbn [bind await awaitAll]; proto_step).

Section handlers.
Context `{ObjectIdLib} `{ScriptTagRemover} (categories : list string).
Implicit Types (r : Request) (db : DB) (q : ObjectId) (ts : Pool).

Lemma handler_proto r : proto (handler categories r).
Proof.
  destruct r; cbn [handler];
    unfold getAllPosts, getSpecificPost, postNewPost, editPost, publishPost, deletePost,
      getAllComments, getSpecificComment, postNewComment, editComment, deleteComment;
    proto_steps.
Qed.

(** A handler that has not started owes nothing. *)
Lemma handler_owed r q : owedProg (handler categories r) q = 0%Z.
Proof.
  destruct r; cbn [handler];
    unfold getAllPosts, getSpecificPost, postNewPost, editPost, publishPost, deletePost,
      getAllComments, getSpecificComment, postNewComment, editComment, deleteComment;
    owed_solve.
Qed.

(** Requests that have not started owe nothing. *)
Lemma owedBy_inFlight requests q : owedBy (inFlight categories requests) q = 0%Z.
Proof.
  induction requests as [|r rs IH]; [done|].
  unfold inFlight. rewrite fmap_cons, owedBy_cons. cbn [owed].
  rewrite handler_owed. unfold inFlight in IH. lia.
Qed.

Lemma inFlight_inFlightOk requests db :
  countersOk db → inFlightOk (inFlight categories requests, db).
Proof.
  intros Hc. split; cbn [fst snd].
  - apply Forall_fmap, Forall_true. intros r. apply handler_proto.
  - apply countersOk_balanced; [|done]. intros q. apply owedBy_inFlight.
Qed.

(** C21: requests served at the same time keep the counters right up to
    what is in flight.  From a store whose counters are right, whatever
    the requests and however their operations interleave (the two
    operations of a [Promise.all] in either order), as long as new
    identifiers are fresh and identifiers are not reused: at every moment
    the counter of each stored post plus what the threads in flight still
    owe it is the number of its comments. *)
Theorem counters_balanced_in_flight requests db ts' db' :
  countersOk db → rtc fairStep (inFlight categories requests, db) (ts', db') →
  balanced ts' db'.
Proof.
  intros Hc Hsteps.
  by destruct (rtc_fairStep_inFlightOk _ _ Hsteps (inFlight_inFlightOk requests db Hc)).
Qed.

(** C12: when every request has its response the counters are right again:
    after any interleaving of the operations of any requests, from a store
    whose counters are right, once no request is in flight the counter of
    every stored post is the number of stored comments that reference
    it. *)
Theorem counters_at_quiescence requests db ts' db' :
  countersOk db → rtc fairStep (inFlight categories requests, db) (ts', db') →
  quiescent ts' → countersOk db'.
Proof.
  intros Hc Hsteps Hq. apply (balanced_quiescent ts'); [done|].
  by destruct (rtc_fairStep_inFlightOk _ _ Hsteps (inFlight_inFlightOk requests db Hc)).
Qed.

End handlers.

(** ** A run: a comment is deleted while a post is read *)

Definition sampleRequests : list (@Request hex24) :=
  [DeleteComment sampleCommentId; GetSpecificPost sampleId].

Lemma sampleDB1_countersOk : countersOk sampleDB1.
Proof.
  unfold countersOk, sampleDB1, sampleDB. cbn [posts comments setPosts emptyDB].
  rewrite insert_insert_eq. apply map_Forall_insert_2; [|apply map_Forall_empty].
  unfold commentsOn. cbn [comments]. rewrite countIf_insert_fresh by done.
  by rewrite countIf_empty.
Qed.

(** The comment is deleted, the post is read, the counter is decremented. *)
Lemma sampleRequests_steps :
  ∃ ts' db',
    rtc fairStep (inFlight sampleCategories sampleRequests, sampleDB1) (ts', db') ∧
    quiescent ts'.
Proof.
  eexists _, _. split.
  - eapply rtc_l; [exists (0, true); split; [by intros t [= <-]|reflexivity]|].
    eapply rtc_l; [exists (1, true); split; [by intros t [= <-]|reflexivity]|].
    eapply rtc_l; [exists (0, true); split; [by intros t [= <-]|reflexivity]|].
    apply rtc_refl.
  - repeat constructor; eexists; reflexivity.
Defined.

Lemma counters_at_quiescence_witness :
  ∃ ts' db',
    rtc fairStep (inFlight sampleCategories sampleRequests, sampleDB1) (ts', db') ∧
    quiescent ts' ∧ countersOk db'.
Proof.
  destruct sampleRequests_steps as (ts' & db' & Hsteps & Hq). exists ts', db'.
  split; [done|]. split; [done|].
  exact (counters_at_quiescence sampleCategories sampleRequests sampleDB1 ts' db'
           sampleDB1_countersOk Hsteps Hq).
Defined.

Lemma counters_balanced_in_flight_witness :
  ∃ ts' db',
    rtc fairStep (inFlight sampleCategories sampleRequests, sampleDB1) (ts', db') ∧
    balanced ts' db'.
Proof.
  destruct sampleRequests_steps as (ts' & db' & Hsteps & _). exists ts', db'.
  split; [done|].
  exact (counters_balanced_in_flight sampleCategories sampleRequests sampleDB1 ts' db'
           sampleDB1_countersOk Hsteps).
Defined.
