(* ===== verification/Fairness.v ===== *)
(** * Fairness: the sequential theorems are about fair executions

    The counters of [Quiescence] are right at every moment of an execution
    whose steps are admissible: new identifiers are fresh, and the
    identifier of a comment is not reused.  The theorems of [Refinement]
    assume freshness of another shape, [freshTrace]: the identifier
    generated for each request is fresh in the store the request is served
    in.  This file shows that the second is a case of the first: when the
    requests are served one after the other ([oneByOne]) and the trace is
    fresh, every step of the schedule is admissible.

    [soloOk] says of a program that each of its operations is admissible
    at the moment it executes when the program runs alone; it is what a
    handler owes to the environment, read off the handler operation by
    operation. *)

From S2P Require Import Prelude JsString Sanitizers Validator ScriptTags.
From S2P Require Import Chains ObjectId Store Program Posts Comments Api Interleave.
From S2P Require Import Progress Sequential Consistency Refinement Quiescence.

Section solo.
Context `{ObjectIdLib}.
Implicit Types (db : DB) (q : ObjectId) (ts : list (Thread Response)) (i : nat).

(** [admissible] when what the pool owes is [owes]. *)
Definition admissibleAlone {R} (owes : ObjectId → Z) db (op : DbOp R) : Prop :=
  match op with
  | OpCommentSave c => comments db !! comment_id c = None
  | OpPostSave p =>
      posts db !! post_id p = None →
      commentsOn (post_id p) db = 0 ∧ owes (post_id p) = 0%Z
  | OpCommentUpdate id c' =>
      ∀ c, comments db !! id = Some c → comment_post c = comment_post c'
  | _ => True
  end.

(** Each operation of [p] is admissible when [p], alone, comes to it. *)
Fixpoint soloOk {A} (p : Prog A) db : Prop :=
  match p with
  | Ret _ | Throw _ => True
  | Await op k =>
      admissibleAlone (owedOp op) db op ∧
      match execOp op db with
      | (inr r, db') => soloOk (k r) db'
      | (inl _, _) => True
      end
  | AwaitAll op1 op2 k =>
      admissibleAlone (λ q, owedOp op2 q - savedRef op1 q)%Z db op1 ∧
      let '(r1, db1) := execOp op1 db in
      admissibleAlone (owedOp op2) db1 op2 ∧
      let '(r2, db2) := execOp op2 db1 in
      match both r1 r2 with
      | inr r => soloOk (k r) db2
      | inl _ => True
      end
  end.

(** Of the threads of the pool, only the thread [i] owes. *)
Definition onlyOwes i ts : Prop := ∀ t q, ts !! i = Some t → owedBy ts q = owed t q.

Lemma admissible_alone {R} ts db (op : DbOp R) (owes : ObjectId → Z) :
  (∀ q, owedBy ts q = owes q) → admissibleAlone owes db op → admissible ts db op.
Proof. intros Ho. destruct op; try done. simpl. intros Hadm Hp. by rewrite Ho; apply Hadm. Qed.

Lemma onlyOwes_insert i ts t' : i < length ts → onlyOwes i ts → onlyOwes i (<[i := t']> ts).
Proof.
  intros Hi Ho t q. rewrite list_lookup_insert_eq by done. intros [= <-].
  destruct (lookup_lt_is_Some_2 ts i Hi) as [t Ht].
  rewrite (owedBy_insert ts i t) by done. rewrite (Ho t q Ht). lia.
Qed.

(** A step of the thread [i] that is admissible when only it owes. *)
Lemma fairStep_thread i left ts db (t t' : Thread Response) db' :
  ts !! i = Some t → admissibleThread left t ts db →
  stepThread left t db = Some (t', db') →
  fairStep (ts, db) (<[i := t']> ts, db').
Proof.
  intros Ht Hadm Hs. exists (i, left). split; [|by eapply stepPool_Some].
  unfold admissibleChoice, Pool. cbn [fst snd]. intros t0. rewrite Ht. by intros [= <-].
Qed.

(** A thread that takes all its operations in a row, while nothing else
    is owed, makes admissible steps only. *)
Lemma alone_fair (p : Prog Response) i ts db :
  ts !! i = Some (Running p) → onlyOwes i ts → soloOk p db →
  rtc fairStep (ts, db) (<[i := Running (done (run p db).1)]> ts, (run p db).2).
Proof.
  revert ts db. induction p as [a|e|R op k IH|R1 R2 op1 op2 k IH]; intros ts db Hi Ho.
  - intros _. by rewrite list_insert_id.
  - intros _. by rewrite list_insert_id.
  - cbn [soloOk run]. intros [Hadm Hk]. pose proof (lookup_lt_Some _ _ _ Hi) as Hlt.
    assert (fairStep (ts, db) (<[i := Running (resume (execOp op db).1 k)]> ts,
                               (execOp op db).2)) as Hstep.
    { apply (fairStep_thread i true _ _ (Running (Await op k))); [done| |].
      - apply (admissible_alone _ _ _ (owedOp op)); [|done]. intros q. by rewrite (Ho _ q Hi).
      - cbn [stepThread]. by destruct (execOp op db). }
    destruct (execOp op db) as [[e|r] db']; cbn [fst snd resume] in Hstep;
      [by apply rtc_once|].
    eapply rtc_l; [exact Hstep|].
    rewrite <-(list_insert_insert_eq ts i (Running (done (run (k r) db').1)) (Running (k r))).
    apply IH; [by apply list_lookup_insert_eq|by apply onlyOwes_insert|done].
  - cbn [soloOk run]. pose proof (lookup_lt_Some _ _ _ Hi) as Hlt.
    destruct (execOp op1 db) as [r1 db1] eqn:H1. intros [Hadm1 Hrest].
    destruct (execOp op2 db1) as [r2 db2] eqn:H2. destruct Hrest as [Hadm2 Hk].
    assert (fairStep (ts, db) (<[i := FirstDone r1 op2 k]> ts, db1)) as S1.
    { apply (fairStep_thread i true _ _ (Running (AwaitAll op1 op2 k))); [done| |].
      - apply (admissible_alone _ _ _ (λ q, owedOp op2 q - savedRef op1 q)%Z); [|done].
        intros q. by rewrite (Ho _ q Hi).
      - cbn [stepThread]. by rewrite H1. }
    assert (fairStep (<[i := FirstDone r1 op2 k]> ts, db1)
              (<[i := Running (resume (both r1 r2) k)]> ts, db2)) as S2.
    { rewrite <-(list_insert_insert_eq ts i (Running (resume (both r1 r2) k))
                   (FirstDone r1 op2 k)).
      apply (fairStep_thread i true _ _ (FirstDone r1 op2 k));
        [by apply list_lookup_insert_eq| |cbn [stepThread]; by rewrite H2].
      apply (admissible_alone _ _ _ (owedOp op2)); [|done]. intros q.
      by rewrite (onlyOwes_insert i ts (FirstDone r1 op2 k) Hlt Ho _ q
                    (list_lookup_insert_eq _ _ _ Hlt)). }
    eapply rtc_l; [exact S1|]. eapply rtc_l; [exact S2|].
    destruct (both r1 r2) as [e|r]; [done|]. cbn [resume].
    rewrite <-(list_insert_insert_eq ts i (Running (done (run (k r) db2).1)) (Running (k r))).
    apply IH; [by apply list_lookup_insert_eq|by apply onlyOwes_insert|done].
Qed.

End solo.

(** ** The handlers *)

(** [solo_steps] decomposes a goal [soloOk p db] along the structure of
    [p]; the result of a read is recorded, so that the operations that
    follow know what was read. *)
Ltac solo_adm :=
  cbn [admissibleAlone owedOp];
  first [ exact I | done | by intros; simplify_eq/= ].

Ltac solo_exec :=
  lazymatch goal with
  | |- match execOp ?op ?db with _ => _ end =>
      let E := fresh "E" in
      destruct (execOp op db) as [[?|?] ?] eqn:E; [exact I|];
      try (cbn [execOp] in E; unfold Post_findById, Comment_findById in E;
           injection E as <- <-)
  end.

Ltac solo_step :=
  lazymatch goal with
  | |- True => exact I
  | |- soloOk (Ret _) _ => exact I
  | |- soloOk (Throw _) _ => exact I
  | |- soloOk (Await _ _) _ => cbn [soloOk]; split; [solo_adm|solo_exec]
  | |- soloOk (AwaitAll ?op1 ?op2 _) ?db =>
      cbn [soloOk]; split; [solo_adm|];
      destruct (execOp op1 db) as [? ?]; split; [solo_adm|];
      destruct (execOp op2 _) as [? ?]; destruct (both _ _) as [?|[? ?]]; [exact I|]
  | |- soloOk (if ?b then _ else _) _ => destruct b eqn:?
  | |- soloOk (match ?x with _ => _ end) _ => destruct x eqn:?
  | |- soloOk (bind (match ?x with _ => _ end) _) _ => destruct x eqn:?
  | |- soloOk (bind (bind (match ?x with _ => _ end) _) _) _ => destruct x eqn:?
  end.

Ltac solo_steps :=
  unfold mbind, mret, Prog_bind, Prog_ret;
  repeat (try unfold castObjectId, newObjectId, filterKey, mbind, mret, Prog_bind, Prog_ret;
          cbn [bind await awaitAll]; solo_step).

Section handlers.
Context `{ObjectIdLib} `{ScriptTagRemover} (categories : list string).
Implicit Types (r : Request) (rs : list Request) (db : DB) (q : ObjectId)
  (pre : list (Thread Response)).

(** The requests are served to the end by admissible steps: [final] is
    reached from the requests in flight, and nothing is in flight in it. *)
Definition fairlyServed rs db (final : Pool * DB) : Prop :=
  rtc fairStep (inFlight categories rs, db) final ∧ quiescent final.1.

(** A request whose generated identifier is fresh makes admissible steps
    when it is served alone. *)
Lemma handler_soloOk r db : freshRequest db r → soloOk (handler categories r) db.
Proof.
  destruct r; cbn [handler freshRequest]; intros Hfresh;
    unfold getAllPosts, getSpecificPost, postNewPost, editPost, publishPost, deletePost,
      getAllComments, getSpecificComment, postNewComment, editComment, deleteComment;
    solo_steps.
Qed.

(** Behind threads that have their result, and before requests that
    have not started, only the thread that runs owes. *)
Lemma onlyOwes_middle pre (t : Thread Response) rs :
  quiescent pre → onlyOwes (length pre) (pre ++ t :: inFlight categories rs).
Proof.
  intros Hq t' q. rewrite list_lookup_middle by done. intros [= <-].
  rewrite owedBy_app, owedBy_cons, owedBy_inFlight, owedBy_quiescent by done. lia.
Qed.

(** Behind the threads [pre], the requests of a fresh trace served one
    after the other. *)
Lemma oneByOne_fair rs pre db :
  quiescent pre → freshTrace categories rs db →
  rtc fairStep (pre ++ inFlight categories rs, db)
    (pre ++ (finished <$> (serveAll categories rs db).1), (serveAll categories rs db).2).
Proof.
  revert pre db. induction rs as [|r rs IH]; intros pre db Hq; [done|].
  cbn [freshTrace serveAll]. intros [Hr Hrs]. unfold inFlight. rewrite fmap_cons.
  fold (inFlight categories rs). etrans.
  - apply (alone_fair (handler categories r) (length pre));
      [by apply list_lookup_middle|by apply onlyOwes_middle|by apply handler_soloOk].
  - rewrite list_insert_middle, <-serve_store, <-finished_serve.
    destruct (serve categories r db) as [o db1]. cbn [fst snd] in *.
    specialize (IH (pre ++ [finished o]) db1). rewrite <-!app_assoc in IH. cbn [app] in IH.
    destruct (serveAll categories rs db1) as [os db2]. apply IH; [|done].
    apply Forall_app. split; [done|]. apply Forall_singleton. by destruct o; eexists.
Qed.

(** C22: a fresh trace served one request after the other is a fair
    execution.  When the identifier generated for each request is fresh in
    the store the request is served in, every operation of the schedule
    that serves the requests in turn is admissible at the moment it
    executes; the execution ends in the store and with the outcomes of
    [serveAll], nothing in flight.  So the counters are right up to what
    is owed at every moment of it, and right at its end: the theorem on
    sequences of requests is a case of the theorem on interleavings. *)
Theorem fresh_trace_fair rs db :
  freshTrace categories rs db →
  let final := (finished <$> (serveAll categories rs db).1, (serveAll categories rs db).2) in
  fairlyServed rs db final ∧ (countersOk db → countersOk final.2).
Proof.
  intros Hfresh final.
  assert (quiescent final.1) as Hq.
  { apply Forall_fmap, Forall_true. by intros [resp|e]; eexists. }
  assert (rtc fairStep (inFlight categories rs, db) final) as Hsteps.
  { unfold final. apply (oneByOne_fair rs [] db); [constructor|done]. }
  split; [done|]. intros Hc. apply (balanced_quiescent final.1); [done|].
  by apply (rtc_fairStep_inFlightOk _ _ Hsteps), inFlight_inFlightOk.
Qed.

End handlers.

(** ** A concrete run *)

Lemma fresh_trace_fair_witness :
  let final := (finished <$> (serveAll sampleCategories sampleTrace emptyDB).1,
                (serveAll sampleCategories sampleTrace emptyDB).2) in
  fairlyServed sampleCategories sampleTrace emptyDB final ∧
  (countersOk emptyDB → countersOk final.2).
Proof.
  apply (fresh_trace_fair sampleCategories sampleTrace emptyDB).
  repeat split; reflexivity.
Defined.
