(* ===== verification/Router.v ===== *)
(** * Router: the compiled posts router and the imports of the controllers

    [dist/routes/posts.js] is the compiled router of an earlier revision of
    the application: two GET routes and the PUT and DELETE routes answer
    with a fixed message, and the POST route is bound to
    [postsController.postNewArticle].  The file registers its routes one
    after the other when the module is loaded; Express refuses a route
    whose handler is undefined by throwing at that moment.

    The first part models the exports of the posts controller and the names
    the other modules import from it.  The second part models the paths of
    Express ([/] and [/:postID], non-strict, case of parameters kept), the
    registration of routes and the dispatch of a request to the first route
    that matches.  Decoding of percent-escapes in parameters is not
    modelled. *)

From S2P Require Import Prelude JsString Sanitizers Validator ObjectId Store Program.

(** ** Exports and imports *)

(** The names [posts_controller] exports, in the order of the source. *)
Definition postsControllerExports : list string :=
  ["INVALID_ID"; "INVALID_QUERY"; "DOES_NOT_EXIST"; "getAllPosts"; "getSpecificPost";
   "postNewPost"; "editPost"; "publishPost"; "deletePost"; "convertToArrayOfParagraphs"].

(** The names [comments_controller] imports from [./posts_controller]. *)
Definition commentsControllerImports : list string :=
  ["INVALID_ID"; "DOES_NOT_EXIST"; "removeDangerousScriptTags"].

(** The member of [postsController] the compiled router reads. *)
Definition postsRouterImports : list string := ["postNewArticle"].

(** Reading a member of a module object: [undefined] when the module does
    not export the name. *)
Definition importFrom {A} (exports : list (string * A)) (name : string) : option A :=
  snd <$> List.find (λ kv, bool_decide (kv.1 = name)) exports.

(** The imports that resolve to nothing. *)
Definition unresolved (exports imports : list string) : list string :=
  List.filter (λ name, bool_decide (name ∉ exports)) imports.

(** ** Paths *)

Inductive Method := GET | POST | PUT | PATCH | DELETE.

#[global] Instance Method_eq_dec : EqDecision Method.
Proof. solve_decision. Defined.

(** A path pattern: literal segments and named parameters. *)
Inductive Segment :=
| Lit (s : string)
| Param (name : string).

Definition Pattern := list Segment.

(** The segments of a request path: the path starts with [/], and one
    trailing [/] is ignored. *)
Fixpoint dropTrailingEmpty (l : list string) : list string :=
  match l with
  | [] => []
  | [""] => []
  | s :: l' => s :: dropTrailingEmpty l'
  end.

Definition segments (path : string) : option (list string) :=
  match JsString.split "/"%char path with
  | "" :: rest => Some (dropTrailingEmpty rest)
  | _ => None
  end.

(** The parameters when the segments match the pattern.  A parameter
    matches one segment that is not empty. *)
Fixpoint matchSegments (pat : Pattern) (segs : list string)
  : option (list (string * string)) :=
  match pat, segs with
  | [], [] => Some []
  | Lit s :: pat', seg :: segs' =>
      if bool_decide (s = seg) then matchSegments pat' segs' else None
  | Param name :: pat', seg :: segs' =>
      if bool_decide (seg = "") then None
      else cons (name, seg) <$> matchSegments pat' segs'
  | _, _ => None
  end.

Definition matchPath (pat : Pattern) (path : string) : option (list (string * string)) :=
  segments path ≫= matchSegments pat.

(** ** Routes *)

Section router.
Context `{ObjectIdLib}.

(** A handler of the router, given the parameters of the path. *)
Definition RouteHandler := list (string * string) → Response.

Record Route := mkRoute {
  route_method : Method;
  route_path : Pattern;
  route_handler : RouteHandler;
}.

Definition Router := list Route.

(** [router.METHOD(path, handler)]: the route is appended to the stack;
    Express throws when the handler is not a function. *)
Inductive LoadError :=
| RouteRequiresCallback (m : Method).

Definition addRoute (m : Method) (path : Pattern) (h : option RouteHandler) (r : Router)
  : LoadError + Router :=
  match h with
  | Some h => inr (r ++ [mkRoute m path h])
  | None => inl (RouteRequiresCallback m)
  end.

(** The first route, in the order of registration, whose method and path
    match; [None] when the router passes the request on. *)
Fixpoint dispatch (r : Router) (m : Method) (path : string) : option Response :=
  match r with
  | [] => None
  | route :: r' =>
      if bool_decide (route_method route = m) then
        match matchPath (route_path route) path with
        | Some params => Some (route_handler route params)
        | None => dispatch r' m path
        end
      else dispatch r' m path
  end.

(** [req.params.postID] *)
Definition param (name : string) (params : list (string * string)) : string :=
  from_option snd "" (List.find (λ kv, bool_decide (kv.1 = name)) params).

(** ** The compiled router *)

Definition root : Pattern := [].
Definition byPostID : Pattern := [Param "postID"].

Definition messageHandler (m : string) : RouteHandler :=
  λ _, json (JMessage m).

Definition individualPostHandler : RouteHandler :=
  λ params, json (JMessage ("individual post get ID: " +:+ param "postID" params)).

(** The body of the module: the five registrations in the order of the
    file, the first failure ending the load.  [postNewArticle] is what the
    posts controller exports under that name. *)
Definition postsRouter (postNewArticle : option RouteHandler) : LoadError + Router :=
  r ← addRoute GET root (Some (messageHandler "posts get")) [];
  r ← addRoute GET byPostID (Some individualPostHandler) r;
  r ← addRoute POST root postNewArticle r;
  r ← addRoute PUT root (Some (messageHandler "posts put")) r;
  addRoute DELETE root (Some (messageHandler "posts delete")) r.

End router.

(** ** Lemmas on paths and dispatch *)

Section router_lemmas.
Context `{ObjectIdLib}.
Implicit Types (r : Router) (m : Method) (path id : string) (h : RouteHandler).

Lemma dropTrailingEmpty_singleton id : id ≠ "" → dropTrailingEmpty [id] = [id].
Proof. by destruct id. Qed.

(** The path of one segment, with or without a trailing slash. *)
Lemma segments_one id :
  id ≠ "" → includes "/" id = false → segments ("/" +:+ id) = Some [id].
Proof.
  intros Hne Hid. unfold segments. cbn [String.append].
  by rewrite split_cons_eq, split_excludes, dropTrailingEmpty_singleton.
Qed.

Lemma segments_one_slash id :
  id ≠ "" → includes "/" id = false → segments ("/" +:+ id +:+ "/") = Some [id].
Proof.
  intros Hne Hid. unfold segments. cbn [String.append].
  rewrite split_cons_eq, split_app_sep by done. by destruct id.
Qed.

Lemma segments_root : segments "/" = Some [] ∧ segments "" = Some [].
Proof. done. Qed.

Lemma matchPath_byPostID id :
  id ≠ "" → includes "/" id = false →
  matchPath byPostID ("/" +:+ id) = Some [("postID", id)].
Proof.
  intros Hne Hid. unfold matchPath. rewrite segments_one by done. simpl.
  by rewrite bool_decide_eq_false_2.
Qed.

Lemma matchPath_root_one id :
  id ≠ "" → includes "/" id = false → matchPath root ("/" +:+ id) = None.
Proof. intros Hne Hid. unfold matchPath. by rewrite segments_one. Qed.

(** A parameter never matches the root path. *)
Lemma matchPath_byPostID_root : matchPath byPostID "/" = None.
Proof. done. Qed.

(** Routes are tried in the order of registration. *)
Lemma dispatch_app r1 r2 m path :
  dispatch (r1 ++ r2) m path
  = match dispatch r1 m path with
    | Some res => Some res
    | None => dispatch r2 m path
    end.
Proof.
  induction r1 as [|route r1 IH]; simpl; [done|].
  destruct (bool_decide _); [|done]. by destruct (matchPath _ _).
Qed.

(** A router without a route for the method passes the request on. *)
Lemma dispatch_no_method r m path :
  Forall (λ route, route_method route ≠ m) r → dispatch r m path = None.
Proof.
  induction 1 as [|route r Hm _ IH]; simpl; [done|].
  by rewrite bool_decide_eq_false_2.
Qed.

Lemma addRoute_Some m pat h r : addRoute m pat (Some h) r = inr (r ++ [mkRoute m pat h]).
Proof. done. Qed.

(** The router that is loaded when the POST handler is defined. *)
Definition loadedRouter h : Router :=
  [mkRoute GET root (messageHandler "posts get");
   mkRoute GET byPostID individualPostHandler;
   mkRoute POST root h;
   mkRoute PUT root (messageHandler "posts put");
   mkRoute DELETE root (messageHandler "posts delete")].

Lemma postsRouter_loaded (postNewArticle : option RouteHandler) :
  postsRouter postNewArticle
  = match postNewArticle with
    | Some h => inr (loadedRouter h)
    | None => inl (RouteRequiresCallback POST)
    end.
Proof. by destruct postNewArticle. Qed.

End router_lemmas.

(** ** Theorems on the router *)

Section router_theorems.
Context `{ObjectIdLib}.
Implicit Types (r : Router) (m : Method) (path id : string) (h : RouteHandler).

(** Two imports from the posts controller resolve to nothing.  The
    comments controller imports [removeDangerousScriptTags] and the
    compiled router reads [postNewArticle]; the posts controller exports
    neither, and every other imported name is exported. *)
Theorem unresolved_imports :
  unresolved postsControllerExports commentsControllerImports
  = ["removeDangerousScriptTags"] ∧
  unresolved postsControllerExports postsRouterImports = ["postNewArticle"] ∧
  importFrom ((λ name, (name, ())) <$> postsControllerExports) "postNewArticle" = None.
Proof. done. Qed.

(** The compiled router cannot be loaded against the posts controller.
    Loading succeeds exactly when the controller exports [postNewArticle];
    when it does not, the third registration throws and the module has no
    router to export. *)
Theorem postsRouter_load (postNewArticle : option RouteHandler) :
  (postsRouter postNewArticle = inl (RouteRequiresCallback POST) ↔ postNewArticle = None) ∧
  (∀ r, postsRouter postNewArticle = inr r →
        ∃ h, postNewArticle = Some h ∧ r = loadedRouter h).
Proof.
  rewrite postsRouter_loaded. destruct postNewArticle as [h|]; split; try done.
  intros r [= <-]. eauto.
Qed.

(** What the router would serve if it were loaded.  GET on the root
    and on one path segment are answered by the placeholders, the segment
    being echoed; PUT and DELETE are registered on the root only, so a
    request that names a post is passed on unanswered, and PATCH has no
    route at all. *)
Theorem loadedRouter_dispatch h id path :
  id ≠ "" → includes "/" id = false →
  dispatch (loadedRouter h) GET "/" = Some (json (JMessage "posts get")) ∧
  dispatch (loadedRouter h) GET ("/" +:+ id)
  = Some (json (JMessage ("individual post get ID: " +:+ id))) ∧
  dispatch (loadedRouter h) PUT ("/" +:+ id) = None ∧
  dispatch (loadedRouter h) DELETE ("/" +:+ id) = None ∧
  dispatch (loadedRouter h) PATCH path = None.
Proof.
  intros Hne Hid. unfold loadedRouter. split_and!; [done| | | |].
  1-3: simpl; change (String "/" id) with ("/" +:+ id).
  - by rewrite matchPath_root_one, matchPath_byPostID.
  - by rewrite matchPath_root_one.
  - by rewrite matchPath_root_one.
  - apply dispatch_no_method. by repeat constructor.
Qed.

End router_theorems.

Lemma loadedRouter_dispatch_witness :
  let h : @RouteHandler hex24 := messageHandler "new article" in
  dispatch (loadedRouter h) GET "/" = Some (json (JMessage "posts get")) ∧
  dispatch (loadedRouter h) GET "/65068c32be2fd5ade9800662"
  = Some (json (JMessage "individual post get ID: 65068c32be2fd5ade9800662")) ∧
  dispatch (loadedRouter h) PUT "/65068c32be2fd5ade9800662" = None ∧
  dispatch (loadedRouter h) DELETE "/65068c32be2fd5ade9800662" = None ∧
  dispatch (loadedRouter h) PATCH "/" = None.
Proof.
  exact (loadedRouter_dispatch (messageHandler "new article") "65068c32be2fd5ade9800662"
           "/" ltac:(done) eq_refl).
Defined.
