(* ===== verification/JsHeap.v ===== *)
(** * JsHeap: JavaScript objects as the import helpers see them

    The helpers at the top of [dist/routes/posts.js] work on objects: they
    read and define properties, list the enumerable ones and create getters
    that read another object.  This file holds that part of JavaScript:
    values, property descriptors, objects in a heap referred to by their
    location, and the primitive operations the helpers call
    ([Object.getOwnPropertyDescriptor], [Object.defineProperty], member
    reads, strict-mode assignment, [for-in] over own properties).

    An object is the list of its own properties in the order of their
    creation, each with its descriptor.  Prototypes are not modelled: a
    property an object does not own reads [undefined], which is what
    JavaScript answers for every name the helpers and the router read.
    Strings, symbols and integer-like names of properties (which [for-in]
    lists before the others) do not occur in module objects and are left
    out.  The one kind of getter is the one [__createBinding] creates: it
    returns a member of another object.

    A read follows getters with fuel; in a heap that satisfies [heapOk]
    (distinct names in each object, getters that read older objects) the
    fuel [read] gives is enough, so a read never fails there. *)

From stdpp Require Import sets.
From S2P Require Import Prelude.

(** ** Values, descriptors, objects *)

Abbreviation Loc := nat.

Inductive JVal :=
| JUndefined
| JNull
| JBool (b : bool)
| JNumber (n : Z)
| JRef (l : Loc).

#[global] Instance JVal_eq_dec : EqDecision JVal.
Proof. solve_decision. Defined.

(** [function() { return m[k]; }] *)
Inductive Getter :=
| ReturnMember (m : Loc) (k : string).

Inductive Slot :=
| DataSlot (value : JVal) (writable : bool)
| AccessorSlot (get : option Getter).

Record Descriptor := mkDescriptor {
  desc_slot : Slot;
  desc_enumerable : bool;
  desc_configurable : bool;
}.

Record JsObject := mkObject {
  obj_callable : bool;                         (* typeof o === 'function' *)
  obj_props : list (string * Descriptor);
}.

Abbreviation Heap := (list JsObject).

Inductive JsError :=
| TypeError (message : string)
| RangeError.                                  (* Maximum call stack size exceeded *)

(** ** Primitive operations *)

(** [ToBoolean] *)
Definition toBoolean (v : JVal) : bool :=
  match v with
  | JUndefined | JNull => false
  | JBool b => b
  | JNumber n => negb (n =? 0)%Z
  | JRef _ => true
  end.

(** The own property [k] of a list of properties. *)
Definition findProp (k : string) (props : list (string * Descriptor)) : option Descriptor :=
  snd <$> List.find (λ kd, bool_decide (kd.1 = k)) props.

(** [Object.getOwnPropertyDescriptor(m, k)] *)
Definition getOwnPropertyDescriptor (h : Heap) (m : Loc) (k : string) : option Descriptor :=
  o ← h !! m; findProp k (obj_props o).

(** [o[k]], with a bound on the depth of the calls of getters: [None] when
    the bound is reached. *)
Fixpoint readFuel (fuel : nat) (h : Heap) (l : Loc) (k : string) : option JVal :=
  match fuel with
  | 0 => None
  | S n =>
      match getOwnPropertyDescriptor h l k with
      | None => Some JUndefined
      | Some d =>
          match desc_slot d with
          | DataSlot v _ => Some v
          | AccessorSlot None => Some JUndefined
          | AccessorSlot (Some (ReturnMember m k')) => readFuel n h m k'
          end
      end
  end.

(** [o[k]]: a getter of the object at [l] reads an older object. *)
Definition read (h : Heap) (l : Loc) (k : string) : JsError + JVal :=
  match readFuel (S l) h l k with
  | Some v => inr v
  | None => inl RangeError
  end.

(** [v[k]] on any value that is not [null] or [undefined]. *)
Definition getMember (h : Heap) (v : JVal) (k : string) : JsError + JVal :=
  match v with
  | JRef l => read h l k
  | JUndefined | JNull => inl (TypeError "Cannot read properties of undefined")
  | JBool _ | JNumber _ => inr JUndefined
  end.

(** Replacing the properties of the object at [l]. *)
Definition setProps (h : Heap) (l : Loc) (props : list (string * Descriptor)) : Heap :=
  alter (λ o, mkObject (obj_callable o) props) l h.

(** The properties with [k] defined as [d]: in place when there is one,
    at the end otherwise. *)
Fixpoint putProp (k : string) (d : Descriptor) (props : list (string * Descriptor))
  : list (string * Descriptor) :=
  match props with
  | [] => [(k, d)]
  | (k', d') :: rest =>
      if bool_decide (k' = k) then (k, d) :: rest else (k', d') :: putProp k d rest
  end.

(** [Object.defineProperty(o, k, d)] on an extensible object: a property
    that is not configurable cannot be redefined. *)
Definition defineProperty (h : Heap) (o : Loc) (k : string) (d : Descriptor)
  : JsError + Heap :=
  match h !! o with
  | None => inl (TypeError "Object.defineProperty called on non-object")
  | Some obj =>
      match findProp k (obj_props obj) with
      | Some old =>
          if desc_configurable old then inr (setProps h o (putProp k d (obj_props obj)))
          else inl (TypeError "Cannot redefine property")
      | None => inr (setProps h o (putProp k d (obj_props obj)))
      end
  end.

(** The property an assignment creates. *)
Definition plain (v : JVal) : Descriptor := mkDescriptor (DataSlot v true) true true.

(** [o[k] = v] in strict mode: a property that is not writable, or has a
    getter and no setter, refuses the assignment. *)
Definition assign (h : Heap) (o : Loc) (k : string) (v : JVal) : JsError + Heap :=
  match h !! o with
  | None => inl (TypeError "Cannot set properties of undefined")
  | Some obj =>
      match findProp k (obj_props obj) with
      | None => inr (setProps h o (putProp k (plain v) (obj_props obj)))
      | Some old =>
          match desc_slot old with
          | DataSlot _ true =>
              inr (setProps h o
                     (putProp k (mkDescriptor (DataSlot v true) (desc_enumerable old)
                                   (desc_configurable old)) (obj_props obj)))
          | DataSlot _ false => inl (TypeError "Cannot assign to read only property")
          | AccessorSlot _ => inl (TypeError "Cannot set property which has only a getter")
          end
      end
  end.

(** The names [for (var k in o)] goes through that are own properties of
    [o]: the enumerable ones, in the order of their creation. *)
Definition forInOwnKeys (h : Heap) (o : Loc) : list string :=
  match h !! o with
  | Some obj => (filter (λ kd, desc_enumerable kd.2 = true) (obj_props obj)).*1
  | None => []
  end.

(** [{}] *)
Definition emptyObject : JsObject := mkObject false [].

(** ** Heaps *)

(** The names of an object are distinct and its getters read older
    objects. *)
Definition propsOk (l : Loc) (props : list (string * Descriptor)) : Prop :=
  NoDup props.*1 ∧
  ∀ k d m k',
    (k, d) ∈ props → desc_slot d = AccessorSlot (Some (ReturnMember m k')) → m < l.

Definition heapOk (h : Heap) : Prop :=
  ∀ l o, h !! l = Some o → propsOk l (obj_props o).

(** The same, as a test. *)
Definition getterBelow (l : Loc) (d : Descriptor) : bool :=
  match desc_slot d with
  | AccessorSlot (Some (ReturnMember m _)) => bool_decide (m < l)
  | _ => true
  end.

Definition propsOkb (l : Loc) (props : list (string * Descriptor)) : bool :=
  bool_decide (NoDup props.*1) && forallb (λ kd, getterBelow l kd.2) props.

Fixpoint heapOkFrom (l : Loc) (h : Heap) : bool :=
  match h with
  | [] => true
  | o :: h' => propsOkb l (obj_props o) && heapOkFrom (S l) h'
  end.

Definition heapOkb (h : Heap) : bool := heapOkFrom 0 h.

(** The two heaps hold the same objects up to [l]. *)
Definition agreeUpTo (l : Loc) (h h' : Heap) : Prop := ∀ l', l' ≤ l → h !! l' = h' !! l'.

(** ** Properties of one object *)

Section props.
Implicit Types (k : string) (d : Descriptor) (props : list (string * Descriptor)).

Lemma findProp_nil k : findProp k [] = None.
Proof. done. Qed.

Lemma findProp_cons k k' d props :
  findProp k ((k', d) :: props) = if decide (k' = k) then Some d else findProp k props.
Proof. unfold findProp. simpl. by destruct (decide (k' = k)); simplify_eq/=;
  [rewrite bool_decide_eq_true_2|rewrite bool_decide_eq_false_2]. Qed.

Lemma findProp_None k props : findProp k props = None ↔ k ∉ props.*1.
Proof.
  induction props as [|[k' d] props IH]; [by rewrite findProp_nil; set_solver|].
  rewrite findProp_cons, fmap_cons, not_elem_of_cons. simpl.
  destruct (decide (k' = k)); naive_solver.
Qed.

Lemma findProp_Some k d props : findProp k props = Some d → (k, d) ∈ props.
Proof.
  induction props as [|[k' d'] props IH]; [done|]. rewrite findProp_cons.
  destruct (decide (k' = k)) as [->|]; [intros [= ->]; left|right; auto].
Qed.

Lemma findProp_app_l k props props' :
  k ∈ props.*1 → findProp k (props ++ props') = findProp k props.
Proof.
  induction props as [|[k' d] props IH]; [by intros ?%elem_of_nil|].
  simpl. rewrite !findProp_cons, elem_of_cons. simpl.
  destruct (decide (k' = k)); naive_solver.
Qed.

Lemma findProp_app_r k props props' :
  k ∉ props.*1 → findProp k (props ++ props') = findProp k props'.
Proof.
  induction props as [|[k' d] props IH]; [done|].
  simpl. rewrite findProp_cons, not_elem_of_cons. simpl.
  destruct (decide (k' = k)); naive_solver.
Qed.

(** A new name goes to the end. *)
Lemma putProp_fresh k d props : k ∉ props.*1 → putProp k d props = props ++ [(k, d)].
Proof.
  induction props as [|[k' d'] props IH]; [done|].
  rewrite fmap_cons, not_elem_of_cons. simpl. intros [Hk Hin].
  rewrite bool_decide_eq_false_2 by done. by rewrite IH.
Qed.

(** A name that is there keeps its place. *)
Lemma putProp_keys k d props : k ∈ props.*1 → (putProp k d props).*1 = props.*1.
Proof.
  induction props as [|[k' d'] props IH]; [by intros ?%elem_of_nil|].
  rewrite fmap_cons, elem_of_cons. simpl. intros Hk.
  destruct (decide (k' = k)) as [->|];
    [by rewrite bool_decide_eq_true_2|rewrite bool_decide_eq_false_2 by done].
  rewrite fmap_cons. simpl. f_equal. apply IH. naive_solver.
Qed.

Lemma findProp_putProp k d props : findProp k (putProp k d props) = Some d.
Proof.
  induction props as [|[k' d'] props IH]; simpl; [by rewrite findProp_cons, decide_True|].
  destruct (decide (k' = k)) as [->|];
    [rewrite bool_decide_eq_true_2 by done|rewrite bool_decide_eq_false_2 by done];
    rewrite findProp_cons; [by rewrite decide_True|by rewrite decide_False].
Qed.

Lemma findProp_putProp_ne k k' d props :
  k' ≠ k → findProp k' (putProp k d props) = findProp k' props.
Proof.
  intros Hne. induction props as [|[k0 d0] props IH]; simpl.
  - rewrite findProp_cons, decide_False; done.
  - destruct (decide (k0 = k)) as [->|];
      [rewrite bool_decide_eq_true_2 by done|rewrite bool_decide_eq_false_2 by done];
      rewrite !findProp_cons; [by rewrite !decide_False|by rewrite IH].
Qed.

Lemma elem_of_putProp k d k' d' props :
  (k', d') ∈ putProp k d props → (k', d') = (k, d) ∨ (k', d') ∈ props.
Proof.
  induction props as [|[k0 d0] props IH]; simpl; [set_solver|].
  destruct (bool_decide (k0 = k)); set_solver.
Qed.

End props.

Section heaps.
Implicit Types (h : Heap) (l m o : Loc) (k : string) (d : Descriptor) (v : JVal)
  (props : list (string * Descriptor)).

Lemma propsOk_nil l : propsOk l [].
Proof. split; [constructor|]. by intros ???? ?%elem_of_nil. Qed.

Lemma propsOk_mono l l' props : l ≤ l' → propsOk l props → propsOk l' props.
Proof.
  intros Hl [Hn Hg]. split; [done|]. intros k d m k' Hin Hs.
  specialize (Hg _ _ _ _ Hin Hs). lia.
Qed.

Lemma propsOk_putProp l k d props :
  propsOk l props →
  (∀ m k', desc_slot d = AccessorSlot (Some (ReturnMember m k')) → m < l) →
  propsOk l (putProp k d props).
Proof.
  intros [Hn Hg] Hd. split.
  - destruct (decide (k ∈ props.*1)); [by rewrite putProp_keys|].
    rewrite putProp_fresh, fmap_app by done. apply NoDup_app. split_and!; [done| |].
    + intros k' Hk' ->%list_elem_of_singleton. done.
    + apply NoDup_singleton.
  - intros k0 d0 m k' [[= -> ->]|Hin]%elem_of_putProp Hs; eauto.
Qed.

Lemma getOwnPropertyDescriptor_agree l h h' m k :
  agreeUpTo l h h' → m ≤ l → getOwnPropertyDescriptor h m k = getOwnPropertyDescriptor h' m k.
Proof. intros Ha Hm. unfold getOwnPropertyDescriptor. by rewrite (Ha m Hm). Qed.

Lemma getOwnPropertyDescriptor_propsOk h l k d :
  heapOk h → getOwnPropertyDescriptor h l k = Some d →
  ∀ m k', desc_slot d = AccessorSlot (Some (ReturnMember m k')) → m < l.
Proof.
  unfold getOwnPropertyDescriptor. intros Hh Hd m k' Hs.
  destruct (h !! l) as [obj|] eqn:Hl; [|done]. simpl in Hd.
  destruct (Hh l obj Hl) as [_ Hg]. eauto using findProp_Some.
Qed.

Lemma readFuel_S n h l k :
  readFuel (S n) h l k
  = match getOwnPropertyDescriptor h l k with
    | None => Some JUndefined
    | Some d =>
        match desc_slot d with
        | DataSlot v _ => Some v
        | AccessorSlot None => Some JUndefined
        | AccessorSlot (Some (ReturnMember m k')) => readFuel n h m k'
        end
    end.
Proof. done. Qed.

(** More fuel does not change a result. *)
Lemma readFuel_mono n n' h l k v :
  readFuel n h l k = Some v → n ≤ n' → readFuel n' h l k = Some v.
Proof.
  revert n' l k. induction n as [|n IH]; intros [|n'] l k; simpl; try done; [lia|].
  intros Hr Hn. destruct (getOwnPropertyDescriptor h l k) as [d|]; [|done].
  destruct (desc_slot d) as [|[[m k']|]]; try done. apply IH; [done|lia].
Qed.

(** In a well-formed heap a read ends: the depth of the getters of the
    object at [l] is at most [l]. *)
Lemma readFuel_enough h l k : heapOk h → is_Some (readFuel (S l) h l k).
Proof.
  intros Hh. revert k. induction (lt_wf l) as [l _ IH]. intros k. simpl.
  destruct (getOwnPropertyDescriptor h l k) as [d|] eqn:Hd; [|by eexists].
  destruct (desc_slot d) as [|[[m k']|]] eqn:Hs; try by eexists.
  pose proof (getOwnPropertyDescriptor_propsOk h l k d Hh Hd m k' Hs) as Hm.
  destruct (IH m Hm k') as [v Hv]. exists v. apply (readFuel_mono (S m)); [done|lia].
Qed.

Lemma read_total h l k : heapOk h → ∃ v, read h l k = inr v.
Proof. intros [v Hv]%(readFuel_enough h l k). exists v. unfold read. by rewrite Hv. Qed.

Lemma read_readFuel h l k v n :
  heapOk h → readFuel n h l k = Some v → read h l k = inr v.
Proof.
  intros Hh Hv. destruct (readFuel_enough h l k Hh) as [v' Hv']. unfold read. rewrite Hv'.
  destruct (Nat.le_ge_cases n (S l)).
  - rewrite (readFuel_mono _ _ _ _ _ _ Hv) in Hv' by done. by simplify_eq.
  - rewrite (readFuel_mono _ _ _ _ _ _ Hv') in Hv by done. by simplify_eq.
Qed.

(** What a read gives, by the kind of the property. *)
Lemma read_absent h l k : getOwnPropertyDescriptor h l k = None → read h l k = inr JUndefined.
Proof. unfold read. simpl. by intros ->. Qed.

Lemma read_data h l k d v w :
  getOwnPropertyDescriptor h l k = Some d → desc_slot d = DataSlot v w → read h l k = inr v.
Proof. unfold read. simpl. by intros -> ->. Qed.

Lemma read_getter h l k d m k' :
  heapOk h → getOwnPropertyDescriptor h l k = Some d →
  desc_slot d = AccessorSlot (Some (ReturnMember m k')) → read h l k = read h m k'.
Proof.
  intros Hh Hd Hs. destruct (read_total h m k' Hh) as [v Hv]. rewrite Hv.
  apply (read_readFuel h l k v (S (S m))); [done|]. rewrite readFuel_S, Hd, Hs.
  unfold read in Hv. by destruct (readFuel (S m) h m k'); simplify_eq.
Qed.

(** A read of the object at [l] looks at objects up to [l] only. *)
Lemma readFuel_agree n h h' l k :
  heapOk h → agreeUpTo l h h' → readFuel n h l k = readFuel n h' l k.
Proof.
  intros Hh. revert l k. induction n as [|n IH]; intros l k Ha; [done|]. simpl.
  rewrite <-(getOwnPropertyDescriptor_agree l h h') by done.
  destruct (getOwnPropertyDescriptor h l k) as [d|] eqn:Hd; [|done].
  destruct (desc_slot d) as [|[[m k']|]] eqn:Hs; try done.
  pose proof (getOwnPropertyDescriptor_propsOk h l k d Hh Hd m k' Hs) as Hm.
  apply IH. intros l' Hl'. apply Ha. lia.
Qed.

Lemma read_agree h h' l k : heapOk h → agreeUpTo l h h' → read h l k = read h' l k.
Proof. intros Hh Ha. unfold read. by rewrite (readFuel_agree _ h h'). Qed.

(** Changing one object. *)
Lemma lookup_setProps h o props l :
  setProps h o props !! l
  = if decide (o = l) then (λ obj, mkObject (obj_callable obj) props) <$> h !! o
    else h !! l.
Proof.
  unfold setProps. destruct (decide (o = l)) as [->|];
    [by rewrite list_lookup_alter_eq|by rewrite list_lookup_alter_ne].
Qed.

Lemma setProps_setProps h o props props' :
  setProps (setProps h o props) o props' = setProps h o props'.
Proof. unfold setProps. by rewrite list_alter_alter_eq. Qed.

Lemma agreeUpTo_setProps l h o props : l < o → agreeUpTo l h (setProps h o props).
Proof. intros Hl l' Hl'. rewrite lookup_setProps, decide_False; [done|lia]. Qed.

Lemma heapOk_setProps h o props : heapOk h → propsOk o props → heapOk (setProps h o props).
Proof.
  intros Hh Hp l obj. rewrite lookup_setProps. destruct (decide (o = l)) as [->|]; [|apply Hh].
  destruct (h !! l); intros [= <-]. done.
Qed.

Lemma agreeUpTo_alloc l h obj : l < length h → agreeUpTo l h (h ++ [obj]).
Proof. intros Hl l' Hl'. rewrite lookup_app_l; [done|lia]. Qed.

Lemma heapOk_alloc h : heapOk h → heapOk (h ++ [emptyObject]).
Proof.
  intros Hh l obj [Hl|[_ Hl]]%lookup_app_Some; [by apply Hh|].
  apply list_lookup_singleton_Some in Hl as [_ <-]. apply propsOk_nil.
Qed.

Lemma heapOk_snoc h obj : heapOk h → propsOk (length h) (obj_props obj) → heapOk (h ++ [obj]).
Proof.
  intros Hh Hp l o [Hl|[Hge Hl]]%lookup_app_Some; [by apply Hh|].
  apply list_lookup_singleton_Some in Hl as [Hl <-].
  by replace l with (length h) by lia.
Qed.

Lemma agreeUpTo_trans l h1 h2 h3 : agreeUpTo l h1 h2 → agreeUpTo l h2 h3 → agreeUpTo l h1 h3.
Proof. intros H12 H23 l' Hl'. by rewrite H12, H23. Qed.

Lemma setProps_alloc h obj props :
  setProps (h ++ [obj]) (length h) props = h ++ [mkObject (obj_callable obj) props].
Proof.
  unfold setProps. by rewrite <-(Nat.add_0_r (length h)), alter_app_r.
Qed.

Lemma alloc_setProps h : h ++ [emptyObject] = setProps (h ++ [emptyObject]) (length h) [].
Proof. by rewrite setProps_alloc. Qed.

End heaps.

(** ** Enumeration *)

Section enumeration.
Implicit Types (h : Heap) (l m : Loc) (k : string) (d : Descriptor)
  (props : list (string * Descriptor)).

Lemma findProp_NoDup k d props : NoDup props.*1 → (k, d) ∈ props → findProp k props = Some d.
Proof.
  induction props as [|[k' d'] props IH]; [by intros _ ?%elem_of_nil|].
  rewrite fmap_cons, NoDup_cons, elem_of_cons, findProp_cons. simpl.
  intros [Hk Hn] [[= <- <-]|Hin]; [by rewrite decide_True|].
  rewrite decide_False; [by apply IH|]. intros ->. apply Hk.
  by apply (list_elem_of_fmap_2 fst _ (k, d)).
Qed.

Lemma findProp_fmap (f : string → Descriptor) k keys :
  findProp k ((λ k, (k, f k)) <$> keys) = if decide (k ∈ keys) then Some (f k) else None.
Proof.
  induction keys as [|k' keys IH]; [done|]. rewrite fmap_cons, findProp_cons, IH.
  destruct (decide (k' = k)) as [->|]; [by rewrite decide_True by left|].
  destruct (decide (k ∈ keys)); [by rewrite decide_True by (by right)|].
  rewrite decide_False; [done|]. by intros [?|?]%elem_of_cons.
Qed.

Lemma fmap_fst_bindings (f : string → Descriptor) keys : ((λ k, (k, f k)) <$> keys).*1 = keys.
Proof. rewrite <-list_fmap_compose. apply list_fmap_id. Qed.

Lemma forInOwnKeys_NoDup h m : heapOk h → NoDup (forInOwnKeys h m).
Proof.
  intros Hh. unfold forInOwnKeys. destruct (h !! m) as [obj|] eqn:Hm; [|constructor].
  destruct (Hh m obj Hm) as [Hn _]. eapply sublist_NoDup; [exact Hn|].
  apply fmap_sublist, sublist_filter.
Qed.

Lemma forInOwnKeys_enumerable h m k :
  k ∈ forInOwnKeys h m →
  ∃ d, (k, d) ∈ from_option obj_props [] (h !! m) ∧ desc_enumerable d = true.
Proof.
  unfold forInOwnKeys. destruct (h !! m) as [obj|]; [|by intros ?%elem_of_nil].
  intros ([k' d] & -> & [Hin He]%list_elem_of_filter)%list_elem_of_fmap. eauto.
Qed.

Lemma forInOwnKeys_agree h h' m : agreeUpTo m h h' → forInOwnKeys h m = forInOwnKeys h' m.
Proof. intros Ha. unfold forInOwnKeys. by rewrite (Ha m). Qed.

(** The descriptor of a name [for-in] lists is enumerable. *)
Lemma forInOwnKeys_descriptor h m k :
  heapOk h → k ∈ forInOwnKeys h m →
  ∃ d, getOwnPropertyDescriptor h m k = Some d ∧ desc_enumerable d = true.
Proof.
  intros Hh (d & Hin & He)%forInOwnKeys_enumerable. exists d. split; [|done].
  unfold getOwnPropertyDescriptor. destruct (h !! m) as [obj|] eqn:Hm;
    [|by apply elem_of_nil in Hin].
  destruct (Hh m obj Hm) as [Hn _]. by apply findProp_NoDup.
Qed.

(** The own properties of an object depend on that object only. *)
Lemma getOwnPropertyDescriptor_lookup h h' l k :
  h' !! l = h !! l → getOwnPropertyDescriptor h' l k = getOwnPropertyDescriptor h l k.
Proof. unfold getOwnPropertyDescriptor. by intros ->. Qed.

Lemma forInOwnKeys_lookup h h' l : h' !! l = h !! l → forInOwnKeys h' l = forInOwnKeys h l.
Proof. unfold forInOwnKeys. by intros ->. Qed.

Lemma elem_of_forInOwnKeys h m k d :
  getOwnPropertyDescriptor h m k = Some d → desc_enumerable d = true → k ∈ forInOwnKeys h m.
Proof.
  unfold getOwnPropertyDescriptor, forInOwnKeys. destruct (h !! m) as [obj|]; [simpl|done].
  intros Hd%findProp_Some He. apply list_elem_of_fmap. exists (k, d).
  by rewrite list_elem_of_filter.
Qed.

Lemma forInOwnKeys_owned h m k :
  k ∈ forInOwnKeys h m → is_Some (getOwnPropertyDescriptor h m k).
Proof.
  unfold getOwnPropertyDescriptor, forInOwnKeys. destruct (h !! m) as [obj|];
    [simpl|by intros ?%elem_of_nil].
  intros ([k' d] & -> & [_ Hin]%list_elem_of_filter)%list_elem_of_fmap.
  apply not_eq_None_Some. rewrite findProp_None. intros [].
  by apply (list_elem_of_fmap_2 fst _ (k', d)).
Qed.

(** Where every property is enumerable, [for-in] lists them all. *)
Lemma forInOwnKeys_all h l obj :
  h !! l = Some obj → (∀ k d, (k, d) ∈ obj_props obj → desc_enumerable d = true) →
  forInOwnKeys h l = (obj_props obj).*1.
Proof.
  intros Hl He. unfold forInOwnKeys. rewrite Hl. f_equal.
  apply list_filter_all, Forall_forall. intros [k d] Hin. by apply (He k).
Qed.

End enumeration.

(** ** Definitions and assignments *)

Section assignments.
Implicit Types (h : Heap) (l o m r : Loc) (k : string) (d : Descriptor) (v : JVal).

(** An assignment that succeeds leaves a writable data property. *)
Lemma assign_inr h o k v h' :
  assign h o k v = inr h' →
  ∃ obj d, h !! o = Some obj ∧ h' = setProps h o (putProp k d (obj_props obj))
    ∧ desc_slot d = DataSlot v true.
Proof.
  unfold assign. destruct (h !! o) as [obj|]; [|done].
  destruct (findProp k (obj_props obj)) as [old|];
    [destruct (desc_slot old) as [? []|]|]; intros [= <-];
    eexists _, _; split_and!; reflexivity.
Qed.

Lemma heapOk_assign h o k v h' : heapOk h → assign h o k v = inr h' → heapOk h'.
Proof.
  intros Hh (obj & d & Ho & -> & Hs)%assign_inr. apply heapOk_setProps; [done|].
  apply propsOk_putProp; [by apply Hh|]. intros m k'. by rewrite Hs.
Qed.

Lemma lookup_assign_ne h o k v h' l : assign h o k v = inr h' → l ≠ o → h' !! l = h !! l.
Proof.
  intros (obj & d & Ho & -> & Hs)%assign_inr Hl. by rewrite lookup_setProps, decide_False.
Qed.

Lemma read_assign h o k v h' : assign h o k v = inr h' → read h' o k = inr v.
Proof.
  intros (obj & d & Ho & -> & Hs)%assign_inr. apply (read_data _ o k d v true); [|done].
  unfold getOwnPropertyDescriptor. rewrite lookup_setProps, decide_True, Ho by done.
  apply findProp_putProp.
Qed.

(** Only a writable data property can be assigned to. *)
Lemma assign_writable h o k v h' d :
  assign h o k v = inr h' → getOwnPropertyDescriptor h o k = Some d →
  ∃ old, desc_slot d = DataSlot old true.
Proof.
  unfold assign, getOwnPropertyDescriptor. destruct (h !! o) as [obj|]; [simpl|done].
  intros Ha Hd. rewrite Hd in Ha. destruct (desc_slot d) as [old []|]; eauto; done.
Qed.

Lemma defineProperty_fresh h r obj k d :
  h !! r = Some obj → k ∉ (obj_props obj).*1 →
  defineProperty h r k d = inr (setProps h r (obj_props obj ++ [(k, d)])).
Proof.
  intros Hr Hk. unfold defineProperty. rewrite Hr.
  rewrite (proj2 (findProp_None _ _) Hk). by rewrite putProp_fresh.
Qed.

Lemma assign_fresh h r obj k v :
  h !! r = Some obj → k ∉ (obj_props obj).*1 →
  assign h r k v = inr (setProps h r (obj_props obj ++ [(k, plain v)])).
Proof.
  intros Hr Hk. unfold assign. rewrite Hr.
  rewrite (proj2 (findProp_None _ _) Hk). by rewrite putProp_fresh.
Qed.

End assignments.

(** ** The invariant as a test *)

Section decide.
Implicit Types (h : Heap) (l : Loc) (props : list (string * Descriptor)).

Lemma propsOkb_spec l props : propsOkb l props = true ↔ propsOk l props.
Proof.
  unfold propsOkb, propsOk. rewrite andb_true_iff, bool_decide_eq_true, forallb_forall.
  apply and_iff_compat_l. split.
  - intros Hall k d m k' Hin%list_elem_of_In Hs. specialize (Hall _ Hin).
    unfold getterBelow in Hall. simpl in Hall. rewrite Hs in Hall.
    by apply bool_decide_eq_true in Hall.
  - intros Hall [k d] Hin%list_elem_of_In. unfold getterBelow. simpl.
    destruct (desc_slot d) as [|[[m k']|]] eqn:Hs; [done| |done].
    apply bool_decide_eq_true. by eapply Hall.
Qed.

Lemma heapOkFrom_spec l h :
  heapOkFrom l h = true ↔ ∀ i o, h !! i = Some o → propsOk (l + i) (obj_props o).
Proof.
  revert l. induction h as [|o h IH]; intros l; [done|]. simpl.
  rewrite andb_true_iff, propsOkb_spec, IH. split.
  - intros [Ho Hh] [|i] o'; [intros [= <-]; by rewrite Nat.add_0_r|].
    rewrite Nat.add_succ_r. apply Hh.
  - intros Hall. split; [rewrite <-(Nat.add_0_r l); by apply Hall|].
    intros i o' Hi. replace (S l + i) with (l + S i) by lia. by apply Hall.
Qed.

Lemma heapOkb_spec h : heapOkb h = true ↔ heapOk h.
Proof. apply heapOkFrom_spec. Qed.

#[global] Instance heapOk_dec h : Decision (heapOk h).
Proof.
  refine (cast_if (decide (heapOkb h = true))); abstract (by rewrite <-heapOkb_spec).
Defined.

End decide.
