(* ===== verification/Interop.v ===== *)
(** * Interop: the import helpers of the compiled router

    [dist/routes/posts.js] opens with the helpers the TypeScript compiler
    emits for [import * as postsController from ...]: [__createBinding],
    [__setModuleDefault] and [__importStar] (lines 2-24).  [__importStar]
    returns a module that is marked [__esModule] as it is, and otherwise
    builds a new object that has one property for each enumerable own
    property of the module but [default], and the module itself as
    [default].

    The property [__createBinding] defines is a getter that reads the
    module when the property is read, so that the new object follows the
    module when the module changes.  The variant of the helpers for engines
    without [Object.create] copies the value instead.  Both are modelled,
    selected by a boolean, on the objects of [JsHeap]. *)

From S2P Require Import Prelude ObjectId Store Program JsHeap Router.
From stdpp Require Import list sets.

(** ** The helpers *)

(** [(this && this.__helper) || fallback]: at the top of a CommonJS module
    [this] is the new [exports] object, which has no such member. *)
Definition helperOr {A} (existing : option A) (fallback : A) : A := default fallback existing.

(** The descriptor of line 6: [{ enumerable: true, get: function() { return
    m[k]; } }]. *)
Definition liveBinding (m : Loc) (k : string) : Descriptor :=
  mkDescriptor (AccessorSlot (Some (ReturnMember m k))) true false.

(** The condition of line 5: the descriptor of [m[k]] is replaced by the
    getter unless it is a data property that can never change, or an
    accessor of a module marked [__esModule]. *)
Definition replacesDescriptor (h : Heap) (m : Loc) (desc : option Descriptor)
  : JsError + bool :=
  match desc with
  | None => inr true
  | Some d =>
      match desc_slot d with
      | AccessorSlot _ => esm ← read h m "__esModule"; inr (negb (toBoolean esm))
      | DataSlot _ writable => inr (writable || desc_configurable d)
      end
  end.

(** [__createBinding] where [Object.create] exists (lines 2-8). *)
Definition createBinding_define (h : Heap) (o m : Loc) (k : string) (k2 : option string)
  : JsError + Heap :=
  let k2 := default k k2 in
  let desc := getOwnPropertyDescriptor h m k in
  replacesDescriptor h m desc ≫= λ replaces : bool,
  defineProperty h o k2 (if replaces then liveBinding m k else default (liveBinding m k) desc).

(** [__createBinding] where it does not (lines 9-12). *)
Definition createBinding_assign (h : Heap) (o m : Loc) (k : string) (k2 : option string)
  : JsError + Heap :=
  let k2 := default k k2 in
  v ← read h m k; assign h o k2 v.

Definition createBinding (objectCreate : bool)
  : Heap → Loc → Loc → string → option string → JsError + Heap :=
  helperOr None (if objectCreate then createBinding_define else createBinding_assign).

(** [__setModuleDefault] (lines 13-17). *)
Definition setModuleDefault (objectCreate : bool) : Heap → Loc → JVal → JsError + Heap :=
  helperOr None
    (if objectCreate
     then λ h o v, defineProperty h o "default" (mkDescriptor (DataSlot v false) true false)
     else λ h o v, assign h o "default" v).

(** The loop of line 21. *)
Fixpoint bindAll (objectCreate : bool) (h : Heap) (result m : Loc) (keys : list string)
  : JsError + Heap :=
  match keys with
  | [] => inr h
  | k :: keys' =>
      if bool_decide (k ≠ "default")
      then h' ← createBinding objectCreate h result m k None;
           bindAll objectCreate h' result m keys'
      else bindAll objectCreate h result m keys'
  end.

(** [__importStar] (lines 18-24).  The result is the value returned and
    the heap it leaves. *)
Definition importStar (objectCreate : bool) (h : Heap) (md : JVal) : JsError + (JVal * Heap) :=
  (if toBoolean md then getMember h md "__esModule" else inr md) ≫= λ esm : JVal,
  if toBoolean esm then inr (md, h)
  else
    let result := length h in
    let h1 := h ++ [emptyObject] in
    h2 ← match md with
         | JRef m => bindAll objectCreate h1 result m (forInOwnKeys h1 m)
         | _ => inr h1
         end;
    h3 ← setModuleDefault objectCreate h2 result md;
    inr (JRef result, h3).

(** ** The body of the module *)

(** What loading the module can throw: an error of JavaScript, or the one
    Express raises for a route without a callback. *)
Inductive ModuleError :=
| Js (e : JsError)
| Express (e : LoadError).

Definition liftJs {A} (x : JsError + A) : ModuleError + A :=
  match x with inl e => inl (Js e) | inr a => inr a end.

Definition liftExpress {A} (x : LoadError + A) : ModuleError + A :=
  match x with inl e => inl (Express e) | inr a => inr a end.

(** The descriptor of line 25, [{ value: true }]: what is not given is
    [false]. *)
Definition esModuleMark : Descriptor := mkDescriptor (DataSlot (JBool true) false) false false.

(** The prologue of a module compiled from TypeScript: the mark, and the
    exported name not yet defined. *)
Definition declareExport (name : string) (h : Heap) (exports : Loc) : JsError + Heap :=
  h ← defineProperty h exports "__esModule" esModuleMark;
  assign h exports name JUndefined.

(** [exports.name = f(...)], where the call returns a new function
    object. *)
Definition exportFunction (name : string) (h : Heap) (exports : Loc) : JsError + Heap :=
  assign (h ++ [mkObject true []]) exports name (JRef (length h)).

(** The properties of the [exports] of such a module. *)
Definition exportsOf (name : string) (v : JVal) : list (string * Descriptor) :=
  [("__esModule", esModuleMark); (name, plain v)].

(** What such a module exports when it has loaded: the mark, and a
    function object under its name. *)
Definition exportedAs (name : string) (h : Heap) (exports : Loc) : Prop :=
  ∃ f, h !! exports = Some (mkObject false (exportsOf name (JRef f)))
    ∧ h !! f = Some (mkObject true []).

(** Lines 25 and 26: the mark, and [postsRouter] not yet defined. *)
Definition markModule : Heap → Loc → JsError + Heap := declareExport "postsRouter".

(** Line 29: the router [Router()] returns is a new function object. *)
Definition exportRouter : Heap → Loc → JsError + Heap := exportFunction "postsRouter".

(** The properties of [exports] after lines 25 and 26, and after line 29,
    and what the module exports when it has loaded. *)
Definition exportsProps : JVal → list (string * Descriptor) := exportsOf "postsRouter".
Definition exported : Heap → Loc → Prop := exportedAs "postsRouter".

Section module.
Context `{ObjectIdLib}.

(** [typeof v === 'function'], as Express tests a handler: the handler
    the router calls is the function object's, [interp] of its location. *)
Definition callbackOf (interp : Loc → RouteHandler) (h : Heap) (v : JVal)
  : option RouteHandler :=
  match v with
  | JRef l => o ← h !! l; if obj_callable o then Some (interp l) else None
  | _ => None
  end.

(** Lines 25-42.  [exports] is the module's own object and [controller]
    what [require("../controllers/posts_controller")] returns.  The router
    [Router()] returns is a new function object; its routes are the
    [Router] of the registrations.  The registrations before line 36 take
    function expressions and cannot fail, so the member read of line 36 is
    the first thing that can. *)
Definition postsModule (objectCreate : bool) (interp : Loc → RouteHandler)
    (h : Heap) (exports : Loc) (controller : JVal) : ModuleError + (Router * Heap) :=
  h ← liftJs (markModule h exports);
  liftJs (importStar objectCreate h controller) ≫= λ '(postsController, h),
  h ← liftJs (exportRouter h exports);
  postNewArticle ← liftJs (getMember h postsController "postNewArticle");
  routes ← liftExpress (postsRouter (callbackOf interp h postNewArticle));
  inr (routes, h).

End module.

(** ** What the helpers do *)

(** The property [__createBinding] defines for the name [k] of the module
    [m], where [Object.create] exists: a getter on the module, unless the
    property of the module can never change. *)
Definition boundAs (esModule : bool) (h : Heap) (m : Loc) (k : string) : Descriptor :=
  match getOwnPropertyDescriptor h m k with
  | None => liveBinding m k
  | Some d =>
      match desc_slot d with
      | DataSlot _ writable => if writable || desc_configurable d then liveBinding m k else d
      | AccessorSlot _ => if esModule then d else liveBinding m k
      end
  end.

(** The value of [m[k]], [undefined] when the read fails. *)
Definition valueOf (h : Heap) (m : Loc) (k : string) : JVal :=
  match read h m k with
  | inr v => v
  | inl _ => JUndefined
  end.

(** The property [default] of the new object. *)
Definition defaultBinding (objectCreate : bool) (md : JVal) : Descriptor :=
  if objectCreate then mkDescriptor (DataSlot md false) true false else plain md.

(** The properties of the object [__importStar] builds for the module [m]. *)
Definition starProps (objectCreate : bool) (h : Heap) (m : Loc) : list (string * Descriptor) :=
  ((λ k, (k, if objectCreate then boundAs false h m k else plain (valueOf h m k)))
     <$> filter (λ k, k ≠ "default") (forInOwnKeys h m))
  ++ [("default", defaultBinding objectCreate (JRef m))].

Section helpers.
Implicit Types (h : Heap) (l m r : Loc) (k : string) (d : Descriptor) (v : JVal)
  (props : list (string * Descriptor)).

Section bindings.
Context (h0 : Heap) (r m : Loc) (obj : JsObject) (esm : JVal).
Context (Hh : heapOk h0) (Hr : h0 !! r = Some obj) (Hm : m < r).
Context (Hesm : read h0 m "__esModule" = inr esm).

Lemma lookup_setProps_result props :
  setProps h0 r props !! r = Some (mkObject (obj_callable obj) props).
Proof using Hr. by rewrite lookup_setProps, decide_True, Hr. Qed.

Lemma read_module props k : read (setProps h0 r props) m k = read h0 m k.
Proof using Hh Hm. symmetry. by apply read_agree, agreeUpTo_setProps. Qed.

Lemma descriptor_module props k :
  getOwnPropertyDescriptor (setProps h0 r props) m k = getOwnPropertyDescriptor h0 m k.
Proof using Hm.
  symmetry. apply (getOwnPropertyDescriptor_agree m); [by apply agreeUpTo_setProps|done].
Qed.

Lemma defineProperty_result props k d :
  k ∉ props.*1 →
  defineProperty (setProps h0 r props) r k d = inr (setProps h0 r (props ++ [(k, d)])).
Proof using Hr.
  intros Hk. rewrite (defineProperty_fresh _ _ _ _ _ (lookup_setProps_result props)) by done.
  cbn [obj_props]. by rewrite setProps_setProps.
Qed.

Lemma assign_result props k v :
  k ∉ props.*1 →
  assign (setProps h0 r props) r k v = inr (setProps h0 r (props ++ [(k, plain v)])).
Proof using Hr.
  intros Hk. rewrite (assign_fresh _ _ _ _ _ (lookup_setProps_result props)) by done.
  cbn [obj_props]. by rewrite setProps_setProps.
Qed.

(** One binding, where [Object.create] exists. *)
Lemma createBinding_define_fresh props k :
  k ∉ props.*1 →
  createBinding true (setProps h0 r props) r m k None
  = inr (setProps h0 r (props ++ [(k, boundAs (toBoolean esm) h0 m k)])).
Proof using Hh Hr Hm Hesm.
  intros Hk. unfold createBinding, helperOr, createBinding_define, boundAs. cbn [default].
  rewrite descriptor_module. unfold replacesDescriptor. rewrite read_module, Hesm.
  destruct (getOwnPropertyDescriptor h0 m k) as [d|]; [destruct (desc_slot d) as [v w|g]|];
    cbn [mbind sum_bind mret sum_ret default];
    [destruct (w || desc_configurable d)|destruct (toBoolean esm)|];
    cbn [negb]; by apply defineProperty_result.
Qed.

(** One binding, where it does not. *)
Lemma createBinding_assign_fresh props k :
  k ∉ props.*1 →
  createBinding false (setProps h0 r props) r m k None
  = inr (setProps h0 r (props ++ [(k, plain (valueOf h0 m k))])).
Proof using Hh Hr Hm.
  intros Hk. unfold createBinding, helperOr, createBinding_assign, valueOf. cbn [default].
  rewrite read_module. destruct (read_total h0 m k Hh) as [v ->]. cbn [mbind sum_bind].
  by apply assign_result.
Qed.

(** The loop: one binding for each name but [default], in order. *)
Lemma bindAll_fresh objectCreate (bind : string → Descriptor) keys props :
  (∀ props k, k ∉ props.*1 →
     createBinding objectCreate (setProps h0 r props) r m k None
     = inr (setProps h0 r (props ++ [(k, bind k)]))) →
  NoDup keys → (∀ k, k ∈ keys → k ∉ props.*1) →
  bindAll objectCreate (setProps h0 r props) r m keys
  = inr (setProps h0 r
           (props ++ ((λ k, (k, bind k)) <$> filter (λ k, k ≠ "default") keys))).
Proof.
  intros Hbind. revert props.
  induction keys as [|k keys IH]; intros props Hn Hfresh; [by rewrite app_nil_r|].
  apply NoDup_cons in Hn as [Hk Hn]. cbn [bindAll].
  destruct (decide (k ≠ "default")) as [Hd|Hd].
  - rewrite bool_decide_eq_true_2, filter_cons_True by done.
    rewrite Hbind by (apply Hfresh; left). cbn [mbind sum_bind].
    rewrite IH; [by rewrite <-app_assoc|done|].
    intros k' Hk'. rewrite fmap_app, elem_of_app. cbn [fmap list_fmap fst].
    rewrite list_elem_of_singleton. intros [?| ->]; [by eapply Hfresh; [right|]|done].
  - rewrite bool_decide_eq_false_2, filter_cons_False by done.
    apply IH; [done|]. intros k' Hk'. apply Hfresh. by right.
Qed.

End bindings.
End helpers.

(** ** [__importStar] *)

Section importStar.
Implicit Types (h : Heap) (l m r : Loc) (k : string) (d : Descriptor) (v md : JVal)
  (props : list (string * Descriptor)) (objectCreate : bool).

Lemma boundAs_agree e h h' m k : agreeUpTo m h h' → boundAs e h m k = boundAs e h' m k.
Proof.
  intros Ha. unfold boundAs. by rewrite (getOwnPropertyDescriptor_agree m h h').
Qed.

Lemma valueOf_agree h h' m k : heapOk h → agreeUpTo m h h' → valueOf h m k = valueOf h' m k.
Proof. intros Hh Ha. unfold valueOf. by rewrite (read_agree h h'). Qed.

Lemma not_elem_of_bindings (bind : string → Descriptor) keys :
  "default" ∉ ((λ k, (k, bind k)) <$> filter (λ k, k ≠ "default") keys).*1.
Proof.
  rewrite <-list_fmap_compose. intros (k & -> & [Hk _]%list_elem_of_filter)%list_elem_of_fmap.
  done.
Qed.

(** The object [__importStar] builds for a module that is an object and
    is not marked [__esModule]. *)
Lemma importStar_object objectCreate h m obj esm :
  heapOk h → h !! m = Some obj →
  read h m "__esModule" = inr esm → toBoolean esm = false →
  importStar objectCreate h (JRef m)
  = inr (JRef (length h), h ++ [mkObject false (starProps objectCreate h m)]).
Proof.
  intros Hh Hm Hesm He. pose proof (lookup_lt_Some _ _ _ Hm) as Hlt.
  assert (agreeUpTo m h (h ++ [emptyObject])) as Ha by by apply agreeUpTo_alloc.
  unfold importStar. cbn [toBoolean getMember]. rewrite Hesm. cbn [mbind sum_bind].
  rewrite He. rewrite <-(forInOwnKeys_agree h) by done. rewrite (alloc_setProps h).
  rewrite (bindAll_fresh (h ++ [emptyObject]) (length h) m objectCreate
             (λ k, if objectCreate then boundAs false h m k else plain (valueOf h m k))).
  - cbn [mbind sum_bind app]. unfold setModuleDefault, helperOr, starProps, defaultBinding.
    cbn [default]. destruct objectCreate.
    + rewrite (defineProperty_result _ _ emptyObject)
        by (by apply list_lookup_middle || apply not_elem_of_bindings).
      cbn [mbind sum_bind]. by rewrite setProps_alloc.
    + rewrite (assign_result _ _ emptyObject)
        by (by apply list_lookup_middle || apply not_elem_of_bindings).
      cbn [mbind sum_bind]. by rewrite setProps_alloc.
  - intros props k Hk. destruct objectCreate.
    + rewrite (boundAs_agree false h (h ++ [emptyObject])), <-He by done.
      eapply createBinding_define_fresh;
        [by apply heapOk_alloc|by apply list_lookup_middle|done| |done].
      by rewrite <-(read_agree h).
    + rewrite (valueOf_agree h (h ++ [emptyObject])) by done.
      eapply createBinding_assign_fresh;
        [by apply heapOk_alloc|by apply list_lookup_middle|done..].
  - by apply forInOwnKeys_NoDup.
  - by intros k _ ?%elem_of_nil.
Qed.

(** A module marked [__esModule] is returned as it is, and nothing is
    built. *)
Lemma importStar_marked objectCreate h md esm :
  toBoolean md = true → getMember h md "__esModule" = inr esm → toBoolean esm = true →
  importStar objectCreate h md = inr (md, h).
Proof.
  intros Hmd Hesm He. unfold importStar. rewrite Hmd, Hesm. cbn [mbind sum_bind].
  by rewrite He.
Qed.

(** [__setModuleDefault] on an object that has no [default]. *)
Lemma setModuleDefault_fresh objectCreate h props md :
  "default" ∉ props.*1 →
  setModuleDefault objectCreate (h ++ [mkObject false props]) (length h) md
  = inr (h ++ [mkObject false (props ++ [("default", defaultBinding objectCreate md)])]).
Proof.
  intros Hd. unfold setModuleDefault, helperOr, defaultBinding. cbn [default].
  pose proof (list_lookup_middle h [] (mkObject false props) _ eq_refl) as Hl.
  destruct objectCreate;
    [rewrite (defineProperty_fresh _ _ _ _ _ Hl) by done
    |rewrite (assign_fresh _ _ _ _ _ Hl) by done]; by rewrite setProps_alloc.
Qed.

(** What is not an object of the heap has no names to bind: the new
    object has [default] only. *)
Lemma importStar_primitive objectCreate h md :
  (∀ m, md = JRef m → h !! m = None) →
  importStar objectCreate h md
  = inr (JRef (length h),
         h ++ [mkObject false [("default", defaultBinding objectCreate md)]]).
Proof.
  intros Hmd. unfold importStar.
  assert (∃ esm, (if toBoolean md then getMember h md "__esModule" else inr md) = inr esm
                 ∧ toBoolean esm = false) as (esm & -> & He).
  { destruct md as [| |[]|n|m]; cbn [toBoolean getMember]; eauto.
    - destruct (negb (n =? 0)%Z) eqn:Hn; [eauto|]. by exists (JNumber n).
    - exists JUndefined. split; [|done]. apply read_absent. unfold getOwnPropertyDescriptor.
      by rewrite (Hmd m). }
  cbn [mbind sum_bind]. rewrite He.
  assert (match md with
          | JRef m => bindAll objectCreate (h ++ [emptyObject]) (length h) m
                        (forInOwnKeys (h ++ [emptyObject]) m)
          | _ => inr (h ++ [emptyObject])
          end = inr (h ++ [emptyObject])) as ->.
  { destruct md as [| | | |m]; try done. unfold forInOwnKeys.
    destruct ((h ++ [emptyObject]) !! m) as [o|] eqn:Hm; [|done].
    apply lookup_app_Some in Hm as [Hm|[_ Hm]]; [by rewrite (Hmd m) in Hm|].
    by apply list_lookup_singleton_Some in Hm as [_ <-]. }
  cbn [mbind sum_bind]. unfold emptyObject.
  by rewrite (setModuleDefault_fresh objectCreate h []) by apply not_elem_of_nil.
Qed.

End importStar.

(** ** The imported object *)

Section imported.
Implicit Types (h : Heap) (l m r : Loc) (k : string) (d : Descriptor) (v md : JVal)
  (props : list (string * Descriptor)) (objectCreate : bool).

Lemma starProps_keys objectCreate h m :
  (starProps objectCreate h m).*1
  = filter (λ k, k ≠ "default") (forInOwnKeys h m) ++ ["default"].
Proof. unfold starProps. by rewrite fmap_app, fmap_fst_bindings. Qed.

Lemma findProp_starProps objectCreate h m k :
  k ∈ forInOwnKeys h m → k ≠ "default" →
  findProp k (starProps objectCreate h m)
  = Some (if objectCreate then boundAs false h m k else plain (valueOf h m k)).
Proof.
  intros Hk Hd. unfold starProps.
  rewrite findProp_app_l by (by rewrite fmap_fst_bindings, list_elem_of_filter).
  by rewrite findProp_fmap, decide_True by (by rewrite list_elem_of_filter).
Qed.

Lemma findProp_starProps_default objectCreate h m :
  findProp "default" (starProps objectCreate h m)
  = Some (defaultBinding objectCreate (JRef m)).
Proof.
  unfold starProps. rewrite findProp_app_r by apply not_elem_of_bindings.
  by rewrite findProp_cons, decide_True.
Qed.

(** A name the module does not list is not a name of the new object. *)
Lemma findProp_starProps_None objectCreate h m k :
  k ∉ forInOwnKeys h m → k ≠ "default" → findProp k (starProps objectCreate h m) = None.
Proof.
  intros Hk Hd. apply findProp_None. rewrite starProps_keys, elem_of_app.
  rewrite list_elem_of_filter, list_elem_of_singleton. tauto.
Qed.

Lemma boundAs_enumerable h m k :
  heapOk h → k ∈ forInOwnKeys h m → desc_enumerable (boundAs false h m k) = true.
Proof.
  intros Hh (d & Hd & He)%forInOwnKeys_descriptor; [|done]. unfold boundAs. rewrite Hd.
  by destruct (desc_slot d) as [v w|g]; [destruct (w || desc_configurable d)|].
Qed.

(** The getters of the new object read the module. *)
Lemma boundAs_getter h m k m' k' :
  desc_slot (boundAs false h m k) = AccessorSlot (Some (ReturnMember m' k')) → m' = m.
Proof.
  unfold boundAs. destruct (getOwnPropertyDescriptor h m k) as [d|];
    [destruct (desc_slot d) as [v w|g] eqn:Hs; [destruct (w || desc_configurable d)|]|];
    cbn; congruence.
Qed.

Lemma starProps_ok objectCreate h m :
  heapOk h → m < length h → propsOk (length h) (starProps objectCreate h m).
Proof.
  intros Hh Hm. split.
  - rewrite starProps_keys. apply NoDup_app. split_and!.
    + by apply NoDup_filter, forInOwnKeys_NoDup.
    + by intros k [Hk _]%list_elem_of_filter ->%list_elem_of_singleton.
    + apply NoDup_singleton.
  - unfold starProps. intros k d m' k' [Hin|Hin]%elem_of_app Hs.
    + apply list_elem_of_fmap in Hin as (k0 & [= -> ->] & _).
      destruct objectCreate; [by apply boundAs_getter in Hs as ->|done].
    + apply list_elem_of_singleton in Hin as [= -> ->]. by destruct objectCreate.
Qed.

(** Reading a name through the new object is reading it in the module. *)
Lemma read_boundAs h h' r m k :
  heapOk h' → agreeUpTo m h h' → heapOk h →
  getOwnPropertyDescriptor h' r k = Some (boundAs false h m k) →
  read h' r k = read h m k.
Proof.
  intros Hh' Ha Hh Hd. rewrite (read_agree h h' m k Hh Ha). revert Hd. unfold boundAs.
  rewrite (getOwnPropertyDescriptor_agree m h h' m k Ha) by done.
  destruct (getOwnPropertyDescriptor h' m k) as [d|] eqn:Hm;
    [destruct (desc_slot d) as [v w|g] eqn:Hs; [destruct (w || desc_configurable d)|]|];
    intros Hd; try exact (read_getter h' r k (liveBinding m k) m k Hh' Hd eq_refl).
  by rewrite (read_data h' r k d v w Hd Hs), (read_data h' m k d v w Hm Hs).
Qed.

Lemma starProps_enumerable objectCreate h m k d :
  heapOk h → (k, d) ∈ starProps objectCreate h m → desc_enumerable d = true.
Proof.
  intros Hh [Hin|Hin]%elem_of_app.
  - apply list_elem_of_fmap in Hin as (k0 & [= -> ->] & [_ Hk]%list_elem_of_filter).
    destruct objectCreate; [by apply boundAs_enumerable|done].
  - apply list_elem_of_singleton in Hin as [= -> ->]. by destruct objectCreate.
Qed.

(** The new object in the heap [__importStar] leaves. *)
Lemma lookup_imported h m objectCreate :
  (h ++ [mkObject false (starProps objectCreate h m)]) !! length h
  = Some (mkObject false (starProps objectCreate h m)).
Proof. apply list_lookup_middle. done. Qed.

Lemma heapOk_imported objectCreate h m :
  heapOk h → m < length h → heapOk (h ++ [mkObject false (starProps objectCreate h m)]).
Proof. intros Hh Hm. apply heapOk_snoc; [done|]. by apply starProps_ok. Qed.

(** Reading a name of the module through the new object. *)
Lemma read_imported objectCreate h m k :
  heapOk h → m < length h → k ∈ forInOwnKeys h m → k ≠ "default" →
  read (h ++ [mkObject false (starProps objectCreate h m)]) (length h) k = read h m k.
Proof.
  intros Hh Hm Hk Hd. set (h' := h ++ _).
  assert (getOwnPropertyDescriptor h' (length h) k
          = Some (if objectCreate then boundAs false h m k else plain (valueOf h m k))) as Hg.
  { unfold getOwnPropertyDescriptor, h'. rewrite lookup_imported. by apply findProp_starProps. }
  destruct objectCreate.
  - apply read_boundAs; [by apply heapOk_imported|by apply agreeUpTo_alloc|done..].
  - rewrite (read_data _ _ _ _ _ _ Hg eq_refl). unfold valueOf.
    by destruct (read_total h m k Hh) as [v ->].
Qed.

End imported.

(** ** The helpers' contract *)

Section contract.
Implicit Types (h : Heap) (l m r : Loc) (k : string) (v md : JVal) (objectCreate : bool).

(** C29: [__importStar] on a CommonJS module, an object that is not marked
    [__esModule], does not throw in either variant of the helpers.  It
    returns a new object and leaves the objects there were as they are,
    in a heap that is still well formed.  The enumerable names of the new
    object are those of the module without [default], in the module's
    order, followed by [default]; each of them reads what it reads in the
    module, and [default] reads the module itself. *)
Theorem importStar_commonjs objectCreate h m obj esm :
  heapOk h → h !! m = Some obj →
  read h m "__esModule" = inr esm → toBoolean esm = false →
  ∃ h', importStar objectCreate h (JRef m) = inr (JRef (length h), h')
    ∧ heapOk h'
    ∧ (∀ l, l < length h → h' !! l = h !! l)
    ∧ forInOwnKeys h' (length h)
      = filter (λ k, k ≠ "default") (forInOwnKeys h m) ++ ["default"]
    ∧ (∀ k, k ∈ forInOwnKeys h m → k ≠ "default" → read h' (length h) k = read h m k)
    ∧ read h' (length h) "default" = inr (JRef m).
Proof.
  intros Hh Hm Hesm He. pose proof (lookup_lt_Some _ _ _ Hm) as Hlt.
  eexists. split; [by eapply importStar_object|]. split_and!.
  - by apply heapOk_imported.
  - intros l Hl. by apply lookup_app_l.
  - rewrite (forInOwnKeys_all _ _ _ (lookup_imported h m objectCreate)).
    + apply starProps_keys.
    + intros k d. by apply starProps_enumerable.
  - intros k Hk Hd. by apply read_imported.
  - apply (read_data _ _ _ (defaultBinding objectCreate (JRef m)) _ (negb objectCreate));
      [|by destruct objectCreate].
    unfold getOwnPropertyDescriptor. rewrite lookup_imported. apply findProp_starProps_default.
Qed.

(** [__importStar] does not throw, whatever it is given: in a well
    formed heap it returns a value, in a heap that is still well formed and
    in which the objects there were are as they were. *)
Theorem importStar_total objectCreate h md :
  heapOk h →
  ∃ v h', importStar objectCreate h md = inr (v, h') ∧ heapOk h'
    ∧ (∀ l, l < length h → h' !! l = h !! l).
Proof.
  intros Hh.
  assert ((∃ m obj, md = JRef m ∧ h !! m = Some obj) ∨ ∀ m, md = JRef m → h !! m = None)
    as [(m & obj & -> & Hm)|Hno].
  { destruct md as [| | | |m]; try by right. destruct (h !! m) as [obj|] eqn:Hm; [by eauto|].
    right. by intros ? [= <-]. }
  - destruct (read_total h m "__esModule" Hh) as [esm Hesm].
    destruct (toBoolean esm) eqn:He.
    + exists (JRef m), h. by rewrite (importStar_marked _ _ _ esm).
    + pose proof (lookup_lt_Some _ _ _ Hm). eexists _, _.
      split; [by eapply importStar_object|split; [by apply heapOk_imported|]].
      intros l Hl. by apply lookup_app_l.
  - eexists _, _. split; [by apply importStar_primitive|split].
    + apply heapOk_snoc; [done|]. split; [apply NoDup_singleton|].
      intros k d m k' [= -> ->]%list_elem_of_singleton. by destruct objectCreate.
    + intros l Hl. by apply lookup_app_l.
Qed.

(** The property [__createBinding] defines follows the module, the
    one the variant for engines without [Object.create] assigns does not:
    after an assignment to a name of the module that succeeds, the imported
    object reads the new value where [Object.create] exists and the value
    of the time of the import where it does not. *)
Theorem imported_binding_follows objectCreate h m obj esm k v r h1 h2 :
  heapOk h → h !! m = Some obj →
  read h m "__esModule" = inr esm → toBoolean esm = false →
  k ∈ forInOwnKeys h m → k ≠ "default" →
  importStar objectCreate h (JRef m) = inr (JRef r, h1) →
  assign h1 m k v = inr h2 →
  read h2 r k = if objectCreate then inr v else read h m k.
Proof.
  intros Hh Hm Hesm He Hk Hd Himp Ha. pose proof (lookup_lt_Some _ _ _ Hm) as Hlt.
  rewrite (importStar_object _ _ _ _ _ Hh Hm Hesm He) in Himp. injection Himp as <- <-.
  assert (heapOk h2) as Hh2 by (eapply heapOk_assign; [by apply heapOk_imported|done]).
  assert (getOwnPropertyDescriptor h2 (length h) k
          = Some (if objectCreate then boundAs false h m k else plain (valueOf h m k))) as Hg.
  { unfold getOwnPropertyDescriptor. rewrite (lookup_assign_ne _ _ _ _ _ _ Ha) by lia.
    rewrite lookup_imported. by apply findProp_starProps. }
  destruct objectCreate.
  - destruct (forInOwnKeys_descriptor h m k Hh Hk) as (d & Hd' & _).
    destruct (assign_writable _ _ _ _ _ d Ha) as [old Hs].
    { rewrite <-Hd'. symmetry.
      apply (getOwnPropertyDescriptor_agree m); [by apply agreeUpTo_alloc|done]. }
    rewrite (read_getter h2 (length h) k (liveBinding m k) m k Hh2);
      [by eapply read_assign| |done].
    rewrite Hg. unfold boundAs. by rewrite Hd', Hs.
  - rewrite (read_data _ _ _ _ _ _ Hg eq_refl). unfold valueOf.
    by destruct (read_total h m k Hh) as [? ->].
Qed.

End contract.

(** ** Modules compiled from TypeScript *)

Section compiled.
Implicit Types (h : Heap) (l exports : Loc) (name : string) (v : JVal).

Lemma exportsOf_ok name l v : name ≠ "__esModule" → propsOk l (exportsOf name v).
Proof.
  intros Hn. split.
  - cbn [exportsOf fmap list_fmap fst].
    apply NoDup_cons_2; [intros ?%list_elem_of_singleton; congruence|apply NoDup_singleton].
  - by intros k d m k' [[= -> ->]|[= -> ->]%list_elem_of_singleton]%elem_of_cons.
Qed.

(** The prologue on the new [exports]. *)
Lemma declareExport_fresh name h exports :
  name ≠ "__esModule" → h !! exports = Some emptyObject →
  declareExport name h exports = inr (setProps h exports (exportsOf name JUndefined)).
Proof.
  intros Hn He. unfold declareExport.
  rewrite (defineProperty_fresh _ _ _ _ _ He) by apply not_elem_of_nil.
  cbn [mbind sum_bind obj_props app].
  erewrite assign_fresh;
    [|by rewrite lookup_setProps, decide_True, He|by intros ->%list_elem_of_singleton].
  by rewrite setProps_setProps.
Qed.

(** The exported name is there and writable. *)
Lemma assign_export name h exports c v0 v :
  name ≠ "__esModule" →
  h !! exports = Some (mkObject c (exportsOf name v0)) →
  assign h exports name v = inr (setProps h exports (exportsOf name v)).
Proof.
  intros Hn He. unfold assign, exportsOf in *. rewrite He. cbn [obj_props].
  rewrite findProp_cons, decide_False, findProp_cons, decide_True by done.
  cbn [plain desc_slot putProp]. by rewrite bool_decide_eq_false_2, bool_decide_eq_true_2.
Qed.

(** The export on a heap in which the module has declared it. *)
Lemma exportFunction_declared name h exports :
  name ≠ "__esModule" →
  heapOk h → h !! exports = Some (mkObject false (exportsOf name JUndefined)) →
  ∃ h', exportFunction name h exports = inr h'
    ∧ heapOk h' ∧ exportedAs name h' exports
    ∧ ∀ l, l < length h → l ≠ exports → h' !! l = h !! l.
Proof.
  intros Hn Hh He. pose proof (lookup_lt_Some _ _ _ He) as Hlt. eexists. split_and!.
  - eapply assign_export; [done|]. by rewrite lookup_app_l.
  - apply heapOk_setProps; [|by apply exportsOf_ok].
    by apply heapOk_snoc; [|apply propsOk_nil].
  - exists (length h). rewrite !lookup_setProps, decide_True, decide_False by lia.
    by rewrite lookup_app_l, He, list_lookup_middle.
  - intros l Hl Hne. by rewrite lookup_setProps, decide_False, lookup_app_l.
Qed.

End compiled.

(** ** Loading the module *)

Section loading.
Context `{ObjectIdLib}.
Implicit Types (h : Heap) (l m exports : Loc) (k : string) (v : JVal) (objectCreate : bool)
  (interp : Loc → RouteHandler).

Lemma exportsProps_ok l v : propsOk l (exportsProps v).
Proof. by apply exportsOf_ok. Qed.

(** Lines 25 and 26 on the new [exports]. *)
Lemma module_prologue h exports :
  h !! exports = Some emptyObject →
  markModule h exports = inr (setProps h exports (exportsProps JUndefined)).
Proof. by apply declareExport_fresh. Qed.

(** Line 29 on the heap the import has left. *)
Lemma module_router h3 exports :
  heapOk h3 → h3 !! exports = Some (mkObject false (exportsProps JUndefined)) →
  ∃ h4, exportRouter h3 exports = inr h4
    ∧ heapOk h4 ∧ exported h4 exports
    ∧ ∀ l, l < length h3 → l ≠ exports → h4 !! l = h3 !! l.
Proof. by apply exportFunction_declared. Qed.

(** Line 28 after the prologue: [postsController] is the controller
    itself when it is marked, and otherwise the object [__importStar]
    builds for it. *)
Lemma module_import objectCreate h2 exports m obj :
  heapOk h2 → h2 !! m = Some obj → exports < length h2 → m ≠ exports →
  ∃ pc h3, importStar objectCreate h2 (JRef m) = inr (JRef pc, h3) ∧ heapOk h3
    ∧ (∀ l, l < length h2 → h3 !! l = h2 !! l) ∧ length h2 ≤ length h3
    ∧ (pc = m ∨ pc ≠ exports
         ∧ h3 !! pc = Some (mkObject false (starProps objectCreate h2 m))).
Proof.
  intros Hh Hm He Hne. destruct (read_total h2 m "__esModule" Hh) as [esm Hesm].
  pose proof (lookup_lt_Some _ _ _ Hm). destruct (toBoolean esm) eqn:Hb.
  - exists m, h2. rewrite (importStar_marked _ _ _ esm) by done. split_and!; auto.
  - eexists _, _. split; [by eapply importStar_object|]. rewrite length_app. split_and!.
    + by apply heapOk_imported.
    + intros l Hl. by apply lookup_app_l.
    + lia.
    + right. split; [lia|apply lookup_imported].
Qed.

(** The module up to the read of line 36. *)
Lemma postsModule_unfold objectCreate interp h exports m obj :
  heapOk h → h !! exports = Some emptyObject → h !! m = Some obj → m ≠ exports →
  let h2 := setProps h exports (exportsProps JUndefined) in
  ∃ pc h4,
    postsModule objectCreate interp h exports (JRef m)
    = (liftJs (read h4 pc "postNewArticle") ≫= λ v,
       liftExpress (postsRouter (callbackOf interp h4 v)) ≫= λ routes, inr (routes, h4))
    ∧ heapOk h4 ∧ exported h4 exports
    ∧ (∀ l, l < length h → l ≠ exports → h4 !! l = h !! l)
    ∧ (pc = m ∨ h4 !! pc = Some (mkObject false (starProps objectCreate h2 m))).
Proof.
  intros Hh He Hm Hne h2.
  assert (heapOk h2) as Hh2 by (by apply heapOk_setProps; [|apply exportsProps_ok]).
  assert (∀ l, l ≠ exports → h2 !! l = h !! l) as Hframe.
  { intros l Hl. unfold h2. by rewrite lookup_setProps, decide_False. }
  assert (h2 !! exports = Some (mkObject false (exportsProps JUndefined))) as He2.
  { unfold h2. by rewrite lookup_setProps, decide_True, He. }
  assert (length h2 = length h) as Hlen by apply length_alter.
  destruct (module_import objectCreate h2 exports m obj)
    as (pc & h3 & Himp & Hh3 & Hold & Hle & Hpc);
    [done|by rewrite Hframe|by eapply lookup_lt_Some|done|].
  assert (h3 !! exports = Some (mkObject false (exportsProps JUndefined))) as He3.
  { rewrite Hold; [done|]. by eapply lookup_lt_Some. }
  destruct (module_router h3 exports Hh3 He3) as (h4 & Hh4 & Hok & Hexp & Hnew).
  exists pc, h4. split_and!; [|done|done| |].
  - unfold postsModule. rewrite (module_prologue h exports He). cbn [liftJs mbind sum_bind].
    fold h2. rewrite Himp. cbn [liftJs mbind sum_bind]. rewrite Hh4. done.
  - intros l Hl Hl'. rewrite Hnew, Hold, Hframe by lia. done.
  - destruct Hpc as [->|[Hpe Hpc]]; [by left|right].
    rewrite Hnew; [done|by eapply lookup_lt_Some|done].
Qed.

(** A data property of the module read through the object built for it,
    in a later heap in which the module still has it. *)
Lemma read_imported_data objectCreate h2 h4 m pc k d v w :
  heapOk h4 →
  getOwnPropertyDescriptor h2 m k = Some d → getOwnPropertyDescriptor h4 m k = Some d →
  desc_slot d = DataSlot v w → desc_enumerable d = true → k ≠ "default" →
  h4 !! pc = Some (mkObject false (starProps objectCreate h2 m)) →
  read h4 pc k = inr v.
Proof.
  intros Hh4 Hd2 Hd4 Hs He Hk Hpc.
  assert (getOwnPropertyDescriptor h4 pc k
          = Some (if objectCreate then boundAs false h2 m k else plain (valueOf h2 m k))) as Hg.
  { unfold getOwnPropertyDescriptor. rewrite Hpc. apply findProp_starProps; [|done].
    by eapply elem_of_forInOwnKeys. }
  destruct objectCreate.
  - unfold boundAs in Hg. rewrite Hd2, Hs in Hg. destruct (w || desc_configurable d).
    + rewrite (read_getter h4 pc k _ m k Hh4 Hg eq_refl). by eapply read_data.
    + by eapply read_data.
  - rewrite (read_data _ _ _ _ _ _ Hg eq_refl). unfold valueOf.
    by rewrite (read_data h2 m k d v w).
Qed.

(** The functions of a heap are what Express accepts as a handler. *)
Lemma callbackOf_function interp h f fn :
  h !! f = Some fn → obj_callable fn = true → callbackOf interp h (JRef f) = Some (interp f).
Proof. intros Hf Hc. unfold callbackOf. rewrite Hf. simpl. by rewrite Hc. Qed.

(** C28: the compiled router cannot be loaded against a controller that
    has no [postNewArticle].  Whether the controller is marked [__esModule]
    or not, and in either variant of the helpers, [postsController.
    postNewArticle] reads [undefined], and the registration of line 36
    throws: the module exports no router. *)
Theorem postsModule_requires_callback objectCreate interp h exports m obj :
  heapOk h → h !! exports = Some emptyObject → h !! m = Some obj → m ≠ exports →
  getOwnPropertyDescriptor h m "postNewArticle" = None →
  postsModule objectCreate interp h exports (JRef m)
  = inl (Express (RouteRequiresCallback POST)).
Proof.
  intros Hh He Hm Hne Hk. pose proof (lookup_lt_Some _ _ _ Hm) as Hlt.
  destruct (postsModule_unfold objectCreate interp h exports m obj)
    as (pc & h4 & -> & Hh4 & _ & Hframe & Hpc); [done..|].
  assert (read h4 pc "postNewArticle" = inr JUndefined) as ->; [|done].
  apply read_absent. destruct Hpc as [->|Hpc].
  - by rewrite (getOwnPropertyDescriptor_lookup h) by (by apply Hframe).
  - unfold getOwnPropertyDescriptor. rewrite Hpc. apply findProp_starProps_None; [|done].
    intros Hin%forInOwnKeys_owned.
    rewrite (getOwnPropertyDescriptor_lookup h), Hk in Hin; [by destruct Hin|].
    by rewrite lookup_setProps, decide_False.
Qed.

(** Against a controller that exports a function as the enumerable
    data property [postNewArticle], the module loads in either variant of
    the helpers, marked or not: it leaves a well-formed heap in which
    [exports] holds the mark and the router, and the routes are the five
    registrations with that function on POST. *)
Theorem postsModule_loads objectCreate interp h exports m obj d f w fn :
  heapOk h → h !! exports = Some emptyObject → h !! m = Some obj → m ≠ exports →
  getOwnPropertyDescriptor h m "postNewArticle" = Some d →
  desc_slot d = DataSlot (JRef f) w → desc_enumerable d = true →
  h !! f = Some fn → obj_callable fn = true →
  ∃ h', postsModule objectCreate interp h exports (JRef m)
        = inr (loadedRouter (interp f), h')
    ∧ heapOk h' ∧ exported h' exports.
Proof.
  intros Hh He Hm Hne Hd Hs Hen Hf Hc.
  pose proof (lookup_lt_Some _ _ _ Hm) as Hlt. pose proof (lookup_lt_Some _ _ _ Hf) as Hlf.
  assert (f ≠ exports) as Hfe by (intros ->; by simplify_eq).
  destruct (postsModule_unfold objectCreate interp h exports m obj)
    as (pc & h4 & -> & Hh4 & Hexp & Hframe & Hpc); [done..|].
  exists h4. split_and!; [|done..].
  assert (getOwnPropertyDescriptor h4 m "postNewArticle" = Some d) as Hd4.
  { by rewrite (getOwnPropertyDescriptor_lookup h) by (by apply Hframe). }
  assert (read h4 pc "postNewArticle" = inr (JRef f)) as ->.
  { destruct Hpc as [->|Hpc]; [by eapply read_data|].
    eapply read_imported_data; [done| |done..].
    rewrite (getOwnPropertyDescriptor_lookup h); [done|].
    by rewrite lookup_setProps, decide_False. }
  cbn [liftJs mbind sum_bind].
  rewrite (callbackOf_function interp h4 f fn), postsRouter_loaded; [done| |done].
  by rewrite Hframe.
Qed.

End loading.

(** ** The posts controller as a module object *)

(** A CommonJS module in a heap of its own: one object for each export (a
    function where the flag is set), then the module's [exports] with one
    writable data property for each, then the empty [exports] of the
    module that requires it. *)
Definition moduleObject (marked : bool) (names : list (string * bool)) : JsObject :=
  mkObject false
    ((if marked then [("__esModule", esModuleMark)] else [])
     ++ imap (λ i name, (name.1, plain (JRef i))) names).

Definition moduleHeap (marked : bool) (names : list (string * bool)) : Heap :=
  ((λ name, mkObject name.2 []) <$> names) ++ [moduleObject marked names; emptyObject].

(** The exports of [posts_controller]: three messages and seven
    functions. *)
Definition postsController : list (string * bool) :=
  (λ name, (name, bool_decide (name ∉ ["INVALID_ID"; "INVALID_QUERY"; "DOES_NOT_EXIST"])))
    <$> postsControllerExports.

Lemma importStar_commonjs_witness :
  let h := moduleHeap false postsController in
  ∃ h', importStar true h (JRef 10) = inr (JRef 12, h')
    ∧ heapOk h'
    ∧ (∀ l, l < 12 → h' !! l = h !! l)
    ∧ forInOwnKeys h' 12 = postsControllerExports ++ ["default"]
    ∧ (∀ k, k ∈ forInOwnKeys h 10 → k ≠ "default" → read h' 12 k = read h 10 k)
    ∧ read h' 12 "default" = inr (JRef 10).
Proof.
  exact (importStar_commonjs true (moduleHeap false postsController) 10
           (moduleObject false postsController) JUndefined
           (proj1 (heapOkb_spec (moduleHeap false postsController)) eq_refl)
           eq_refl eq_refl eq_refl).
Defined.

Lemma importStar_total_witness :
  ∃ v h', importStar false (moduleHeap true postsController) JNull = inr (v, h')
    ∧ heapOk h'
    ∧ (∀ l, l < 12 → h' !! l = moduleHeap true postsController !! l).
Proof.
  exact (importStar_total false (moduleHeap true postsController) JNull
           (proj1 (heapOkb_spec (moduleHeap true postsController)) eq_refl)).
Defined.

Lemma imported_binding_follows_witness :
  let h := moduleHeap false postsController in
  let h1 := h ++ [mkObject false (starProps true h 10)] in
  let h2 := setProps h1 10 (putProp "editPost" (plain JNull)
                              (obj_props (moduleObject false postsController))) in
  importStar true h (JRef 10) = inr (JRef 12, h1)
  ∧ assign h1 10 "editPost" JNull = inr h2
  ∧ read h 10 "editPost" = inr (JRef 6)
  ∧ read h2 12 "editPost" = inr JNull.
Proof.
  intros h h1 h2. pose proof (proj1 (heapOkb_spec h) eq_refl) as Hh.
  pose proof (importStar_object true h 10 _ JUndefined Hh eq_refl eq_refl eq_refl) as Himp.
  split; [exact Himp|]. split; [reflexivity|]. split; [reflexivity|].
  exact (imported_binding_follows true h 10 _ JUndefined "editPost" JNull 12 h1 h2
           Hh eq_refl eq_refl eq_refl
           (elem_of_forInOwnKeys h 10 "editPost" (plain (JRef 6)) eq_refl eq_refl)
           ltac:(done) Himp eq_refl).
Defined.

(** The same assignment where the helpers copy: the imported object keeps
    the function of the time of the import. *)
Example imported_copy :
  let h := moduleHeap false postsController in
  let h1 := h ++ [mkObject false (starProps false h 10)] in
  let h2 := setProps h1 10 (putProp "editPost" (plain JNull)
                              (obj_props (moduleObject false postsController))) in
  importStar false h (JRef 10) = inr (JRef 12, h1)
  ∧ assign h1 10 "editPost" JNull = inr h2
  ∧ read h2 12 "editPost" = inr (JRef 6).
Proof. done. Qed.

Lemma postsModule_requires_callback_witness :
  let interp : Loc → @RouteHandler hex24 := λ _, messageHandler "posts post" in
  postsModule true interp (moduleHeap true postsController) 11 (JRef 10)
  = inl (Express (RouteRequiresCallback POST)).
Proof.
  exact (postsModule_requires_callback true (λ _, messageHandler "posts post")
           (moduleHeap true postsController) 11 10 (moduleObject true postsController)
           (proj1 (heapOkb_spec (moduleHeap true postsController)) eq_refl)
           eq_refl eq_refl ltac:(done) eq_refl).
Defined.

(** A controller that exports [postNewArticle] as well. *)
Definition fixedController : list (string * bool) :=
  postsController ++ [("postNewArticle", true)].

Lemma postsModule_loads_witness :
  let interp : Loc → @RouteHandler hex24 := λ _, messageHandler "posts post" in
  let h := moduleHeap false fixedController in
  ∃ h', postsModule false interp h 12 (JRef 11) = inr (loadedRouter (interp 10), h')
    ∧ heapOk h' ∧ exported h' 12.
Proof.
  exact (postsModule_loads false (λ _, messageHandler "posts post")
           (moduleHeap false fixedController) 12 11 (moduleObject false fixedController)
           (plain (JRef 10)) 10 true (mkObject true [])
           (proj1 (heapOkb_spec (moduleHeap false fixedController)) eq_refl)
           eq_refl eq_refl ltac:(done) eq_refl eq_refl eq_refl eq_refl eq_refl).
Defined.
