(* ===== verification/Authors.v ===== *)
(** * Authors: the Author schema and its module

    [src/unnamed/part_001] is the compiled module of the Author model: the
    prologue of a TypeScript module (lines 2-3), the schema with its one
    path [name], which is a required and unique String, and no version key
    (lines 5-7), and the export of the model (line 8).

    The schema is data, [authorSchema].  What Mongoose and MongoDB make of
    its options is modelled from their documented behaviour: a document is
    validated before it is saved ([validate]), a unique path is a unique
    index that refuses a second document with the same value
    ([uniqueClash]), and [Author_create] is [Author.create] on the
    collection [authors] of [Store].  No handler of the controllers writes
    the collection; [populateCommenter] reads it.

    The module body runs on the objects of [JsHeap], with the prologue and
    the export shared with the compiled router ([Interop]). *)

From S2P Require Import Prelude ObjectId Store Program Interleave JsHeap Interop.
From stdpp Require Import list sets gmap.

(** ** The schema *)

Inductive SchemaType := SString.

(** The options of a path: [{ type, unique, required }]. *)
Record SchemaPath := mkPath {
  path_type : SchemaType;
  path_unique : bool;
  path_required : bool;
}.

(** [new Schema(paths, { versionKey })] *)
Record Schema := mkSchema {
  schema_paths : list (string * SchemaPath);
  schema_versionKey : bool;
}.

(** Lines 5-7. *)
Definition authorSchema : Schema :=
  mkSchema [("name", mkPath SString true true)] false.

(** ** Documents *)

(** A document as it is given to [create]: its String fields. *)
Abbreviation RawDoc := (gmap string string).

Inductive SaveError :=
| ValidatorError (path : string)       (* ValidationError: Path `path` is required. *)
| DuplicateKeyError (path : string).   (* E11000 duplicate key error *)

(** The required validator of a String path: present and not empty. *)
Definition requiredOk (v : option string) : bool :=
  match v with
  | Some s => negb (bool_decide (s = ""))
  | None => false
  end.

(** The paths that fail validation, in the order of the schema. *)
Definition validate (schema : Schema) (doc : RawDoc) : list string :=
  (filter (λ kp, path_required kp.2 = true ∧ requiredOk (doc !! kp.1) = false)
     (schema_paths schema)).*1.

(** The unique paths on which a stored document has the value of [doc]. *)
Definition uniqueClash (schema : Schema) (stored : list RawDoc) (doc : RawDoc) : list string :=
  (filter (λ kp, path_unique kp.2 = true ∧ is_Some (doc !! kp.1)
                 ∧ Exists (λ d, d !! kp.1 = doc !! kp.1) stored)
     (schema_paths schema)).*1.

(** The names of the fields of a stored document. *)
Definition storedFields (schema : Schema) : list string :=
  "_id" :: (schema_paths schema).*1 ++ (if schema_versionKey schema then ["__v"] else []).

Section authors.
Context `{ObjectIdLib}.

(** A stored author as a document. *)
Definition authorDoc (a : AuthorModel) : RawDoc := list_to_map (authorFields a).

Definition storedAuthors (db : DB) : list RawDoc := authorDoc <$> (map_to_list (authors db)).*2.

Definition setAuthors (f : gmap ObjectId AuthorModel → gmap ObjectId AuthorModel) (db : DB)
  : DB :=
  mkDB (posts db) (comments db) (f (authors db)).

(** [Author.create(doc)] with the identifier [id]: validation, then the
    insertion, which the unique indexes on [name] and [_id] may refuse. *)
Definition Author_create (id : ObjectId) (doc : RawDoc) (db : DB)
  : SaveError + (AuthorModel * DB) :=
  match validate authorSchema doc, doc !! "name" with
  | path :: _, _ => inl (ValidatorError path)
  | [], None => inl (ValidatorError "name")
  | [], Some name =>
      match uniqueClash authorSchema (storedAuthors db) doc, authors db !! id with
      | path :: _, _ => inl (DuplicateKeyError path)
      | [], Some _ => inl (DuplicateKeyError "_id")
      | [], None => inr (mkAuthor name, setAuthors <[id := mkAuthor name]> db)
      end
  end.

(** The names of the authors are distinct and not empty. *)
Definition authorsOk (db : DB) : Prop :=
  (∀ id1 id2 a1 a2, authors db !! id1 = Some a1 → authors db !! id2 = Some a2 →
     author_name a1 = author_name a2 → id1 = id2) ∧
  (∀ id a, authors db !! id = Some a → author_name a ≠ "").

(** Some stored author has the name. *)
Definition nameTaken (name : string) (db : DB) : Prop :=
  ∃ id a, authors db !! id = Some a ∧ author_name a = name.

End authors.

(** ** The module *)

(** Lines 2-3 and 8: the prologue, and the model [model('author',
    AuthorModel)] returns, a new function object, exported as [Author]. *)
Definition authorModule (h : Heap) (exports : Loc) : JsError + Heap :=
  h ← declareExport "Author" h exports;
  exportFunction "Author" h exports.

(** ** The schema on a document *)

Section schema.
Context `{ObjectIdLib}.
Implicit Types (db : DB) (id : ObjectId) (doc : RawDoc) (a : AuthorModel) (name : string).

Lemma validate_author doc :
  validate authorSchema doc = if requiredOk (doc !! "name") then [] else ["name"].
Proof.
  unfold validate, authorSchema. cbn [schema_paths]. destruct (requiredOk _) eqn:Hr.
  - rewrite filter_cons_False; [done|]. cbn [fst snd]. rewrite Hr. by intros [_ ?].
  - by rewrite filter_cons_True by (by cbn [fst snd]; rewrite Hr).
Qed.

Lemma authorDoc_name a : authorDoc a !! "name" = Some (author_name a).
Proof. unfold authorDoc, authorFields. cbn [list_to_map foldr]. apply lookup_insert_eq. Qed.

Lemma storedAuthors_Exists name db :
  Exists (λ d : RawDoc, d !! "name" = Some name) (storedAuthors db) ↔ nameTaken name db.
Proof.
  unfold storedAuthors, nameTaken. rewrite Exists_exists. split.
  - intros (d & (a & -> & ([id a'] & -> & Hin%elem_of_map_to_list)%list_elem_of_fmap)
              %list_elem_of_fmap & Hd).
    rewrite authorDoc_name in Hd. exists id, a'. by simplify_eq.
  - intros (id & a & Hin & <-). exists (authorDoc a). split; [|apply authorDoc_name].
    apply list_elem_of_fmap. exists a. split; [done|]. apply list_elem_of_fmap.
    exists (id, a). by rewrite elem_of_map_to_list.
Qed.

Lemma uniqueClash_author name doc db :
  doc !! "name" = Some name →
  (nameTaken name db → uniqueClash authorSchema (storedAuthors db) doc = ["name"]) ∧
  (¬ nameTaken name db → uniqueClash authorSchema (storedAuthors db) doc = []).
Proof.
  intros Hd. unfold uniqueClash, authorSchema. cbn [schema_paths].
  rewrite <-storedAuthors_Exists. split; intros Ht.
  - rewrite filter_cons_True; [done|]. cbn [fst snd]. by rewrite Hd.
  - rewrite filter_cons_False; [done|]. cbn [fst snd]. rewrite Hd. tauto.
Qed.

(** What a successful [create] has checked and done. *)
Lemma Author_create_inr id doc db a db' :
  Author_create id doc db = inr (a, db') →
  ∃ name, doc !! "name" = Some name ∧ name ≠ "" ∧ ¬ nameTaken name db
    ∧ authors db !! id = None ∧ a = mkAuthor name ∧ db' = setAuthors <[id := a]> db.
Proof.
  unfold Author_create. rewrite validate_author.
  destruct (doc !! "name") as [name|] eqn:Hd; cbn [requiredOk]; [|done].
  destruct (decide (name = "")) as [->|Hne]; [done|].
  rewrite bool_decide_eq_false_2 by done. cbn [negb].
  destruct (uniqueClash_author name doc db Hd) as [Hyes Hno].
  destruct (uniqueClash authorSchema (storedAuthors db) doc) as [|path ?] eqn:Hu; [|done].
  destruct (authors db !! id) eqn:Hid; [done|]. intros [= <- <-].
  exists name. split_and!; try done. intros Ht. by specialize (Hyes Ht).
Qed.

End schema.

(** ** Creating an author *)

Section create.
Context `{ObjectIdLib}.
Implicit Types (db : DB) (id : ObjectId) (doc : RawDoc) (a : AuthorModel) (name : string).

Lemma Author_create_invalid id doc db :
  requiredOk (doc !! "name") = false → Author_create id doc db = inl (ValidatorError "name").
Proof. intros Hr. unfold Author_create. by rewrite validate_author, Hr. Qed.

Lemma Author_create_valid id doc db name :
  doc !! "name" = Some name → name ≠ "" →
  Author_create id doc db
  = match uniqueClash authorSchema (storedAuthors db) doc, authors db !! id with
    | path :: _, _ => inl (DuplicateKeyError path)
    | [], Some _ => inl (DuplicateKeyError "_id")
    | [], None => inr (mkAuthor name, setAuthors <[id := mkAuthor name]> db)
    end.
Proof.
  intros Hd Hne. unfold Author_create. rewrite validate_author, Hd. cbn [requiredOk].
  by rewrite bool_decide_eq_false_2.
Qed.

Lemma Author_create_fresh id doc db name :
  doc !! "name" = Some name → name ≠ "" → ¬ nameTaken name db → authors db !! id = None →
  Author_create id doc db = inr (mkAuthor name, setAuthors <[id := mkAuthor name]> db).
Proof.
  intros Hd Hne Ht Hid. rewrite (Author_create_valid _ _ _ name) by done.
  by rewrite (proj2 (uniqueClash_author name doc db Hd) Ht), Hid.
Qed.

Lemma authorsOk_empty db : authors db = ∅ → authorsOk db.
Proof. intros He. split; intros *; by rewrite He, lookup_empty. Qed.

Lemma authorsOk_insert id name db :
  authorsOk db → name ≠ "" → ¬ nameTaken name db → authors db !! id = None →
  authorsOk (setAuthors <[id := mkAuthor name]> db).
Proof.
  intros [Hu Hn] Hne Ht Hid. unfold nameTaken in Ht. split; cbn [setAuthors authors].
  - intros id1 id2 a1 a2. rewrite !lookup_insert_Some.
    intros [[<- <-]|[? H1]] [[<- <-]|[? H2]] Hea; cbn [author_name] in Hea;
      [done|destruct Ht; eauto..|by eapply Hu].
  - intros id' a. rewrite lookup_insert_Some. intros [[_ <-]|[_ Ha]]; [done|by eapply Hn].
Qed.

(** [Author.create] on each of its branches.  A document without a
    name, or with the empty name, fails validation; a name that a stored
    author has is refused by the unique index, and so is an identifier
    that is taken; otherwise the author is stored under the identifier,
    with the name of the document and nothing else of it. *)
Theorem Author_create_spec id doc db :
  (requiredOk (doc !! "name") = false →
   Author_create id doc db = inl (ValidatorError "name")) ∧
  (∀ name, doc !! "name" = Some name → name ≠ "" →
     (nameTaken name db → Author_create id doc db = inl (DuplicateKeyError "name")) ∧
     (¬ nameTaken name db → is_Some (authors db !! id) →
      Author_create id doc db = inl (DuplicateKeyError "_id")) ∧
     (¬ nameTaken name db → authors db !! id = None →
      Author_create id doc db = inr (mkAuthor name, setAuthors <[id := mkAuthor name]> db))).
Proof.
  split; [apply Author_create_invalid|]. intros name Hd Hne.
  destruct (uniqueClash_author name doc db Hd) as [Hyes Hno].
  rewrite (Author_create_valid _ _ _ name) by done. split_and!.
  - intros Ht. by rewrite (Hyes Ht).
  - intros Ht [a Ha]. by rewrite (Hno Ht), Ha.
  - intros Ht Hid. by rewrite (Hno Ht), Hid.
Qed.

(** C35: the names of the stored authors stay distinct and not empty:
    an [Author.create] that succeeds stores the author under the
    identifier given, leaves the other authors, the posts and the comments
    as they are, and keeps [authorsOk]. *)
Theorem Author_create_authorsOk id doc db a db' :
  authorsOk db → Author_create id doc db = inr (a, db') →
  authorsOk db' ∧ authors db' !! id = Some a ∧ doc !! "name" = Some (author_name a)
  ∧ (∀ id', id' ≠ id → authors db' !! id' = authors db !! id')
  ∧ posts db' = posts db ∧ comments db' = comments db.
Proof.
  intros Hok (name & Hd & Hne & Ht & Hid & -> & ->)%Author_create_inr.
  split_and!; try done.
  - by apply authorsOk_insert.
  - apply lookup_insert_eq.
  - intros id' Hne'. cbn [setAuthors authors]. by rewrite lookup_insert_ne.
Qed.

End create.

(** ** The handlers and the authors *)

Section handlers.
Context `{ObjectIdLib}.
Implicit Types (db : DB) (ts : Pool).

Lemma execOp_authors {R} (op : DbOp R) db r db' :
  execOp op db = (r, db') → authors db' = authors db.
Proof.
  destruct op; simpl;
    unfold Post_save, Post_findByIdAndUpdate, Post_findByIdAndDelete, Comment_save,
      Comment_findByIdAndUpdate, Comment_findByIdAndDelete;
    repeat case_match; intros [= <- <-]; by simplify_eq.
Qed.

Lemma stepThread_authors {A} left (t t' : Thread A) db db' :
  stepThread left t db = Some (t', db') → authors db' = authors db.
Proof.
  destruct t as [[a|e|R op k|R1 R2 op1 op2 k]|R1 R2 r1 op2 k|R1 R2 op1 r2 k];
    cbn [stepThread]; try done; try destruct left;
    repeat case_match; intros [= <- <-]; by eapply execOp_authors.
Qed.

Lemma poolStep_authors cfg cfg' : poolStep cfg cfg' → authors cfg'.2 = authors cfg.2.
Proof.
  destruct cfg as [ts db], cfg' as [ts' db']. intros [c (t & t' & _ & Hs & _)%stepPool_inv].
  by eapply stepThread_authors.
Qed.

(** No request writes the authors.  Whatever requests are in flight
    and however their operations interleave, the collection of authors is
    the one there was, so that the names stay distinct and not empty. *)
Theorem requests_keep_authors ts db ts' db' :
  rtc poolStep (ts, db) (ts', db') →
  authors db' = authors db ∧ (authorsOk db → authorsOk db').
Proof.
  intros Hsteps.
  assert (authors db' = authors db) as Heq.
  { change (authors (ts', db').2 = authors (ts, db).2).
    induction Hsteps as [|cfg1 cfg2 cfg3 Hs _ IH]; [done|].
    by rewrite IH, (poolStep_authors _ _ Hs). }
  split; [done|]. unfold authorsOk. by rewrite Heq.
Qed.

End handlers.

(** ** The module and its import *)

Section module.
Implicit Types (h : Heap) (l exports : Loc) (objectCreate : bool).

Lemma authorModule_exported h exports :
  heapOk h → h !! exports = Some emptyObject →
  ∃ h', authorModule h exports = inr h' ∧ heapOk h' ∧ exportedAs "Author" h' exports
    ∧ ∀ l, l < length h → l ≠ exports → h' !! l = h !! l.
Proof.
  intros Hh He. unfold authorModule. rewrite declareExport_fresh by done.
  cbn [mbind sum_bind].
  destruct (exportFunction_declared "Author" (setProps h exports (exportsOf "Author" JUndefined))
              exports) as (h' & -> & Hh' & Hex & Hframe); [done| | |].
  - by apply heapOk_setProps; [|apply exportsOf_ok].
  - by rewrite lookup_setProps, decide_True, He.
  - exists h'. split_and!; try done. intros l Hl Hne.
    rewrite Hframe by (by unfold setProps; rewrite ?length_alter).
    by rewrite lookup_setProps, decide_False.
Qed.

(** The Author module is imported as it is.  Run on its new
    [exports], the module body leaves a well-formed heap in which
    [exports] carries the mark, so that [__importStar] returns [exports]
    itself and builds nothing, in either variant of the helpers; [Author]
    reads the model, a function, and is the one name [for-in] lists, the
    mark not being enumerable. *)
Theorem authorModule_imported objectCreate h exports :
  heapOk h → h !! exports = Some emptyObject →
  ∃ h' model, authorModule h exports = inr h' ∧ heapOk h'
    ∧ importStar objectCreate h' (JRef exports) = inr (JRef exports, h')
    ∧ getMember h' (JRef exports) "Author" = inr (JRef model)
    ∧ h' !! model = Some (mkObject true [])
    ∧ forInOwnKeys h' exports = ["Author"].
Proof.
  intros Hh He.
  destruct (authorModule_exported h exports Hh He) as (h' & Hrun & Hh' & (f & Hex & Hf) & _).
  exists h', f. split_and!; try done.
  - apply (importStar_marked _ _ _ (JBool true)); [done| |done].
    apply (read_data _ _ _ esModuleMark _ false); [|done].
    unfold getOwnPropertyDescriptor. by rewrite Hex.
  - apply (read_data _ _ _ (plain (JRef f)) _ true); [|done].
    unfold getOwnPropertyDescriptor. by rewrite Hex.
  - unfold forInOwnKeys. by rewrite Hex.
Qed.

End module.

(** ** Concrete runs *)

Definition sampleAuthorId : string := "65068c32be2fd5ade9800662".
Definition sampleAuthorDoc : RawDoc := {["name" := "mao"]}.

Lemma Author_create_authorsOk_witness :
  let db' := setAuthors <[sampleAuthorId := mkAuthor "mao"]> (@emptyDB hex24) in
  authorsOk db' ∧ authors db' !! sampleAuthorId = Some (mkAuthor "mao")
  ∧ sampleAuthorDoc !! "name" = Some "mao"
  ∧ (∀ id', id' ≠ sampleAuthorId → authors db' !! id' = authors (@emptyDB hex24) !! id')
  ∧ posts db' = posts (@emptyDB hex24) ∧ comments db' = comments (@emptyDB hex24).
Proof.
  apply (Author_create_authorsOk (H:=hex24) sampleAuthorId sampleAuthorDoc emptyDB).
  - by apply authorsOk_empty.
  - apply Author_create_fresh; [done|done| |done].
    intros (id & a & Ha & _). cbn [emptyDB authors] in Ha. by rewrite lookup_empty in Ha.
Defined.

Lemma authorModule_imported_witness :
  ∃ h' model, authorModule [emptyObject] 0 = inr h' ∧ heapOk h'
    ∧ importStar true h' (JRef 0) = inr (JRef 0, h')
    ∧ getMember h' (JRef 0) "Author" = inr (JRef model)
    ∧ h' !! model = Some (mkObject true [])
    ∧ forInOwnKeys h' 0 = ["Author"].
Proof.
  exact (authorModule_imported true [emptyObject] 0
           (proj1 (heapOkb_spec [emptyObject]) eq_refl) eq_refl).
Defined.

(** The stored document of an author has an identifier and a name, and no
    version key. *)
Example storedFields_author : storedFields authorSchema = ["_id"; "name"].
Proof. done. Qed.
