(* ===== verification/App.v ===== *)
(** * App: the entry point of the application

    [src/unnamed/part_000] creates the Express application, opens the
    connection to the database, installs the middleware and the two
    routers, starts to listen and registers a handler that closes the
    connection on [SIGINT] and on [exit].

    The file is modelled as a sequence of steps on the state of the process
    ([Process]): what is logged, the state of the connection, the stack of
    middleware, the port, the listeners of the two events.  What the
    environment decides is a parameter: the variables [CONNECTION_STRING]
    and [PORT], and how the promise of [mongoose.connect] settles.  The
    semantics of the language and of Node that the file relies on are
    written out: a call of an [async] function never throws, a rejected
    promise nobody handles is an unhandled rejection, a listener on
    [SIGINT] replaces the default action of the signal.  The middleware
    themselves (morgan, the body parsers, cookie-parser, helmet) are
    libraries and appear by name only. *)

From S2P Require Import Prelude JsString.

(** ** Completions and promises *)

(** How a statement or a call completes. *)
Inductive Completion (A : Type) :=
| Normal (a : A)
| Thrown (e : string).

(** How a promise settles. *)
Inductive Promise (A : Type) :=
| Fulfilled (a : A)
| Rejected (e : string).

#[global] Arguments Normal {A} a.
#[global] Arguments Thrown {A} e.
#[global] Arguments Fulfilled {A} a.
#[global] Arguments Rejected {A} e.

(** [await p] in the body of an [async] function. *)
Definition awaitPromise {A} (p : Promise A) : Completion A :=
  match p with
  | Fulfilled a => Normal a
  | Rejected e => Thrown e
  end.

(** A call of an [async] function: the call completes normally with a
    promise, which the completion of the body settles. *)
Definition callAsync {A} (body : Completion A) : Completion (Promise A) :=
  Normal match body with
         | Normal a => Fulfilled a
         | Thrown e => Rejected e
         end.

(** [try { block } catch (error) { handler(error) }], followed by [rest]:
    the handler runs when the block throws, and only then. *)
Definition tryCatch {A B} (block : Completion A) (rest : A → B) (handler : string → B) : B :=
  match block with
  | Normal a => rest a
  | Thrown e => handler e
  end.

(** [a || b] on strings that may be undefined: [a] when it is truthy. *)
Definition orElse (a : option string) (b : string) : string :=
  match a with
  | Some "" | None => b
  | Some s => s
  end.

(** ** The process *)

Inductive ConnectionState := Disconnected | Connected | ConnectFailed | Closed.

Inductive RouterName := ResourceRouter | AuthRouter.

Inductive Middleware :=
| Logger (format : string)
| JsonParser
| UrlencodedParser (extended : bool)
| CookieParser
| Helmet
| Mount (prefix : string) (router : RouterName).

Inductive Event := SIGINT | Exit.

#[global] Instance Event_eq_dec : EqDecision Event.
Proof. solve_decision. Defined.

(** What a listener of the file does. *)
Inductive Listener := CloseConnection.

Record Process := mkProcess {
  strictQuery : option bool;
  connection : ConnectionState;
  errorLog : list string;               (* console.error *)
  unhandledRejections : list string;
  stack : list Middleware;              (* app.use, in order *)
  listening : option string;            (* the port of app.listen *)
  listeners : list (Event * Listener);  (* process.on *)
  exited : bool;
}.

Definition initialProcess : Process :=
  mkProcess None Disconnected [] [] [] None [] false.

(** The environment of the process. *)
Record Environment := mkEnvironment {
  CONNECTION_STRING : option string;
  PORT : option string;
  mongooseConnect : option string → Promise ();  (* how mongoose.connect(uri) settles *)
}.

(** How the connection attempt of the file settles. *)
Definition connectResult (env : Environment) : Promise () :=
  mongooseConnect env (CONNECTION_STRING env).

(** ** The steps of the file *)

(** [mongoose.set('strictQuery', false)] *)
Definition setStrictQuery (p : Process) : Process :=
  mkProcess (Some false) (connection p) (errorLog p) (unhandledRejections p) (stack p)
    (listening p) (listeners p) (exited p).

(** The body of [connectToDatabase]: [await mongoose.connect(...)]. *)
Definition connectToDatabase_body (env : Environment) : Completion () :=
  awaitPromise (connectResult env).

(** [connectToDatabase()] *)
Definition connectToDatabase (env : Environment) : Completion (Promise ()) :=
  callAsync (connectToDatabase_body env).

(** [console.error(error)] *)
Definition consoleError (e : string) (p : Process) : Process :=
  mkProcess (strictQuery p) (connection p) (errorLog p ++ [e]) (unhandledRejections p)
    (stack p) (listening p) (listeners p) (exited p).

(** A promise that is dropped: when it is rejected, nobody handles the
    rejection.  The promise of [mongoose.connect] settles after the file
    has run; the state is written here at the statement that drops it,
    which leaves the same process because no statement of the file reads
    the connection or the rejections ([startup_settles_later]).  What Node
    does with the rejection is [afterRejections]. *)
Definition dropPromise (promise : Promise ()) (p : Process) : Process :=
  match promise with
  | Fulfilled _ =>
      mkProcess (strictQuery p) Connected (errorLog p) (unhandledRejections p) (stack p)
        (listening p) (listeners p) (exited p)
  | Rejected e =>
      mkProcess (strictQuery p) ConnectFailed (errorLog p) (unhandledRejections p ++ [e])
        (stack p) (listening p) (listeners p) (exited p)
  end.

(** [try { connectToDatabase(); } catch (error) { console.error(error); }] *)
Definition connectStep (env : Environment) (p : Process) : Process :=
  tryCatch (connectToDatabase env) (λ promise, dropPromise promise p)
    (λ e, consoleError e p).

(** [app.use(...)] *)
Definition use (m : Middleware) (p : Process) : Process :=
  mkProcess (strictQuery p) (connection p) (errorLog p) (unhandledRejections p)
    (stack p ++ [m]) (listening p) (listeners p) (exited p).

Definition middleware : list Middleware :=
  [Logger "dev"; JsonParser; UrlencodedParser false; CookieParser; Helmet;
   Mount "/" ResourceRouter; Mount "/auth" AuthRouter].

(** [app.listen(process.env.PORT || '3000')] *)
Definition listen (env : Environment) (p : Process) : Process :=
  mkProcess (strictQuery p) (connection p) (errorLog p) (unhandledRejections p) (stack p)
    (Some (orElse (PORT env) "3000")) (listeners p) (exited p).

(** [process.on(event, listener)] *)
Definition on (ev : Event) (l : Listener) (p : Process) : Process :=
  mkProcess (strictQuery p) (connection p) (errorLog p) (unhandledRejections p) (stack p)
    (listening p) (listeners p ++ [(ev, l)]) (exited p).

(** [['SIGINT', 'exit'].forEach(ev => process.on(ev, close))] *)
Definition registerExitHandlers (p : Process) : Process :=
  foldl (λ p ev, on ev CloseConnection p) p [SIGINT; Exit].

(** The whole file, top to bottom. *)
Definition startup (env : Environment) : Process :=
  registerExitHandlers
    (listen env
       (foldl (λ p m, use m p) (connectStep env (setStrictQuery initialProcess)) middleware)).

(** The file as it runs before any promise settles: the statements
    without the outcome of the connection. *)
Definition startupSync (env : Environment) : Process :=
  registerExitHandlers
    (listen env (foldl (λ p m, use m p) (setStrictQuery initialProcess) middleware)).

(** ** The environment of the process *)

(** [process.env]: the variables in the order they were set. *)
Abbreviation ProcessEnv := (list (string * string)).

(** [process.env.NAME] *)
Definition getenv (name : string) (penv : ProcessEnv) : option string :=
  snd <$> List.find (λ kv, bool_decide (kv.1 = name)) penv.

(** [configDotenv()] (line 21): the variables the file [.env] defines,
    when there is such a file, are added to [process.env]; a variable
    that is set already keeps its value. *)
Definition configDotenv (dotenv : option ProcessEnv) (penv : ProcessEnv) : ProcessEnv :=
  penv ++ filter (λ kv, getenv kv.1 penv = None) (default [] dotenv).

(** What the file reads of [process.env]. *)
Definition environmentOf (penv : ProcessEnv) (connect : option string → Promise ())
  : Environment :=
  mkEnvironment (getenv "CONNECTION_STRING" penv) (getenv "PORT" penv) connect.

(** The file run in a process: [.env] is read before anything looks at
    [process.env]. *)
Definition main (dotenv : option ProcessEnv) (penv : ProcessEnv)
    (connect : option string → Promise ()) : Process :=
  startup (environmentOf (configDotenv dotenv penv) connect).

(** ** Events *)

(** [mongoose.connection.close()] *)
Definition runListener (l : Listener) (p : Process) : Process :=
  match l with
  | CloseConnection =>
      mkProcess (strictQuery p) Closed (errorLog p) (unhandledRejections p) (stack p)
        (listening p) (listeners p) (exited p)
  end.

Definition listenersOf (ev : Event) (p : Process) : list Listener :=
  snd <$> List.filter (λ el, bool_decide (el.1 = ev)) (listeners p).

Definition runListeners (ev : Event) (p : Process) : Process :=
  foldl (λ p l, runListener l p) p (listenersOf ev p).

(** The process exits: the listeners of [exit] run, the server stops. *)
Definition exit (p : Process) : Process :=
  let p' := runListeners Exit p in
  mkProcess (strictQuery p') (connection p') (errorLog p') (unhandledRejections p')
    (stack p') None (listeners p') true.

(** The signal [SIGINT] arrives.  Without a listener the default action
    ends the process; with one, the listeners run and nothing else
    happens. *)
Definition sigint (p : Process) : Process :=
  match listenersOf SIGINT p with
  | [] => exit p
  | _ => runListeners SIGINT p
  end.

(** What Node does with a rejection nobody handles, in a process without
    a listener of [unhandledRejection], as this one: up to version 14 it
    prints a warning and goes on; since version 15 it raises the rejection
    as an uncaught exception, which ends the process.  The version the
    application runs on is not part of the sources. *)
Inductive RejectionMode := WarnOnRejection | ThrowOnRejection.

Definition afterRejections (mode : RejectionMode) (p : Process) : Process :=
  match mode, unhandledRejections p with
  | ThrowOnRejection, _ :: _ => exit p
  | _, _ => p
  end.

(** ** Mounted routers *)

(** The rest of [s] after the prefix [pre]. *)
Fixpoint stripPrefix (pre s : string) : option string :=
  match pre, s with
  | "", _ => Some s
  | String a pre', String b s' => if Ascii.eqb a b then stripPrefix pre' s' else None
  | _, "" => None
  end.

(** The path a router mounted on [prefix] sees, when the request is for
    it: the prefix ends at a segment boundary, and what remains starts
    with [/]. *)
Definition mountedPath (prefix path : string) : option string :=
  if bool_decide (prefix = "/") then Some path
  else match stripPrefix prefix path with
       | Some "" => Some "/"
       | Some (String a rest) =>
           if Ascii.eqb a "/" then Some (String a rest) else None
       | None => None
       end.

(** The routers a request for [path] is offered to, in order, with the
    path each of them sees. *)
Definition routersFor (ms : list Middleware) (path : string) : list (RouterName * string) :=
  omap (λ m, match m with
             | Mount prefix router => (λ p, (router, p)) <$> mountedPath prefix path
             | _ => None
             end) ms.

(** ** Lemmas *)

Section app_lemmas.
Implicit Types (env : Environment) (p : Process) (path : string).

(** A call of an [async] function completes normally, whatever its body
    does. *)
Lemma callAsync_Normal {A} (body : Completion A) : ∃ promise, callAsync body = Normal promise.
Proof. unfold callAsync. eauto. Qed.

Lemma connectStep_dropPromise env p :
  connectStep env p = dropPromise (connectResult env) p.
Proof.
  unfold connectStep, connectToDatabase, connectToDatabase_body.
  by destruct (connectResult env).
Qed.

Lemma orElse_truthy a b : orElse a b ≠ "" ∨ b = "".
Proof. destruct a as [[|]|]; simpl; auto; by destruct b; auto. Qed.

(** The process after the file has run. *)
Lemma startup_eq env :
  startup env
  = mkProcess (Some false)
      (match connectResult env with Fulfilled _ => Connected | Rejected _ => ConnectFailed end)
      []
      (match connectResult env with Fulfilled _ => [] | Rejected e => [e] end)
      middleware (Some (orElse (PORT env) "3000"))
      [(SIGINT, CloseConnection); (Exit, CloseConnection)] false.
Proof. unfold startup. rewrite connectStep_dropPromise. by destruct (connectResult env). Qed.

(** The promise of the connection may settle after the file has run:
    the process is the same. *)
Lemma startup_settles_later env :
  startup env = dropPromise (connectResult env) (startupSync env).
Proof. rewrite startup_eq. unfold startupSync. by destruct (connectResult env). Qed.

Lemma getenv_app name penv penv' :
  getenv name (penv ++ penv') = from_option Some (getenv name penv') (getenv name penv).
Proof.
  unfold getenv. induction penv as [|[k v] penv IH]; [done|]. simpl.
  by destruct (bool_decide (k = name)).
Qed.

Lemma getenv_filter name (P : string * string → Prop) `{∀ kv, Decision (P kv)} penv :
  (∀ v, P (name, v)) → getenv name (filter P penv) = getenv name penv.
Proof.
  intros Hn. unfold getenv. induction penv as [|[k v] penv IH]; [done|].
  destruct (decide (k = name)) as [->|Hne].
  - rewrite filter_cons_True by done. simpl. by rewrite bool_decide_eq_true_2.
  - simpl. rewrite (bool_decide_eq_false_2 _ Hne).
    destruct (decide (P (k, v))); [rewrite filter_cons_True by done|by rewrite filter_cons_False].
    simpl. by rewrite (bool_decide_eq_false_2 _ Hne).
Qed.

(** A variable after [configDotenv()]: the value it had, and the value
    of [.env] when it had none. *)
Lemma getenv_configDotenv name dotenv penv :
  getenv name (configDotenv dotenv penv)
  = from_option Some (dotenv ≫= getenv name) (getenv name penv).
Proof.
  unfold configDotenv. rewrite getenv_app. destruct (getenv name penv) eqn:Hp; [done|].
  cbn [from_option].
  rewrite getenv_filter by done. by destruct dotenv.
Qed.

Lemma stripPrefix_app pre s : stripPrefix pre (pre +:+ s) = Some s.
Proof. induction pre as [|a pre IH]; simpl; [done|]. by rewrite Ascii.eqb_refl. Qed.

Lemma mountedPath_root path : mountedPath "/" path = Some path.
Proof. done. Qed.

End app_lemmas.

(** ** Theorems on the entry point *)

Section app_theorems.
Implicit Types (env : Environment) (p : Process) (path : string).

(** C39: a failed connection is never reported.  The [catch] clause around
    [connectToDatabase()] cannot run, because the call of an [async]
    function does not throw: whatever [mongoose.connect] does, nothing is
    logged; when it rejects, the rejection is handled by nobody and the
    server listens all the same. *)
Theorem connect_failure_unreported env :
  errorLog (startup env) = [] ∧
  is_Some (listening (startup env)) ∧
  ∀ e, connectResult env = Rejected e →
       unhandledRejections (startup env) = [e] ∧ connection (startup env) = ConnectFailed.
Proof.
  rewrite startup_eq. split_and!; [done|by eexists|]. by intros e ->.
Qed.

(** C40: [SIGINT] no longer ends the process.  The listener the file
    installs replaces the default action of the signal: after [SIGINT] the
    connection is closed, and the process has not exited and still
    listens.  Without the listener the signal would end the process. *)
Theorem sigint_keeps_listening env :
  let p := sigint (startup env) in
  connection p = Closed ∧ exited p = false ∧ listening p = listening (startup env) ∧
  exited (sigint (listen env initialProcess)) = true.
Proof. rewrite startup_eq. done. Qed.

(** On a Node that throws on unhandled rejections a failed connection
    ends the process: the listener of [exit] closes the connection, the
    server stops, and the application itself has logged nothing.  On a
    Node that warns, and whenever the connection succeeds, the process
    stays as the file left it. *)
Theorem connect_failure_ends_process env e :
  connectResult env = Rejected e →
  let p := afterRejections ThrowOnRejection (startup env) in
  exited p = true ∧ listening p = None ∧ connection p = Closed ∧ errorLog p = [] ∧
  afterRejections WarnOnRejection (startup env) = startup env.
Proof. intros He. rewrite startup_eq, He. done. Qed.

Theorem connect_success_keeps_process env mode :
  connectResult env = Fulfilled () → afterRejections mode (startup env) = startup env.
Proof. intros He. rewrite startup_eq, He. by destruct mode. Qed.

(** The server listens on [PORT] when the variable is set and not
    empty, and on 3000 otherwise; the middleware are installed in the
    order of the file, so that every request is offered to the resource
    router first, under its full path, also when it is addressed to
    [/auth]. *)
Theorem startup_spec env path :
  listening (startup env) = Some (orElse (PORT env) "3000") ∧
  stack (startup env) = middleware ∧
  head (routersFor (stack (startup env)) path) = Some (ResourceRouter, path) ∧
  routersFor (stack (startup env)) ("/auth" +:+ "/" +:+ path)
  = [(ResourceRouter, "/auth" +:+ "/" +:+ path); (AuthRouter, "/" +:+ path)].
Proof. rewrite startup_eq. done. Qed.

(** The variables of the process come before those of [.env].  The
    server listens on the [PORT] of the process when it is set and not
    empty, on the [PORT] of [.env] when the process has none, and on 3000
    otherwise; a [PORT] that is set and empty hides the one of [.env].
    The connection is attempted with the [CONNECTION_STRING] of the
    process, or else of [.env], and with [undefined] when there is
    neither. *)
Theorem dotenv_precedence dotenv penv connect :
  let p := main dotenv penv connect in
  let fromFile name := dotenv ≫= getenv name in
  (∀ port, getenv "PORT" penv = Some port →
     listening p = Some (orElse (Some port) "3000")) ∧
  (getenv "PORT" penv = None → listening p = Some (orElse (fromFile "PORT") "3000")) ∧
  (getenv "PORT" penv = Some "" → listening p = Some "3000") ∧
  connectResult (environmentOf (configDotenv dotenv penv) connect)
  = connect (from_option Some (fromFile "CONNECTION_STRING")
               (getenv "CONNECTION_STRING" penv)).
Proof.
  intros p fromFile. unfold p, main. rewrite startup_eq.
  unfold connectResult, environmentOf. cbn [listening PORT CONNECTION_STRING mongooseConnect].
  rewrite !getenv_configDotenv. split_and!; [by intros port ->|by intros ->..|done].
Qed.

End app_theorems.

Lemma connect_failure_unreported_witness :
  let env := mkEnvironment None None (λ _, Rejected "MongooseError") in
  unhandledRejections (startup env) = ["MongooseError"] ∧
  connection (startup env) = ConnectFailed.
Proof.
  exact (proj2 (proj2 (connect_failure_unreported
    (mkEnvironment None None (λ _, Rejected "MongooseError")))) "MongooseError" eq_refl).
Defined.

Example dotenv_precedence_example :
  let connect : option string → Promise () := λ uri,
    if uri is Some _ then Fulfilled () else Rejected "MongooseError" in
  let dotenv := Some [("PORT", "8080"); ("CONNECTION_STRING", "mongodb://localhost/blog")] in
  listening (main dotenv [] connect) = Some "8080" ∧
  listening (main dotenv [("PORT", "5000")] connect) = Some "5000" ∧
  listening (main dotenv [("PORT", "")] connect) = Some "3000" ∧
  connection (main dotenv [] connect) = Connected ∧
  connection (main None [] connect) = ConnectFailed.
Proof. done. Qed.
